(* ===== verification/_CoqProject ===== *)
-Q . S2P
Prelude.v
CString.v
Printf.v
BigNum.v
BigNumSpec.v
BigNumMul.v
BigNumConv.v
Des.v
DesSpec.v
DesProof.v
DesCorrect.v
HttpUtil.v
HttpUtilSpec.v
DtParser.v
DtSpec.v
DtCorrect.v
Posix.v
HttpServer.v
HttpServerSpec.v
HttpServerProps.v
Crc16.v
Sort.v
SortSpec.v
Primes.v
Rsa.v
RsaSpec.v
Tetris.v
TetrisSpec.v
PrimeTable.v
BigCpp.v
BigCppSpec.v
Paillier.v
PaillierSpec.v
BigCppProps.v
BigDiv.v
TcpConcurrent.v
TcpConcurrentSpec.v
Sockets.v
SocketsSpec.v
Numbers.v
NumbersSpec.v
GetData.v
Services.v
ServicesSpec.v
Widgets.v
WidgetsSpec.v
Kafka.v
KafkaSpec.v
Mysql.v
MysqlSpec.v
WebClient.v
WebClientSpec.v
Gtk.v
GtkButtons.v
GtkLayout.v
GtkControls.v
GtkCalendar.v
GtkSpec.v
GtkSessions.v
X11Window.v
StructCode.v
Exercises.v
OpenSsl.v
