(* ===== verification/Prelude.v ===== *)
(** * The C programs of this repository, modelled and verified

    The repository collects independent C and C++ programs under [src/cpp]:
    ciphers and number theory, two libraries of big numbers, an HTTP server and
    client, a parser of meter reports, the evaluation of Tetris boards, clients
    and servers on sockets, clients of MySQL, Kafka, MQTT, Redis and ODBC, and
    small programs on numbers, sorting and windows.  This library translates them
    into executable functions and proves what they compute, and where they leave
    the defined behaviour of C.

    ** How C is modelled

    - A function that can fault returns [res]: [Ok] or the fault ([OutOfBounds],
      [Uninitialised], [SignedOverflow], [DivByZero], [NullPointer], ...).  The
      constructor [OutOfFuel] is the one that is not C's: a loop that has not ended.
    - An [int] is a [Z] whose operations are checked ([chk_int]); unsigned
      arithmetic wraps ([wrap_u32], [wrap_u64], ...).
    - A block of memory is a list of cells whose accesses are checked ([load],
      [store]); the cells of fresh memory are options ([load_init]).  A pointer into
      a block is the list from there on or an offset.  The functions of string.h are
      in [CString], buffers for system calls in [Posix].
    - Static variables and structures are records that the functions thread.
    - Output is a list of [output] in the result: [PutInt] for %d, [PutStr] for
      literal text, [PutChars] for %s and %c.
    - Loops are [for_range], [for_down], [while] and [iter] (this file), with the
      rules by which their bodies are verified.
    - The operating system and third-party libraries are arguments: what each call
      returns, as a function of the number of the call or as a list.  Four widgets of
      GTK (calendar, progress bar, notebook, status bar) are classes with the laws
      that its documentation gives, instantiated in the witnesses; for the rest a
      program is the sequence of its calls of GTK ([Gtk]), and what the library does
      with them is left open.

    ** Files

    Every program has a file of definitions, and a file of specifications and
    proofs unless it is small.

    - [Prelude], [CString], [Posix]: the above, with the shared lemmas, the hint
      databases [cmem] and [cmem_rw] and the tactics [mstep] and [minv].
    - [BigNum] / [BigNumSpec], [BigNumMul], [BigNumConv]: algorithm/big_num.c,
      decimal numbers on the heap.  [wf] is the invariant, [value] the integer.
    - [Des] / [DesSpec], [DesProof], [DesCorrect]: algorithm/3des.c.  [DesSpec] is
      the reference cipher on bit lists; [encrypt] and [decrypt] refine it.
    - [HttpUtil] / [HttpUtilSpec]: http/util.c; [HttpServer] / [HttpServerSpec],
      [HttpServerProps]: http/dispatcher.c, server.c, http.c, peer.c, client.c and
      test.c.  The server hands each request to the scanners of util.c; the client
      builds requests that the scanners read.  Server threads share the descriptor
      through one variable, which is a step relation there.
    - [DtParser] / [DtSpec], [DtCorrect]: dtprs/dtparser.c (and its copy in http/).
    - [Crc16]: algorithm/crc16_xmodem.c.  [Sort] / [SortSpec]: algorithm/algorithm.c
      and the generator of random_xid.c.  [Primes]: algorithm/isprime.c.
    - [Rsa] / [RsaSpec]: algorithm/rsa_demo.c, rsa_algorithm.c and rsa_deploy.c.
    - [Tetris] / [TetrisSpec]: test/eipd.c, util.c and config.c.
    - [BigCpp] / [BigCppSpec]: the class of BigNum.cpp, parametric in the width of
      [unsigned long]; [Paillier] / [PaillierSpec]: its random numbers, primality
      test, modular power, Euclid's algorithms and [main]; [PrimeTable]: its table;
      [BigCppProps]: the properties of both; [BigDiv]: the division by several
      digits.
    - [TcpConcurrent] / [TcpConcurrentSpec]: tcp_concurrent.cc, the wrappers of read
      and write and the forking server.  [Sockets] / [SocketsSpec]: tcp_server.c,
      tcp_client.c, uni_sock_srv.c, uni_sock_cli.c and ipc/pipe_test.c.
    - [WebClient] / [WebClientSpec]: httpClient.c; [GetData]: http.c.
    - [Mysql] / [MysqlSpec]: mysql/dbpool.c and crud.c.  [Kafka] / [KafkaSpec]:
      kfk/consumer.c (kfk_test.c is a copy) and producer.c.  [Services] /
      [ServicesSpec]: mqtt/subscribe.c and publish.c, redis_test.c, odbc/kwdb_demo.c.
    - [Numbers] / [NumbersSpec]: double.c, set_jump_exception.c, algorithm/get_root.c.
    - [Widgets] / [WidgetsSpec]: the callbacks of gtk/gtk_calendar.c and
      gtk_progress_bar.c, over widgets that keep what they are told.
    - [Gtk]: calls, programs, the tree of widgets; [GtkButtons], [GtkLayout],
      [GtkControls], [GtkCalendar]: the 33 programs gtk/gtk_*.c with windows that
      compile, a definition per function, and the callbacks of gtk_spin_button.c,
      which does not; [GtkSpec]: what all of them keep; [GtkSessions]:
      single ones, over their arguments or any clicks.  [X11Window]:
      gtk/x11_window.c.
    - [StructCode]: dtprs/ctype_code.c and libtest.c, with the layout of structures
      and a byte memory; [OpenSsl]: algorithm/rsa_test.c; [Exercises]: test_atof.c,
      endian_test.c, stdin_test.c, forkTest.c, returnline.c, gtk_combo_box.c;
      [Printf]: %f and atof of the standard library, which these use.

    ** What is shown

    - Refinement: DES refines a reference cipher and inverts itself; the class
      [BigNum] computes integer sums, products and comparisons; the checksum is the
      remainder of polynomial division; the scanners, the report parser and the
      board features equal list specifications.
    - Invariants: well-formed numbers stay so under every operator; what clients of
      the connection pool hold is theirs alone; the calendar and the progress bar
      keep their state over any sequence of signals; the windows are trees that are
      shown in full before the main loop, and closing them ends the program; what
      the threads of the HTTP server serve was stored by accept.
    - Round trips: DES, RSA, printing and reading of numbers, board matrices, bytes
      and hexadecimal text, requests built by the client and read by the server, the
      bytes of structures and the paths into them.
    - Termination and liveness: the sorts, the trial division, the factorial;
      [Writen] and the Kafka producer deliver everything when the kernel or the
      library makes progress; which loops never end.
    - Errors and bounds: the inputs from which the programs leave defined
      behaviour, as theorems of their own or as the other side of a condition.  The
      borrow that [BigNum] subtraction drops, the descriptor race of the HTTP
      server, the poll of an empty set in http.c are of that kind.

    ** Fuel

    [OutOfFuel] never stands for a result: theorems say how much fuel gives the
    result, or that no fuel does.  Loops over an array or a string have the length
    of the array as fuel inside the definitions, and the theorems show that it does
    not run out; [q_sort] has 11 for its ten numbers, Euclid's algorithm 66 for
    32-bit numbers, [isprime_main] 25408, the last number it looks at.  Loops that
    depend on random numbers or on the network have the fuel as a parameter, over
    which the theorems quantify; the long division of [BigNum] ends within
    [long_fuel] turns, three for each bit of the longest number.

    ** Not modelled

    - [addsub] and the operators of [BigCpp] are proved for digits of 32 bits; the
      long division (divisors of several digits) is characterised for operands of
      the same sign and runs in which no subtraction loses a borrow, and nothing is
      said of its result when one does.
    - Allocation failure (but where a program tests for it), the numeric values of
      addresses, and time stamps in logs; in double.c and the widgets the formatting
      of floating-point numbers is an argument.
    - What GTK does with the calls that it gets: sizes, drawing, the emission of
      signals.
    - Signals that reach the Kafka consumer after its polling loop, and the
      lifetimes of the variable [cfd] of the HTTP server, which is a new one in every
      turn of the loop but is taken to stay in its place.
    - test/context.c and the [main] of gtk_spin_button.c, which do not compile; opencv.cpp and the JNI binding, which
      only call a library; draw_sin.c, whose output is that of asin; elips.c, which
      reads variables that were never set; exercises of a few lines that show a
      feature of the language ([tutorial], [ar], char_test.c and the like).
    - The programs in Java and Python. *)
From stdpp Require Export base list numbers option.
From stdpp Require Export strings.
From Stdlib Require Export ZArith Lia.
#[global] Open Scope Z_scope.

(** ** Faults and the error monad *)

(** The ways in which a C execution leaves the defined behaviour of the
    language, plus the exhaustion of the fuel of a bounded loop. *)
Inductive fault :=
| OutOfBounds
| Uninitialised
| SignedOverflow
| DivByZero
| NoReturnValue
| DanglingPointer
| NullPointer
| BadShift
| Overlapping
| OutOfFuel.

#[export] Instance fault_eq_dec : EqDecision fault.
Proof. solve_decision. Defined.

Inductive res (A : Type) :=
| Ok (a : A)
| Err (e : fault).
Arguments Ok {A} a.
Arguments Err {A} e.

#[export] Instance res_ret : MRet res := @Ok.
#[export] Instance res_bind : MBind res := fun A B f m =>
  match m with Ok a => f a | Err e => Err e end.

#[export] Instance res_eq_dec `{EqDecision A} : EqDecision (res A).
Proof. solve_decision. Defined.

Definition is_ok {A} (r : res A) : bool :=
  match r with Ok _ => true | Err _ => false end.

Lemma bind_ok {A B} (f : A → res B) (a : A) : (Ok a ≫= f) = f a.
Proof. reflexivity. Qed.

Lemma bind_err {A B} (f : A → res B) (e : fault) : (Err e ≫= f) = Err e.
Proof. reflexivity. Qed.

Lemma bind_ok_inv {A B} (m : res A) (f : A → res B) (b : B) :
  (m ≫= f) = Ok b → ∃ a, m = Ok a ∧ f a = Ok b.
Proof. destruct m; intros H; [eauto | discriminate]. Qed.

Lemma bind_assoc {A B C} (m : res A) (f : A → res B) (g : B → res C) :
  ((m ≫= f) ≫= g) = (m ≫= λ a, f a ≫= g).
Proof. by destruct m. Qed.

Lemma bind_ext {A B} (m : res A) (f g : A → res B) :
  (∀ a, m = Ok a → f a = g a) → (m ≫= f) = (m ≫= g).
Proof. destruct m; intros H; cbn; auto. Qed.

(** ** Machine integers *)

Definition INT_MIN : Z := - 2 ^ 31.
Definition INT_MAX : Z := 2 ^ 31 - 1.

(** Unsigned arithmetic wraps; the conversion to a signed type takes the
    representative of the same residue. *)
Definition wrap_u8 (z : Z) : Z := z mod 2 ^ 8.
Definition wrap_u16 (z : Z) : Z := z mod 2 ^ 16.
Definition wrap_u32 (z : Z) : Z := z mod 2 ^ 32.
Definition wrap_u64 (z : Z) : Z := z mod 2 ^ 64.
Definition wrap_i8 (z : Z) : Z := (z + 2 ^ 7) mod 2 ^ 8 - 2 ^ 7.
Definition wrap_i32 (z : Z) : Z := (z + 2 ^ 31) mod 2 ^ 32 - 2 ^ 31.

(** Signed [int] arithmetic: an unrepresentable result is a fault. *)
Definition chk_int (z : Z) : res Z :=
  if (INT_MIN <=? z) && (z <=? INT_MAX) then Ok z else Err SignedOverflow.

Lemma chk_int_ok z : INT_MIN ≤ z ≤ INT_MAX → chk_int z = Ok z.
Proof.
  intros [H1 H2]. unfold chk_int.
  apply Z.leb_le in H1, H2. by rewrite H1, H2.
Qed.

Lemma chk_int_overflow z : (z < INT_MIN ∨ INT_MAX < z) → chk_int z = Err SignedOverflow.
Proof.
  intros H. unfold chk_int. destruct H as [H|H].
  - apply Z.leb_gt in H. by rewrite H.
  - apply Z.leb_gt in H. by rewrite H, andb_false_r.
Qed.

Lemma wrap_u32_id z : 0 ≤ z < 2 ^ 32 → wrap_u32 z = z.
Proof. intros H. by apply Z.mod_small. Qed.

Lemma wrap_u32_range z : 0 ≤ wrap_u32 z < 2 ^ 32.
Proof. by apply Z.mod_pos_bound. Qed.

Lemma wrap_i8_id z : - 2 ^ 7 ≤ z < 2 ^ 7 → wrap_i8 z = z.
Proof. intros H. unfold wrap_i8. rewrite Z.mod_small; lia. Qed.

(** [%] and [/] of C truncate towards zero and fault on a zero divisor. *)
Definition c_div (a b : Z) : res Z := if b =? 0 then Err DivByZero else Ok (Z.quot a b).
Definition c_mod (a b : Z) : res Z := if b =? 0 then Err DivByZero else Ok (Z.rem a b).

#[global] Arguments c_div : simpl never.
#[global] Arguments c_mod : simpl never.
#[global] Arguments chk_int : simpl never.

Lemma c_div_nonneg a b : 0 ≤ a → 0 < b → c_div a b = Ok (a / b).
Proof.
  intros Ha Hb. unfold c_div. destruct (Z.eqb_spec b 0); [lia|].
  by rewrite Z.quot_div_nonneg.
Qed.

Lemma c_mod_nonneg a b : 0 ≤ a → 0 < b → c_mod a b = Ok (a mod b).
Proof.
  intros Ha Hb. unfold c_mod. destruct (Z.eqb_spec b 0); [lia|].
  by rewrite Z.rem_mod_nonneg.
Qed.

(** ** Memory blocks *)

(** A block of memory is a list of cells; every access is checked. *)
Definition load {A} (m : list A) (i : Z) : res A :=
  if i <? 0 then Err OutOfBounds
  else match m !! Z.to_nat i with Some x => Ok x | None => Err OutOfBounds end.

Definition store {A} (m : list A) (i : Z) (x : A) : res (list A) :=
  if (0 <=? i) && (i <? Z.of_nat (length m))
  then Ok (<[Z.to_nat i := x]> m) else Err OutOfBounds.

(** Cells of a block that malloc or realloc returned: [None] until written. *)
Abbreviation cell := (option Z).

Definition load_init (m : list cell) (i : Z) : res Z :=
  c ← load m i;
  match c with Some v => Ok v | None => Err Uninitialised end.

Definition store_init (m : list cell) (i v : Z) : res (list cell) := store m i (Some v).

Lemma load_ok {A} (m : list A) i x :
  0 ≤ i → m !! Z.to_nat i = Some x → load m i = Ok x.
Proof.
  intros Hi Hx. unfold load. destruct (Z.ltb_spec i 0); [lia|]. by rewrite Hx.
Qed.

Lemma load_ok_inv {A} (m : list A) i x :
  load m i = Ok x → 0 ≤ i ∧ m !! Z.to_nat i = Some x.
Proof.
  unfold load. destruct (Z.ltb_spec i 0); [done|].
  destruct (m !! Z.to_nat i) eqn:E; intros; simplify_eq. done.
Qed.

Lemma load_oob {A} (m : list A) i :
  i < 0 ∨ Z.of_nat (length m) ≤ i → load m i = Err OutOfBounds.
Proof.
  intros H. unfold load. destruct (Z.ltb_spec i 0); [done|].
  rewrite lookup_ge_None_2; [done|lia].
Qed.

Lemma store_ok {A} (m : list A) i x :
  0 ≤ i < Z.of_nat (length m) → store m i x = Ok (<[Z.to_nat i := x]> m).
Proof.
  intros [H1 H2]. unfold store.
  apply Z.leb_le in H1. apply Z.ltb_lt in H2. by rewrite H1, H2.
Qed.

Lemma store_oob {A} (m : list A) i x :
  i < 0 ∨ Z.of_nat (length m) ≤ i → store m i x = Err OutOfBounds.
Proof.
  intros H. unfold store. destruct (Z.leb_spec 0 i), (Z.ltb_spec i (Z.of_nat (length m)));
    simpl; try done; lia.
Qed.

Lemma store_length {A} (m m' : list A) i x :
  store m i x = Ok m' → length m' = length m.
Proof.
  unfold store. destruct (_ && _); intros; simplify_eq. by rewrite length_insert.
Qed.

Lemma load_init_ok m i v :
  0 ≤ i → m !! Z.to_nat i = Some (Some v) → load_init m i = Ok v.
Proof. intros Hi Hx. unfold load_init. by rewrite (load_ok _ _ _ Hi Hx). Qed.

(** ** Counted loops *)

(** [for (i = a; i < b; i++) body], [n] iterations being left. *)
Fixpoint for_up {St} (n : nat) (i : Z) (body : Z → St → res St) (s : St) : res St :=
  match n with
  | O => Ok s
  | S n' => s' ← body i s; for_up n' (i + 1) body s'
  end.

Definition for_range {St} (a b : Z) (body : Z → St → res St) (s : St) : res St :=
  for_up (Z.to_nat (b - a)) a body s.

(** [for (i = a; i >= b; i--) body] *)
Fixpoint for_dn {St} (n : nat) (i : Z) (body : Z → St → res St) (s : St) : res St :=
  match n with
  | O => Ok s
  | S n' => s' ← body i s; for_dn n' (i - 1) body s'
  end.

Definition for_down {St} (a b : Z) (body : Z → St → res St) (s : St) : res St :=
  for_dn (Z.to_nat (a - b + 1)) a body s.

(** [while (cond) body]: the fuel bounds the number of iterations. *)
Fixpoint while {St} (fuel : nat) (cond : St → res bool) (body : St → res St) (s : St)
  : res St :=
  match fuel with
  | O => Err OutOfFuel
  | S fuel' =>
      b ← cond s;
      if (b : bool) then s' ← body s; while fuel' cond body s' else Ok s
  end.

(** A loop whose body goes on ([inl]) or leaves ([inr]). *)
Fixpoint iter {St R} (fuel : nat) (step : St → res (St + R)) (s : St) : res R :=
  match fuel with
  | O => Err OutOfFuel
  | S fuel' =>
      r ← step s;
      match (r : St + R) with inl s' => iter fuel' step s' | inr x => Ok x end
  end.

Section loops.
Context {St : Type}.
Implicit Types (I : Z → St → Prop) (body : Z → St → res St) (s : St).

Lemma for_up_inv I body n a s :
  I a s →
  (∀ i s, a ≤ i < a + Z.of_nat n → I i s → ∃ s', body i s = Ok s' ∧ I (i + 1) s') →
  ∃ s', for_up n a body s = Ok s' ∧ I (a + Z.of_nat n) s'.
Proof.
  revert a s. induction n as [|n IH]; intros a s Hs Hstep; cbn.
  - exists s. split; [done|]. by rewrite Z.add_0_r.
  - destruct (Hstep a s) as (s1 & -> & Hs1); [lia|done|]. cbn.
    destruct (IH (a + 1) s1) as (s' & -> & Hs'); [done| |].
    + intros i s0 Hi Hi0. apply Hstep; [lia|done].
    + exists s'. split; [done|]. by replace (a + Z.of_nat (S n)) with (a + 1 + Z.of_nat n) by lia.
Qed.

(** The rule of the counted loop: an invariant that the body keeps. *)
Lemma for_range_inv I body a b s :
  a ≤ b → I a s →
  (∀ i s, a ≤ i < b → I i s → ∃ s', body i s = Ok s' ∧ I (i + 1) s') →
  ∃ s', for_range a b body s = Ok s' ∧ I b s'.
Proof.
  intros Hab Hs Hstep. unfold for_range.
  destruct (for_up_inv I body (Z.to_nat (b - a)) a s) as (s' & E & H); [done| |].
  - intros i s0 Hi. apply Hstep. lia.
  - exists s'. split; [done|]. by replace b with (a + Z.of_nat (Z.to_nat (b - a))) by lia.
Qed.

(** The rule for a body that either keeps the invariant or raises [e]. *)
Lemma for_up_inv_err I body (e : fault) n a s :
  I a s →
  (∀ i s, a ≤ i < a + Z.of_nat n → I i s →
     (∃ s', body i s = Ok s' ∧ I (i + 1) s') ∨ body i s = Err e) →
  (∃ s', for_up n a body s = Ok s' ∧ I (a + Z.of_nat n) s') ∨ for_up n a body s = Err e.
Proof.
  revert a s. induction n as [|n IH]; intros a s Hs Hstep; cbn.
  - left. exists s. split; [done|]. by rewrite Z.add_0_r.
  - destruct (Hstep a s) as [(s1 & -> & Hs1)| ->]; [lia|done| |by right]. cbn.
    replace (a + Z.of_nat (S n)) with (a + 1 + Z.of_nat n) by lia. apply IH; [done|].
    intros i s0 Hi Hi0. apply Hstep; [lia|done].
Qed.

Lemma for_range_inv_err I body (e : fault) a b s :
  a ≤ b → I a s →
  (∀ i s, a ≤ i < b → I i s →
     (∃ s', body i s = Ok s' ∧ I (i + 1) s') ∨ body i s = Err e) →
  (∃ s', for_range a b body s = Ok s' ∧ I b s') ∨ for_range a b body s = Err e.
Proof.
  intros Hab Hs Hstep. unfold for_range. set (n := Z.to_nat (b - a)).
  replace b with (a + Z.of_nat n) by lia.
  apply for_up_inv_err; [done|]. intros i s0 Hi. apply Hstep. lia.
Qed.

Lemma for_range_empty body a b s : b ≤ a → for_range a b body s = Ok s.
Proof. intros H. unfold for_range. by replace (Z.to_nat (b - a)) with O by lia. Qed.

Lemma for_range_step body a b s :
  a < b → for_range a b body s = (s' ← body a s; for_range (a + 1) b body s').
Proof.
  intros H. unfold for_range.
  replace (Z.to_nat (b - a)) with (S (Z.to_nat (b - (a + 1)))) by lia. done.
Qed.

Lemma for_range_split body a b c s :
  a ≤ b ≤ c → for_range a c body s = (s' ← for_range a b body s; for_range b c body s').
Proof.
  intros Hab. unfold for_range. replace (Z.to_nat (c - a)) with (Z.to_nat (b - a) + Z.to_nat (c - b))%nat by lia.
  assert (b = a + Z.of_nat (Z.to_nat (b - a))) as Eb by lia. generalize (Z.to_nat (c - b)). intros k.
  revert Eb. generalize (Z.to_nat (b - a)). intros n. clear Hab. revert a s.
  induction n as [|n IH]; intros a s Eb; cbn.
  - by replace b with a by lia.
  - destruct (body a s); cbn; [|done]. apply IH. lia.
Qed.

Lemma for_range_ext body body' a b s :
  (∀ i s, a ≤ i < b → body i s = body' i s) →
  for_range a b body s = for_range a b body' s.
Proof.
  unfold for_range. remember (Z.to_nat (b - a)) as n eqn:En.
  revert a s En. induction n as [|n IH]; intros a s En Hb; cbn; [done|].
  rewrite Hb by lia. destruct (body' a s); cbn; [|done].
  apply IH; [lia|]. intros i s' Hi. apply Hb. lia.
Qed.

Lemma for_dn_inv I body n a s :
  I a s →
  (∀ i s, a - Z.of_nat n < i ≤ a → I i s → ∃ s', body i s = Ok s' ∧ I (i - 1) s') →
  ∃ s', for_dn n a body s = Ok s' ∧ I (a - Z.of_nat n) s'.
Proof.
  revert a s. induction n as [|n IH]; intros a s Hs Hstep; cbn.
  - exists s. split; [done|]. by rewrite Z.sub_0_r.
  - destruct (Hstep a s) as (s1 & -> & Hs1); [lia|done|]. cbn.
    destruct (IH (a - 1) s1) as (s' & -> & Hs'); [done| |].
    + intros i s0 Hi Hi0. apply Hstep; [lia|done].
    + exists s'. split; [done|]. by replace (a - Z.of_nat (S n)) with (a - 1 - Z.of_nat n) by lia.
Qed.

Lemma for_down_inv I body a b s :
  b ≤ a + 1 → I a s →
  (∀ i s, b ≤ i ≤ a → I i s → ∃ s', body i s = Ok s' ∧ I (i - 1) s') →
  ∃ s', for_down a b body s = Ok s' ∧ I (b - 1) s'.
Proof.
  intros Hab Hs Hstep. unfold for_down.
  destruct (for_dn_inv I body (Z.to_nat (a - b + 1)) a s) as (s' & E & H); [done| |].
  - intros i s0 Hi. apply Hstep. lia.
  - exists s'. split; [done|].
    by replace (b - 1) with (a - Z.of_nat (Z.to_nat (a - b + 1))) by lia.
Qed.

(** The rule of the bounded while loop: an invariant and a variant that the
    fuel exceeds. *)
Lemma while_inv (P : St → Prop) (cond : St → res bool) (bdy : St → res St)
    (measure : St → nat) fuel s :
  P s → (measure s < fuel)%nat →
  (∀ s, P s → cond s = Ok false ∨
     (cond s = Ok true ∧ ∃ s', bdy s = Ok s' ∧ P s' ∧ (measure s' < measure s)%nat)) →
  ∃ s', while fuel cond bdy s = Ok s' ∧ P s' ∧ cond s' = Ok false.
Proof.
  intros Hs Hf Hstep. revert s Hs Hf.
  induction fuel as [|fuel IH]; intros s Hs Hf; [lia|]. cbn.
  destruct (Hstep s Hs) as [Hc|(Hc & s' & Hb & Hs' & Hm)].
  - rewrite Hc. eauto.
  - rewrite Hc. cbn. rewrite Hb. cbn. apply IH; [done|lia].
Qed.

(** A loop that ends has kept its invariant and its condition is false. *)
Lemma while_ok_inv (P : St → Prop) (cond : St → res bool) (bdy : St → res St) fuel s s' :
  P s → (∀ s s', P s → bdy s = Ok s' → P s') →
  while fuel cond bdy s = Ok s' → P s' ∧ cond s' = Ok false.
Proof.
  intros Hs Hb. revert s Hs. induction fuel as [|fuel IH]; intros s Hs; cbn; [done|].
  destruct (cond s) as [b|] eqn:Hc; cbn; [|done]. destruct b; [|by intros [= <-]].
  destruct (bdy s) as [s1|] eqn:E; cbn; [|done]. apply IH. by apply (Hb s).
Qed.

(** Fuel above a measure that the body decreases does not matter. *)
Lemma iter_fuel {R} (P : St → Prop) (step : St → res (St + R)) (measure : St → nat) f1 f2 s :
  P s → (∀ s s', P s → step s = Ok (inl s') → P s' ∧ (measure s' < measure s)%nat) →
  (measure s < f1)%nat → (measure s < f2)%nat → iter f1 step s = iter f2 step s.
Proof.
  intros Hs Hstep. revert f2 s Hs. induction f1 as [|f1 IH]; intros [|f2] s Hs H1 H2; try lia. cbn.
  destruct (step s) as [[s'|x]|] eqn:E; cbn; [|done..].
  destruct (Hstep s s' Hs E). apply IH; [done|lia..].
Qed.

(** More fuel does not change the result. *)
Lemma iter_mono {R} (step : St → res (St + R)) f f' s r :
  iter f step s = Ok r → (f ≤ f')%nat → iter f' step s = Ok r.
Proof.
  revert f' s. induction f as [|f IH]; intros [|f'] s H Hf; cbn in *; try done; [lia|].
  destruct (step s) as [[s'|x]|]; cbn in *; [|done..]. apply IH; [done|lia].
Qed.

(** One turn. *)
Lemma iter_turn {R} (step : St → res (St + R)) f s s' r :
  step s = Ok (inl s') → iter f step s' = Ok r → iter (S f) step s = Ok r.
Proof. intros H1 H2. cbn. by rewrite H1. Qed.

Lemma iter_exit {R} (step : St → res (St + R)) f s r : step s = Ok (inr r) → iter (S f) step s = Ok r.
Proof. intros H. cbn. by rewrite H. Qed.

(** A loop in which every turn goes on never ends. *)
Lemma iter_diverges {R} (P : St → Prop) (step : St → res (St + R)) f s :
  P s → (∀ s, P s → ∃ s', step s = Ok (inl s') ∧ P s') → iter f step s = Err OutOfFuel.
Proof.
  intros Hs Hstep. revert s Hs. induction f as [|f IH]; intros s Hs; [done|]. cbn.
  destruct (Hstep s Hs) as (s' & -> & Hs'). by apply IH.
Qed.

(** The rule of the loop with exits. *)
Lemma iter_inv {R} (P : St → Prop) (Q : R → Prop) (step : St → res (St + R))
    (measure : St → nat) fuel s :
  P s → (measure s < fuel)%nat →
  (∀ s, P s → (∃ s', step s = Ok (inl s') ∧ P s' ∧ (measure s' < measure s)%nat) ∨
              (∃ x, step s = Ok (inr x) ∧ Q x)) →
  ∃ x, iter fuel step s = Ok x ∧ Q x.
Proof.
  intros Hs Hf Hstep. revert s Hs Hf. induction fuel as [|fuel IH]; intros s Hs Hf; [lia|]. cbn.
  destruct (Hstep s Hs) as [(s' & -> & Hs' & Hm)|(x & -> & Hx)]; cbn; [|eauto].
  apply IH; [done|lia].
Qed.
End loops.

(** ** Counted loops that may return *)

(** [n] iterations from [i]; [Some] is a return. *)
Fixpoint for_ret {R} (n : nat) (i : Z) (body : Z → res (option R)) : res (option R) :=
  match n with
  | O => Ok None
  | S n' => r ← body i; match r with Some x => Ok (Some x) | None => for_ret n' (i + 1) body end
  end.

(** The body goes on below [k] and returns [x] there. *)
Lemma for_ret_stop {R} n i k (x : R) body :
  i ≤ k < i + Z.of_nat n → (∀ j, i ≤ j < k → body j = Ok None) → body k = Ok (Some x) →
  for_ret n i body = Ok (Some x).
Proof.
  revert i. induction n as [|n IH]; intros i Hk Hb Hx; [lia|]. cbn [for_ret].
  destruct (decide (i = k)) as [->|Hne]; [by rewrite Hx|].
  rewrite Hb, bind_ok by lia. apply IH; [lia|intros j Hj; apply Hb; lia|done].
Qed.

Lemma for_ret_end {R} n i (body : Z → res (option R)) :
  (∀ j, i ≤ j < i + Z.of_nat n → body j = Ok None) → for_ret n i body = Ok None.
Proof.
  revert i. induction n as [|n IH]; intros i Hb; [done|]. cbn [for_ret].
  rewrite Hb, bind_ok by lia. apply IH. intros j Hj. apply Hb. lia.
Qed.

Lemma for_ret_cases {R} (Pr : R → Prop) n i body :
  (∀ j, i ≤ j < i + Z.of_nat n → body j = Ok None ∨ ∃ x, body j = Ok (Some x) ∧ Pr x) →
  (for_ret n i body = Ok None ∧ ∀ j, i ≤ j < i + Z.of_nat n → body j = Ok None) ∨
  ∃ x, for_ret n i body = Ok (Some x) ∧ Pr x.
Proof.
  revert i. induction n as [|n IH]; intros i Hb; [left; split; [done|lia]|]. cbn [for_ret].
  destruct (Hb i) as [E|(x & E & Hx)]; [lia| |right; exists x; by rewrite E].
  rewrite E, bind_ok. destruct (IH (i + 1)) as [[E' H]|H]; [intros j Hj; apply Hb; lia| |by right].
  left. split; [done|]. intros j Hj. destruct (decide (j = i)) as [->|]; [done|]. apply H. lia.
Qed.

(** ** Character strings *)

(** The [char] codes of a string literal, without the terminating NUL. *)
Definition codes (s : string) : list Z :=
  (λ c, Z.of_N (Ascii.N_of_ascii c)) <$> String.list_ascii_of_string s.

(** [strlen]: the position of the first NUL of the block. *)
Fixpoint c_strlen (s : list Z) : res Z :=
  match s with
  | [] => Err OutOfBounds
  | c :: s' => if c =? 0 then Ok 0 else n ← c_strlen s'; Ok (n + 1)
  end.

(** The characters of the string that starts the block, for [%s]. *)
Definition c_chars (s : list Z) : res (list Z) :=
  n ← c_strlen s; Ok (take (Z.to_nat n) s).

Lemma c_strlen_bounds s n : c_strlen s = Ok n → 0 ≤ n < Z.of_nat (length s).
Proof.
  revert n. induction s as [|c s IH]; intros n; cbn; [done|].
  destruct (c =? 0); [intros [= <-]; lia|]. destruct (c_strlen s) as [k|]; [|done].
  intros [= <-]. specialize (IH k eq_refl). lia.
Qed.

Lemma c_strlen_ok s : 0 ∈ s → ∃ n, c_strlen s = Ok n.
Proof.
  induction s as [|c s IH]; intros H; [by apply not_elem_of_nil in H|]. cbn.
  destruct (Z.eqb_spec c 0); [by eexists|]. apply elem_of_cons in H as [H|H]; [congruence|].
  destruct (IH H) as [k ->]. by eexists.
Qed.

(** ** Generic list lemmas *)

Lemma lookup_insert_Z {A} (m : list A) (i j : Z) (x : A) :
  0 ≤ i < Z.of_nat (length m) → 0 ≤ j →
  <[Z.to_nat i := x]> m !! Z.to_nat j = if decide (i = j) then Some x else m !! Z.to_nat j.
Proof.
  intros Hi Hj. case_decide as E.
  - subst. apply list_lookup_insert_eq. lia.
  - apply list_lookup_insert_ne. lia.
Qed.

Lemma lookup_lt_Z {A} (m : list A) (i : Z) :
  0 ≤ i < Z.of_nat (length m) → ∃ x, m !! Z.to_nat i = Some x.
Proof. intros H. apply lookup_lt_is_Some_2. lia. Qed.

(** ** Pieces written to the standard output *)

Inductive output :=
| PutInt (z : Z)            (* [%d] *)
| PutStr (s : string)       (* literal text *)
| PutChars (l : list Z).    (* [%s] and [%c]: the character codes *)

#[export] Instance output_eq_dec : EqDecision output.
Proof. solve_decision. Defined.

(** ** Arrays filled from their start *)

Definition seqZ0 (n : Z) : list Z := Z.of_nat <$> seq 0 (Z.to_nat n).

Lemma length_seqZ0 n : length (seqZ0 n) = Z.to_nat n.
Proof. unfold seqZ0. by rewrite length_fmap, length_seq. Qed.

Lemma lookup_seqZ0 n i : (i < Z.to_nat n)%nat → seqZ0 n !! i = Some (Z.of_nat i).
Proof. intros H. unfold seqZ0. rewrite list_lookup_fmap, lookup_seq_lt by done. done. Qed.

(** A loop that writes [f i] at position [i] for [0 <= i < n]; the body may
    read the positions the loop has not reached. *)
Lemma fill_list {A} (f : Z → A) (body : Z → list A → res (list A)) (m : list A) (n : Z) :
  0 ≤ n ≤ Z.of_nat (length m) →
  (∀ i m', 0 ≤ i < n → length m' = length m →
     (∀ j, i ≤ j → m' !! Z.to_nat j = m !! Z.to_nat j) →
     body i m' = store m' i (f i)) →
  for_range 0 n body m = Ok ((f <$> seqZ0 n) ++ drop (Z.to_nat n) m).
Proof.
  intros Hn Hbody.
  destruct (for_range_inv (λ i m', i ≤ n ∧ m' = (f <$> seqZ0 i) ++ drop (Z.to_nat i) m)
    body 0 n m) as (m' & -> & _ & ->); [lia|split; [lia|done]| |done].
  intros i m' Hi [_ ->].
  assert (L : length ((f <$> seqZ0 i) ++ drop (Z.to_nat i) m) = length m).
  { rewrite length_app, length_fmap, length_seqZ0, length_drop. lia. }
  rewrite Hbody; [|done|done|].
  - rewrite store_ok by lia. eexists. split; [reflexivity|]. split; [lia|].
    destruct (lookup_lt_Z m i) as [x Hx]; [lia|].
    rewrite (drop_S _ _ _ Hx), insert_app_r_alt by (rewrite length_fmap, length_seqZ0; lia).
    rewrite length_fmap, length_seqZ0, Nat.sub_diag. cbn [list_insert insert].
    replace (Z.to_nat (i + 1)) with (S (Z.to_nat i)) by lia.
    unfold seqZ0 at 2. replace (Z.to_nat (i + 1)) with (S (Z.to_nat i)) by lia.
    rewrite seq_S, !fmap_app, <- app_assoc. cbn. rewrite Z2Nat.id by lia. done.
  - intros j Hj. rewrite lookup_app_r by (rewrite length_fmap, length_seqZ0; lia).
    rewrite length_fmap, length_seqZ0, lookup_drop. f_equal. lia.
Qed.

(** A loop that writes [f x] at the position of every element [x] of [l]. *)
Lemma map_fill {A B} (f : A → B) (l : list A) (body : Z → list B → res (list B)) (m : list B) :
  (length l ≤ length m)%nat →
  (∀ i x m', 0 ≤ i → l !! Z.to_nat i = Some x → length m' = length m →
     (∀ j, i ≤ j → m' !! Z.to_nat j = m !! Z.to_nat j) → body i m' = store m' i (f x)) →
  for_range 0 (Z.of_nat (length l)) body m = Ok ((f <$> l) ++ drop (length l) m).
Proof.
  intros Lm Hb.
  destruct (for_range_inv (λ i m', i ≤ Z.of_nat (length l) ∧ m' = (f <$> take (Z.to_nat i) l) ++ drop (Z.to_nat i) m)
    body 0 (Z.of_nat (length l)) m) as (m' & -> & _ & ->); [lia|split; [lia|done]| |by rewrite Nat2Z.id, firstn_all].
  intros i m' Hi [_ ->]. destruct (lookup_lt_Z l i Hi) as [x Hx]. destruct (lookup_lt_Z m i) as [y Hy]; [lia|].
  assert (Lt : length (f <$> take (Z.to_nat i) l) = Z.to_nat i) by (rewrite length_fmap, length_take; lia).
  rewrite (Hb i x); [|lia|done|rewrite length_app, Lt, length_drop; lia|].
  - rewrite store_ok by (rewrite length_app, Lt, length_drop; lia). eexists. split; [reflexivity|]. split; [lia|].
    rewrite insert_app_r_alt, Lt, Nat.sub_diag, (drop_S _ _ _ Hy) by lia. cbn [list_insert insert].
    replace (Z.to_nat (i + 1)) with (S (Z.to_nat i)) by lia. by rewrite (take_S_r _ _ _ Hx), fmap_app, <- app_assoc.
  - intros j Hj. rewrite lookup_app_r, Lt, lookup_drop by lia. f_equal. lia.
Qed.

(** ** Sums *)

(** [f a + f (a + 1) + ...], [n] terms. *)
Fixpoint sumf (f : Z → Z) (a : Z) (n : nat) : Z :=
  match n with O => 0 | S n' => f a + sumf f (a + 1) n' end.

Lemma sumf_ext f g a n : (∀ i, a ≤ i < a + Z.of_nat n → f i = g i) → sumf f a n = sumf g a n.
Proof.
  revert a. induction n as [|n IH]; intros a H; [done|]. cbn. rewrite H, IH; [done| |lia]. intros i Hi. apply H. lia.
Qed.

Lemma sumf_bound f a n M : (∀ i, a ≤ i < a + Z.of_nat n → 0 ≤ f i ≤ M) → 0 ≤ sumf f a n ≤ M * Z.of_nat n.
Proof.
  revert a. induction n as [|n IH]; intros a H; [cbn; lia|]. cbn [sumf].
  pose proof (H a ltac:(lia)). pose proof (IH (a + 1) ltac:(intros i Hi; apply H; lia)).
  rewrite Nat2Z.inj_succ, Z.mul_succ_r. lia.
Qed.

Lemma sumf_add f g a n : sumf (λ i, f i + g i) a n = sumf f a n + sumf g a n.
Proof. revert a. induction n as [|n IH]; intros a; [done|]. cbn. rewrite IH. lia. Qed.

Lemma sumf_snoc f a n : sumf f a (S n) = sumf f a n + f (a + Z.of_nat n).
Proof.
  revert a. induction n as [|n IH]; intros a; [cbn; rewrite !Z.add_0_r; lia|].
  change (sumf f a (S (S n))) with (f a + sumf f (a + 1) (S n)). rewrite IH. cbn [sumf].
  replace (a + 1 + Z.of_nat n) with (a + Z.of_nat (S n)) by lia. lia.
Qed.

(** A loop that adds [f i] to a counter. *)
Lemma sum_loop (f : Z → Z) (body : Z → Z → res Z) a b t M :
  a ≤ b → 0 ≤ t → t + M * (b - a) ≤ INT_MAX → (∀ i, a ≤ i < b → 0 ≤ f i ≤ M) →
  (∀ i t, a ≤ i < b → 0 ≤ t → t + M ≤ INT_MAX → body i t = Ok (t + f i)) →
  for_range a b body t = Ok (t + sumf f a (Z.to_nat (b - a))).
Proof.
  intros Hab Ht HM Hf Hb. unfold for_range. remember (Z.to_nat (b - a)) as n eqn:En.
  revert a t Hab Ht HM Hf Hb En. induction n as [|n IH]; intros a t Hab Ht HM Hf Hb En; cbn.
  - by rewrite Z.add_0_r.
  - pose proof (Hf a ltac:(lia)). assert (M * (b - a) = M + M * (b - (a + 1))) by ring.
    assert (0 ≤ M * (b - (a + 1))) by nia.
    rewrite Hb, bind_ok by lia. rewrite IH; [f_equal; lia|lia|lia|lia| | |lia].
    + intros i Hi. apply Hf. lia.
    + intros i t' Hi. apply Hb. lia.
Qed.

(** The cells of an array that has been written everywhere. *)
Definition values (a : list cell) : res (list Z) :=
  foldr (λ c r, l ← r; match c with Some v => Ok (v :: l) | None => Err Uninitialised end) (Ok []) a.

Lemma values_some l : values (Some <$> l) = Ok l.
Proof. induction l as [|x l IH]; [done|]. unfold values in *. cbn. by rewrite IH. Qed.

(** One more bit of a number. *)
Lemma pow2_step x j : 0 ≤ j → x mod 2 ^ (j + 1) = x mod 2 ^ j + Z.b2z (Z.testbit x j) * 2 ^ j.
Proof.
  intros Hj. rewrite Z.pow_add_r, Z.pow_1_r, Z.rem_mul_r by lia. rewrite Z.testbit_spec' by done. lia.
Qed.

(** ** Automation *)

Create HintDb cmem.
Create Rewrite HintDb cmem_rw.
#[export] Hint Rewrite @bind_ok @bind_err @bind_assoc : cmem_rw.
#[export] Hint Rewrite @length_insert @length_app @length_replicate : cmem_rw.
#[export] Hint Resolve store_length : cmem.

(** Step through a monadic goal whose head already is a value. *)
Ltac mstep := repeat (progress (rewrite ?bind_ok, ?bind_err, ?bind_assoc)); cbn beta iota.

(** Invert a chain of binds that ended in [Ok]. *)
Ltac minv H :=
  let a := fresh "v" in let E := fresh "E" in
  apply bind_ok_inv in H; destruct H as (a & E & H).

(** A decidable proposition about concrete data. *)
Ltac in_list := refine (bool_decide_eq_true_1 _ _); vm_compute; reflexivity.
