(* ===== verification/CString.v ===== *)
(** The string functions of the C library that the programs under
    [src/cpp] call, on checked memory blocks, and their lemmas.

    A pointer into a block is the block from that element on ([ptr]).  [zbuf
    cap l] is a buffer of [cap] cells that was cleared and then received the
    characters [l]: the form in which [strcat] and [sprintf] keep it. *)
From S2P Require Import Prelude.

(** ** Library functions *)

(** [s + i] *)
Definition ptr (s : list Z) (i : Z) : res (list Z) :=
  if (0 <=? i) && (i <=? Z.of_nat (length s)) then Ok (drop (Z.to_nat i) s) else Err OutOfBounds.

(** At most [k] characters of the string at [s], up to its NUL. *)
Fixpoint c_prefix (k : nat) (s : list Z) : res (list Z) :=
  match k with
  | O => Ok []
  | S k' =>
      match s with
      | [] => Err OutOfBounds
      | c :: s' => if c =? 0 then Ok [] else l ← c_prefix k' s'; Ok (c :: l)
      end
  end.

(** Put the characters [l] and a NUL from element [n] of [dst] on. *)
Definition put_chars (dst : list Z) (n : Z) (l : list Z) : res (list Z) :=
  if n + Z.of_nat (length l) <? Z.of_nat (length dst)
  then Ok (take (Z.to_nat n) dst ++ l ++ 0 :: drop (Z.to_nat n + length l + 1) dst)
  else Err OutOfBounds.

Definition append_chars (dst l : list Z) : res (list Z) :=
  n ← c_strlen dst; put_chars dst n l.

Definition strcat (dst src : list Z) : res (list Z) := l ← c_chars src; append_chars dst l.
Definition strncat (dst src : list Z) (k : Z) : res (list Z) :=
  l ← c_prefix (Z.to_nat k) src; append_chars dst l.

(** A string literal as the block it denotes. *)
Definition lit (s : string) : list Z := codes s ++ [0].

(** [sprintf]: the formatted characters replace the string. *)
Definition sprintf (dst l : list Z) : res (list Z) := put_chars dst 0 l.

Definition memset (dst : list Z) (v n : Z) : res (list Z) :=
  if (0 <=? n) && (n <=? Z.of_nat (length dst))
  then Ok (replicate (Z.to_nat n) v ++ drop (Z.to_nat n) dst) else Err OutOfBounds.

(** [strncmp(a, b, n)]: the difference at the first position that decides. *)
Fixpoint strncmp (a b : list Z) (n : nat) : res Z :=
  match n with
  | O => Ok 0
  | S n' =>
      x ← load a 0;
      y ← load b 0;
      if negb (x =? y) then Ok (x - y)
      else if x =? 0 then Ok 0 else strncmp (drop 1 a) (drop 1 b) n'
  end.

(** The decimal digits of [%d] and [%ld]. *)
Fixpoint dec_digits (fuel : nat) (z : Z) : list Z :=
  match fuel with
  | O => []
  | S f => if z <? 10 then [48 + z] else dec_digits f (z / 10) ++ [48 + z mod 10]
  end.

Definition dec_chars (z : Z) : list Z :=
  if z <? 0 then 45 :: dec_digits 20 (- z) else dec_digits 20 z.

(** ** Strings without NUL *)

Definition nonul (l : list Z) : Prop := Forall (λ c, c ≠ 0) l.

#[export] Instance nonul_dec l : Decision (nonul l).
Proof. unfold nonul. apply _. Defined.

Lemma nonul_app l m : nonul (l ++ m) ↔ nonul l ∧ nonul m.
Proof. apply Forall_app. Qed.

Lemma nonul_take n l : nonul l → nonul (take n l).
Proof. apply Forall_take. Qed.

Lemma nonul_drop n l : nonul l → nonul (drop n l).
Proof. apply Forall_drop. Qed.

#[export] Hint Resolve nonul_take nonul_drop : cmem.

Ltac nonul := refine (bool_decide_eq_true_1 _ _); vm_compute; reflexivity.

Lemma c_strlen_app l r : nonul l → c_strlen (l ++ 0 :: r) = Ok (Z.of_nat (length l)).
Proof.
  induction 1 as [|c l Hc _ IH]; [done|]. cbn -[Z.of_nat].
  apply Z.eqb_neq in Hc. rewrite Hc, IH. cbn -[Z.of_nat]. f_equal. lia.
Qed.

Lemma c_chars_app l r : nonul l → c_chars (l ++ 0 :: r) = Ok l.
Proof.
  intros H. unfold c_chars. rewrite c_strlen_app, bind_ok by done.
  by rewrite take_app_length' by lia.
Qed.

Lemma c_chars_nonul s l : c_chars s = Ok l → nonul l.
Proof.
  unfold c_chars. intros H. minv H. injection H as <-. revert v E.
  induction s as [|c s IH]; intros n; cbn; [done|].
  destruct (Z.eqb_spec c 0); [intros [= <-]; constructor|]. destruct (c_strlen s) as [k|] eqn:E; [|done].
  intros [= <-]. pose proof (c_strlen_bounds _ _ E).
  replace (Z.to_nat (k + 1)) with (S (Z.to_nat k)) by lia. cbn. constructor; [done|by apply IH].
Qed.

Lemma c_prefix_take k l r : nonul l → (k ≤ length l)%nat → c_prefix k (l ++ r) = Ok (take k l).
Proof.
  intros H. revert k. induction H as [|c l Hc _ IH]; intros k Hk; destruct k as [|k]; cbn in *; try done; [lia|].
  apply Z.eqb_neq in Hc. by rewrite Hc, IH by lia.
Qed.

Lemma c_prefix_all k l r : nonul l → (length l < k)%nat → c_prefix k (l ++ 0 :: r) = Ok l.
Proof.
  intros H. revert k. induction H as [|c l Hc _ IH]; intros k Hk; destruct k as [|k]; cbn in *; try lia; try done.
  apply Z.eqb_neq in Hc. by rewrite Hc, IH by lia.
Qed.

Lemma ptr_ok s i : 0 ≤ i ≤ Z.of_nat (length s) → ptr s i = Ok (drop (Z.to_nat i) s).
Proof.
  intros [H1 H2]. unfold ptr. apply Z.leb_le in H1, H2. by rewrite H1, H2.
Qed.

(** ** Cleared buffers *)

Definition zbuf (cap : nat) (l : list Z) : list Z := l ++ replicate (cap - length l) 0.

Lemma length_zbuf cap l : (length l ≤ cap)%nat → length (zbuf cap l) = cap.
Proof. intros H. unfold zbuf. rewrite length_app, length_replicate. lia. Qed.

Lemma zbuf_cons cap l : (length l < cap)%nat → zbuf cap l = l ++ 0 :: replicate (cap - length l - 1) 0.
Proof.
  intros H. unfold zbuf. f_equal. destruct (cap - length l)%nat as [|n] eqn:E; [lia|].
  cbn. by rewrite Nat.sub_0_r.
Qed.

Lemma c_strlen_zbuf cap l : nonul l → (length l < cap)%nat → c_strlen (zbuf cap l) = Ok (Z.of_nat (length l)).
Proof. intros Hl H. rewrite zbuf_cons by done. by apply c_strlen_app. Qed.

Lemma c_chars_zbuf cap l : nonul l → (length l < cap)%nat → c_chars (zbuf cap l) = Ok l.
Proof. intros Hl H. rewrite zbuf_cons by done. by apply c_chars_app. Qed.

Lemma memset_zbuf buf cap : length buf = cap → memset buf 0 (Z.of_nat cap) = Ok (zbuf cap []).
Proof.
  intros H. unfold memset. rewrite <- H. rewrite Z.leb_refl, andb_true_r.
  replace (0 <=? Z.of_nat (length buf)) with true by (symmetry; apply Z.leb_le; lia).
  rewrite Nat2Z.id, drop_ge, app_nil_r by done. unfold zbuf. cbn. by rewrite Nat.sub_0_r.
Qed.

Lemma append_zbuf cap l m :
  nonul l → (length l < cap)%nat →
  append_chars (zbuf cap l) m =
    if (length l + length m <? cap)%nat then Ok (zbuf cap (l ++ m)) else Err OutOfBounds.
Proof.
  intros Hl H. unfold append_chars. rewrite c_strlen_zbuf, bind_ok by done.
  unfold put_chars. rewrite length_zbuf by lia.
  destruct (Nat.ltb_spec (length l + length m) cap) as [Hlt|Hge].
  - destruct (Z.ltb_spec (Z.of_nat (length l) + Z.of_nat (length m)) (Z.of_nat cap)); [|lia].
    f_equal. rewrite Nat2Z.id. unfold zbuf at 1. rewrite take_app_length.
    rewrite (zbuf_cons cap (l ++ m)) by (rewrite length_app; lia). rewrite <- app_assoc.
    do 3 f_equal. unfold zbuf. rewrite drop_app_ge by lia. rewrite drop_replicate, length_app.
    f_equal. lia.
  - destruct (Z.ltb_spec (Z.of_nat (length l) + Z.of_nat (length m)) (Z.of_nat cap)); [lia|done].
Qed.

Lemma strcat_zbuf cap l s :
  nonul (codes s) → nonul l → (length l < cap)%nat →
  strcat (zbuf cap l) (lit s) =
    if (length l + length (codes s) <? cap)%nat then Ok (zbuf cap (l ++ codes s)) else Err OutOfBounds.
Proof.
  intros Hs Hl H. unfold strcat, lit. rewrite (c_chars_app _ []), bind_ok by done. by apply append_zbuf.
Qed.

Lemma sprintf_zbuf cap l :
  sprintf (zbuf cap []) l = if (length l <? cap)%nat then Ok (zbuf cap l) else Err OutOfBounds.
Proof.
  unfold sprintf, put_chars. rewrite length_zbuf by (cbn; lia).
  destruct (Nat.ltb_spec (length l) cap) as [Hlt|Hge].
  - destruct (Z.ltb_spec (0 + Z.of_nat (length l)) (Z.of_nat cap)); [|lia].
    rewrite (zbuf_cons cap l) by done. unfold zbuf. cbn [app length take Z.to_nat]. rewrite drop_replicate.
    change (Z.to_nat 0) with 0%nat. cbn [take app].
    replace (cap - 0 - (0 + length l + 1))%nat with (cap - length l - 1)%nat by lia. done.
  - destruct (Z.ltb_spec (0 + Z.of_nat (length l)) (Z.of_nat cap)); [lia|done].
Qed.

Lemma load_0 {A} (x : A) l : load (x :: l) 0 = Ok x.
Proof. done. Qed.

(** [strncmp] over the length of [p] decides whether [p] is a prefix. *)
Lemma strncmp_prefix p s r r' :
  nonul p →  nonul s →
  ∃ d, strncmp (s ++ 0 :: r) (p ++ 0 :: r') (length p) = Ok d ∧ (d = 0 ↔ p `prefix_of` s).
Proof.
  intros Hp. revert s. induction Hp as [|c p Hc _ IH]; intros s Hs; cbn [length strncmp].
  { exists 0. split; [done|]. split; [intros _; apply prefix_nil|done]. }
  destruct s as [|x s]; cbn [app].
  - rewrite !load_0, !bind_ok.
    destruct (Z.eqb_spec 0 c); [congruence|]. cbn. eexists. split; [done|]. split; [lia|].
    intros [k Hk]. discriminate.
  - inversion Hs; subst.
    rewrite !load_0, !bind_ok.
    destruct (Z.eqb_spec x c) as [->|Hne]; cbn [negb].
    + apply Z.eqb_neq in Hc. rewrite Hc. destruct (IH s) as (d & E & Hd); [done|].
      exists d. split; [exact E|]. rewrite Hd. split; [by apply prefix_cons|by apply prefix_cons_inv_2].
    + eexists. split; [done|]. split; [lia|]. intros H. by apply prefix_cons_inv_1 in H.
Qed.

(** ** Decimal numbers *)

Lemma dec_digits_range f z : 0 ≤ z → Forall (λ c, 48 ≤ c ≤ 57) (dec_digits f z).
Proof.
  revert z. induction f as [|f IH]; intros z Hz; cbn [dec_digits]; [constructor|].
  destruct (Z.ltb_spec z 10); [repeat constructor; lia|]. apply Forall_app. split.
  - apply IH. apply Z.div_pos; lia.
  - pose proof (Z.mod_pos_bound z 10 ltac:(lia)). repeat constructor; lia.
Qed.

Lemma length_dec_chars z : (length (dec_chars z) ≤ 21)%nat.
Proof.
  assert (E : ∀ f z, (length (dec_digits f z) ≤ f)%nat).
  { induction f as [|f IH]; intros y; cbn [dec_digits]; [done|]. destruct (y <? 10); cbn [length]; [lia|].
    rewrite length_app. specialize (IH (y / 10)). cbn [length]. lia. }
  unfold dec_chars. pose proof (E 20%nat (- z)). pose proof (E 20%nat z). destruct (z <? 0); cbn [length]; lia.
Qed.

Lemma dec_chars_nonul z : nonul (dec_chars z).
Proof.
  assert (G : ∀ z, 0 ≤ z → nonul (dec_digits 20 z)).
  { intros y Hy. eapply Forall_impl; [by apply dec_digits_range|]. cbn. lia. }
  unfold dec_chars. destruct (Z.ltb_spec z 0); [constructor; [done|]|]; apply G; lia.
Qed.

(** ** Loops over a string *)

(** [for (; i < strlen(s); i++)]: the body may move the index, continue
    ([inl]) or break ([inr]); the loop returns its last index and state. *)
Definition for_str_step {St} (s : list Z) (body : Z → St → res (Z * St + Z * St)) (p : Z * St)
  : res (Z * St + Z * St) :=
  n ← c_strlen s;
  if p.1 <? n then
    r ← body p.1 p.2;
    match (r : Z * St + Z * St) with
    | inl (i, st) => mret (inl (i + 1, st))
    | inr q => mret (inr q)
    end
  else mret (inr p).

Definition for_str {St} (s : list Z) (body : Z → St → res (Z * St + Z * St)) (i : Z) (st : St)
  : res (Z * St) := iter (S (length s)) (for_str_step s body) (i, st).

Lemma for_str_eq {St} (body : Z → St → res (Z * St + Z * St)) l r i st :
  nonul l → 0 ≤ i → (∀ i st i' st', 0 ≤ i → body i st = Ok (inl (i', st')) → i ≤ i') →
  for_str (l ++ 0 :: r) body i st =
    if i <? Z.of_nat (length l) then
      x ← body i st;
      match (x : Z * St + Z * St) with
      | inl (i', st') => for_str (l ++ 0 :: r) body (i' + 1) st'
      | inr q => Ok q
      end
    else Ok (i, st).
Proof.
  intros Hl Hi Hb. unfold for_str at 1. cbn [iter].
  assert (Es : ∀ p, for_str_step (l ++ 0 :: r) body p =
    if p.1 <? Z.of_nat (length l) then
      x ← body p.1 p.2;
      match (x : Z * St + Z * St) with
      | inl (i, st) => mret (inl (i + 1, st)) | inr q => mret (inr q) end
    else mret (inr p)).
  { intros p. unfold for_str_step. by rewrite c_strlen_app, bind_ok. }
  rewrite Es. cbn [fst snd]. destruct (Z.ltb_spec i (Z.of_nat (length l))); [|done].
  destruct (body i st) as [[[i' st']|q]|] eqn:E; cbn -[iter]; try done.
  pose proof (Hb _ _ _ _ Hi E). unfold for_str.
  apply (iter_fuel (λ p, 0 ≤ p.1) _ (λ p, Z.to_nat (Z.of_nat (length l) - p.1))); cbn [fst snd].
  - lia.
  - intros [a x] [a' x'] Ha. rewrite Es. cbn [fst snd] in *.
    destruct (Z.ltb_spec a (Z.of_nat (length l))); [|done].
    destruct (body a x) as [[[b y]|q]|] eqn:E'; cbn; try done. intros [= <- <-].
    pose proof (Hb _ _ _ _ Ha E'). lia.
  - rewrite length_app. cbn. lia.
  - rewrite length_app. cbn. lia.
Qed.

(** Writing the next element of a block that is being filled. *)
Lemma store_next (w t : list Z) (c : Z) :
  (length w ≤ length t)%nat →
  store (w ++ drop (length w) t) (Z.of_nat (length w)) c =
    if (length w <? length t)%nat then Ok ((w ++ [c]) ++ drop (length (w ++ [c])) t) else Err OutOfBounds.
Proof.
  intros Hw. assert (L : length (w ++ drop (length w) t) = length t)
    by (rewrite length_app, length_drop; lia).
  destruct (Nat.ltb_spec (length w) (length t)) as [Hlt|Hge].
  - rewrite store_ok by lia. f_equal. rewrite insert_app_r_alt by lia.
    rewrite Nat2Z.id, Nat.sub_diag. destruct (lookup_lt_is_Some_2 t (length w)) as [x Hx]; [done|].
    rewrite (drop_S _ _ _ Hx). cbn. rewrite length_app. cbn. by rewrite Nat.add_1_r, <- app_assoc.
  - apply store_oob. lia.
Qed.

(** The block once [w] and a NUL have been written to it. *)
Definition put_str (w t : list Z) : res (list Z) :=
  if (length w <? length t)%nat then Ok (w ++ 0 :: drop (S (length w)) t) else Err OutOfBounds.

Lemma store_nul (w t : list Z) :
  (length w ≤ length t)%nat →
  store (w ++ drop (length w) t) (Z.of_nat (length w)) 0 = put_str w t.
Proof.
  intros Hw. rewrite store_next by done. unfold put_str.
  destruct (length w <? length t)%nat; [|done]. rewrite length_app, <- app_assoc. cbn.
  by rewrite Nat.add_1_r.
Qed.

Lemma put_str_zbuf w cap : put_str w (zbuf cap []) = if (length w <? cap)%nat then Ok (zbuf cap w) else Err OutOfBounds.
Proof.
  unfold put_str. rewrite length_zbuf by (cbn; lia). destruct (Nat.ltb_spec (length w) cap); [|done].
  rewrite (zbuf_cons cap w) by done. unfold zbuf. cbn [app length]. rewrite drop_replicate.
  by replace (cap - 0 - S (length w))%nat with (cap - length w - 1)%nat by lia.
Qed.

Lemma put_str_oob w t : (length t ≤ length w)%nat → put_str w t = Err OutOfBounds.
Proof. intros H. unfold put_str. destruct (Nat.ltb_spec (length w) (length t)); [lia|done]. Qed.

Lemma put_str_ok w t : (length w < length t)%nat → put_str w t = Ok (w ++ 0 :: drop (S (length w)) t).
Proof. intros H. unfold put_str. destruct (Nat.ltb_spec (length w) (length t)); [done|lia]. Qed.
