(* ===== verification/Printf.v ===== *)
(** Conversions of the standard library between doubles and text, which
    [src/cpp/test_atof.c], [src/cpp/dtprs/ctype_code.c] and others rely on:
    [%f] and the decimal form of [atof]. *)
From Stdlib Require Import SpecFloat.
From S2P Require Import Prelude CString.

(** ** [%f] *)

(** [n / d] to the nearest integer, ties to even. *)
Definition round_half_even (n d : Z) : Z :=
  let q := n / d in
  let r := n mod d in
  if (2 * r <? d) || ((2 * r =? d) && Z.even q) then q else q + 1.

(** The millionths nearest to [m * 2^e]. *)
Definition millionths (m : positive) (e : Z) : Z :=
  if 0 <=? e then Zpos m * 2 ^ e * 10 ^ 6 else round_half_even (Zpos m * 10 ^ 6) (2 ^ (- e)).

(** The last [n] decimal digits of [z]. *)
Fixpoint last_digits (n : nat) (z : Z) : list Z :=
  match n with
  | O => []
  | S n' => last_digits n' (z / 10) ++ [48 + z mod 10]
  end.

Definition sign_chars (s : bool) : list Z := if s then [45] else [].

(** [printf("%f")] without flags; the double has at most 309 digits before the
    point. The sign of a NaN is not represented. *)
Definition fmt_f (x : spec_float) : list Z :=
  match x with
  | S754_zero s => sign_chars s ++ codes "0.000000"
  | S754_infinity s => sign_chars s ++ codes "inf"
  | S754_nan => codes "nan"
  | S754_finite s m e =>
      let k := millionths m e in
      sign_chars s ++ dec_digits 310 (k / 10 ^ 6) ++ 46 :: last_digits 6 (k mod 10 ^ 6)
  end.

(** ** [atof] *)

Definition is_digit (c : Z) : bool := (48 <=? c) && (c <=? 57).

(** The digits in front of [l], and what follows them. *)
Fixpoint span_digits (l : list Z) : list Z * list Z :=
  match l with
  | [] => ([], [])
  | c :: l' => if is_digit c then let '(d, r) := span_digits l' in (c :: d, r) else ([], l)
  end.

Definition digits_of (d : list Z) : Z := foldl (λ n c, 10 * n + (c - 48)) 0 d.

(** The exponent part, when one follows: [e] or [E], a sign, digits. *)
Definition exponent (l : list Z) : Z :=
  match l with
  | c :: l' =>
      if (c =? 101) || (c =? 69) then
        let '(s, l'') := match l' with
                         | 45 :: t => (-1, t)
                         | 43 :: t => (1, t)
                         | _ => (1, l')
                         end in
        s * digits_of (span_digits l'').1
      else 0
  | [] => 0
  end.

(** The double nearest to [n * 10^e]: the powers of ten are exact, the one
    rounding is that of the conversion or of the division. *)
Definition nearest (n e : Z) : spec_float :=
  if 0 <=? e then binary_normalize 53 1024 (n * 10 ^ e) 0 false
  else match n, 10 ^ (- e) with
       | Zpos p, Zpos q => SFdiv 53 1024 (S754_finite false p 0) (S754_finite false q 0)
       | _, _ => S754_zero false
       end.

(** [strtod] on a text in decimal form: the digits, the fraction, the exponent;
    what follows is not looked at, and a text without digits is 0. A sign,
    white space, a hexadecimal form, [inf] and [nan] do not occur in the
    programs. *)
Definition atof (l : list Z) : spec_float :=
  let '(a, l1) := span_digits l in
  let '(b, l2) := match l1 with 46 :: t => span_digits t | _ => ([], l1) end in
  if bool_decide (a ++ b = []) then S754_zero false
  else nearest (digits_of (a ++ b)) (exponent l2 - Z.of_nat (length b)).

(** ** Properties *)

Lemma round_half_even_near n d : 0 < d → 2 * Z.abs (d * round_half_even n d - n) ≤ d.
Proof.
  intros Hd. unfold round_half_even. pose proof (Z.mod_pos_bound n d Hd). pose proof (Z.div_mod n d).
  destruct (Z.ltb_spec (2 * (n mod d)) d); cbn [orb]; [nia|].
  destruct (Z.eqb_spec (2 * (n mod d)) d); cbn [andb]; [destruct (Z.even _)|]; nia.
Qed.

Lemma round_half_even_exact n d : 0 < d → round_half_even (n * d) d = n.
Proof.
  intros Hd. unfold round_half_even. rewrite Z.div_mul, Z.mod_mul by lia.
  by destruct (Z.ltb_spec (2 * 0) d); [|lia].
Qed.

Lemma digits_of_snoc d c : digits_of (d ++ [c]) = 10 * digits_of d + (c - 48).
Proof. unfold digits_of. by rewrite foldl_app. Qed.

Lemma digits_of_last n z : 0 ≤ z → digits_of (last_digits n z) = z mod 10 ^ Z.of_nat n.
Proof.
  revert z. induction n as [|n IH]; intros z Hz; cbn [last_digits]; [by rewrite Z.mod_1_r|].
  rewrite digits_of_snoc, IH by (apply Z.div_pos; lia).
  rewrite Nat2Z.inj_succ, Z.pow_succ_r by lia. rewrite Z.rem_mul_r by lia. lia.
Qed.

Lemma digits_of_dec f z : 0 ≤ z < 10 ^ Z.of_nat f → digits_of (dec_digits f z) = z.
Proof.
  revert z. induction f as [|f IH]; intros z Hz; cbn [dec_digits]; [cbn in *; lia|].
  destruct (Z.ltb_spec z 10); [unfold digits_of; cbn; lia|].
  rewrite digits_of_snoc, IH; [pose proof (Z.div_mod z 10); lia|].
  rewrite Nat2Z.inj_succ, Z.pow_succ_r in Hz by lia.
  split; [apply Z.div_pos; lia|apply Z.div_lt_upper_bound; lia].
Qed.

Lemma is_digit_dec f z : 0 ≤ z → Forall (λ c, is_digit c = true) (dec_digits f z).
Proof.
  revert z. induction f as [|f IH]; intros z Hz; cbn [dec_digits]; [constructor|].
  unfold is_digit. destruct (Z.ltb_spec z 10).
  - constructor; [|constructor]. apply andb_true_intro. lia.
  - apply Forall_app. split; [apply IH; apply Z.div_pos; lia|].
    pose proof (Z.mod_pos_bound z 10). constructor; [|constructor]. apply andb_true_intro. lia.
Qed.

Lemma is_digit_last n z : Forall (λ c, is_digit c = true) (last_digits n z).
Proof.
  revert z. induction n as [|n IH]; intros z; cbn [last_digits]; [constructor|].
  apply Forall_app. split; [apply IH|]. pose proof (Z.mod_pos_bound z 10).
  constructor; [|constructor]. unfold is_digit. apply andb_true_intro. lia.
Qed.

Lemma length_last_digits n z : length (last_digits n z) = n.
Proof. revert z. induction n as [|n IH]; intros z; cbn [last_digits]; [done|]. rewrite length_app, IH. cbn. lia. Qed.

Lemma span_digits_all d l :
  Forall (λ c, is_digit c = true) d → (∀ c t, l = c :: t → is_digit c = false) → span_digits (d ++ l) = (d, l).
Proof.
  intros Hd Hl. induction Hd as [|c d Hc Hd IH]; cbn; [|by rewrite Hc, IH].
  destruct l as [|c t]; [done|]. cbn. by rewrite (Hl c t).
Qed.

Lemma digits_of_app a b : digits_of (a ++ b) = digits_of a * 10 ^ Z.of_nat (length b) + digits_of b.
Proof.
  revert a. induction b as [|c b IH] using rev_ind; intros a; [rewrite app_nil_r; cbn; lia|].
  rewrite app_assoc, !digits_of_snoc, IH, length_app. cbn [length].
  replace (Z.of_nat (length b + 1)) with (Z.succ (Z.of_nat (length b))) by lia.
  rewrite Z.pow_succ_r by lia. lia.
Qed.

Lemma millionths_bounds m e : bounded 53 1024 m e = true → 0 ≤ millionths m e < 10 ^ 316.
Proof.
  intros [Hc He]%andb_prop. apply Z.leb_le in He. cbn in He.
  assert (Zpos m < 2 ^ 53).
  { unfold canonical_mantissa in Hc. apply Z.eqb_eq in Hc. unfold fexp, SpecFloat.emin in Hc.
    assert (Zpos (digits2_pos m) ≤ 53) as Hd by lia.
    apply Z.lt_le_trans with (2 ^ Zpos (digits2_pos m)); [|by apply Z.pow_le_mono_r].
    clear. induction m as [m IH|m IH|]; cbn [digits2_pos]; [| |done];
      rewrite Pos2Z.inj_succ, Z.pow_succ_r by lia; lia. }
  assert (2 ^ 53 * 2 ^ 971 * 10 ^ 6 < 10 ^ 316) by (vm_compute; reflexivity).
  unfold millionths. destruct (Z.leb_spec 0 e).
  - assert (2 ^ e ≤ 2 ^ 971) by (apply Z.pow_le_mono_r; lia). pose proof (Z.pow_pos_nonneg 2 e). split; [lia|].
    apply Z.le_lt_trans with (2 ^ 53 * 2 ^ 971 * 10 ^ 6); [|done].
    apply Z.mul_le_mono_nonneg_r; [lia|]. apply Z.mul_le_mono_nonneg; lia.
  - pose proof (Z.pow_pos_nonneg 2 (- e)).
    pose proof (round_half_even_near (Zpos m * 10 ^ 6) (2 ^ (- e))).
    generalize dependent (round_half_even (Zpos m * 10 ^ 6) (2 ^ (- e))). intros q Hq.
    assert (2 ^ 53 * 10 ^ 6 * 2 < 10 ^ 316) by (vm_compute; reflexivity).
    generalize dependent (10 ^ 316). generalize dependent (2 ^ (- e)). intros d ? ? M ? ?.
    assert (2 * (d * q) ≤ 2 * (Zpos m * 10 ^ 6) + d) by lia.
    split; [nia|]. apply Z.le_lt_trans with (2 ^ 53 * 10 ^ 6 * 2); [nia|done].
Qed.

(** What [%f] prints of a finite double: the sign, the digits of the integer
    part, a point and six digits, which together are the number of millionths
    nearest to the magnitude. *)
Theorem fmt_f_nearest s m e : bounded 53 1024 m e = true →
  ∃ a b, fmt_f (S754_finite s m e) = sign_chars s ++ a ++ 46 :: b ∧ length b = 6%nat ∧
    Forall (λ c, is_digit c = true) (a ++ b) ∧ digits_of (a ++ b) = millionths m e ∧
    (if 0 <=? e then digits_of (a ++ b) = Zpos m * 2 ^ e * 10 ^ 6
     else 2 * Z.abs (2 ^ (- e) * digits_of (a ++ b) - Zpos m * 10 ^ 6) ≤ 2 ^ (- e)).
Proof.
  intros Hb. pose proof (millionths_bounds m e Hb) as Hk.
  assert (digits_of (dec_digits 310 (millionths m e / 10 ^ 6) ++ last_digits 6 (millionths m e mod 10 ^ 6)) = millionths m e) as E.
  { rewrite digits_of_app, length_last_digits, digits_of_last, digits_of_dec.
    - rewrite Z.mod_mod by lia. pose proof (Z.div_mod (millionths m e) (10 ^ 6)). lia.
    - split; [apply Z.div_pos; lia|]. apply Z.div_lt_upper_bound; [lia|].
      replace (10 ^ 6 * 10 ^ Z.of_nat 310) with (10 ^ 316) by (vm_compute; reflexivity). lia.
    - apply Z.mod_pos_bound. lia. }
  eexists _, _. split; [reflexivity|]. split; [apply length_last_digits|]. split; [|split; [exact E|]].
  - apply Forall_app. split; [apply is_digit_dec, Z.div_pos; lia|apply is_digit_last].
  - rewrite E. unfold millionths. destruct (Z.leb_spec 0 e); [done|]. apply round_half_even_near. lia.
Qed.
