(* ===== verification/BigNum.v ===== *)
(** Arbitrary-precision decimal numbers: [src/cpp/algorithm/big_num.c].

    A number is a heap block of [int] cells (one decimal digit per cell, the
    least significant first), the size of the block, and the count of digits
    in use.  Cells that [malloc] and [realloc] hand out are indeterminate
    until they are written, and reading one of them, or leaving the block, is
    a fault of the model.  [malloc] and [realloc] are taken to succeed. *)
From S2P Require Import Prelude.

Record BigNum := mkBigNum {
  arr : list cell;       (* [int *arr] *)
  arrLen : Z;            (* [long long _arrLen] *)
  wei : Z                (* [long long wei] *)
}.

#[export] Instance BigNum_eq_dec : EqDecision BigNum.
Proof. solve_decision. Defined.

(** ** Allocation *)

Definition malloc (n : Z) : list cell := replicate (Z.to_nat n) None.

Definition realloc (m : list cell) (n : Z) : list cell :=
  take (Z.to_nat n) m ++ replicate (Z.to_nat n - length m)%nat None.

Definition get_zero : res BigNum :=
  let arrLen := 2 in
  a ← store_init (malloc arrLen) 0 0;
  mret {| arr := a; arrLen := arrLen; wei := 1 |}.

Definition extend_big_num (b : BigNum) : BigNum :=
  let n := arrLen b * 2 in
  {| arr := realloc (arr b) n; arrLen := n; wei := wei b |}.

(** The loops [while (_arrLen < bound) extend_big_num(..)]: each round
    doubles a positive capacity, so [bound] rounds are enough. *)
Definition extend_while_lt (b : BigNum) (bound : Z) : res BigNum :=
  while (S (Z.to_nat bound)) (λ b, mret (arrLen b <? bound)) (λ b, mret (extend_big_num b)) b.

Definition set_arr (b : BigNum) (a : list cell) : BigNum :=
  {| arr := a; arrLen := arrLen b; wei := wei b |}.

Definition set_wei (b : BigNum) (w : Z) : BigNum :=
  {| arr := arr b; arrLen := arrLen b; wei := w |}.

Definition add_int (a b : Z) : res Z := chk_int (a + b).
Definition mul_int (a b : Z) : res Z := chk_int (a * b).

(** ** Conversions *)

Definition my_pow (n m : Z) : res Z :=
  if m =? 0 then mret 1
  else for_range 1 m (λ _ r, mul_int r n) n.

Fixpoint count_int_bit_loop (fuel : nat) (n m : Z) : res Z :=
  match fuel with
  | O => Err OutOfFuel
  | S fuel' =>
      n ← add_int n 1;
      m ← c_div m 10;
      if 0 <? m then count_int_bit_loop fuel' n m else mret n
  end.

(** An [int] has at most ten decimal digits. *)
Definition count_int_bit (m : Z) : res Z := count_int_bit_loop 10 0 m.

Definition int_to_big_num (m : Z) : res BigNum :=
  n ← count_int_bit m;
  r ← get_zero;
  r ← extend_while_lt r n;
  a ← for_range 1 (n + 1) (λ i a,
        p ← my_pow 10 i;
        x ← c_mod m p;
        q ← my_pow 10 (i - 1);
        dig ← c_div x q;
        store_init a (i - 1) dig) (arr r);
  mret (set_wei (set_arr r a) n).

(** [string] is the list of the character codes before the terminating NUL. *)
Definition str_to_big_num (string : list Z) : res BigNum :=
  let strlen := Z.of_nat (length string) in
  r ← get_zero;
  r ← extend_while_lt r strlen;
  a ← for_range 0 strlen (λ i a,
        c ← load string i;
        store_init a (strlen - i - 1) (c - 48)) (arr r);
  mret (set_wei (set_arr r a) strlen).

(** ** Printing: the sequence of [printf] pieces *)

Definition print_digits_down (b : BigNum) (out : list output) : res (list output) :=
  for_down (wei b - 1) 0 (λ i out, d ← load_init (arr b) i; mret (out ++ [PutInt d])) out.

Definition print_bit_num_ln (b : BigNum) : res (list output) :=
  out ← print_digits_down b [];
  mret (out ++ [PutStr "\n"]).

Definition print_bit_num_obj (b : BigNum) : res (list output) :=
  out ← print_digits_down b [PutStr "big_num="];
  out ← for_range 0 (wei b) (λ i out,
          d ← load_init (arr b) i; mret (out ++ [PutInt d; PutStr " "]))
        (out ++ [PutStr ", int_array=["]);
  mret (out ++ [PutStr "], array_size="; PutInt (arrLen b);
                PutStr ", decimal_bit="; PutInt (wei b); PutStr "\n"]).

(** ** Operations in place *)

(** One position of the schoolbook addition: the digit and the carry. *)
Definition carry_digit (s : Z) : Z * Z := if s <? 10 then (s, 0) else (s - 10, 1).

Definition big_num_add_0_self (b : BigNum) : res BigNum :=
  top ← load_init (arr b) (wei b - 1);
  let b := if (5 <=? top) && (wei b =? arrLen b) then extend_big_num b else b in
  '(a, next) ← for_range 0 (wei b) (λ i '(a, next),
        d ← load_init a i;
        t ← mul_int d 2;
        s ← add_int t next;
        let '(digit, next) := carry_digit s in
        a ← store_init a i digit;
        mret (a, next)) (arr b, 0);
  if next =? 1
  then a ← store_init a (wei b) 1; mret (set_wei (set_arr b a) (wei b + 1))
  else mret (set_arr b a).

Definition big_num_cpy (b1 b2 : BigNum) : res BigNum :=
  let b1 := if arrLen b1 <? arrLen b2
            then {| arr := realloc (arr b1) (arrLen b2); arrLen := arrLen b2; wei := wei b1 |}
            else b1 in
  a ← for_range 0 (arrLen b1) (λ i a, store_init a i 0) (arr b1);
  a ← for_range 0 (wei b2) (λ i a, d ← load_init (arr b2) i; store_init a i d) a;
  mret (set_wei (set_arr b1 a) (wei b2)).

(** The loop of [big_num_cmp] from the most significant digit down, with its
    early returns: [n] positions are left. *)
Fixpoint big_num_cmp_loop (a1 a2 : list cell) (n : nat) : res Z :=
  match n with
  | O => mret 0
  | S n' =>
      x ← load_init a1 (Z.of_nat n');
      y ← load_init a2 (Z.of_nat n');
      if y <? x then mret 1
      else if x <? y then mret (-1)
      else big_num_cmp_loop a1 a2 n'
  end.

Definition big_num_cmp (b1 b2 : BigNum) : res Z :=
  if wei b2 <? wei b1 then mret 1
  else if wei b1 <? wei b2 then mret (-1)
  else big_num_cmp_loop (arr b1) (arr b2) (Z.to_nat (wei b1)).

(** [big_num_add] extends both operands, so the operands are part of the
    result: the first, the second, and the sum.  The two pointers are taken
    to be distinct, as they are at each call of the program. *)
Definition big_num_add (p1 p2 : BigNum) : res (BigNum * BigNum * BigNum) :=
  c ← big_num_cmp p1 p2;
  let swap := c =? -1 in
  let b1 := if swap then p2 else p1 in
  let b2 := if swap then p1 else p2 in
  r ← get_zero;
  let b1 := if wei b1 =? arrLen b1 then extend_big_num b1 else b1 in
  r ← big_num_cpy r b1;
  b2 ← (if arrLen b2 <? arrLen r then
          let b2 := {| arr := realloc (arr b2) (arrLen r); arrLen := arrLen r; wei := wei b2 |} in
          a ← for_range (wei b2) (arrLen b2) (λ i a, store_init a i 0) (arr b2);
          mret (set_arr b2 a)
        else mret b2);
  b2 ← while (S (S (Z.to_nat (arrLen r)))) (λ b, mret (arrLen b <=? arrLen r))
         (λ b, mret (extend_big_num b)) b2;
  '(a, next) ← for_range 0 (wei r) (λ i '(a, next),
        x ← load_init (arr b2) i;
        y ← load_init a i;
        t ← add_int x y;
        s ← add_int t next;
        let '(digit, next) := carry_digit s in
        a ← store_init a i digit;
        mret (a, next)) (arr r, 0);
  r ← (if next =? 1
       then a ← store_init a (wei r) 1; mret (set_wei (set_arr r a) (wei r + 1))
       else mret (set_arr r a));
  mret (if swap then b2 else b1, if swap then b1 else b2, r).

Definition big_num_add_0 (b1 b2 : BigNum) : res BigNum :=
  let b1 := if wei b1 =? arrLen b1 then extend_big_num b1 else b1 in
  flag ← big_num_cmp b1 b2;
  b1 ← (if flag =? -1 then
          b1 ← extend_while_lt b1 (arrLen b2);
          a ← for_range (wei b1) (arrLen b1) (λ i a, store_init a i 0) (arr b1);
          mret (set_arr b1 a)
        else mret b1);
  '(a, next) ← for_range 0 (wei b2) (λ i '(a, next),
        x ← load_init a i;
        y ← load_init (arr b2) i;
        t ← add_int x y;
        s ← add_int t next;
        let '(digit, next) := carry_digit s in
        a ← store_init a i digit;
        mret (a, next)) (arr b1, 0);
  let w := if wei b1 <? wei b2 then wei b2 else wei b1 in
  if next =? 1 then
    x ← load_init a w;
    x ← add_int x 1;
    a ← store_init a w x;
    mret (set_wei (set_arr b1 a) (w + 1))
  else mret (set_wei (set_arr b1 a) w).

Definition big_num_multi_dig (b : BigNum) (a : Z) : res BigNum :=
  if a =? 0 then
    m ← store_init (arr b) 0 0;
    mret (set_wei (set_arr b m) 1)
  else
    let b := if wei b =? arrLen b then extend_big_num b else b in
    '(m, next) ← for_range 0 (wei b) (λ i '(m, next),
          d ← load_init m i;
          t ← mul_int d a;
          s ← add_int t next;
          if s <? 10 then m ← store_init m i s; mret (m, 0)
          else
            next ← c_div s 10;
            digit ← c_mod s 10;
            m ← store_init m i digit;
            mret (m, next)) (arr b, 0);
    if negb (next =? 0)
    then m ← store_init m (wei b) next; mret (set_wei (set_arr b m) (wei b + 1))
    else mret (set_arr b m).

Definition big_num_append0 (b : BigNum) (a : Z) : res BigNum :=
  if a <=? 0 then mret b
  else
    b ← extend_while_lt b (wei b + a);
    m ← for_down (wei b - 1) 0 (λ i m, d ← load_init m i; store_init m (i + a) d) (arr b);
    m ← for_range 0 a (λ i m, store_init m i 0) m;
    mret (set_wei (set_arr b m) (wei b + a)).

Definition big_num_multi (p1 p2 : BigNum) : res BigNum :=
  r ← get_zero;
  c ← big_num_cmp p1 p2;
  let b1 := if c =? -1 then p2 else p1 in
  let b2 := if c =? -1 then p1 else p2 in
  for_range 0 (wei b2) (λ i r,
    w ← load_init (arr b2) i;
    newBg ← get_zero;
    newBg ← big_num_cpy newBg b1;
    newBg ← big_num_multi_dig newBg w;
    newBg ← big_num_append0 newBg i;
    big_num_add_0 r newBg) r.

Definition factorial (n : Z) : res BigNum :=
  r ← get_zero;
  a ← store_init (arr r) 0 1;
  for_range 1 (n + 1) (λ i r,
    bigI ← int_to_big_num i;
    big_num_multi r bigI) (set_arr r a).

(** [main]: the sums and products the program prints. *)
Definition bn_main : res (list output) :=
  b1 ← int_to_big_num 1;
  o1 ← print_bit_num_obj b1;
  b2 ← int_to_big_num 95599;
  o2 ← print_bit_num_obj b2;
  '(b1, b2, b3) ← big_num_add b1 b2;
  o3 ← print_bit_num_obj b3;
  bg1 ← int_to_big_num 11665544;
  bg1 ← big_num_multi_dig bg1 6;
  o4 ← print_bit_num_obj bg1;
  bg3 ← int_to_big_num 166655466;
  bg4 ← int_to_big_num 443335544;
  bg5 ← big_num_multi bg3 bg4;
  o5 ← print_bit_num_obj bg5;
  g1 ← str_to_big_num (codes "8717829120915684686898899879870");
  g2 ← str_to_big_num (codes "1555888888564684684684684888888");
  g3 ← big_num_multi g1 g2;
  o6 ← print_bit_num_obj g3;
  result ← factorial 3;
  o7 ← print_bit_num_ln result;
  mret (PutStr "big_number b1=" :: PutInt 1 :: PutStr "\n" :: o1 ++
        PutStr "big_number b2=" :: PutInt 95599 :: PutStr "\n" :: o2 ++
        PutStr "b2 + b3 =\n" :: o3 ++
        PutStr "big_number " :: PutInt 11665544 :: PutStr " * 6 =\n" :: o4 ++
        o5 ++ o6 ++ o7).

(** ** Values *)

(** [Σ g j · 10^j] for [0 <= j < n]: the number that weights [g j] denote. *)
Fixpoint wsum_nat (g : Z → Z) (n : nat) : Z :=
  match n with
  | O => 0
  | S n' => wsum_nat g n' + g (Z.of_nat n') * 10 ^ Z.of_nat n'
  end.
Definition wsum (g : Z → Z) (n : Z) : Z := wsum_nat g (Z.to_nat n).

Definition cellv (m : list cell) (i : Z) : Z :=
  match m !! Z.to_nat i with Some (Some v) => v | _ => 0 end.

Definition val (m : list cell) (n : Z) : Z := wsum (cellv m) n.

(** Positions [lo <= j < hi] of the block hold decimal digits. *)
Definition digits (m : list cell) (lo hi : Z) : Prop :=
  ∀ j, lo ≤ j < hi → ∃ d, m !! Z.to_nat j = Some (Some d) ∧ 0 ≤ d < 10.

(** The representation invariant, and the number represented. *)
Record wf (b : BigNum) : Prop := {
  wf_len : Z.of_nat (length (arr b)) = arrLen b;
  wf_cap : 2 ≤ arrLen b;
  wf_wei : 1 ≤ wei b ≤ arrLen b;
  wf_digits : digits (arr b) 0 (wei b)
}.

Definition bval (b : BigNum) : Z := val (arr b) (wei b).

(** No leading zero, except for the number zero itself. *)
Definition normal (b : BigNum) : Prop := wei b = 1 ∨ cellv (arr b) (wei b - 1) ≠ 0.

Lemma wsum_0 g : wsum g 0 = 0.
Proof. reflexivity. Qed.

Lemma wsum_succ g n : 0 ≤ n → wsum g (n + 1) = wsum g n + g n * 10 ^ n.
Proof.
  intros Hn. unfold wsum. replace (Z.to_nat (n + 1)) with (S (Z.to_nat n)) by lia.
  cbn [wsum_nat]. by rewrite Z2Nat.id.
Qed.

Lemma wsum_ext g h n : (∀ j, 0 ≤ j < n → g j = h j) → wsum g n = wsum h n.
Proof.
  unfold wsum. intros H. assert (∀ j, 0 ≤ j < Z.of_nat (Z.to_nat n) → g j = h j) as H'.
  { intros j Hj. apply H. lia. }
  clear H. revert H'. induction (Z.to_nat n) as [|k IH]; intros H; cbn; [done|].
  rewrite IH by (intros; apply H; lia). rewrite H by lia. done.
Qed.

Lemma wsum_add g h n : wsum (λ j, g j + h j) n = wsum g n + wsum h n.
Proof.
  unfold wsum. induction (Z.to_nat n) as [|k IH]; cbn; [done|]. rewrite IH. ring.
Qed.

Lemma wsum_scale c g n : wsum (λ j, c * g j) n = c * wsum g n.
Proof.
  unfold wsum. induction (Z.to_nat n) as [|k IH]; cbn; [ring|]. rewrite IH. ring.
Qed.

Lemma wsum_bound g n :
  0 ≤ n → (∀ j, 0 ≤ j < n → 0 ≤ g j < 10) → 0 ≤ wsum g n < 10 ^ n.
Proof.
  intros Hn. pattern n. apply natlike_ind; [|clear n Hn; intros n Hn IH|done]; intros H.
  - rewrite wsum_0. lia.
  - unfold Z.succ in *. rewrite wsum_succ, Z.pow_add_r, Z.pow_1_r by lia.
    destruct IH as [IH1 IH2]; [intros; apply H; lia|].
    destruct (H n); [lia|]. nia.
Qed.

Lemma val_succ m n : 0 ≤ n → val m (n + 1) = val m n + cellv m n * 10 ^ n.
Proof. apply wsum_succ. Qed.

Lemma cellv_lookup m m' i j :
  m !! Z.to_nat i = m' !! Z.to_nat j → cellv m i = cellv m' j.
Proof. unfold cellv. by intros ->. Qed.

Lemma val_ext m m' n :
  (∀ j, 0 ≤ j < n → m !! Z.to_nat j = m' !! Z.to_nat j) → val m n = val m' n.
Proof. intros H. apply wsum_ext. intros j Hj. by apply cellv_lookup, H. Qed.

Lemma digits_sub m lo hi lo' hi' :
  digits m lo hi → lo ≤ lo' → hi' ≤ hi → digits m lo' hi'.
Proof. intros H ? ? j Hj. apply H. lia. Qed.

Lemma digits_load m lo hi i :
  digits m lo hi → lo ≤ i < hi → 0 ≤ i →
  load_init m i = Ok (cellv m i) ∧ 0 ≤ cellv m i < 10.
Proof.
  intros H Hi H0. destruct (H i Hi) as (d & Hd & Hr).
  unfold cellv. rewrite (load_init_ok _ _ _ H0 Hd), Hd. done.
Qed.

Lemma digits_cellv m lo hi i : digits m lo hi → lo ≤ i < hi → 0 ≤ cellv m i < 10.
Proof. intros H Hi. destruct (H i Hi) as (d & Hd & Hr). unfold cellv. by rewrite Hd. Qed.

Lemma val_bound m n : 0 ≤ n → digits m 0 n → 0 ≤ val m n < 10 ^ n.
Proof. intros Hn H. apply wsum_bound; [done|]. intros j Hj. by apply (digits_cellv m 0 n). Qed.

Lemma digits_ext m m' lo hi :
  digits m lo hi → (∀ j, lo ≤ j < hi → m' !! Z.to_nat j = m !! Z.to_nat j) → digits m' lo hi.
Proof. intros H E j Hj. rewrite E by done. by apply H. Qed.

Lemma digits_snoc m lo n d :
  digits m lo n → m !! Z.to_nat n = Some (Some d) → 0 ≤ d < 10 → digits m lo (n + 1).
Proof.
  intros H Hd Hr j Hj. destruct (decide (j = n)) as [->|]; [eauto|]. apply H. lia.
Qed.
#[export] Hint Resolve digits_sub digits_snoc : cmem.
