(* ===== verification/BigNumSpec.v ===== *)
(** Correctness of the decimal big numbers of [BigNum]. *)
From S2P Require Import Prelude BigNum.

(** ** Allocation and extension *)

Lemma realloc_length m n :
  Z.of_nat (length m) ≤ n → Z.of_nat (length (realloc m n)) = n.
Proof.
  intros H. unfold realloc. rewrite length_app, length_take, length_replicate. lia.
Qed.

Lemma realloc_lookup m n j :
  (j < length m)%nat → Z.of_nat (length m) ≤ n → realloc m n !! j = m !! j.
Proof.
  intros Hj Hn. unfold realloc.
  rewrite lookup_app_l by (rewrite length_take; lia). apply lookup_take_lt. lia.
Qed.

(** [b'] is [b] with a capacity that may have grown. *)
Record grown (b b' : BigNum) : Prop := {
  gr_len : Z.of_nat (length (arr b')) = arrLen b';
  gr_cap : arrLen b ≤ arrLen b';
  gr_wei : wei b' = wei b;
  gr_cells : ∀ j, (j < length (arr b))%nat → arr b' !! j = arr b !! j
}.

#[export] Instance grown_trans : Transitive grown.
Proof.
  intros a b c [L1 C1 W1 E1] [L2 C2 W2 E2]. split; try lia.
  intros j Hj. destruct (lookup_lt_is_Some_2 (arr a) j Hj) as [x Hx].
  rewrite <- E1 in Hx by done. apply lookup_lt_Some in Hx.
  rewrite E2 by done. by apply E1.
Qed.

Lemma grown_self b : Z.of_nat (length (arr b)) = arrLen b → grown b b.
Proof. intros. by split. Qed.

Lemma grown_extend b :
  Z.of_nat (length (arr b)) = arrLen b → grown b (extend_big_num b).
Proof.
  intros H. unfold extend_big_num. split; cbn; [apply realloc_length; lia|lia|done|].
  intros j Hj. apply realloc_lookup; lia.
Qed.

Lemma grown_if (c : bool) b :
  Z.of_nat (length (arr b)) = arrLen b → grown b (if c then extend_big_num b else b).
Proof. destruct c; auto using grown_extend, grown_self. Qed.

Lemma grown_digits b b' : wf b → grown b b' → digits (arr b') 0 (wei b).
Proof.
  intros [L C W D] G. eapply digits_ext; [exact D|]. intros j Hj. apply (gr_cells _ _ G). lia.
Qed.

Lemma grown_val b b' : wf b → grown b b' → val (arr b') (wei b) = bval b.
Proof.
  intros [L C W D] G. apply val_ext. intros j Hj. apply (gr_cells _ _ G). lia.
Qed.

Lemma grown_wf b b' : wf b → grown b b' → wf b'.
Proof.
  intros H G. pose proof (grown_digits _ _ H G). destruct H as [L C W D], G as [L' C' W' E'].
  split; try lia. by rewrite W'.
Qed.

#[export] Hint Resolve grown_self grown_extend grown_if grown_digits grown_wf : cmem.

(** The extension loops end, with the bound reached. *)
Lemma extend_while_lt_spec b n :
  Z.of_nat (length (arr b)) = arrLen b → 1 ≤ arrLen b →
  ∃ b', extend_while_lt b n = Ok b' ∧ grown b b' ∧ n ≤ arrLen b' ∧
    (n ≤ arrLen b → b' = b).
Proof.
  intros Hl Hc. destruct (Z_le_gt_dec n (arrLen b)) as [Hn|Hn].
  { exists b. unfold extend_while_lt. cbn.
    destruct (Z.ltb_spec (arrLen b) n); [lia|]. auto using grown_self. }
  destruct (while_inv (λ b', grown b b' ∧ 1 ≤ arrLen b')
      (λ b, mret (arrLen b <? n)) (λ b, mret (extend_big_num b))
      (λ b', Z.to_nat (n - arrLen b')) (S (Z.to_nat n)) b)
    as (b' & E & [G _] & Hb').
  - auto using grown_self.
  - lia.
  - intros s [G Hs]. destruct (Z.ltb_spec (arrLen s) n) as [Hlt|]; [|by left].
    right. split; [unfold mret, res_ret; do 2 f_equal; by apply Z.ltb_lt|].
    exists (extend_big_num s). split; [done|]. split; [|cbn; lia].
    split; [|cbn; lia]. etrans; [exact G|]. apply grown_extend, (gr_len _ _ G).
  - exists b'. split; [exact E|]. split; [done|]. split; [|lia].
    injection Hb' as Hb'. apply Z.ltb_ge in Hb'. lia.
Qed.

(** ** A decision procedure for the invariant *)

Definition cell_digitb (c : cell) : bool :=
  match c with Some d => (0 <=? d) && (d <? 10) | None => false end.

Definition wfb (b : BigNum) : bool :=
  (Z.of_nat (length (arr b)) =? arrLen b) && (2 <=? arrLen b) && (1 <=? wei b) &&
  (wei b <=? arrLen b) && forallb cell_digitb (take (Z.to_nat (wei b)) (arr b)).

Lemma wfb_wf b : wfb b = true → wf b.
Proof.
  unfold wfb. rewrite !andb_true_iff, !Z.leb_le, Z.eqb_eq. intros ((((L & C) & W1) & W2) & D).
  split; [done|done|lia|]. intros j Hj. rewrite forallb_forall in D.
  destruct (lookup_lt_Z (arr b) j) as [x Hx]; [lia|].
  specialize (D x). rewrite <- list_elem_of_In, list_elem_of_lookup in D.
  unfold cell_digitb in D. destruct x as [d|].
  - exists d. split; [done|]. assert (E : (0 <=? d) && (d <? 10) = true).
    { apply D. exists (Z.to_nat j). rewrite lookup_take_lt by lia. done. }
    rewrite andb_true_iff, Z.leb_le, Z.ltb_lt in E. lia.
  - exfalso. assert (false = true); [|done]. apply D. exists (Z.to_nat j).
    rewrite lookup_take_lt by lia. done.
Qed.

Definition normalb (b : BigNum) : bool :=
  (wei b =? 1) || negb (cellv (arr b) (wei b - 1) =? 0).

Lemma normalb_normal b : normalb b = true → normal b.
Proof.
  unfold normalb, normal. rewrite orb_true_iff, negb_true_iff, Z.eqb_eq, Z.eqb_neq. done.
Qed.

(** A concrete number for the instances: [ds], least significant digit first,
    in a block of [n] cells. *)
Definition sample (ds : list Z) (n : nat) : BigNum :=
  {| arr := (Some <$> ds) ++ replicate (n - length ds) None;
     arrLen := Z.of_nat n; wei := Z.of_nat (length ds) |}.

(** ** Writing loops *)

(** A loop that writes [f i] at position [pos i] for [a <= i < b]. *)
Lemma fill_spec (f pos : Z → Z) body m a b :
  a ≤ b → (∀ i, a ≤ i < b → 0 ≤ pos i < Z.of_nat (length m)) →
  (∀ i j, a ≤ i < b → a ≤ j < b → pos i = pos j → i = j) →
  (∀ i m', a ≤ i < b → length m' = length m → body i m' = store_init m' (pos i) (f i)) →
  ∃ m', for_range a b body m = Ok m' ∧ length m' = length m ∧
    (∀ j, a ≤ j < b → m' !! Z.to_nat (pos j) = Some (Some (f j))) ∧
    (∀ k, 0 ≤ k → (∀ j, a ≤ j < b → pos j ≠ k) → m' !! Z.to_nat k = m !! Z.to_nat k).
Proof.
  intros Hab Hpos Hinj Hbody.
  destruct (for_range_inv (λ i m', i ≤ b ∧ length m' = length m ∧
      (∀ j, a ≤ j < i → m' !! Z.to_nat (pos j) = Some (Some (f j))) ∧
      (∀ k, 0 ≤ k → (∀ j, a ≤ j < i → pos j ≠ k) → m' !! Z.to_nat k = m !! Z.to_nat k))
    body a b m) as (m' & E & H); [done| | |].
  - split; [done|]. split; [done|]. split; [intros; lia|done].
  - intros i m1 Hi (_ & L1 & D1 & O1). rewrite (Hbody i m1 Hi L1).
    pose proof (Hpos i Hi). unfold store_init. rewrite store_ok by lia.
    eexists. split; [reflexivity|]. rewrite length_insert. split; [lia|]. split; [done|]. split.
    + intros j Hj. pose proof (Hpos j ltac:(lia)). rewrite lookup_insert_Z by lia. case_decide as Ej.
      * by rewrite (Hinj i j) by (lia || done).
      * apply D1. destruct (decide (j = i)); [congruence|lia].
    + intros k Hk Hne. rewrite lookup_insert_Z by lia.
      rewrite decide_False by (apply Hne; lia). apply O1; [done|]. intros j Hj. apply Hne. lia.
  - exists m'. by destruct H as (_ & ? & ? & ?).
Qed.

(** The same at consecutive positions. *)
Lemma fill_range_spec (f : Z → Z) body m a b :
  0 ≤ a ≤ b → b ≤ Z.of_nat (length m) →
  (∀ i m', a ≤ i < b → length m' = length m → body i m' = store_init m' i (f i)) →
  ∃ m', for_range a b body m = Ok m' ∧ length m' = length m ∧
    (∀ j, a ≤ j < b → m' !! Z.to_nat j = Some (Some (f j))) ∧
    (∀ k, 0 ≤ k → (k < a ∨ b ≤ k) → m' !! Z.to_nat k = m !! Z.to_nat k).
Proof.
  intros Hab Hb Hbody.
  destruct (fill_spec f (λ i, i) body m a b) as (m' & E & L & D & O); [lia|lia|done|done|].
  exists m'. split; [done|]. split; [done|]. split; [done|].
  intros k Hk Hout. apply O; [done|]. intros j Hj. lia.
Qed.

(** ** The carry loops *)

(** All the digit loops of the file add a column value [g i] to a carry of at
    most [B], leave the digit in place and pass the carry on. *)
Lemma carry_loop (g : Z → Z) (B n : Z) (m : list cell) (body : Z → list cell * Z → res (list cell * Z)) :
  0 ≤ n ≤ Z.of_nat (length m) → 0 ≤ B →
  (∀ i, 0 ≤ i < n → 0 ≤ g i ∧ g i + B < 10 * (B + 1)) →
  (∀ i a c, 0 ≤ i < n → length a = length m →
     (∀ j, i ≤ j → a !! Z.to_nat j = m !! Z.to_nat j) → 0 ≤ c ≤ B →
     body i (a, c) =
       (a' ← store_init a i ((g i + c) mod 10); mret (a', (g i + c) / 10))) →
  ∃ a c, for_range 0 n body (m, 0) = Ok (a, c) ∧ length a = length m ∧
    (∀ j, n ≤ j → a !! Z.to_nat j = m !! Z.to_nat j) ∧
    digits a 0 n ∧ 0 ≤ c ≤ B ∧ val a n + c * 10 ^ n = wsum g n.
Proof.
  intros Hn HB Hg Hbody.
  destruct (for_range_inv (λ i '(a, c), length a = length m ∧
      (∀ j, i ≤ j → a !! Z.to_nat j = m !! Z.to_nat j) ∧
      digits a 0 i ∧ 0 ≤ c ≤ B ∧ val a i + c * 10 ^ i = wsum g i) body 0 n (m, 0))
    as ([a c] & E & H).
  - lia.
  - split; [done|]. split; [done|]. split; [intros j Hj; lia|]. split; [lia|]. reflexivity.
  - intros i [a c] Hi (L & O & D & C & V). rewrite Hbody by auto.
    destruct (Hg i Hi) as [Hg0 Hg1]. set (s := g i + c) in *.
    assert (0 ≤ s mod 10 < 10) by (apply Z.mod_pos_bound; lia).
    unfold store_init. rewrite store_ok by lia. cbn.
    eexists (_, _). split; [reflexivity|]. rewrite length_insert. split; [done|].
    assert (cellv (<[Z.to_nat i:=Some (s mod 10)]> a) i = s mod 10) as Ec.
    { unfold cellv. rewrite lookup_insert_Z by lia. by rewrite decide_True. }
    split; [|split; [|split]].
    + intros j Hj. rewrite lookup_insert_Z by lia. rewrite decide_False by lia. apply O. lia.
    + apply digits_snoc with (s mod 10); [|rewrite lookup_insert_Z by lia; by rewrite decide_True|done].
      eapply digits_ext; [exact D|]. intros j Hj. rewrite lookup_insert_Z by lia.
      by rewrite decide_False by lia.
    + split; [apply Z.div_pos; lia|]. apply Z.lt_succ_r, Z.div_lt_upper_bound; lia.
    + rewrite val_succ, wsum_succ, Ec, <- V, Z.pow_add_r, Z.pow_1_r by lia.
      rewrite (val_ext _ a) by (intros j Hj; rewrite lookup_insert_Z by lia; by rewrite decide_False by lia).
      pose proof (Z.div_mod s 10 ltac:(lia)). nia.
  - exists a, c. split; [exact E|]. done.
Qed.

Lemma carry_digit_eq s : 0 ≤ s < 20 → carry_digit s = (s mod 10, s / 10).
Proof.
  intros H. unfold carry_digit.
  pose proof (Z.div_mod s 10 ltac:(lia)). pose proof (Z.mod_pos_bound s 10 ltac:(lia)).
  destruct (Z.ltb_spec s 10); f_equal; lia.
Qed.

(** [int] arithmetic on digits does not overflow. *)
Lemma add_int_small a b : 0 ≤ a ≤ 1000 → 0 ≤ b ≤ 1000 → add_int a b = Ok (a + b).
Proof. intros. apply chk_int_ok. unfold INT_MIN, INT_MAX. lia. Qed.

Lemma mul_int_small a b : 0 ≤ a ≤ 1000 → 0 ≤ b ≤ 1000 → mul_int a b = Ok (a * b).
Proof. intros. apply chk_int_ok. unfold INT_MIN, INT_MAX. nia. Qed.

(** ** The carry that is left over *)

Lemma val_store_last m n d :
  0 ≤ n < Z.of_nat (length m) →
  val (<[Z.to_nat n := Some d]> m) (n + 1) = val m n + d * 10 ^ n.
Proof.
  intros Hn. rewrite val_succ by lia. f_equal.
  - apply val_ext. intros j Hj. rewrite lookup_insert_Z by lia. by rewrite decide_False by lia.
  - f_equal. unfold cellv. rewrite lookup_insert_Z by lia. by rewrite decide_True.
Qed.

Lemma digits_store_last m n d :
  0 ≤ n < Z.of_nat (length m) → digits m 0 n → 0 ≤ d < 10 →
  digits (<[Z.to_nat n := Some d]> m) 0 (n + 1).
Proof.
  intros Hn D Hd. apply digits_snoc with d; [|rewrite lookup_insert_Z by lia; by rewrite decide_True|done].
  eapply digits_ext; [exact D|]. intros j Hj. rewrite lookup_insert_Z by lia.
  by rewrite decide_False by lia.
Qed.

(** What the operations do after the loop: a carry becomes the next digit,
    and the sum is right if the block has room for it. *)
Definition finish (b : BigNum) (a : list cell) (n c : Z) : res BigNum :=
  if c =? 0 then mret (set_wei (set_arr b a) n)
  else a ← store_init a n c; mret (set_wei (set_arr b a) (n + 1)).

Lemma finish_ok b a n c :
  Z.of_nat (length a) = arrLen b → 2 ≤ arrLen b → 1 ≤ n ≤ arrLen b → digits a 0 n → 0 ≤ c < 10 →
  (c ≠ 0 → n < arrLen b) →
  ∃ r, finish b a n c = Ok r ∧ wf r ∧ bval r = val a n + c * 10 ^ n ∧
    arrLen r = arrLen b ∧ wei r = n + (if c =? 0 then 0 else 1).
Proof.
  intros L C W D Hc Hroom. unfold finish. destruct (Z.eqb_spec c 0) as [->|Hc0].
  - eexists. split; [reflexivity|]. split; [by split|].
    split; [change (val a n = val a n + 0 * 10 ^ n); ring|]. cbn. lia.
  - specialize (Hroom Hc0). unfold store_init. rewrite store_ok by lia. cbn.
    eexists. split; [reflexivity|]. split; [|split; [apply val_store_last; lia|cbn; lia]].
    split; cbn; [by rewrite length_insert|lia|lia|]. apply digits_store_last; try lia. done.
Qed.

Lemma finish_oob b a n c :
  Z.of_nat (length a) = arrLen b → arrLen b ≤ n → c ≠ 0 → finish b a n c = Err OutOfBounds.
Proof.
  intros L Hn Hc. unfold finish. destruct (Z.eqb_spec c 0); [done|].
  unfold store_init. by rewrite store_oob by lia.
Qed.

(** A digit position read, doubled, scaled or added never faults. *)
Ltac load_digit D :=
  match goal with
  | |- context [load_init ?m ?i] =>
      let E := fresh "E" in let R := fresh "R" in
      destruct (digits_load m _ _ i D) as [E R]; [lia|lia|rewrite E]; cbn
  end.

Lemma bval_bound b : wf b → 0 ≤ bval b < 10 ^ wei b.
Proof. intros [L C W D]. apply val_bound; [lia|done]. Qed.

Lemma digits_stable m a lo hi i :
  digits m lo hi → lo ≤ i < hi → 0 ≤ i → a !! Z.to_nat i = m !! Z.to_nat i →
  load_init a i = Ok (cellv m i) ∧ 0 ≤ cellv m i < 10.
Proof.
  intros D Hi H0 E. rewrite (cellv_lookup m a i i) by done.
  apply (digits_load a i (i + 1)); [|lia|done].
  intros j Hj. replace j with i by lia. rewrite E. by apply D.
Qed.

(** The top digit locates the value. *)
Lemma val_top m n :
  1 ≤ n → digits m 0 n →
  cellv m (n - 1) * 10 ^ (n - 1) ≤ val m n < (cellv m (n - 1) + 1) * 10 ^ (n - 1).
Proof.
  intros Hn D. 
  assert (val m n = val m (n - 1) + cellv m (n - 1) * 10 ^ (n - 1)) as E.
  { replace n with (n - 1 + 1) at 1 by lia. apply val_succ. lia. }
  assert (0 ≤ val m (n - 1) < 10 ^ (n - 1)); [|nia].
  apply val_bound; [lia|]. eapply digits_sub; [exact D|lia|lia].
Qed.

Lemma pow10_split n : 1 ≤ n → 10 ^ n = 10 * 10 ^ (n - 1).
Proof. intros. rewrite <- Z.pow_succ_r by lia. f_equal. lia. Qed.

(** ** [big_num_add_0_self] *)

(** Doubling carries out of the top digit only if that digit is 5 or more:
    the test the code makes before it extends. *)
Lemma double_room b a c :
  wf b → digits a 0 (wei b) → val a (wei b) + c * 10 ^ wei b = 2 * bval b →
  cellv (arr b) (wei b - 1) < 5 → c ≤ 0.
Proof.
  intros [L C W D] Da V Ht.
  pose proof (val_bound a (wei b) ltac:(lia) Da).
  pose proof (val_top (arr b) (wei b) ltac:(lia) D). unfold bval in V.
  rewrite (pow10_split (wei b)) in * by lia.
  assert (0 < 10 ^ (wei b - 1)) by (apply Z.pow_pos_nonneg; lia). nia.
Qed.

(** big_num_add_0_self doubles the value of a well-formed number and keeps it well formed, the
    block being grown when the number fills it. *)
Theorem big_num_add_0_self_correct (b : BigNum) (H : wf b) :
  ∃ b', big_num_add_0_self b = Ok b' ∧ wf b' ∧ bval b' = 2 * bval b.
Proof.
  pose proof H as [L C W D]. unfold big_num_add_0_self.
  destruct (digits_load _ _ _ (wei b - 1) D) as [Et Rt]; [lia|lia|]. rewrite Et. cbn.
  set (b1 := if _ && _ then extend_big_num b else b).
  assert (G : grown b b1) by (apply grown_if; lia).
  pose proof (grown_wf _ _ H G) as [L1 C1 W1 D1].
  destruct (carry_loop (λ i, 2 * cellv (arr b1) i) 1 (wei b1) (arr b1)
    (λ i '(a, next), d ← load_init a i; t ← mul_int d 2; s ← add_int t next;
        let '(digit, next) := carry_digit s in
        a ← store_init a i digit; mret (a, next)))
    as (a & c & -> & La & Oa & Da & Hc & V); [lia|lia| | |].
  - intros i Hi. pose proof (digits_cellv _ _ _ i D1 Hi). lia.
  - intros i a c Hi La Oa Hc.
    destruct (digits_stable _ a _ _ i D1 Hi ltac:(lia) (Oa i ltac:(lia))) as [-> Ri]. cbn.
    rewrite mul_int_small by lia. cbn. rewrite add_int_small by lia. cbn.
    rewrite carry_digit_eq by lia. by replace (cellv (arr b1) i * 2) with (2 * cellv (arr b1) i) by lia.
  - cbn. destruct (finish_ok b1 a (wei b1) c) as (r & E & Wr & Vr & _); try lia; auto.
    { intros Hc0. rewrite (gr_wei _ _ G). destruct (Z.leb_spec 5 (cellv (arr b) (wei b - 1))) as [H5|H5].
      - subst b1. destruct (Z.eqb_spec (wei b) (arrLen b)); cbn; lia.
      - exfalso. apply Hc0. rewrite wsum_scale in V. rewrite (gr_wei _ _ G) in *.
        fold (val (arr b1) (wei b)) in V. rewrite (grown_val b b1 H G) in V.
        pose proof (double_room b a c H Da V H5). lia. }
    exists r. split; [|split; [done|]].
    + rewrite <- E. unfold finish. destruct (Z.eqb_spec c 1), (Z.eqb_spec c 0); try lia; by subst.
    + rewrite Vr, V, wsum_scale. f_equal. rewrite (gr_wei _ _ G). by apply grown_val.
Qed.

Lemma big_num_add_0_self_witness :
  wf (sample [9; 9] 2) ∧
  ∃ b', big_num_add_0_self (sample [9; 9] 2) = Ok b' ∧ wf b' ∧ bval b' = 2 * 99.
Proof.
  split; [by apply wfb_wf|]. apply (big_num_add_0_self_correct (sample [9; 9] 2)). by apply wfb_wf.
Defined.

(** ** [big_num_cpy] *)

(** A deep copy into a block that is grown when needed; the cells above are zeroed. *)
Lemma big_num_cpy_spec (b1 b2 : BigNum)
    (H1 : Z.of_nat (length (arr b1)) = arrLen b1) (H2 : wf b2) :
  ∃ r, big_num_cpy b1 b2 = Ok r ∧ wf r ∧ bval r = bval b2 ∧ wei r = wei b2 ∧
    arrLen r = Z.max (arrLen b1) (arrLen b2) ∧
    (∀ j, 0 ≤ j < wei b2 → arr r !! Z.to_nat j = arr b2 !! Z.to_nat j) ∧
    (∀ j, wei b2 ≤ j < arrLen r → arr r !! Z.to_nat j = Some (Some 0)).
Proof.
  pose proof H2 as [L C W D]. unfold big_num_cpy.
  set (b := if _ <? _ then _ else b1).
  assert (Hb : Z.of_nat (length (arr b)) = arrLen b ∧ arrLen b = Z.max (arrLen b1) (arrLen b2)).
  { subst b. destruct (Z.ltb_spec (arrLen b1) (arrLen b2)); cbn; [|lia].
    rewrite realloc_length by lia. lia. }
  destruct Hb as [Lb Cb].
  destruct (fill_range_spec (λ _, 0) (λ i a, store_init a i 0) (arr b) 0 (arrLen b))
    as (a0 & -> & La0 & Da0 & _); [lia|lia|done|]. cbn.
  destruct (fill_range_spec (cellv (arr b2)) (λ i a, d ← load_init (arr b2) i; store_init a i d)
    a0 0 (wei b2)) as (a & -> & La & Da & Oa); [lia|lia| |].
  { intros i m' Hi _. by destruct (digits_load _ _ _ i D) as [-> _]; [lia|lia|]. }
  cbn. assert (Ea : ∀ j, 0 ≤ j < wei b2 → a !! Z.to_nat j = arr b2 !! Z.to_nat j).
  { intros j Hj. rewrite Da by done. destruct (D j) as (d & Hd & _); [done|].
    unfold cellv. by rewrite Hd. }
  eexists. split; [reflexivity|]. cbn. split; [|split; [|split; [done|split; [done|split]]]].
  - split; cbn; [lia|lia|lia|]. by apply (digits_ext (arr b2)).
  - by apply val_ext.
  - done.
  - intros j Hj. rewrite Oa by lia. apply Da0. lia.
Qed.

(** ** [big_num_cmp] *)

Definition cmp_code (c : comparison) : Z :=
  match c with Eq => 0 | Lt => -1 | Gt => 1 end.

Lemma cmp_code_lt x y : x < y → cmp_code (x ?= y) = -1.
Proof. intros H. apply Z.compare_lt_iff in H. by rewrite H. Qed.

Lemma cmp_code_gt x y : y < x → cmp_code (x ?= y) = 1.
Proof. intros H. apply Z.compare_gt_iff in H. by rewrite H. Qed.

Lemma big_num_cmp_loop_correct a1 a2 n :
  digits a1 0 (Z.of_nat n) → digits a2 0 (Z.of_nat n) →
  big_num_cmp_loop a1 a2 n = Ok (cmp_code (val a1 (Z.of_nat n) ?= val a2 (Z.of_nat n))).
Proof.
  induction n as [|n IH]; intros D1 D2; [done|]. cbn [big_num_cmp_loop].
  destruct (digits_load _ _ _ (Z.of_nat n) D1) as [-> R1]; [lia|lia|].
  destruct (digits_load _ _ _ (Z.of_nat n) D2) as [-> R2]; [lia|lia|]. cbn.
  assert (D1' : digits a1 0 (Z.of_nat n)) by (eapply digits_sub; [exact D1|lia|lia]).
  assert (D2' : digits a2 0 (Z.of_nat n)) by (eapply digits_sub; [exact D2|lia|lia]).
  replace (Z.of_nat (S n)) with (Z.of_nat n + 1) by lia. rewrite !val_succ by lia.
  pose proof (val_bound a1 (Z.of_nat n) ltac:(lia) D1').
  pose proof (val_bound a2 (Z.of_nat n) ltac:(lia) D2').
  destruct (Z.ltb_spec (cellv a2 (Z.of_nat n)) (cellv a1 (Z.of_nat n))).
  { rewrite cmp_code_gt by nia. done. }
  destruct (Z.ltb_spec (cellv a1 (Z.of_nat n)) (cellv a2 (Z.of_nat n))).
  { rewrite cmp_code_lt by nia. done. }
  replace (cellv a2 (Z.of_nat n)) with (cellv a1 (Z.of_nat n)) by lia.
  rewrite IH by done. do 2 f_equal.
  destruct (Z.compare_spec (val a1 (Z.of_nat n)) (val a2 (Z.of_nat n)));
    symmetry; [apply Z.compare_eq_iff|apply Z.compare_lt_iff|apply Z.compare_gt_iff]; lia.
Qed.

(** What the comparison returns on any well-formed numbers. *)
Lemma big_num_cmp_spec b1 b2 :
  wf b1 → wf b2 →
  big_num_cmp b1 b2 = Ok (cmp_code (match wei b1 ?= wei b2 with
                                    | Eq => bval b1 ?= bval b2 | c => c end)).
Proof.
  intros [L1 C1 W1 D1] [L2 C2 W2 D2]. unfold big_num_cmp.
  destruct (Z.compare_spec (wei b1) (wei b2)) as [E|E|E].
  - rewrite E, Z.ltb_irrefl. rewrite big_num_cmp_loop_correct; rewrite Z2Nat.id by lia; try done.
    + unfold bval. by rewrite E.
    + by rewrite <- E.
  - destruct (Z.ltb_spec (wei b2) (wei b1)); [lia|].
    by destruct (Z.ltb_spec (wei b1) (wei b2)); [|lia].
  - by destruct (Z.ltb_spec (wei b2) (wei b1)); [|lia].
Qed.

Lemma normal_lower b : wf b → normal b → wei b = 1 ∨ 10 ^ (wei b - 1) ≤ bval b.
Proof.
  intros [L C W D] [H|H]; [by left|]. right.
  pose proof (digits_cellv _ _ _ (wei b - 1) D ltac:(lia)).
  pose proof (val_top (arr b) (wei b) ltac:(lia) D).
  assert (0 < 10 ^ (wei b - 1)) by (apply Z.pow_pos_nonneg; lia). unfold bval. nia.
Qed.

Lemma normal_wei_lt b1 b2 :
  wf b1 → wf b2 → normal b2 → wei b1 < wei b2 → bval b1 < bval b2.
Proof.
  intros H1 H2 N2 Hw. pose proof (bval_bound b1 H1). pose proof (wf_wei b1 H1).
  destruct (normal_lower b2 H2 N2) as [?|Hl]; [lia|].
  assert (10 ^ wei b1 ≤ 10 ^ (wei b2 - 1)) by (apply Z.pow_le_mono_r; lia). lia.
Qed.

(** Comparison of normal numbers. *)
Lemma big_num_cmp_normal (b1 b2 : BigNum)
    (H1 : wf b1) (H2 : wf b2) (N1 : normal b1) (N2 : normal b2) :
  big_num_cmp b1 b2 = Ok (cmp_code (bval b1 ?= bval b2)).
Proof.
  rewrite big_num_cmp_spec by done. destruct (Z.compare_spec (wei b1) (wei b2)) as [E|E|E]; [done| |].
  - by rewrite cmp_code_lt by (by apply normal_wei_lt).
  - by rewrite cmp_code_gt by (by apply normal_wei_lt).
Qed.

(** big_num_cmp of two numbers without leading zeros returns -1, 0 or 1 as the values of the
    numbers compare. *)
Theorem big_num_cmp_correct (b1 b2 : BigNum)
    (H1 : wf b1) (H2 : wf b2) (N1 : normal b1) (N2 : normal b2) :
  big_num_cmp b1 b2 = Ok (cmp_code (bval b1 ?= bval b2)).
Proof. by apply big_num_cmp_normal. Qed.

Lemma big_num_cmp_witness : big_num_cmp (sample [3; 2; 1] 4) (sample [4; 2; 1] 8) = Ok (-1).
Proof.
  apply (big_num_cmp_correct (sample [3; 2; 1] 4) (sample [4; 2; 1] 8));
    (by apply wfb_wf) || (by apply normalb_normal).
Defined.
