(* ===== verification/BigNumMul.v ===== *)
(** Multiplication, addition in place and the factorial of [BigNum]. *)
From S2P Require Import Prelude BigNum BigNumSpec.

(** ** [big_num_multi_dig] *)

Lemma multi_dig_zero b :
  wf b → ∃ r, big_num_multi_dig b 0 = Ok r ∧ wf r ∧ bval r = 0 ∧ wei r = 1 ∧
    arrLen r = arrLen b.
Proof.
  intros [L C W D]. unfold big_num_multi_dig. cbn.
  unfold store_init. rewrite store_ok by lia. cbn.
  assert (Ec : <[Z.to_nat 0:=Some 0]> (arr b) !! Z.to_nat 0 = Some (Some 0)).
  { rewrite lookup_insert_Z by lia. by rewrite decide_True. }
  eexists. split; [reflexivity|]. split; [|split; [|done]].
  - split; cbn; [by rewrite length_insert|lia|lia|].
    intros j Hj. exists 0. replace j with 0 by lia. split; [apply Ec|lia].
  - unfold bval; cbn [arr wei set_wei set_arr].
    replace 1 with (0 + 1) by lia. rewrite val_succ by lia. unfold cellv. rewrite Ec. done.
Qed.

Lemma multi_dig_pos b a :
  wf b → 1 ≤ a ≤ 9 → ∃ r, big_num_multi_dig b a = Ok r ∧ wf r ∧ bval r = a * bval b ∧
    wei b ≤ wei r ≤ wei b + 1 ∧ (wei b < arrLen b → arrLen r = arrLen b) ∧
    (10 ^ (wei b - 1) ≤ bval b → 10 ^ (wei r - 1) ≤ bval r).
Proof.
  intros H Ha. unfold big_num_multi_dig. destruct (Z.eqb_spec a 0); [lia|].
  set (b1 := if wei b =? arrLen b then extend_big_num b else b).
  assert (G : grown b b1) by (apply grown_if, H).
  pose proof (grown_wf _ _ H G) as [L1 C1 W1 D1].
  assert (Hroom : wei b1 < arrLen b1 ∧ (wei b < arrLen b → arrLen b1 = arrLen b)).
  { destruct H as [L C W D]. subst b1. destruct (Z.eqb_spec (wei b) (arrLen b)); cbn; lia. }
  destruct (carry_loop (λ i, a * cellv (arr b1) i) 8 (wei b1) (arr b1)
    (λ i '(m, next), d ← load_init m i; t ← mul_int d a; s ← add_int t next;
          if s <? 10 then m ← store_init m i s; mret (m, 0)
          else next ← c_div s 10; digit ← c_mod s 10;
               m ← store_init m i digit; mret (m, next)))
    as (m & c & -> & Lm & Om & Dm & Hc & V); [lia|lia| | |].
  - intros i Hi. pose proof (digits_cellv _ _ _ i D1 Hi). nia.
  - intros i m c Hi Lm Om Hc.
    destruct (digits_stable _ m _ _ i D1 Hi ltac:(lia) (Om i ltac:(lia))) as [-> Ri]. cbn.
    rewrite mul_int_small by lia. cbn. rewrite add_int_small by nia. cbn.
    rewrite (Z.mul_comm (cellv _ _) a).
    destruct (Z.ltb_spec (a * cellv (arr b1) i + c) 10) as [Hs|Hs].
    + rewrite Z.mod_small, Z.div_small by nia. done.
    + rewrite c_div_nonneg, c_mod_nonneg by lia. done.
  - destruct (finish_ok b1 m (wei b1) c) as (r & E & Wr & Vr & Cr & Nr); try lia; auto.
    assert (Vr' : bval r = a * bval b).
    { rewrite Vr, V, wsum_scale. f_equal. rewrite (gr_wei _ _ G). by apply grown_val. }
    exists r. split; [|split; [done|split; [done|split; [|split]]]].
    + rewrite <- E. unfold finish. cbn. by destruct (Z.eqb_spec c 0).
    + rewrite Nr, (gr_wei _ _ G). destruct (c =? 0); lia.
    + intros Hw. rewrite Cr. by apply Hroom.
    + intros Hlow. rewrite Nr, (gr_wei _ _ G). destruct (Z.eqb_spec c 0).
      * rewrite Vr', Z.add_0_r. nia.
      * rewrite Vr. replace (wei b + 1 - 1) with (wei b1) by (rewrite (gr_wei _ _ G); lia).
        pose proof (val_bound m (wei b1) ltac:(lia) Dm).
        assert (0 < 10 ^ wei b1) by (apply Z.pow_pos_nonneg; lia). nia.
Qed.

(** big_num_multi_dig multiplies a well-formed number in place by a digit: the result is well
    formed, has the product as its value, and a carry above the top digit extends the
    number. *)
Theorem big_num_multi_dig_correct (b : BigNum) (a : Z) (H : wf b) (Ha : 0 ≤ a ≤ 9) :
  ∃ r, big_num_multi_dig b a = Ok r ∧ wf r ∧ bval r = a * bval b.
Proof.
  destruct (decide (a = 0)) as [->|].
  - destruct (multi_dig_zero b H) as (r & ? & ? & ? & _). exists r. by rewrite Z.mul_0_l.
  - destruct (multi_dig_pos b a H) as (r & ? & ? & ? & _); [lia|]. by exists r.
Qed.

Lemma big_num_multi_dig_witness :
  ∃ r, big_num_multi_dig (sample [4; 4; 5; 5; 6; 6; 1; 1] 8) 6 = Ok r ∧ wf r ∧
       bval r = 6 * bval (sample [4; 4; 5; 5; 6; 6; 1; 1] 8).
Proof.
  apply (big_num_multi_dig_correct (sample [4; 4; 5; 5; 6; 6; 1; 1] 8) 6); [by apply wfb_wf|lia].
Defined.

(** ** [big_num_append0] *)

Lemma val_shift m m' n a :
  0 ≤ n → 0 ≤ a →
  (∀ j, 0 ≤ j < a → m' !! Z.to_nat j = Some (Some 0)) →
  (∀ j, 0 ≤ j < n → m' !! Z.to_nat (j + a) = m !! Z.to_nat j) →
  val m' (n + a) = val m n * 10 ^ a.
Proof.
  intros Hn Ha H0. pattern n. apply natlike_ind; [|clear n Hn; intros n Hn IH|done]; intros Hs.
  - rewrite Z.add_0_l. unfold val at 2. rewrite wsum_0, Z.mul_0_l.
    rewrite <- (Z.mul_0_l (wsum (λ _, 1) a)), <- wsum_scale. apply wsum_ext. intros j Hj.
    unfold cellv. by rewrite H0.
  - unfold Z.succ in *. replace (n + 1 + a) with (n + a + 1) by lia.
    rewrite !val_succ by lia. rewrite IH by (intros; apply Hs; lia).
    rewrite (cellv_lookup m' m (n + a) n) by (apply Hs; lia). rewrite Z.pow_add_r by lia. ring.
Qed.

Lemma move_up m n a :
  0 ≤ n → 0 < a → n + a ≤ Z.of_nat (length m) → digits m 0 n →
  ∃ m', for_down (n - 1) 0 (λ i m, d ← load_init m i; store_init m (i + a) d) m = Ok m' ∧
    length m' = length m ∧ (∀ k, 0 ≤ k < n → m' !! Z.to_nat (k + a) = m !! Z.to_nat k).
Proof.
  intros Hn Ha Hl D.
  destruct (for_down_inv (λ i m', length m' = length m ∧
      (∀ k, i < k < n → m' !! Z.to_nat (k + a) = m !! Z.to_nat k) ∧
      (∀ k, 0 ≤ k ≤ i → m' !! Z.to_nat k = m !! Z.to_nat k))
    (λ i m, d ← load_init m i; store_init m (i + a) d) (n - 1) 0 m) as (m' & E & H).
  - lia.
  - split; [done|]. split; [intros; lia|done].
  - intros i m' Hi (L & U & O).
    destruct (digits_stable m m' 0 n i D) as [-> R]; [lia|lia|apply O; lia|]. cbn.
    unfold store_init. rewrite store_ok by lia. eexists. split; [reflexivity|].
    rewrite length_insert. split; [done|]. split; intros k Hk; rewrite lookup_insert_Z by lia.
    + case_decide.
      * replace k with i by lia. destruct (D i) as (d & Hd & _); [lia|]. unfold cellv. by rewrite Hd.
      * apply U. lia.
    + rewrite decide_False by lia. apply O. lia.
  - exists m'. destruct H as (L & U & O). split; [done|]. split; [done|].
    intros k Hk. apply U. lia.
Qed.

(** Multiplication by a power of ten. *)
Lemma big_num_append0_spec (b : BigNum) (a : Z) (H : wf b) (Ha : 0 ≤ a) :
  ∃ r, big_num_append0 b a = Ok r ∧ wf r ∧ bval r = bval b * 10 ^ a ∧
    wei r = wei b + a ∧ (wei b + a ≤ arrLen b → arrLen r = arrLen b).
Proof.
  unfold big_num_append0. destruct (Z.leb_spec a 0).
  { exists b. replace a with 0 by lia. rewrite Z.mul_1_r, Z.add_0_r. done. }
  pose proof H as [L C W D].
  destruct (extend_while_lt_spec b (wei b + a)) as (b1 & -> & G & Hcap & Hsame); [done|lia|]. cbn.
  pose proof (grown_wf _ _ H G) as [L1 C1 W1 D1]. pose proof (gr_wei _ _ G) as Ew.
  destruct (move_up (arr b1) (wei b1) a) as (m & -> & Lm & U); [lia|lia|lia|done|]. cbn.
  destruct (fill_range_spec (λ _, 0) (λ i m, store_init m i 0) m 0 a) as (m' & -> & Lm' & Z0 & O);
    [lia|lia|done|]. cbn.
  assert (U' : ∀ k, 0 ≤ k < wei b1 → m' !! Z.to_nat (k + a) = arr b1 !! Z.to_nat k).
  { intros k Hk. rewrite O by lia. by apply U. }
  eexists. split; [reflexivity|]. split; [|split; [|split]]; cbn.
  - split; cbn; [lia|lia|lia|]. intros j Hj. destruct (decide (j < a)).
    + exists 0. split; [apply Z0; lia|lia].
    + replace j with (j - a + a) by lia. rewrite U' by lia. apply D1. lia.
  - unfold bval; cbn [arr wei set_wei set_arr]. rewrite (val_shift (arr b1) m') by (lia || done).
    rewrite Ew. f_equal. by apply (grown_val b b1).
  - lia.
  - intros Hfit. by rewrite Hsame.
Qed.

Example big_num_append0_1124 :
  ∃ r, big_num_append0 (sample [4; 2; 1; 1] 4) 3 = Ok r ∧ wf r ∧
       bval r = bval (sample [4; 2; 1; 1] 4) * 10 ^ 3 ∧ wei r = 4 + 3 ∧
       (wei (sample [4; 2; 1; 1] 4) + 3 ≤ 4 → arrLen r = 4).
Proof. apply (big_num_append0_spec (sample [4; 2; 1; 1] 4) 3); [by apply wfb_wf|lia]. Defined.

(** ** [big_num_add_0] *)

(** The digits a loop left alone contribute what they did before. *)
Lemma val_high m a k n :
  0 ≤ k ≤ n → (∀ j, k ≤ j → a !! Z.to_nat j = m !! Z.to_nat j) →
  val a n - val a k = val m n - val m k.
Proof.
  intros Hkn Ho. replace n with (k + (n - k)) by lia.
  assert (0 ≤ n - k) as Hd by lia. revert Hd. generalize (n - k). intros d Hd. pattern d.
  apply natlike_ind; [|clear d Hd; intros d Hd IH|done].
  - rewrite Z.add_0_r. lia.
  - replace (k + Z.succ d) with (k + d + 1) by lia. rewrite !val_succ by lia.
    rewrite (cellv_lookup a m (k + d) (k + d)) by (apply Ho; lia). lia.
Qed.

(** The common addition loop: position by position [a + b2], from carry 0. *)
Definition add_body (a2 : list cell) (i : Z) : list cell * Z → res (list cell * Z) :=
  λ '(a, next),
    x ← load_init a i;
    y ← load_init a2 i;
    t ← add_int x y;
    s ← add_int t next;
    let '(digit, next) := carry_digit s in
    a ← store_init a i digit;
    mret (a, next).

Lemma add_loop m a2 n :
  0 ≤ n ≤ Z.of_nat (length m) → digits m 0 n → digits a2 0 n →
  ∃ a c, for_range 0 n (add_body a2) (m, 0) = Ok (a, c) ∧ length a = length m ∧
    (∀ j, n ≤ j → a !! Z.to_nat j = m !! Z.to_nat j) ∧ digits a 0 n ∧ 0 ≤ c ≤ 1 ∧
    val a n + c * 10 ^ n = val m n + val a2 n.
Proof.
  intros Hn Dm D2. setoid_rewrite <- wsum_add.
  apply (carry_loop (λ i, cellv m i + cellv a2 i) 1); [done|lia| |].
  - intros i Hi. pose proof (digits_cellv _ _ _ i Dm Hi). pose proof (digits_cellv _ _ _ i D2 Hi). lia.
  - intros i a c Hi La Oa Hc. unfold add_body.
    destruct (digits_stable m a _ _ i Dm Hi ltac:(lia) (Oa i ltac:(lia))) as [-> R1]. cbn.
    destruct (digits_load a2 _ _ i D2 Hi ltac:(lia)) as [-> R2]. cbn.
    rewrite add_int_small by lia. cbn. rewrite add_int_small by lia. cbn.
    by rewrite carry_digit_eq by lia.
Qed.

(** [b1] is below [b2] for the comparison of the code. *)
Definition below (b1 b2 : BigNum) : Prop :=
  wei b1 < wei b2 ∨ (wei b1 = wei b2 ∧ bval b1 < bval b2).

Lemma big_num_cmp_below b1 b2 :
  wf b1 → wf b2 → below b1 b2 → big_num_cmp b1 b2 = Ok (-1).
Proof.
  intros H1 H2 H. rewrite big_num_cmp_spec by done. destruct H as [H|[H Hv]].
  - apply Z.compare_lt_iff in H. by rewrite H.
  - apply Z.compare_eq_iff in H. apply Z.compare_lt_iff in Hv. by rewrite H, Hv.
Qed.

Lemma big_num_cmp_not_below b1 b2 :
  wf b1 → wf b2 → ¬ below b1 b2 → ∃ c, big_num_cmp b1 b2 = Ok c ∧ c ≠ -1.
Proof.
  intros H1 H2 H. rewrite big_num_cmp_spec by done. eexists. split; [reflexivity|].
  destruct (Z.compare_spec (wei b1) (wei b2)) as [E|E|E]; [|destruct H; by left|done].
  destruct (Z.compare_spec (bval b1) (bval b2)) as [F|F|F]; [done| |done].
  destruct H. by right.
Qed.

Lemma below_grown b1 b1' b2 : wf b1 → grown b1 b1' → below b1 b2 ↔ below b1' b2.
Proof.
  intros H G. unfold below. rewrite (gr_wei _ _ G).
  assert (bval b1' = bval b1) as ->; [|done].
  unfold bval. rewrite (gr_wei _ _ G). by apply grown_val.
Qed.

(** The block of [b1] after an extension and the zeroing of its unused part. *)
Lemma zero_tail b b1 :
  wf b → grown b b1 →
  ∃ a, for_range (wei b1) (arrLen b1) (λ i a, store_init a i 0) (arr b1) = Ok a ∧
    Z.of_nat (length a) = arrLen b1 ∧ digits a 0 (arrLen b1) ∧
    (∀ k, wei b ≤ k < arrLen b1 → a !! Z.to_nat k = Some (Some 0)) ∧
    (∀ k, wei b ≤ k ≤ arrLen b1 → val a k = bval b).
Proof.
  intros H G. pose proof (grown_wf _ _ H G) as [L1 C1 W1 D1]. pose proof (gr_wei _ _ G) as Ew.
  destruct (fill_range_spec (λ _, 0) (λ i a, store_init a i 0) (arr b1) (wei b1) (arrLen b1))
    as (a & -> & La & Da & Oa); [lia|lia|done|]. rewrite Ew in *.
  eexists. split; [reflexivity|]. split; [lia|]. split; [|split; [done|]].
  - intros j Hj. destruct (decide (j < wei b)).
    + rewrite Oa by lia. apply D1. lia.
    + exists 0. split; [apply Da; lia|lia].
  - intros k Hk. rewrite <- (grown_val b b1 H G).
    rewrite <- (val_ext a (arr b1) (wei b)) by (intros j Hj; apply Oa; lia).
    replace k with (wei b + (k - wei b)) by lia.
    assert (0 ≤ k - wei b) as Hd by lia. assert (k - wei b ≤ arrLen b1 - wei b) as Hu by lia.
    revert Hu. generalize (k - wei b) Hd. intros d Hd'. pattern d.
    apply natlike_ind; [|intros e He IH|done]; intros Hu; [by rewrite Z.add_0_r|].
    replace (wei b + Z.succ e) with (wei b + e + 1) by lia.
    rewrite val_succ, IH by lia. unfold cellv. rewrite Da by lia. ring.
Qed.

Lemma zero_fill b n :
  wf b → wei b ≤ n →
  ∃ b', (b' ← extend_while_lt b n;
         a ← for_range (wei b') (arrLen b') (λ i a, store_init a i 0) (arr b');
         mret (set_arr b' a)) = Ok b' ∧
    Z.of_nat (length (arr b')) = arrLen b' ∧ Z.max n (arrLen b) ≤ arrLen b' ∧
    wei b' = wei b ∧ digits (arr b') 0 (arrLen b') ∧
    (∀ k, wei b ≤ k < arrLen b' → arr b' !! Z.to_nat k = Some (Some 0)) ∧
    (∀ k, wei b ≤ k ≤ arrLen b' → val (arr b') k = bval b).
Proof.
  intros H Hn. pose proof H as [L C W D].
  destruct (extend_while_lt_spec b n) as (b1 & -> & G & Hcap & _); [done|lia|]. cbn.
  pose proof (gr_cap _ _ G). destruct (zero_tail b b1 H G) as (a & -> & La & Da & Z0 & V). cbn.
  eexists. split; [reflexivity|]. cbn. split; [done|]. split; [lia|]. split; [apply (gr_wei _ _ G)|].
  done.
Qed.

(** The part of [big_num_add_0] after the comparison. *)
Definition add_0_tail (b1 b2 : BigNum) : res BigNum :=
  '(a, next) ← for_range 0 (wei b2) (add_body (arr b2)) (arr b1, 0);
  let w := if wei b1 <? wei b2 then wei b2 else wei b1 in
  if next =? 1 then
    x ← load_init a w;
    x ← add_int x 1;
    a ← store_init a w x;
    mret (set_wei (set_arr b1 a) (w + 1))
  else mret (set_wei (set_arr b1 a) w).

Lemma big_num_add_0_unfold b1 b2 :
  big_num_add_0 b1 b2 =
    (let b := if wei b1 =? arrLen b1 then extend_big_num b1 else b1 in
     flag ← big_num_cmp b b2;
     b ← (if flag =? -1 then
            b ← extend_while_lt b (arrLen b2);
            a ← for_range (wei b) (arrLen b) (λ i a, store_init a i 0) (arr b);
            mret (set_arr b a)
          else mret b);
     add_0_tail b b2).
Proof. reflexivity. Qed.

(** The sum when [b1] is below [b2]: the block of [b1] ends up with [K] zeroed
    cells, and the only way to fail is a carry that has no cell to go to. *)
Lemma add_0_below b1 b2 :
  wf b1 → wf b2 → below b1 b2 →
  ∃ K, Z.max (arrLen b1) (arrLen b2) ≤ K ∧
    (bval b1 + bval b2 < 10 ^ wei b2 ∨ wei b2 < K →
       ∃ r, big_num_add_0 b1 b2 = Ok r ∧ wf r ∧ bval r = bval b1 + bval b2 ∧ arrLen r = K ∧
         wei r = wei b2 + (if bval b1 + bval b2 <? 10 ^ wei b2 then 0 else 1)) ∧
    (10 ^ wei b2 ≤ bval b1 + bval b2 → K ≤ wei b2 → big_num_add_0 b1 b2 = Err OutOfBounds).
Proof.
  intros H1 H2 Hb. rewrite big_num_add_0_unfold.
  set (b := if _ =? _ then _ else _).
  assert (G : grown b1 b) by (apply grown_if, H1). pose proof (grown_wf _ _ H1 G) as Hwf.
  assert (Hb' : below b b2) by (by apply (below_grown b1 b b2 H1 G)).
  assert (Ev : bval b = bval b1) by (unfold bval; rewrite (gr_wei _ _ G); by apply grown_val).
  pose proof (gr_cap _ _ G) as Hcap. clearbody b. cbn zeta.
  rewrite big_num_cmp_below by done. rewrite bind_ok, Z.eqb_refl.
  pose proof H2 as [L2 C2 W2 D2].
  assert (Hw : wei b ≤ wei b2) by (destruct Hb'; lia).
  destruct (zero_fill b (arrLen b2) Hwf) as (b' & -> & L & Cp & Ew & Da & Z0 & V); [lia|].
  rewrite bind_ok. exists (arrLen b'). split; [lia|].
  destruct (add_loop (arr b') (arr b2) (wei b2)) as (a & c & E & La & Oa & Dr & Hc & Vr);
    [lia|eapply digits_sub; [exact Da|lia|lia]|done|].
  rewrite V in Vr by lia. fold (bval b2) in Vr. rewrite Ev in Vr.
  pose proof (val_bound a (wei b2) ltac:(lia) Dr) as Ba.
  assert (Hc1 : c = if bval b1 + bval b2 <? 10 ^ wei b2 then 0 else 1).
  { destruct (Z.ltb_spec (bval b1 + bval b2) (10 ^ wei b2)); nia. }
  assert (Hwif : (if wei b' <? wei b2 then wei b2 else wei b') = wei b2).
  { destruct (Z.ltb_spec (wei b') (wei b2)); lia. }
  assert (Ht : add_0_tail b' b2 = finish b' a (wei b2) c).
  { unfold add_0_tail, finish. rewrite E, bind_ok, Hwif.
    assert (c = 0 ∨ c = 1) as [-> | ->] by lia; [done|]. cbn.
    destruct (Z.ltb_spec (wei b2) (arrLen b')) as [Hlt|Hge].
    - rewrite (load_init_ok _ _ 0) by (try lia; rewrite Oa by lia; apply Z0; lia). done.
    - unfold load_init, store_init. rewrite load_oob, store_oob by lia. done. }
  rewrite Ht. split.
  - intros Hroom. destruct (finish_ok b' a (wei b2) c) as (r & -> & Wr & Vr' & Cr & Nr); try done; try lia.
    { intros Hc0. destruct Hroom as [Hlt|]; [|done]. apply Z.ltb_lt in Hlt. by rewrite Hlt in Hc1. }
    exists r. split; [done|]. split; [done|]. split; [lia|]. split; [lia|]. rewrite Nr, Hc1.
    by destruct (_ <? _).
  - intros Hge Hk. apply Z.ltb_ge in Hge. rewrite Hge in Hc1. subst c.
    apply finish_oob; [lia|done|done].
Qed.

(** The sum when [b1] is not below [b2] and the low digits produce no carry. *)
Lemma add_0_above b1 b2 :
  wf b1 → wf b2 → ¬ below b1 b2 → val (arr b1) (wei b2) + bval b2 < 10 ^ wei b2 →
  ∃ r, big_num_add_0 b1 b2 = Ok r ∧ wf r ∧ bval r = bval b1 + bval b2 ∧
    wei r = wei b1 ∧ arrLen b1 ≤ arrLen r.
Proof.
  intros H1 H2 Hb Hnc. rewrite big_num_add_0_unfold.
  assert (Hw : wei b2 ≤ wei b1) by (unfold below in Hb; lia).
  set (b := if _ =? _ then _ else _).
  assert (G : grown b1 b) by (apply grown_if, H1). pose proof (grown_wf _ _ H1 G) as Hwf.
  assert (Hb' : ¬ below b b2) by (by rewrite <- (below_grown b1 b b2 H1 G)).
  pose proof (grown_val b1 b H1 G) as Ev. pose proof (gr_wei _ _ G) as Ew.
  pose proof (gr_cap _ _ G) as Hcap.
  assert (El : val (arr b) (wei b2) = val (arr b1) (wei b2)).
  { apply val_ext. intros j Hj. apply (gr_cells _ _ G). destruct H1. lia. }
  clearbody b. cbn zeta.
  destruct (big_num_cmp_not_below b b2) as (f & -> & Hf); [done..|]. rewrite bind_ok.
  destruct (Z.eqb_spec f (-1)); [done|]. unfold mret, res_ret. rewrite bind_ok.
  pose proof H2 as [L2 C2 W2 D2]. pose proof Hwf as [L C W D].
  destruct (add_loop (arr b) (arr b2) (wei b2)) as (a & c & E & La & Oa & Dr & Hc & Vr);
    [lia|eapply digits_sub; [exact D|lia|lia]|done|].
  pose proof (val_bound a (wei b2) ltac:(lia) Dr) as Ba. fold (bval b2) in Vr. rewrite El in Vr.
  assert (c = 0) as -> by nia.
  assert (Hwif : (if wei b <? wei b2 then wei b2 else wei b) = wei b1).
  { destruct (Z.ltb_spec (wei b) (wei b2)); lia. }
  unfold add_0_tail. rewrite E, bind_ok, Hwif. cbn [Z.eqb].
  eexists. split; [reflexivity|]. split; [|split; [|split]]; cbn; try done.
  - split; cbn; [lia|lia|lia|]. intros j Hj. destruct (decide (j < wei b2)).
    + apply Dr. lia.
    + rewrite Oa by lia. apply D. lia.
  - unfold bval at 1; cbn [arr wei set_wei set_arr].
    pose proof (val_high (arr b) a (wei b2) (wei b1) ltac:(lia) Oa). lia.
Qed.

(** ** [big_num_multi] *)

Lemma normal_value b : wf b → normal b ↔ (wei b = 1 ∨ 10 ^ (wei b - 1) ≤ bval b).
Proof.
  intros H. split; [by apply normal_lower|]. intros [|Hv]; [by left|]. right. intros Hz.
  destruct H as [L C W D]. pose proof (val_top (arr b) (wei b) ltac:(lia) D) as Ht.
  unfold bval in Hv. rewrite Hz in Ht. lia.
Qed.

Lemma get_zero_spec : ∃ r, get_zero = Ok r ∧ wf r ∧ bval r = 0 ∧ wei r = 1 ∧ arrLen r = 2.
Proof.
  eexists. split; [reflexivity|]. split; [|done].
  split; cbn; [done|lia|lia|]. intros j Hj. exists 0. by replace j with 0 by lia.
Qed.

Definition multi_body (b1 b2 : BigNum) (i : Z) (r : BigNum) : res BigNum :=
  w ← load_init (arr b2) i;
  newBg ← get_zero;
  newBg ← big_num_cpy newBg b1;
  newBg ← big_num_multi_dig newBg w;
  newBg ← big_num_append0 newBg i;
  big_num_add_0 r newBg.

(** The partial product [w · b1 · 10^i] of one round. *)
Definition partial (b1 : BigNum) (w i : Z) : res BigNum :=
  newBg ← get_zero;
  newBg ← big_num_cpy newBg b1;
  newBg ← big_num_multi_dig newBg w;
  big_num_append0 newBg i.

Lemma multi_body_partial b1 b2 i r :
  multi_body b1 b2 i r =
    (w ← load_init (arr b2) i; N ← partial b1 w i; big_num_add_0 r N).
Proof.
  unfold multi_body, partial. apply bind_ext. intros w _. rewrite bind_assoc. apply bind_ext.
  intros z _. rewrite bind_assoc. apply bind_ext. intros n0 _. by rewrite bind_assoc.
Qed.

Lemma partial_product b1 w i :
  wf b1 → 0 ≤ w ≤ 9 → 0 ≤ i →
  ∃ N, partial b1 w i = Ok N ∧ wf N ∧ bval N = w * bval b1 * 10 ^ i ∧
    (w = 0 → wei N = i + 1) ∧
    (w ≠ 0 → wei b1 + i ≤ wei N ≤ wei b1 + 1 + i ∧
       (10 ^ (wei b1 - 1) ≤ bval b1 → 10 ^ (wei N - 1) ≤ bval N)) ∧
    (wei b1 + i + 1 < arrLen b1 → arrLen N = arrLen b1).
Proof.
  intros H1 Hw Hi. unfold partial. destruct get_zero_spec as (z & -> & Hz & _ & _ & Cz). rewrite bind_ok.
  destruct (big_num_cpy_spec z b1) as (n0 & -> & H0 & V0 & W0 & C0 & _);
    [apply Hz|done|]. rewrite bind_ok.
  pose proof (wf_cap _ H1). pose proof (wf_wei _ H1).
  destruct (decide (w = 0)) as [->|Hw0].
  - destruct (multi_dig_zero n0 H0) as (n1 & -> & H1' & V1 & W1 & C1). rewrite bind_ok.
    destruct (big_num_append0_spec n1 i H1' Hi) as (N & -> & HN & VN & WN & CN).
    exists N. split; [done|]. split; [done|]. split; [rewrite VN, V1; ring|]. split; [lia|].
    split; [done|]. intros Hc. rewrite CN; lia.
  - destruct (multi_dig_pos n0 w H0) as (n1 & -> & H1' & V1 & W1 & C1 & Lo1); [lia|]. rewrite bind_ok.
    destruct (big_num_append0_spec n1 i H1' Hi) as (N & -> & HN & VN & WN & CN).
    exists N. split; [done|]. split; [done|]. split; [rewrite VN, V1, V0; ring|]. split; [done|].
    split; [|intros Hc; rewrite CN; lia].
    intros _. split; [lia|]. intros Hlo. rewrite VN, WN.
    rewrite V0, W0 in Lo1. specialize (Lo1 Hlo).
    replace (wei n1 + i - 1) with (wei n1 - 1 + i) by lia. rewrite Z.pow_add_r by lia.
    assert (0 < 10 ^ i) by (apply Z.pow_pos_nonneg; lia). nia.
Qed.

(** What holds before round [i]. *)
Definition multi_inv (b1 b2 : BigNum) (i : Z) (r : BigNum) : Prop :=
  wf r ∧ bval r = bval b1 * val (arr b2) i ∧ wei r ≤ wei b1 + i ∧
  (i ≤ 1 → (i = 1 → cellv (arr b2) 0 = 0) → wei r = 1) ∧
  (1 ≤ i → cellv (arr b2) (i - 1) ≠ 0 → 10 ^ (wei r - 1) ≤ bval r).

(** Round [i] in the case of a digit 0. *)
Lemma multi_step_zero b1 b2 i r :
  wf b1 → wf b2 → 0 ≤ i < wei b2 → cellv (arr b2) i = 0 → multi_inv b1 b2 i r →
  ∃ r', multi_body b1 b2 i r = Ok r' ∧ multi_inv b1 b2 (i + 1) r'.
Proof.
  intros H1 H2 Hi Hw (Hr & Vr & Wr & One & Lo). rewrite multi_body_partial.
  destruct (digits_load _ _ _ i (wf_digits _ H2)) as [-> Rw]; [lia|lia|]. rewrite bind_ok, Hw.
  destruct (partial_product b1 0 i) as (N & E & HN & VN & WN & _); [done|lia|lia|].
  specialize (WN eq_refl). rewrite !Z.mul_0_l in VN. rewrite E, bind_ok.
  pose proof (wf_wei _ H1) as W1. pose proof (wf_wei _ Hr) as Wr'. pose proof (bval_bound r Hr) as Br.
  assert (Hres : ∃ r', big_num_add_0 r N = Ok r' ∧ wf r' ∧ bval r' = bval r ∧
                       wei r' = Z.max (wei r) (i + 1)).
  { destruct (decide (wei r < wei N)) as [Hlt|Hge].
    - destruct (add_0_below r N) as (K & _ & Hok & _); [done|done|by left|].
      assert (bval r + bval N < 10 ^ wei N) as Hs.
      { rewrite VN. assert (10 ^ wei r ≤ 10 ^ wei N) by (apply Z.pow_le_mono_r; lia). lia. }
      destruct (Hok (or_introl Hs)) as (r' & ? & ? & V' & _ & W'). exists r'. split; [done|]. split; [done|]. split; [lia|].
      apply Z.ltb_lt in Hs. rewrite Hs in W'. lia.
    - destruct (add_0_above r N) as (r' & ? & ? & V' & W' & _); [done|done| | |].
      + unfold below. pose proof (bval_bound r Hr). lia.
      + rewrite VN, Z.add_0_r. apply val_bound; [lia|]. eapply digits_sub; [apply Hr|lia|lia].
      + exists r'. split; [done|]. split; [done|]. lia. }
  destruct Hres as (r' & -> & H' & V' & W'). exists r'. split; [done|].
  split; [done|]. split; [rewrite V', Vr, val_succ, Hw by lia; ring|]. split; [lia|]. split.
  - intros Hi1 Hc. assert (i = 0) as -> by lia. rewrite W', One by lia. done.
  - intros _. by replace (i + 1 - 1) with i by lia.
Qed.

(** The product by the digits below [i] is below the partial product of digit
    [i], and their sum has a cell for each of its digits but the last. *)
Lemma partial_room b1 b2 i :
  wf b1 → wf b2 → 0 ≤ i < wei b2 → 0 < cellv (arr b2) i → 0 < bval b1 →
  bval b1 * val (arr b2) i < cellv (arr b2) i * bval b1 * 10 ^ i ∧
  bval b1 * val (arr b2) i + cellv (arr b2) i * bval b1 * 10 ^ i < 10 ^ (wei b1 + i + 1).
Proof.
  intros H1 H2 Hi Hw Hpos. pose proof (wf_wei _ H1) as W1.
  assert (Hv : ∀ k, 0 ≤ k ≤ wei b2 → 0 ≤ val (arr b2) k < 10 ^ k).
  { intros k Hk. apply val_bound; [lia|]. eapply digits_sub; [apply H2|lia|lia]. }
  pose proof (Hv i ltac:(lia)) as Bd. pose proof (Hv (i + 1) ltac:(lia)) as Bs.
  assert (Bb : bval b1 < 10 ^ wei b1) by (by apply bval_bound).
  assert (0 < 10 ^ i) by (apply Z.pow_pos_nonneg; lia). split.
  - assert (bval b1 * val (arr b2) i < bval b1 * 10 ^ i) by nia. assert (0 < bval b1 * 10 ^ i) by nia. nia.
  - replace (bval b1 * val (arr b2) i + cellv (arr b2) i * bval b1 * 10 ^ i) with (bval b1 * val (arr b2) (i + 1))
      by (rewrite val_succ by lia; ring).
    replace (wei b1 + i + 1) with (wei b1 + (i + 1)) by lia. rewrite Z.pow_add_r by lia.
    apply Z.mul_lt_mono_nonneg; lia.
Qed.

(** Round [i] in the case of a digit other than 0: the product so far is below
    the partial product, so the sum is right unless its carry has no cell. *)
Lemma multi_step_pos b1 b2 i r :
  wf b1 → normal b1 → wf b2 → 0 ≤ i < wei b2 → cellv (arr b2) i ≠ 0 → 0 < bval b1 →
  multi_inv b1 b2 i r →
  (∃ r', multi_body b1 b2 i r = Ok r' ∧ multi_inv b1 b2 (i + 1) r') ∨
  (multi_body b1 b2 i r = Err OutOfBounds ∧ 1 ≤ i ∧ arrLen b1 ≤ wei b1 + i + 1).
Proof.
  intros H1 N1 H2 Hi Hw Hpos (Hr & Vr & Wr & One & Lo). rewrite multi_body_partial.
  destruct (digits_load _ _ _ i (wf_digits _ H2)) as [-> Rw]; [lia|lia|]. rewrite bind_ok.
  set (w := cellv (arr b2) i) in *.
  destruct (partial_product b1 w i) as (N & -> & HN & VN & _ & WN & CN); [done|lia|lia|].
  rewrite bind_ok. destruct (WN Hw) as [WN1 LoN].
  pose proof (wf_wei _ H1) as W1. pose proof (wf_wei _ Hr) as Wr'.
  assert (Hlo1 : 10 ^ (wei b1 - 1) ≤ bval b1).
  { destruct (normal_lower _ H1 N1) as [->|]; [cbn; lia|done]. }
  specialize (LoN Hlo1).
  destruct (partial_room b1 b2 i H1 H2 Hi ltac:(lia) Hpos) as [Hlt Hup]. fold w in Hlt, Hup. rewrite <- Vr, <- VN in Hlt, Hup.
  assert (Hbelow : below r N) by (unfold below; lia).
  assert (Htot : bval r + bval N = bval b1 * val (arr b2) (i + 1)).
  { rewrite Vr, VN, val_succ by lia. fold w. ring. }
  pose proof (bval_bound r Hr) as Br.
  destruct (add_0_below r N) as (K & HK & Hok & Hbad); [done..|].
  destruct (decide (bval r + bval N < 10 ^ wei N ∨ wei N < K)) as [Hroom|Hroom].
  - left. destruct (Hok Hroom) as (r' & -> & H' & V' & _ & W'). exists r'. split; [done|].
    assert (Hwr : wei r' ≤ wei b1 + (i + 1)).
    { rewrite W'. destruct (Z.ltb_spec (bval r + bval N) (10 ^ wei N)); [lia|].
      assert (wei N < wei b1 + i + 1) by (eapply Z.pow_lt_mono_r_iff with 10; lia). lia. }
    split; [done|]. split; [lia|]. split; [done|]. split.
    + intros Hi1 Hc. assert (i = 0) as -> by lia. by destruct Hw; apply Hc.
    + intros _ _. rewrite V', W'. destruct (Z.ltb_spec (bval r + bval N) (10 ^ wei N)).
      * rewrite Z.add_0_r. lia.
      * replace (wei N + 1 - 1) with (wei N) by lia. done.
  - right. assert (10 ^ wei N ≤ bval r + bval N ∧ K ≤ wei N) as [Hge Hk] by lia.
    split; [by apply Hbad|]. split.
    + destruct (decide (1 ≤ i)); [done|]. exfalso. assert (i = 0) as -> by lia.
      assert (bval r = 0) as E0 by (rewrite Vr; unfold val; rewrite wsum_0; lia).
      pose proof (bval_bound N HN). lia.
    + destruct (decide (wei b1 + i + 1 < arrLen b1)) as [Hc|]; [|lia]. specialize (CN Hc). lia.
Qed.

(** The loop over the digits of the smaller factor. *)
Lemma multi_loop b1 b2 z :
  wf b1 → normal b1 → wf b2 → normal b2 → bval b2 ≤ bval b1 →
  wf z → bval z = 0 → wei z = 1 →
  (∃ r, for_range 0 (wei b2) (multi_body b1 b2) z = Ok r ∧ wf r ∧ normal r ∧
        bval r = bval b1 * bval b2) ∨
  (for_range 0 (wei b2) (multi_body b1 b2) z = Err OutOfBounds ∧
   1 < wei b2 ∧ arrLen b1 ≤ wei b1 + wei b2).
Proof.
  intros H1 N1 H2 N2 Hle Hz Vz Wz. pose proof (wf_wei _ H2) as W2. pose proof (wf_wei _ H1) as W1.
  assert (Hpos : ∀ i, 0 ≤ i < wei b2 → cellv (arr b2) i ≠ 0 → 0 < bval b1).
  { intros i Hi Hc. destruct (normal_lower _ H2 N2) as [E|Hl].
    - assert (i = 0) as -> by lia. pose proof (digits_cellv _ _ _ 0 (wf_digits _ H2) ltac:(lia)).
      assert (bval b2 = cellv (arr b2) 0); [|lia].
      unfold bval. rewrite E. replace 1 with (0 + 1) by lia. rewrite val_succ by lia.
      unfold val. rewrite wsum_0. lia.
    - assert (0 < 10 ^ (wei b2 - 1)) by (apply Z.pow_pos_nonneg; lia). lia. }
  assert (Hinit : multi_inv b1 b2 0 z).
  { split; [done|]. split; [rewrite Vz; unfold val; rewrite wsum_0; lia|]. split; [lia|].
    split; [done|lia]. }
  destruct (decide (wei b2 = 1 ∨ wei b1 + wei b2 < arrLen b1)) as [Hsafe|Hunsafe].
  - left. destruct (for_range_inv (multi_inv b1 b2) (multi_body b1 b2) 0 (wei b2) z)
      as (r & E & Hr & Vr & _ & One & Lo); [lia|done| |].
    + intros i s Hi Hs. destruct (decide (cellv (arr b2) i = 0)); [by apply multi_step_zero|].
      destruct (multi_step_pos b1 b2 i s) as [|(_ & ? & ?)]; [eauto..| |]; [done|lia].
    + exists r. split; [done|]. split; [done|]. split; [|done]. apply normal_value; [done|].
      destruct N2 as [E2|Ht]; [|right; apply Lo; [lia|done]].
      destruct (decide (cellv (arr b2) 0 = 0)); [left; apply One; [lia|done]|].
      right. apply Lo; [lia|]. by rewrite E2.
  - destruct (for_range_inv_err (multi_inv b1 b2) (multi_body b1 b2) OutOfBounds 0 (wei b2) z)
      as [(r & E & Hr & Vr & _ & One & Lo)|E]; [lia|done| | |].
    + intros i s Hi Hs. destruct (decide (cellv (arr b2) i = 0)); [left; by apply multi_step_zero|].
      destruct (multi_step_pos b1 b2 i s) as [|(? & _)]; eauto.
    + left. exists r. split; [done|]. split; [done|]. split; [|done]. apply normal_value; [done|].
      right. destruct N2 as [E2|Ht]; [lia|apply Lo; [lia|done]].
    + right. split; [done|]. lia.
Qed.

Lemma big_num_multi_unfold p1 p2 :
  big_num_multi p1 p2 =
    (r ← get_zero; c ← big_num_cmp p1 p2;
     let b1 := if c =? -1 then p2 else p1 in
     let b2 := if c =? -1 then p1 else p2 in
     for_range 0 (wei b2) (multi_body b1 b2) r).
Proof. reflexivity. Qed.

Lemma normal_wei_le p q : wf p → wf q → normal p → bval p ≤ bval q → wei p ≤ wei q.
Proof.
  intros Hp Hq Np Hle. destruct (Z.le_gt_cases (wei p) (wei q)) as [|Hgt]; [done|].
  pose proof (normal_wei_lt q p Hq Hp Np ltac:(lia)). lia.
Qed.

(** The product, up to the exchange of the factors. *)
Lemma big_num_multi_cases p1 p2 :
  wf p1 → wf p2 → normal p1 → normal p2 →
  (∃ r, big_num_multi p1 p2 = Ok r ∧ wf r ∧ normal r ∧ bval r = bval p1 * bval p2) ∨
  (big_num_multi p1 p2 = Err OutOfBounds ∧ 1 < wei p1 ∧ 1 < wei p2 ∧
   Z.min (arrLen p1) (arrLen p2) ≤ wei p1 + wei p2).
Proof.
  intros H1 H2 N1 N2. rewrite big_num_multi_unfold.
  destruct get_zero_spec as (z & -> & Hz & Vz & Wz & _). rewrite bind_ok.
  rewrite big_num_cmp_normal by done. rewrite bind_ok. cbn zeta.
  destruct (Z.le_gt_cases (bval p2) (bval p1)) as [E|E].
  - replace (cmp_code (bval p1 ?= bval p2) =? -1) with false
      by (destruct (Z.compare_spec (bval p1) (bval p2)); done || lia).
    pose proof (normal_wei_le p2 p1 H2 H1 N2 ltac:(lia)).
    destruct (multi_loop p1 p2 z) as [|(? & ? & ?)]; [done..|by left|right]. split; [done|lia].
  - rewrite cmp_code_lt by done. rewrite (Z.mul_comm (bval p1)).
    pose proof (normal_wei_le p1 p2 H1 H2 N1 ltac:(lia)).
    destruct (multi_loop p2 p1 z) as [|(? & ? & ?)]; [done..|lia|done|done|done|by left|right].
    split; [done|lia].
Qed.

(** Enough room. *)
Lemma big_num_multi_capacity (p1 p2 : BigNum)
    (H1 : wf p1) (H2 : wf p2) (N1 : normal p1) (N2 : normal p2)
    (Hcap : wei p1 = 1 ∨ wei p2 = 1 ∨ wei p1 + wei p2 < Z.min (arrLen p1) (arrLen p2)) :
  ∃ r, big_num_multi p1 p2 = Ok r ∧ wf r ∧ normal r ∧ bval r = bval p1 * bval p2.
Proof.
  destruct (big_num_multi_cases p1 p2) as [|(_ & ? & ? & ?)]; auto. lia.
Qed.

(** C3: For two well-formed numbers without leading zeros, big_num_multi either returns a
    well-formed number without leading zeros whose value is the product, or stores past the
    end of the accumulator block; it returns the product whenever one factor has a single
    digit or both blocks are longer than the digits of the factors together. *)
Theorem big_num_multi_correct (p1 p2 : BigNum)
    (H1 : wf p1) (H2 : wf p2) (N1 : normal p1) (N2 : normal p2) :
  ((∃ r, big_num_multi p1 p2 = Ok r ∧ wf r ∧ normal r ∧ bval r = bval p1 * bval p2) ∨
   big_num_multi p1 p2 = Err OutOfBounds) ∧
  (wei p1 = 1 ∨ wei p2 = 1 ∨ wei p1 + wei p2 < Z.min (arrLen p1) (arrLen p2) →
   ∃ r, big_num_multi p1 p2 = Ok r ∧ wf r ∧ normal r ∧ bval r = bval p1 * bval p2).
Proof.
  split; [|by apply big_num_multi_capacity].
  destruct (big_num_multi_cases p1 p2) as [|[? _]]; auto.
Qed.

Lemma big_num_multi_witness :
  ∃ r, big_num_multi (sample [9; 9; 9] 8) (sample [1; 1] 8) = Ok r ∧ wf r ∧ normal r ∧
       bval r = 999 * 11.
Proof.
  apply (big_num_multi_correct (sample [9; 9; 9] 8) (sample [1; 1] 8));
    [by apply wfb_wf|by apply wfb_wf|by apply normalb_normal|by apply normalb_normal|].
  right. right. reflexivity.
Defined.
