(* ===== verification/BigNumConv.v ===== *)
(** Conversions to [BigNum], its two-operand addition and its factorial. *)
From S2P Require Import Prelude BigNum BigNumSpec BigNumMul.

(** ** [my_pow], [count_int_bit], [int_to_big_num] *)

Lemma my_pow_10 k : 0 ≤ k ≤ 9 → my_pow 10 k = Ok (10 ^ k).
Proof.
  intros Hk. assert (k = 0 ∨ k = 1 ∨ k = 2 ∨ k = 3 ∨ k = 4 ∨ k = 5 ∨ k = 6 ∨ k = 7 ∨ k = 8 ∨ k = 9)
    as Hc by lia.
  repeat destruct Hc as [-> | Hc]; [reflexivity..|]. by subst.
Qed.

Lemma my_pow_10_overflow : my_pow 10 10 = Err SignedOverflow.
Proof. reflexivity. Qed.

Lemma count_int_bit_loop_spec fuel n m :
  (1 ≤ fuel)%nat → 0 ≤ n ≤ 100 → 0 ≤ m < 10 ^ Z.of_nat fuel → n + Z.of_nat fuel ≤ 100 →
  ∃ d, count_int_bit_loop fuel n m = Ok (n + d) ∧ 1 ≤ d ≤ Z.of_nat fuel ∧ m < 10 ^ d ∧
       (d = 1 ∨ 10 ^ (d - 1) ≤ m).
Proof.
  revert n m. induction fuel as [|fuel IH]; intros n m Hf Hn Hm Hs; [lia|]. cbn [count_int_bit_loop].
  rewrite add_int_small by lia. cbn. rewrite c_div_nonneg by lia. cbn.
  pose proof (Z.div_mod m 10 ltac:(lia)). pose proof (Z.mod_pos_bound m 10 ltac:(lia)).
  destruct (Z.ltb_spec 0 (m / 10)) as [Hq|Hq].
  - destruct fuel as [|fuel]; [cbn in Hm; lia|].
    destruct (IH (n + 1) (m / 10)) as (d & -> & Hd & Hu & Hl); [lia|lia| |lia|].
    { split; [lia|]. apply Z.div_lt_upper_bound; [lia|].
      rewrite (Nat2Z.inj_succ (S fuel)), Z.pow_succ_r in Hm by lia. lia. }
    exists (d + 1). split; [f_equal; lia|]. split; [lia|]. rewrite Z.pow_add_r, Z.pow_1_r by lia.
    split; [lia|]. right. replace (d + 1 - 1) with d by lia.
    destruct Hl as [->|Hl]; [lia|]. rewrite (pow10_split d) by lia. lia.
  - exists 1. split; [done|]. split; [lia|]. split; [lia|by left].
Qed.

Lemma count_int_bit_spec m :
  0 ≤ m ≤ INT_MAX →
  ∃ d, count_int_bit m = Ok d ∧ 1 ≤ d ≤ 10 ∧ m < 10 ^ d ∧ (d = 1 ∨ 10 ^ (d - 1) ≤ m).
Proof.
  intros Hm. destruct (count_int_bit_loop_spec 10 0 m) as (d & E & H); [lia|lia| |lia|by exists d].
  unfold INT_MAX in Hm. cbn. lia.
Qed.

(** The decimal digits the loop extracts sum up to the number. *)
Lemma wsum_digits m n :
  0 ≤ m → 0 ≤ n → wsum (λ j, m mod 10 ^ (j + 1) / 10 ^ j) n = m mod 10 ^ n.
Proof.
  intros Hm Hn. pattern n. apply natlike_ind; [|clear n Hn; intros n Hn IH|done].
  - rewrite wsum_0, Z.mod_1_r. done.
  - unfold Z.succ. rewrite wsum_succ, IH by lia.
    assert (0 < 10 ^ n) by (apply Z.pow_pos_nonneg; lia).
    rewrite Z.pow_add_r, Z.pow_1_r by lia. rewrite (Z.mul_comm (10 ^ n) 10), Z.mul_comm.
    rewrite (Z.mul_comm 10), Z.rem_mul_r by lia.
    rewrite (Z.mul_comm (10 ^ n) (m / 10 ^ n mod 10)), Z.div_add by lia.
    rewrite (Z.div_small (m mod 10 ^ n)) by (apply Z.mod_pos_bound; lia). ring.
Qed.

Lemma digit_range m j : 0 ≤ j → 0 ≤ m mod 10 ^ (j + 1) / 10 ^ j < 10.
Proof.
  intros Hj. assert (0 < 10 ^ j) by (apply Z.pow_pos_nonneg; lia).
  pose proof (Z.mod_pos_bound m (10 ^ (j + 1)) ltac:(apply Z.pow_pos_nonneg; lia)) as Hm.
  rewrite Z.pow_add_r, Z.pow_1_r in * by lia. split.
  - apply Z.div_pos; lia.
  - apply Z.div_lt_upper_bound; lia.
Qed.

(** One round of the digit loop of [int_to_big_num]. *)
Definition int_digit_body (m i : Z) (a : list cell) : res (list cell) :=
  p ← my_pow 10 i;
  x ← c_mod m p;
  q ← my_pow 10 (i - 1);
  dig ← c_div x q;
  store_init a (i - 1) dig.

Lemma int_digit_body_ok m i a :
  0 ≤ m → 1 ≤ i ≤ 9 →
  int_digit_body m i a = store_init a (i - 1) (m mod 10 ^ i / 10 ^ (i - 1)).
Proof.
  intros Hm Hi. assert (0 < 10 ^ i) by (apply Z.pow_pos_nonneg; lia).
  assert (0 < 10 ^ (i - 1)) by (apply Z.pow_pos_nonneg; lia).
  pose proof (Z.mod_pos_bound m (10 ^ i) ltac:(done)).
  unfold int_digit_body. rewrite (my_pow_10 i), (my_pow_10 (i - 1)) by lia.
  rewrite bind_ok, c_mod_nonneg, bind_ok, bind_ok, c_div_nonneg by lia. done.
Qed.

(** The block before the digits are written. *)
Lemma fresh_block n :
  ∃ z b, get_zero = Ok z ∧ extend_while_lt z n = Ok b ∧
    Z.of_nat (length (arr b)) = arrLen b ∧ Z.max 2 n ≤ arrLen b.
Proof.
  destruct get_zero_spec as (z & E & Hz & _ & _ & Cz). exists z.
  destruct (extend_while_lt_spec z n) as (b & Eb & G & Hcap & _); [apply Hz|lia|].
  exists b. split; [done|]. split; [done|]. pose proof (gr_cap _ _ G).
  split; [apply (gr_len _ _ G)|lia].
Qed.

(** Conversion of an [int] below 10^9. *)
Lemma int_to_big_num_small (m : Z) (Hm : 0 ≤ m < 10 ^ 9) :
  ∃ b, int_to_big_num m = Ok b ∧ wf b ∧ normal b ∧ bval b = m.
Proof.
  unfold int_to_big_num. destruct (count_int_bit_spec m) as (n & -> & Hn & Hu & Hl).
  { unfold INT_MAX. lia. }
  assert (n ≤ 9) as Hn9.
  { destruct Hl; [lia|]. assert (n - 1 < 9); [|lia].
    eapply Z.pow_lt_mono_r_iff with 10; lia. }
  rewrite bind_ok. destruct (fresh_block n) as (z & b & -> & E & Lb & Cb).
  rewrite bind_ok, E, bind_ok. fold (int_digit_body m).
  destruct (fill_spec (λ i, m mod 10 ^ i / 10 ^ (i - 1)) (λ i, i - 1) (int_digit_body m) (arr b) 1 (n + 1))
    as (a & -> & La & Da & _); [lia|lia|lia| |].
  { intros i m' Hi _. apply int_digit_body_ok; lia. }
  rewrite bind_ok. eexists. split; [reflexivity|].
  assert (Da' : ∀ j, 0 ≤ j < n → a !! Z.to_nat j = Some (Some (m mod 10 ^ (j + 1) / 10 ^ j))).
  { intros j Hj. specialize (Da (j + 1) ltac:(lia)). by replace (j + 1 - 1) with j in Da by lia. }
  assert (Hwf : wf (set_wei (set_arr b a) n)).
  { split; cbn; [lia|lia|lia|]. intros j Hj. rewrite Da' by done.
    eexists. split; [reflexivity|]. apply digit_range. lia. }
  assert (Hv : bval (set_wei (set_arr b a) n) = m).
  { unfold bval; cbn [arr wei set_wei set_arr]. trans (m mod 10 ^ n); [|apply Z.mod_small; lia].
    rewrite <- wsum_digits by lia. apply wsum_ext. intros j Hj. unfold cellv. by rewrite Da'. }
  split; [done|]. split; [|done]. apply normal_value; [done|]. rewrite Hv. cbn.
  destruct Hl; [by left|by right].
Qed.

(** Ten digits overflow. *)
Lemma int_to_big_num_overflow (m : Z) (Hm : 10 ^ 9 ≤ m ≤ INT_MAX) :
  int_to_big_num m = Err SignedOverflow.
Proof.
  unfold int_to_big_num. unfold INT_MAX in *.
  destruct (count_int_bit_spec m) as (n & -> & Hn & Hu & Hl); [unfold INT_MAX; lia|].
  assert (n = 10) as ->.
  { assert (9 < n); [|lia]. eapply Z.pow_lt_mono_r_iff with 10; lia. }
  rewrite bind_ok. destruct (fresh_block 10) as (z & b & -> & E & Lb & Cb).
  rewrite bind_ok, E, bind_ok. fold (int_digit_body m).
  rewrite (for_range_split _ 1 10 (10 + 1)) by lia.
  destruct (fill_spec (λ i, m mod 10 ^ i / 10 ^ (i - 1)) (λ i, i - 1) (int_digit_body m) (arr b) 1 10)
    as (a & -> & _); [lia|lia|lia| |].
  { intros i m' Hi _. apply int_digit_body_ok; lia. }
  done.
Qed.

(** C40: int_to_big_num returns a well-formed number without leading zeros and with the value of
    its argument for every int from 0 below 10^9, and overflows in my_pow for every larger
    int. *)
Theorem int_to_big_num_correct (m : Z) (Hm : 0 ≤ m ≤ INT_MAX) :
  if m <? 10 ^ 9
  then ∃ b, int_to_big_num m = Ok b ∧ wf b ∧ normal b ∧ bval b = m
  else int_to_big_num m = Err SignedOverflow.
Proof.
  destruct (Z.ltb_spec m (10 ^ 9)); [apply int_to_big_num_small|apply int_to_big_num_overflow]; lia.
Qed.

Lemma int_to_big_num_witness :
  (∃ b, int_to_big_num 95599 = Ok b ∧ wf b ∧ normal b ∧ bval b = 95599) ∧
  int_to_big_num 2000000000 = Err SignedOverflow.
Proof.
  split; [apply (int_to_big_num_correct 95599)|apply (int_to_big_num_correct 2000000000)];
    unfold INT_MAX; lia.
Defined.

(** ** [str_to_big_num] *)

(** The value of a decimal string, most significant digit first. *)
Definition dec_val (s : list Z) : Z := fold_left (λ acc c, 10 * acc + (c - 48)) s 0.

Lemma dec_val_snoc s c : dec_val (s ++ [c]) = 10 * dec_val s + (c - 48).
Proof. unfold dec_val. by rewrite fold_left_app. Qed.

Lemma wsum_shift g n : 0 ≤ n → wsum g (n + 1) = g 0 + 10 * wsum (λ j, g (j + 1)) n.
Proof.
  intros Hn. pattern n. apply natlike_ind; [|clear n Hn; intros n Hn IH|done].
  - rewrite wsum_succ, !wsum_0 by lia. lia.
  - unfold Z.succ. rewrite wsum_succ, IH, (wsum_succ (λ j, g (j + 1))) by lia.
    rewrite Z.pow_add_r, Z.pow_1_r by lia. ring.
Qed.

(** Reading the string backwards weighs its digits by their place. *)
Lemma wsum_dec_val s :
  wsum (λ j, default 0 (s !! Z.to_nat (Z.of_nat (length s) - j - 1)) - 48) (Z.of_nat (length s)) =
  dec_val s.
Proof.
  induction s as [|c s IH] using rev_ind; [done|].
  rewrite dec_val_snoc, <- IH, length_app, Nat2Z.inj_add. cbn [length].
  rewrite wsum_shift by lia. rewrite Z.add_comm. f_equal.
  - f_equal. apply wsum_ext. intros j Hj. do 2 f_equal.
    rewrite lookup_app_l by lia. f_equal. lia.
  - rewrite lookup_app_r by lia.
    by replace (Z.to_nat (Z.of_nat (length s) + Z.of_nat 1 - 0 - 1) - length s)%nat with O by lia.
Qed.

Lemma str_to_big_num_spec s :
  s ≠ [] → Forall (λ c, 48 ≤ c ≤ 57) s →
  ∃ b, str_to_big_num s = Ok b ∧ wf b ∧ bval b = dec_val s ∧ wei b = Z.of_nat (length s) ∧
    (∀ j, 0 ≤ j < wei b →
       arr b !! Z.to_nat j = Some (Some (default 0 (s !! Z.to_nat (wei b - j - 1)) - 48))).
Proof.
  intros Hs Hd.
  assert (1 ≤ Z.of_nat (length s)) by (destruct s; [done|cbn; lia]).
  unfold str_to_big_num. set (n := Z.of_nat (length s)) in *.
  destruct (fresh_block n) as (z & b & -> & E & Lb & Cb). rewrite bind_ok, E, bind_ok.
  set (dig j := default 0 (s !! Z.to_nat j)).
  assert (Hdig : ∀ j, 0 ≤ j < n → s !! Z.to_nat j = Some (dig j) ∧ 48 ≤ dig j ≤ 57).
  { intros j Hj. destruct (lookup_lt_Z s j) as [x Hx]; [lia|]. unfold dig. rewrite Hx.
    split; [done|]. by eapply (Forall_lookup_1 _ _ _ _ Hd). }
  destruct (fill_spec (λ i, dig i - 48) (λ i, n - i - 1)
    (λ i a, c ← load s i; store_init a (n - i - 1) (c - 48)) (arr b) 0 n)
    as (a & -> & La & Da & _); [lia|lia|lia| |].
  { intros i m Hi _. destruct (Hdig i Hi) as [Ei _]. by rewrite (load_ok s i (dig i)) by (done || lia). }
  rewrite bind_ok. eexists. split; [reflexivity|].
  assert (Da' : ∀ j, 0 ≤ j < n → a !! Z.to_nat j = Some (Some (dig (n - j - 1) - 48))).
  { intros j Hj. specialize (Da (n - j - 1) ltac:(lia)).
    by replace (n - (n - j - 1) - 1) with j in Da by lia. }
  split; [|split; [|split; [done|exact Da']]].
  - split; cbn; [lia|lia|lia|]. intros j Hj. rewrite Da' by done. eexists. split; [reflexivity|].
    destruct (Hdig (n - j - 1)); [lia|]. lia.
  - unfold bval; cbn [arr wei set_wei set_arr]. rewrite <- wsum_dec_val. apply wsum_ext.
    intros j Hj. unfold cellv. by rewrite Da'.
Qed.

(** C29: str_to_big_num on a non-empty string of decimal digits yields a well-formed number with
    the value of the string and one cell per digit, and print_bit_num_ln prints exactly the
    digits of that string. *)
Theorem str_print_roundtrip (s : list Z)
    (Hs : s ≠ []) (Hd : Forall (λ c, 48 ≤ c ≤ 57) s) :
  ∃ b, str_to_big_num s = Ok b ∧ wf b ∧ bval b = dec_val s ∧ wei b = Z.of_nat (length s) ∧
    print_bit_num_ln b = Ok (((λ c, PutInt (c - 48)) <$> s) ++ [PutStr "\n"]).
Proof.
  destruct (str_to_big_num_spec s Hs Hd) as (b & -> & Hb & Vb & Wb & Cells).
  exists b. split; [done|]. split; [done|]. split; [done|]. split; [done|].
  unfold print_bit_num_ln, print_digits_down. pose proof (wf_wei _ Hb).
  destruct (for_down_inv (λ i out, out = (λ c, PutInt (c - 48)) <$> take (Z.to_nat (wei b - 1 - i)) s)
    (λ i out, d ← load_init (arr b) i; mret (out ++ [PutInt d])) (wei b - 1) 0 [])
    as (out & E & Hout); [lia|by rewrite Z.sub_diag| |].
  - intros i out Hi ->. rewrite (load_init_ok (arr b) i _ ltac:(lia) (Cells i ltac:(lia))), bind_ok.
    eexists. split; [reflexivity|].
    replace (Z.to_nat (wei b - 1 - (i - 1))) with (S (Z.to_nat (wei b - i - 1))) by lia.
    replace (Z.to_nat (wei b - 1 - i)) with (Z.to_nat (wei b - i - 1)) by lia.
    destruct (lookup_lt_Z s (wei b - i - 1)) as [x Hx]; [lia|].
    by rewrite (take_S_r _ _ _ Hx), fmap_app, Hx.
  - rewrite E, bind_ok, Hout, firstn_all2 by lia. done.
Qed.

Lemma str_print_witness :
  ∃ b, str_to_big_num (codes "307") = Ok b ∧ wf b ∧ bval b = 307 ∧ wei b = 3 ∧
    print_bit_num_ln b = Ok [PutInt 3; PutInt 0; PutInt 7; PutStr "\n"].
Proof. apply (str_print_roundtrip (codes "307")); [done|]. repeat constructor; cbn; lia. Defined.

(** ** [big_num_add] *)

(** The capacity of the larger operand after the extension the code makes. *)
Definition room (b : BigNum) : Z :=
  if wei b =? arrLen b then arrLen b * 2 else arrLen b.

Lemma room_extend b :
  arrLen (if wei b =? arrLen b then extend_big_num b else b) = room b.
Proof. unfold room. by destruct (wei b =? arrLen b). Qed.

(** Either no digit of [small] is read past its [wei], or its block is shorter
    than that of [big], in which case the code zeroes the difference. *)
Definition addable (big small : BigNum) : Prop :=
  wei small = wei big ∨ arrLen small < room big.

Lemma grown_realloc b n :
  Z.of_nat (length (arr b)) = arrLen b → arrLen b ≤ n →
  grown b {| arr := realloc (arr b) n; arrLen := n; wei := wei b |}.
Proof.
  intros H Hn. split; cbn; [apply realloc_length; lia|done|done|].
  intros j Hj. apply realloc_lookup; lia.
Qed.

(** The loop [while (b2->_arrLen <= res._arrLen) extend_big_num(b2)]. *)
Lemma extend_while_le b n :
  Z.of_nat (length (arr b)) = arrLen b → 1 ≤ arrLen b →
  ∃ b', while (S (S (Z.to_nat n))) (λ b, mret (arrLen b <=? n)) (λ b, mret (extend_big_num b)) b = Ok b' ∧
    grown b b'.
Proof.
  intros Hl Hc. destruct (while_inv (λ b', grown b b' ∧ 1 ≤ arrLen b')
      (λ b, mret (arrLen b <=? n)) (λ b, mret (extend_big_num b))
      (λ b', Z.to_nat (n + 1 - arrLen b')) (S (S (Z.to_nat n))) b) as (b' & E & [G _] & _);
    [auto using grown_self|lia| |by exists b'].
  intros s [G Hs]. destruct (Z.leb_spec (arrLen s) n) as [Hle|]; [|by left].
  right. split; [unfold mret, res_ret; f_equal; by apply Z.leb_le|].
  exists (extend_big_num s). split; [done|]. split; [|cbn; lia]. split; [|cbn; lia].
  etrans; [exact G|]. apply grown_extend, (gr_len _ _ G).
Qed.

(** The second operand as the addition loop reads it. *)
Lemma add_second b1 b2 c :
  wf b1 → wf b2 → wei b2 ≤ wei b1 → c = room b1 → addable b1 b2 →
  ∃ b, (b2 ← (if arrLen b2 <? c then
                let b2 := {| arr := realloc (arr b2) c; arrLen := c; wei := wei b2 |} in
                a ← for_range (wei b2) (arrLen b2) (λ i a, store_init a i 0) (arr b2);
                mret (set_arr b2 a)
              else mret b2);
        while (S (S (Z.to_nat c))) (λ b, mret (arrLen b <=? c)) (λ b, mret (extend_big_num b)) b2)
       = Ok b ∧
    wei b = wei b2 ∧ digits (arr b) 0 (wei b1) ∧ val (arr b) (wei b1) = bval b2.
Proof.
  intros H1 H2 Hw -> Hadd. pose proof H1 as [L1 C1 W1 D1]. pose proof H2 as [L2 C2 W2 D2].
  assert (Hr : wei b1 < room b1) by (unfold room; destruct (Z.eqb_spec (wei b1) (arrLen b1)); lia).
  destruct (Z.ltb_spec (arrLen b2) (room b1)) as [Hlt|Hge].
  - pose proof (grown_realloc b2 (room b1) L2 ltac:(lia)) as G. cbn zeta.
    destruct (zero_tail b2 _ H2 G) as (a & -> & La & Da & _ & V). cbn [arrLen] in *. rewrite bind_ok.
    set (b2' := set_arr _ a).
    destruct (extend_while_le b2' (room b1)) as (b & E & G'); [done|cbn; lia|].
    exists b. cbn [mret res_ret mbind res_bind]. split; [exact E|]. split; [by rewrite (gr_wei _ _ G')|].
    assert (Hc : ∀ j, 0 ≤ j < wei b1 → arr b !! Z.to_nat j = a !! Z.to_nat j).
    { intros j Hj. apply (gr_cells _ _ G'). cbn. lia. }
    split.
    + eapply digits_ext; [|exact Hc]. eapply digits_sub; [exact Da|lia|lia].
    + rewrite (val_ext _ a) by done. apply V. lia.
  - destruct Hadd as [He|]; [|lia]. rewrite bind_ok.
    destruct (extend_while_le b2 (room b1)) as (b & E & G); [done|lia|]. rewrite <- He.
    exists b. split; [exact E|]. split; [apply (gr_wei _ _ G)|].
    split; [by apply grown_digits|by apply grown_val].
Qed.

(** [big_num_add] after the comparison, for the operands in order. *)
Definition add_ordered (b1 b2 : BigNum) : res (BigNum * BigNum * BigNum) :=
  r ← get_zero;
  let b1 := if wei b1 =? arrLen b1 then extend_big_num b1 else b1 in
  r ← big_num_cpy r b1;
  b2 ← (if arrLen b2 <? arrLen r then
          let b2 := {| arr := realloc (arr b2) (arrLen r); arrLen := arrLen r; wei := wei b2 |} in
          a ← for_range (wei b2) (arrLen b2) (λ i a, store_init a i 0) (arr b2);
          mret (set_arr b2 a)
        else mret b2);
  b2 ← while (S (S (Z.to_nat (arrLen r)))) (λ b, mret (arrLen b <=? arrLen r))
         (λ b, mret (extend_big_num b)) b2;
  '(a, next) ← for_range 0 (wei r) (λ i '(a, next),
        x ← load_init (arr b2) i;
        y ← load_init a i;
        t ← add_int x y;
        s ← add_int t next;
        let '(digit, next) := carry_digit s in
        a ← store_init a i digit;
        mret (a, next)) (arr r, 0);
  r ← (if next =? 1
       then a ← store_init a (wei r) 1; mret (set_wei (set_arr r a) (wei r + 1))
       else mret (set_arr r a));
  mret (b1, b2, r).

Lemma big_num_add_ordered p1 p2 c :
  big_num_cmp p1 p2 = Ok c →
  big_num_add p1 p2 =
    if c =? -1 then '(b1, b2, r) ← add_ordered p2 p1; mret (b2, b1, r)
    else add_ordered p1 p2.
Proof.
  intros Hc. unfold big_num_add. rewrite Hc, bind_ok. cbn zeta.
  destruct (c =? -1); [|done]. unfold add_ordered.
  rewrite bind_assoc. apply bind_ext. intros z _. rewrite bind_assoc. apply bind_ext. intros r _.
  rewrite bind_assoc. apply bind_ext. intros b2 _. rewrite bind_assoc. apply bind_ext. intros b2' _.
  rewrite bind_assoc. apply bind_ext. intros [a nx] _. rewrite bind_assoc. apply bind_ext. done.
Qed.

(** The addition loop with the operands as [big_num_add] orders them. *)
Lemma add_loop_swap m a2 n :
  0 ≤ n ≤ Z.of_nat (length m) → digits m 0 n → digits a2 0 n →
  ∃ a c, for_range 0 n (λ i '(a, next),
        x ← load_init a2 i; y ← load_init a i; t ← add_int x y; s ← add_int t next;
        let '(digit, next) := carry_digit s in
        a ← store_init a i digit; mret (a, next)) (m, 0) = Ok (a, c) ∧
    length a = length m ∧ (∀ j, n ≤ j → a !! Z.to_nat j = m !! Z.to_nat j) ∧ digits a 0 n ∧
    0 ≤ c ≤ 1 ∧ val a n + c * 10 ^ n = val a2 n + val m n.
Proof.
  intros Hn Dm D2. setoid_rewrite <- wsum_add.
  apply (carry_loop (λ i, cellv a2 i + cellv m i) 1); [done|lia| |].
  - intros i Hi. pose proof (digits_cellv _ _ _ i Dm Hi). pose proof (digits_cellv _ _ _ i D2 Hi). lia.
  - intros i a c Hi La Oa Hc.
    destruct (digits_load a2 _ _ i D2 Hi ltac:(lia)) as [-> R2].
    destruct (digits_stable m a _ _ i Dm Hi ltac:(lia) (Oa i ltac:(lia))) as [-> R1]. cbn.
    rewrite add_int_small by lia. cbn. rewrite add_int_small by lia. cbn.
    by rewrite carry_digit_eq by lia.
Qed.

Lemma add_ordered_correct b1 b2 :
  wf b1 → wf b2 → wei b2 ≤ wei b1 → addable b1 b2 →
  ∃ b1' b2' r, add_ordered b1 b2 = Ok (b1', b2', r) ∧ wf r ∧ bval r = bval b1 + bval b2 ∧
    bval b1' = bval b1 ∧ wei b2' = wei b2.
Proof.
  intros H1 H2 Hw Hadd. unfold add_ordered.
  destruct get_zero_spec as (z & -> & Hz & _ & _ & Cz). rewrite bind_ok.
  set (b1' := if _ =? _ then _ else b1).
  assert (G : grown b1 b1') by (apply grown_if, H1). pose proof (grown_wf _ _ H1 G) as H1'.
  assert (Er : arrLen b1' = room b1) by apply room_extend.
  assert (V1 : bval b1' = bval b1) by (unfold bval; rewrite (gr_wei _ _ G); by apply grown_val).
  assert (Hroom : wei b1 < room b1).
  { unfold room. destruct H1. destruct (Z.eqb_spec (wei b1) (arrLen b1)); lia. }
  pose proof (gr_wei _ _ G) as Ew. clearbody b1'.
  destruct (big_num_cpy_spec z b1') as (r & -> & Hr & Vr & Wr & Cr & _); [apply Hz|done|].
  rewrite bind_ok. pose proof (wf_cap _ H1') as C1. rewrite Cz, Er in Cr.
  rewrite Z.max_r in Cr by lia. rewrite Cr.
  destruct (add_second b1 b2 (room b1) H1 H2 Hw eq_refl Hadd) as (b2' & E2 & W2 & D2 & V2).
  cbn zeta in E2. apply bind_ok_inv in E2 as (b2m & E2a & E2b). rewrite E2a, bind_ok, E2b, bind_ok.
  destruct (add_loop_swap (arr r) (arr b2') (wei r)) as (a & c & -> & La & _ & Da & Hc & V);
    [destruct Hr; lia|apply Hr|by rewrite Wr, Ew|]. rewrite bind_ok.
  destruct (finish_ok r a (wei r) c) as (r' & E & Wr' & Vr' & _); [|apply Hr|apply Hr|done|lia|lia|].
  { destruct Hr. lia. }
  assert (Hfin : (if c =? 1 then a ← store_init a (wei r) 1; mret (set_wei (set_arr r a) (wei r + 1))
                  else mret (set_arr r a)) = Ok r').
  { rewrite <- E. unfold finish. assert (c = 0 ∨ c = 1) as [-> | ->] by lia; done. }
  rewrite Hfin, bind_ok. exists b1', b2', r'. split; [done|]. split; [done|].
  split; [|done]. rewrite Vr', V. fold (bval r). rewrite Wr, Ew, V2, Vr, V1. lia.
Qed.

(** C4: For two well-formed numbers without leading zeros big_num_add returns, in either order
    of the operands, a well-formed number whose value is their sum, whenever both have the
    same number of digits or the block of the smaller one has fewer cells than the block of
    the larger one, after the doubling by which a full block of the larger makes room for a
    carry. *)
Theorem big_num_add_correct (p1 p2 : BigNum)
    (H1 : wf p1) (H2 : wf p2) (N1 : normal p1) (N2 : normal p2)
    (Hadd : if bval p1 <? bval p2 then addable p2 p1 else addable p1 p2) :
  ∃ p1' p2' r, big_num_add p1 p2 = Ok (p1', p2', r) ∧ wf r ∧ bval r = bval p1 + bval p2.
Proof.
  rewrite (big_num_add_ordered p1 p2 _ (big_num_cmp_normal p1 p2 H1 H2 N1 N2)).
  destruct (Z.ltb_spec (bval p1) (bval p2)) as [Hlt|Hge].
  - rewrite cmp_code_lt by done.
    destruct (add_ordered_correct p2 p1) as (b1 & b2 & r & -> & Hr & Vr & _);
      [done|done|apply normal_wei_le; (done || lia)|done|].
    exists b2, b1, r. split; [done|]. split; [done|lia].
  - replace (cmp_code (bval p1 ?= bval p2) =? -1) with false
      by (destruct (Z.compare_spec (bval p1) (bval p2)); done || lia).
    destruct (add_ordered_correct p1 p2) as (b1 & b2 & r & -> & Hr & Vr & _);
      [done|done|apply normal_wei_le; (done || lia)|done|].
    by exists b1, b2, r.
Qed.

Lemma big_num_add_witness :
  ∃ p1' p2' r, big_num_add (sample [1] 2) (sample [9; 9; 5; 5; 9] 8) = Ok (p1', p2', r) ∧ wf r ∧
    bval r = 1 + 95599.
Proof.
  apply (big_num_add_correct (sample [1] 2) (sample [9; 9; 5; 5; 9] 8));
    [by apply wfb_wf|by apply wfb_wf|by apply normalb_normal|by apply normalb_normal|].
  right. reflexivity.
Defined.

(** ** [factorial] *)

(** The factorial as a product over the integers. *)
Fixpoint fact (n : nat) : Z := match n with O => 1 | S n' => Z.of_nat n * fact n' end.

Lemma one_spec :
  ∃ b, (r ← get_zero; a ← store_init (arr r) 0 1; mret (set_arr r a)) = Ok b ∧
       wf b ∧ normal b ∧ bval b = 1.
Proof.
  eexists. split; [reflexivity|]. split; [|split; [by left|done]].
  split; cbn; [done|lia|lia|]. intros j Hj. exists 1. by replace j with 0 by lia.
Qed.

(** C30: factorial returns a well-formed number with the value n! for n from 0 to 9. *)
Theorem factorial_correct (n : Z) (Hn : 0 ≤ n ≤ 9) :
  ∃ r, factorial n = Ok r ∧ wf r ∧ bval r = fact (Z.to_nat n).
Proof.
  unfold factorial. destruct one_spec as (b & E & Hb & Nb & Vb).
  apply bind_ok_inv in E as (z & -> & E). rewrite bind_ok.
  apply bind_ok_inv in E as (a & -> & E). rewrite bind_ok. injection E as ->.
  destruct (for_range_inv (λ i r, wf r ∧ normal r ∧ bval r = fact (Z.to_nat (i - 1)))
    (λ i r, bigI ← int_to_big_num i; big_num_multi r bigI) 1 (n + 1) b) as (r & -> & Hr & _ & Vr).
  - lia.
  - done.
  - intros i r Hi (Hr & Nr & Vr).
    destruct (int_to_big_num_small i) as (x & -> & Hx & Nx & Vx); [lia|]. rewrite bind_ok.
    destruct (big_num_multi_capacity r x) as (r' & -> & Hr' & Nr' & Vr'); [done..| |].
    { right. left. destruct (normal_lower _ Hx Nx) as [|Hl]; [done|].
      pose proof (wf_wei _ Hx). destruct (Z.le_gt_cases (wei x) 1); [lia|].
      assert (10 ^ 1 ≤ 10 ^ (wei x - 1)) by (apply Z.pow_le_mono_r; lia). lia. }
    exists r'. split; [done|]. split; [done|]. split; [done|]. rewrite Vr', Vr, Vx.
    replace (Z.to_nat (i + 1 - 1)) with (S (Z.to_nat (i - 1))) by lia. cbn [fact].
    replace (Z.of_nat (S (Z.to_nat (i - 1)))) with i by lia. ring.
  - exists r. split; [done|]. split; [done|]. rewrite Vr. f_equal. lia.
Qed.

Lemma factorial_witness : ∃ r, factorial 7 = Ok r ∧ wf r ∧ bval r = 5040.
Proof. apply (factorial_correct 7). lia. Defined.

(** ** The faults *)

(** Position [n] of the smaller operand is read by the addition loop. *)
Lemma add_loop_uninit m a2 n k :
  0 ≤ n < k → k ≤ Z.of_nat (length m) → digits m 0 k → digits a2 0 n →
  a2 !! Z.to_nat n = Some None →
  for_range 0 k (λ i '(a, next),
        x ← load_init a2 i; y ← load_init a i; t ← add_int x y; s ← add_int t next;
        let '(digit, next) := carry_digit s in
        a ← store_init a i digit; mret (a, next)) (m, 0) = Err Uninitialised.
Proof.
  intros Hn Hk Dm D2 Hu. rewrite (for_range_split _ 0 n k) by lia.
  destruct (add_loop_swap m a2 n) as (a & c & -> & _);
    [lia|eapply digits_sub; [exact Dm|lia|lia]|done|]. rewrite bind_ok.
  rewrite for_range_step by lia. unfold load_init. by rewrite (load_ok a2 n None) by (done || lia).
Qed.

(** When the first operand has more digits and the second one's block is large enough not to be
    grown, but its cell just above its digits was never written, big_num_add reads that
    uninitialised cell. *)
Theorem big_num_add_uninit (p1 p2 : BigNum)
    (H1 : wf p1) (H2 : wf p2) (Hw : wei p2 < wei p1) (Hroom : room p1 ≤ arrLen p2)
    (Hcell : arr p2 !! Z.to_nat (wei p2) = Some None) :
  big_num_add p1 p2 = Err Uninitialised.
Proof.
  assert (Hc : big_num_cmp p1 p2 = Ok 1).
  { rewrite big_num_cmp_spec by done. by rewrite (proj2 (Z.compare_gt_iff (wei p1) (wei p2))). }
  rewrite (big_num_add_ordered _ _ _ Hc). change (1 =? -1) with false. cbn match.
  unfold add_ordered. destruct get_zero_spec as (z & -> & Hz & _ & _ & Cz). rewrite bind_ok.
  set (b1 := if _ =? _ then _ else p1).
  assert (G : grown p1 b1) by (apply grown_if, H1). pose proof (grown_wf _ _ H1 G) as H1'.
  assert (Er : arrLen b1 = room p1) by apply room_extend. pose proof (gr_wei _ _ G) as Ew.
  clearbody b1. destruct (big_num_cpy_spec z b1) as (r & -> & Hr & _ & Wr & Cr & _); [apply Hz|done|].
  rewrite bind_ok. cbn zeta. pose proof (wf_cap _ H1').
  replace (arrLen p2 <? arrLen r) with false by (symmetry; apply Z.ltb_ge; lia).
  unfold mret at 1, res_ret at 1. rewrite bind_ok. pose proof H2 as [L2 C2 W2 D2].
  destruct (extend_while_le p2 (arrLen r)) as (b2 & -> & G2); [done|lia|]. rewrite bind_ok.
  rewrite (add_loop_uninit _ _ (wei p2)); [done|lia|destruct Hr; lia|apply Hr|by apply grown_digits|].
  rewrite (gr_cells _ _ G2); [done|]. pose proof (wf_wei _ H1).
  apply lookup_lt_Some in Hcell. lia.
Qed.

Lemma big_num_add_uninit_witness :
  big_num_add (sample [7; 6; 5; 4; 3; 2; 1] 8) (sample [5; 4; 3; 2; 1] 8) = Err Uninitialised.
Proof.
  apply (big_num_add_uninit (sample [7; 6; 5; 4; 3; 2; 1] 8) (sample [5; 4; 3; 2; 1] 8));
    [by apply wfb_wf|by apply wfb_wf|done|by vm_compute|done].
Defined.

(** When the accumulator has more digits than the summand and the addition of the common digits
    carries, big_num_add_0 puts the carry above the accumulator's top digit instead of
    adding it to the next digit: the result is the sum minus 10^(digits of the summand) plus
    10^(digits of the accumulator). *)
Theorem big_num_add_0_misplaced_carry (b1 b2 : BigNum)
    (H1 : wf b1) (H2 : wf b2) (Hw : wei b2 < wei b1) (Hroom : wei b1 < arrLen b1)
    (Hz : arr b1 !! Z.to_nat (wei b1) = Some (Some 0))
    (Hc : 10 ^ wei b2 ≤ val (arr b1) (wei b2) + bval b2) :
  ∃ r, big_num_add_0 b1 b2 = Ok r ∧ wf r ∧
    bval r = bval b1 + bval b2 - 10 ^ wei b2 + 10 ^ wei b1.
Proof.
  rewrite big_num_add_0_unfold. replace (wei b1 =? arrLen b1) with false by (symmetry; apply Z.eqb_neq; lia).
  cbn zeta. destruct (big_num_cmp_not_below b1 b2) as (f & -> & Hf); [done|done|unfold below; lia|].
  rewrite bind_ok. destruct (Z.eqb_spec f (-1)); [done|]. unfold mret, res_ret. rewrite bind_ok.
  pose proof H1 as [L C W D]. pose proof H2 as [L2 C2 W2 D2].
  destruct (add_loop (arr b1) (arr b2) (wei b2)) as (a & c & E & La & Oa & Dr & Hcr & Vr);
    [lia|eapply digits_sub; [exact D|lia|lia]|done|]. fold (bval b2) in Vr.
  pose proof (val_bound a (wei b2) ltac:(lia) Dr).
  assert (c = 1) as -> by nia.
  assert (Da : digits a 0 (wei b1)).
  { intros j Hj. destruct (decide (j < wei b2)); [apply Dr; lia|]. rewrite Oa by lia. apply D. lia. }
  unfold add_0_tail. rewrite E, bind_ok. destruct (Z.ltb_spec (wei b1) (wei b2)); [lia|]. cbn [Z.eqb Pos.eqb].
  rewrite (load_init_ok _ _ 0) by (try lia; by rewrite Oa by lia). rewrite bind_ok.
  destruct (finish_ok b1 a (wei b1) 1) as (r & Er & Hr & Vr' & _); [lia|done|lia|done|lia|lia|].
  exists r. split; [exact Er|]. split; [done|]. rewrite Vr'.
  pose proof (val_high (arr b1) a (wei b2) (wei b1) ltac:(lia) Oa). unfold bval at 1. lia.
Qed.

(** 105 + 7 comes out as 1102. *)
Lemma big_num_add_0_misplaced_carry_witness :
  ∃ r, big_num_add_0 {| arr := Some <$> [5; 0; 1; 0]; arrLen := 4; wei := 3 |} (sample [7] 2) = Ok r ∧
    wf r ∧ bval r = 1102.
Proof.
  destruct (big_num_add_0_misplaced_carry
              {| arr := Some <$> [5; 0; 1; 0]; arrLen := 4; wei := 3 |} (sample [7] 2))
    as (r & E & Hr & V); [by apply wfb_wf|by apply wfb_wf|done|done|done|by vm_compute|].
  exists r. split; [exact E|]. split; [exact Hr|]. rewrite V. reflexivity.
Defined.

(** 999 times 11 writes past the block. *)
Example big_num_multi_999_11 :
  (x ← int_to_big_num 999; y ← int_to_big_num 11; big_num_multi x y) = Err OutOfBounds.
Proof. vm_compute. reflexivity. Qed.
