(* ===== verification/Des.v ===== *)
(** DES as [src/cpp/algorithm/3des.c] computes it.

    A bit array is a list of booleans, a [char] array a list of (signed)
    character codes; every access is checked.  The static variables of the
    file are the fields of [Des] and are threaded through the functions.  The
    two halves that [encrypt] and [decrypt] reach by pointers into
    [msg_bit] are kept as the two lists whose concatenation is the array. *)
From S2P Require Import Prelude.

(** ** Tables *)

(** The initial permutation and its inverse. *)
Definition ip_tbl : list Z :=
  [58; 50; 42; 34; 26; 18; 10; 2; 60; 52; 44; 36; 28; 20; 12; 4;
   62; 54; 46; 38; 30; 22; 14; 6; 64; 56; 48; 40; 32; 24; 16; 8;
   57; 49; 41; 33; 25; 17; 9; 1; 59; 51; 43; 35; 27; 19; 11; 3;
   61; 53; 45; 37; 29; 21; 13; 5; 63; 55; 47; 39; 31; 23; 15; 7].

(** The final permutation. *)
Definition ipr_tbl : list Z :=
  [40; 8; 48; 16; 56; 24; 64; 32; 39; 7; 47; 15; 55; 23; 63; 31;
   38; 6; 46; 14; 54; 22; 62; 30; 37; 5; 45; 13; 53; 21; 61; 29;
   36; 4; 44; 12; 52; 20; 60; 28; 35; 3; 43; 11; 51; 19; 59; 27;
   34; 2; 42; 10; 50; 18; 58; 26; 33; 1; 41; 9; 49; 17; 57; 25].

(** The expansion of a half block from 32 to 48 bits. *)
Definition e_tbl : list Z :=
  [32; 1; 2; 3; 4; 5; 4; 5; 6; 7; 8; 9;
   8; 9; 10; 11; 12; 13; 12; 13; 14; 15; 16; 17;
   16; 17; 18; 19; 20; 21; 20; 21; 22; 23; 24; 25;
   24; 25; 26; 27; 28; 29; 28; 29; 30; 31; 32; 1].

(** The choice of 56 key bits. *)
Definition pc1_tbl : list Z :=
  [57; 49; 41; 33; 25; 17; 9; 1; 58; 50; 42; 34; 26; 18;
   10; 2; 59; 51; 43; 35; 27; 19; 11; 3; 60; 52; 44; 36;
   63; 55; 47; 39; 31; 23; 15; 7; 62; 54; 46; 38; 30; 22;
   14; 6; 61; 53; 45; 37; 29; 21; 13; 5; 28; 20; 12; 4].

(** The choice of 48 bits of a round key. *)
Definition pc2_tbl : list Z :=
  [14; 17; 11; 24; 1; 5; 3; 28; 15; 6; 21; 10;
   23; 19; 12; 4; 26; 8; 16; 7; 27; 20; 13; 2;
   41; 52; 31; 37; 47; 55; 30; 40; 51; 34; 33; 48;
   44; 49; 39; 56; 34; 53; 46; 42; 50; 36; 29; 32].

(** The rotation of each round. *)
Definition mv_tbl : list Z :=
  [1; 1; 2; 2; 2; 2; 2; 2; 1; 2; 2; 2; 2; 2; 2; 1].

(** The substitution boxes: box, row, column. *)
Definition s_box : list (list (list Z)) :=
  [[[14; 4; 13; 1; 2; 15; 11; 8; 3; 10; 6; 12; 5; 9; 0; 7];
    [0; 15; 7; 4; 14; 2; 13; 1; 10; 6; 12; 11; 9; 5; 3; 8];
    [4; 1; 14; 8; 13; 6; 2; 11; 15; 12; 9; 7; 3; 10; 5; 0];
    [15; 12; 8; 2; 4; 9; 1; 7; 5; 11; 3; 14; 10; 0; 6; 13]];
   [[15; 1; 8; 14; 6; 11; 3; 4; 9; 7; 2; 13; 12; 0; 5; 10];
    [3; 13; 4; 7; 15; 2; 8; 14; 12; 0; 1; 10; 6; 9; 11; 5];
    [0; 14; 7; 11; 10; 4; 13; 1; 5; 8; 12; 6; 9; 3; 2; 15];
    [13; 8; 10; 1; 3; 15; 4; 2; 11; 6; 7; 12; 0; 5; 14; 9]];
   [[10; 0; 9; 14; 6; 3; 15; 5; 1; 13; 12; 7; 11; 4; 2; 8];
    [13; 7; 0; 9; 3; 4; 6; 10; 2; 8; 5; 14; 12; 11; 15; 1];
    [13; 6; 4; 9; 8; 15; 3; 0; 11; 1; 2; 12; 5; 10; 14; 7];
    [1; 10; 13; 0; 6; 9; 8; 7; 4; 15; 14; 3; 11; 5; 2; 12]];
   [[7; 13; 14; 3; 0; 6; 9; 10; 1; 2; 8; 5; 11; 12; 4; 15];
    [13; 8; 11; 5; 6; 15; 0; 3; 4; 7; 2; 12; 1; 10; 14; 9];
    [10; 6; 9; 0; 12; 11; 7; 13; 15; 1; 3; 14; 5; 2; 8; 4];
    [3; 15; 0; 6; 10; 1; 13; 8; 9; 4; 5; 11; 12; 7; 2; 14]];
   [[2; 12; 4; 1; 7; 10; 11; 6; 8; 5; 3; 15; 13; 0; 14; 9];
    [14; 11; 2; 12; 4; 7; 13; 1; 5; 0; 15; 10; 3; 9; 8; 6];
    [4; 2; 1; 11; 10; 13; 7; 8; 15; 9; 12; 5; 6; 3; 0; 14];
    [11; 8; 12; 7; 1; 14; 2; 13; 6; 15; 0; 9; 10; 4; 5; 3]];
   [[12; 1; 10; 15; 9; 2; 6; 8; 0; 13; 3; 4; 14; 7; 5; 11];
    [10; 15; 4; 2; 7; 12; 0; 5; 6; 1; 13; 14; 0; 11; 3; 8];
    [9; 14; 15; 5; 2; 8; 12; 3; 7; 0; 4; 10; 1; 13; 11; 6];
    [4; 3; 2; 12; 9; 5; 15; 10; 11; 14; 1; 7; 6; 0; 8; 13]];
   [[4; 11; 2; 14; 15; 0; 8; 13; 3; 12; 9; 7; 5; 10; 6; 1];
    [13; 0; 11; 7; 4; 0; 1; 10; 14; 3; 5; 12; 2; 15; 8; 6];
    [1; 4; 11; 13; 12; 3; 7; 14; 10; 15; 6; 8; 0; 5; 9; 2];
    [6; 11; 13; 8; 1; 4; 10; 7; 9; 5; 0; 15; 14; 2; 3; 12]];
   [[13; 2; 8; 4; 6; 15; 11; 1; 10; 9; 3; 14; 5; 0; 12; 7];
    [1; 15; 13; 8; 10; 3; 7; 4; 12; 5; 6; 11; 0; 14; 9; 2];
    [7; 11; 4; 1; 9; 12; 14; 2; 0; 6; 10; 13; 15; 3; 5; 8];
    [2; 1; 14; 7; 4; 10; 8; 13; 15; 12; 9; 0; 3; 5; 6; 11]]].

(** The permutation of the substituted bits. *)
Definition p_tbl : list Z :=
  [16; 7; 20; 21; 29; 12; 28; 17; 1; 15; 23; 26; 5; 18; 31; 10;
   2; 8; 24; 14; 32; 27; 3; 9; 19; 13; 30; 6; 22; 11; 4; 25].

(** ** The static variables *)

Record Des := mkDes {
  sub_key : list (list bool);      (* [sub_key[16][48]] *)
  key_bit : list bool;             (* [key_bit[64]] of [set_key] *)
  tr_tmp : list bool;              (* [tmp[256]] of [tbl_replace] *)
  lb_tmp : list bool;              (* [tmp[256]] of [loop_bit] *)
  msg_e : list bool;               (* [msg_e[48]] of [f_change] *)
  enc_bit : list bool;             (* [msg_bit[64]] of [encrypt] *)
  enc_tmp : list bool;             (* [tmp[32]] of [encrypt] *)
  dec_bit : list bool;             (* [msg_bit[64]] of [decrypt] *)
  dec_tmp : list bool              (* [tmp[32]] of [decrypt] *)
}.

Definition zeros (n : nat) : list bool := replicate n false.

(** Program start: every static array is zero. *)
Definition des_init : Des :=
  mkDes (replicate 16 (zeros 48)) (zeros 64) (zeros 256) (zeros 256) (zeros 48)
        (zeros 64) (zeros 32) (zeros 64) (zeros 32).

(** ** Bit operations *)

(** [bit_cpy] between two arrays, the target from its element [off]. *)
Definition bit_cpy_at (data_out : list bool) (off : Z) (data_in : list bool) (num : Z)
  : res (list bool) :=
  for_range 0 num (λ i out, b ← load data_in i; store out (off + i) b) data_out.

Definition bit_cpy (data_out data_in : list bool) (num : Z) : res (list bool) :=
  for_range 0 num (λ i out, b ← load data_in i; store out i b) data_out.

(** [bit_cpy] within one array, from element [src] to element [dst]: the
    regions may overlap, the copy goes upwards. *)
Definition bit_move (a : list bool) (dst src num : Z) : res (list bool) :=
  for_range 0 num (λ i a, b ← load a (src + i); store a (dst + i) b) a.

Definition byte_to_bit (data_out : list bool) (data_in : list Z) (num : Z) : res (list bool) :=
  for_range 0 num (λ i out,
    c ← load data_in (i / 8);
    store out i (Z.land (Z.shiftr c (i mod 8)) 1 =? 1)) data_out.

Definition bit_to_hex (data_out : list Z) (data_in : list bool) (num : Z) : res (list Z) :=
  out ← for_range 0 (num / 4) (λ i out, store out i 0) data_out;
  for_range 0 (num / 4) (λ i out,
    b0 ← load data_in (4 * i);
    b1 ← load data_in (4 * i + 1);
    b2 ← load data_in (4 * i + 2);
    b3 ← load data_in (4 * i + 3);
    let v := wrap_i8 (Z.b2z b0 + Z.b2z b1 * 2 + Z.b2z b2 * 4 + Z.b2z b3 * 8) in
    store out i (if 9 <? Z.rem v 16 then wrap_i8 (Z.rem v 16 + 55)
                 else wrap_i8 (Z.rem v 16 + 48))) out.

Definition hex_to_bit (data_out : list bool) (data_in : list Z) (num : Z) : res (list bool) :=
  for_range 0 num (λ i out,
    c ← load data_in (i / 4);
    let d := if c <=? 57 then c - 48 else c - 55 in
    store out i (Z.land (Z.shiftr d (i mod 4)) 1 =? 1)) data_out.

Definition bit_to_byte (my_msg : list Z) (msg_in : list bool) (num : Z) : res (list Z) :=
  out ← for_range 0 (num / 8) (λ i out, store out i 0) my_msg;
  for_range 0 num (λ i out,
    c ← load out (i / 8);
    b ← load msg_in i;
    store out (i / 8) (wrap_i8 (Z.lor c (Z.shiftl (Z.b2z b) (i mod 8))))) out.

(** [tbl_replace]: the result and the scratch array, the latter static. *)
Definition tbl_replace (tmp data_out data_in : list bool) (table : list Z) (num : Z)
  : res (list bool * list bool) :=
  tmp ← for_range 0 num (λ i tmp,
          t ← load table i;
          b ← load data_in (t - 1);
          store tmp i b) tmp;
  out ← bit_cpy data_out tmp num;
  mret (tmp, out).

(** [loop_bit] on the [len] bits of [data_out] from its element [base]. *)
Definition loop_bit (tmp data_out : list bool) (base mv_step len : Z)
  : res (list bool * list bool) :=
  tmp ← for_range 0 mv_step (λ i tmp, b ← load data_out (base + i); store tmp i b) tmp;
  out ← bit_move data_out base (base + mv_step) (len - mv_step);
  out ← bit_cpy_at out (base + len - mv_step) tmp mv_step;
  mret (tmp, out).

Definition xor (msg_out msg_in : list bool) (num : Z) : res (list bool) :=
  for_range 0 num (λ i out,
    a ← load out i;
    b ← load msg_in i;
    store out i (xorb a b)) msg_out.

(** ** Key schedule *)

Definition set_key (s : Des) (my_key : list Z) : res Des :=
  kb ← byte_to_bit (key_bit s) my_key 64;
  '(tmp, kb) ← tbl_replace (tr_tmp s) kb kb pc1_tbl 56;
  '(sk, kb, tmp, lt) ← for_range 0 16 (λ i '(sk, kb, tmp, lt),
      m ← load mv_tbl i;
      '(lt, kb) ← loop_bit lt kb 0 m 28;
      '(lt, kb) ← loop_bit lt kb 28 m 28;
      row ← load sk i;
      '(tmp, row) ← tbl_replace tmp row kb pc2_tbl 48;
      sk ← store sk i row;
      mret (sk, kb, tmp, lt)) (sub_key s, kb, tmp, lb_tmp s);
  mret (mkDes sk kb tmp lt (msg_e s) (enc_bit s) (enc_tmp s) (dec_bit s) (dec_tmp s)).

(** ** The round function *)

Definition s_change (data_out data_in : list bool) : res (list bool) :=
  for_range 0 8 (λ i out,
    b0 ← load data_in (6 * i);
    b5 ← load data_in (6 * i + 5);
    b1 ← load data_in (6 * i + 1);
    b2 ← load data_in (6 * i + 2);
    b3 ← load data_in (6 * i + 3);
    b4 ← load data_in (6 * i + 4);
    let r := Z.b2z b0 * 2 + Z.b2z b5 * 1 in
    let c := Z.b2z b1 * 8 + Z.b2z b2 * 4 + Z.b2z b3 * 2 + Z.b2z b4 * 1 in
    box ← load s_box i;
    row ← load box r;
    v ← load row c;
    for_range 0 4 (λ j out, store out (4 * i + j) (Z.land (Z.shiftr v (j mod 8)) 1 =? 1)) out)
  data_out.

(** The result is the scratch array, [msg_e] and [data_out]. *)
Definition f_change (tmp me data_out data_in : list bool)
  : res (list bool * list bool * list bool) :=
  '(tmp, me) ← tbl_replace tmp me data_out e_tbl 48;
  me ← xor me data_in 48;
  out ← s_change data_out me;
  '(tmp, out) ← tbl_replace tmp out out p_tbl 32;
  mret (tmp, me, out).

(** ** Encryption and decryption *)

Definition print_bits (l : list bool) : list output := (λ b, PutInt (Z.b2z b)) <$> l.

Definition print_chars (s : list Z) : res (list output) :=
  n ← c_strlen s;
  for_range 0 n (λ i out, c ← load s i; mret (out ++ [PutInt c; PutStr " "])) [].

Definition encrypt (s : Des) (plain cypher : list Z) : res (Des * list Z * list output) :=
  o1 ← print_chars plain;
  mb ← byte_to_bit (enc_bit s) plain 64;
  let o2 := print_bits mb in
  '(tmp, mb) ← tbl_replace (tr_tmp s) mb mb ip_tbl 64;
  let o3 := print_bits mb in
  '(ml, mr, et, tmp, me) ← for_range 0 16 (λ i '(ml, mr, et, tmp, me),
      et ← bit_cpy et mr 32;
      k ← load (sub_key s) i;
      '(tmp, me, mr) ← f_change tmp me mr k;
      mr ← xor mr ml 32;
      ml ← bit_cpy ml et 32;
      mret (ml, mr, et, tmp, me)) (take 32 mb, drop 32 mb, enc_tmp s, tmp, msg_e s);
  let mb := ml ++ mr in
  let o4 := print_bits mb in
  '(tmp, mb) ← tbl_replace tmp mb mb ipr_tbl 64;
  cypher ← bit_to_hex cypher mb 64;
  mret (mkDes (sub_key s) (key_bit s) tmp (lb_tmp s) me mb et (dec_bit s) (dec_tmp s), cypher,
        PutStr "msg_i:" :: o1 ++ PutStr "\n" :: PutStr "msg_bit: " :: o2 ++
        PutStr "\nmsg_bit_table_replace: " :: o3 ++ PutStr "\n" ::
        PutStr "msg_bit_f_change_xor: " :: o4 ++ [PutStr "\n"]).

Definition decrypt (s : Des) (plain cypher : list Z) : res (Des * list Z) :=
  mb ← hex_to_bit (dec_bit s) cypher 64;
  '(tmp, mb) ← tbl_replace (tr_tmp s) mb mb ip_tbl 64;
  '(ml, mr, dt, tmp, me) ← for_down 15 0 (λ i '(ml, mr, dt, tmp, me),
      dt ← bit_cpy dt ml 32;
      k ← load (sub_key s) i;
      '(tmp, me, ml) ← f_change tmp me ml k;
      ml ← xor ml mr 32;
      mr ← bit_cpy mr dt 32;
      mret (ml, mr, dt, tmp, me)) (take 32 mb, drop 32 mb, dec_tmp s, tmp, msg_e s);
  let mb := ml ++ mr in
  '(tmp, mb) ← tbl_replace tmp mb mb ipr_tbl 64;
  plain ← bit_to_byte plain mb 64;
  mret (mkDes (sub_key s) (key_bit s) tmp (lb_tmp s) me (enc_bit s) (enc_tmp s) mb dt, plain).

(** [main]: what it prints, the cipher text it computes and what it decrypts. *)
Definition des_main : res (list output * list Z * list Z) :=
  let plain := codes "hellodec" ++ [0] in
  let enc_key := codes "hellokey" ++ [0] in
  let cypher_str := codes "8656C6C6F6465636" ++ [0] in
  s ← set_key des_init enc_key;
  keys ← for_range 0 16 (λ i out, row ← load (sub_key s) i;
           for_range 0 48 (λ j out, b ← load row j; mret (out ++ [PutInt (Z.b2z b)])) out)
         [PutStr "sub_key=\n"];
  '(s, cypher, out) ← encrypt s plain (replicate 17 0);
  ct ← c_chars cypher;
  '(s, dec_plain) ← decrypt s (replicate 9 0) cypher_str;
  pt ← c_chars dec_plain;
  mret (keys ++ [PutStr "\n"] ++ out ++
        [PutStr "加密 "; PutChars (codes "hellodec"); PutStr " with key "; PutChars (codes "hellokey");
         PutStr ", get "; PutChars ct; PutStr "\n";
         PutStr "解密 "; PutChars (codes "8656C6C6F6465636"); PutStr " with key ";
         PutChars (codes "hellokey"); PutStr " 结果为: "; PutChars pt; PutStr "\n"],
        ct, pt).

(** ** The interactive [test] *)

(** [scanf("%s", buf)] on the remaining words of the input: the word and a NUL
    go into the buffer; at the end of the input the buffer stays. *)
Definition scan_str (buf : list Z) (toks : list (list Z)) : res (list Z * list (list Z)) :=
  match toks with
  | [] => mret (buf, [])
  | t :: ts =>
      b ← for_range 0 (Z.of_nat (length t)) (λ i b, c ← load t i; store b i c) buf;
      b ← store b (Z.of_nat (length t)) 0;
      mret (b, ts)
  end.

(** Read a key, and again until it has 8 characters. *)
Definition read_key (fuel : nat) (key : list Z) (toks : list (list Z))
  : res (list Z * list (list Z)) :=
  '(key, toks) ← scan_str key toks;
  i ← c_strlen key;
  '(_, key, toks) ← while fuel (λ '(i, _, _), mret (negb (i =? 8)))
      (λ '(_, key, toks),
        '(key, toks) ← scan_str key toks;
        i ← c_strlen key;
        mret (i, key, toks)) (i, key, toks);
  mret (key, toks).

(** [test]: the cipher text and the decrypted text it prints. *)
Definition des_test (fuel : nat) (s : Des) (toks : list (list Z)) : res (list Z * list Z) :=
  '(plain, toks) ← scan_str (replicate 9 0) toks;
  '(enc_key, toks) ← read_key fuel (replicate 8 0) toks;
  s ← set_key s enc_key;
  '(s, cypher, _) ← encrypt s plain (replicate 17 0);
  ct ← c_chars cypher;
  '(dec_key, _) ← read_key fuel (replicate 8 0) toks;
  s ← set_key s dec_key;
  '(s, dec_plain) ← decrypt s (replicate 9 0) cypher;
  pt ← c_chars dec_plain;
  mret (ct, pt).
