(* ===== verification/DesSpec.v ===== *)
(** A reference description of DES, and the refinement of [Des] to it. *)
From S2P Require Import Prelude Des.

(** ** Reference functions on bit lists *)

Definition nthb (l : list bool) (i : Z) : bool := default false (l !! Z.to_nat i).

(** The bits of [l] at the 1-based positions that the table lists. *)
Definition perm (table : list Z) (l : list bool) : list bool := (λ t, nthb l (t - 1)) <$> table.

Definition xorl (a b : list bool) : list bool := zip_with xorb a b.

Definition rotl (n : Z) (l : list bool) : list bool := drop (Z.to_nat n) l ++ take (Z.to_nat n) l.

(** The first 64 bits of a block of characters, low bit first. *)
Definition char_bit (c : Z) (k : Z) : bool := Z.land (Z.shiftr c k) 1 =? 1.

Definition bits64 (s : list Z) : list bool :=
  (λ i, char_bit (default 0 (s !! Z.to_nat (i / 8))) (i mod 8)) <$> seqZ0 64.

(** A half of the key register after [n] rounds. *)
Fixpoint rots (n : nat) (l : list bool) : list bool :=
  match n with
  | O => l
  | S n' => rotl (default 0 (mv_tbl !! n')) (rots n' l)
  end.

Definition round_key (cd : list bool) (i : nat) : list bool :=
  perm pc2_tbl (rots (S i) (take 28 cd) ++ rots (S i) (drop 28 cd)).

Definition key_schedule (key : list bool) : list (list bool) :=
  round_key (perm pc1_tbl key) <$> seq 0 16.

Definition sbox_val (l : list bool) (i : Z) : Z :=
  let b k := Z.b2z (nthb l (6 * i + k)) in
  let r := b 0 * 2 + b 5 * 1 in
  let c := b 1 * 8 + b 2 * 4 + b 3 * 2 + b 4 * 1 in
  match (box ← load s_box i; row ← load box r; load row c) with Ok v => v | Err _ => 0 end.

Definition sboxes (l : list bool) : list bool :=
  (λ n, char_bit (sbox_val l (n / 4)) (n mod 4)) <$> seqZ0 32.

Definition feistel (k r : list bool) : list bool :=
  perm p_tbl (sboxes (xorl (perm e_tbl r) k)).

(** One round forwards, and the round that undoes it. *)
Definition enc_round (k : list bool) (lr : list bool * list bool) : list bool * list bool :=
  (lr.2, xorl (feistel k lr.2) lr.1).
Definition dec_round (k : list bool) (lr : list bool * list bool) : list bool * list bool :=
  (xorl (feistel k lr.1) lr.2, lr.1).

Definition key_at (ks : list (list bool)) (i : nat) : list bool := default [] (ks !! i).

Fixpoint enc_rounds (ks : list (list bool)) (n : nat) (lr : list bool * list bool) :=
  match n with
  | O => lr
  | S n' => enc_round (key_at ks n') (enc_rounds ks n' lr)
  end.

(** The rounds with the keys [n-1], ..., [0]. *)
Fixpoint dec_rounds (ks : list (list bool)) (n : nat) (lr : list bool * list bool) :=
  match n with
  | O => lr
  | S n' => dec_rounds ks n' (dec_round (key_at ks n') lr)
  end.

Definition halves (l : list bool) : list bool * list bool := (take 32 l, drop 32 l).
Definition joined (lr : list bool * list bool) : list bool := lr.1 ++ lr.2.

Definition des_enc (ks : list (list bool)) (block : list bool) : list bool :=
  perm ipr_tbl (joined (enc_rounds ks 16 (halves (perm ip_tbl block)))).
Definition des_dec (ks : list (list bool)) (block : list bool) : list bool :=
  perm ipr_tbl (joined (dec_rounds ks 16 (halves (perm ip_tbl block)))).

(** ** Lengths and lookups *)

Lemma length_perm t l : length (perm t l) = length t.
Proof. apply length_fmap. Qed.

Lemma length_xorl a b : length (xorl a b) = (length a `min` length b)%nat.
Proof. apply length_zip_with. Qed.

Lemma length_rotl n l : length (rotl n l) = length l.
Proof. unfold rotl. rewrite length_app, length_drop, length_take. lia. Qed.

Lemma length_rots n l : length (rots n l) = length l.
Proof. induction n as [|n IH]; [done|]. cbn. by rewrite length_rotl. Qed.

Lemma length_sboxes l : length (sboxes l) = 32%nat.
Proof. unfold sboxes. by rewrite length_fmap, length_seqZ0. Qed.

Lemma length_feistel k r : length (feistel k r) = 32%nat.
Proof. unfold feistel. by rewrite length_perm. Qed.

Lemma length_bits64 s : length (bits64 s) = 64%nat.
Proof. unfold bits64. by rewrite length_fmap, length_seqZ0. Qed.

Lemma length_des_enc ks b : length (des_enc ks b) = 64%nat.
Proof. unfold des_enc. by rewrite length_perm. Qed.

Create Rewrite HintDb des_len.
#[export] Hint Rewrite length_perm length_xorl length_rotl length_rots length_sboxes length_feistel
  length_bits64 @length_app @length_take @length_drop @length_fmap length_seqZ0
  @length_replicate @length_insert length_des_enc : des_len.

Ltac len := autorewrite with des_len in *; cbn [length] in *; try lia.

Lemma nthb_lookup l i : 0 ≤ i < Z.of_nat (length l) → l !! Z.to_nat i = Some (nthb l i).
Proof. intros Hi. destruct (lookup_lt_Z l i Hi) as [x Hx]. unfold nthb. by rewrite Hx. Qed.

Lemma load_nthb l i : 0 ≤ i < Z.of_nat (length l) → load l i = Ok (nthb l i).
Proof. intros Hi. apply load_ok; [lia|]. by apply nthb_lookup. Qed.

Lemma nthb_perm t l i :
  0 ≤ i < Z.of_nat (length t) → nthb (perm t l) i = nthb l (default 0 (t !! Z.to_nat i) - 1).
Proof.
  intros Hi. unfold nthb, perm. rewrite list_lookup_fmap.
  destruct (lookup_lt_Z t i Hi) as [x ->]. done.
Qed.

(** A list is the list of its elements. *)
Lemma seqZ0_nthb l n : Z.of_nat (length l) = n → nthb l <$> seqZ0 n = l.
Proof.
  intros <-. apply list_eq. intros i. rewrite list_lookup_fmap.
  destruct (decide (i < length l)%nat) as [Hi|Hi].
  - rewrite lookup_seqZ0 by lia. cbn. unfold nthb. rewrite Nat2Z.id.
    by destruct (lookup_lt_is_Some_2 l i Hi) as [x ->].
  - rewrite !lookup_ge_None_2 by (try rewrite length_seqZ0; lia). done.
Qed.

Lemma seqZ0_ext {A} (f g : Z → A) n :
  (∀ i, 0 ≤ i < n → f i = g i) → f <$> seqZ0 n = g <$> seqZ0 n.
Proof.
  intros H. apply list_fmap_ext. intros i x Hx. apply H.
  pose proof (lookup_lt_Some _ _ _ Hx) as Hl. rewrite length_seqZ0 in Hl.
  rewrite lookup_seqZ0 in Hx by done. injection Hx as <-. lia.
Qed.

Lemma perm_seqZ0 t l n :
  Z.of_nat (length t) = n → (λ i, nthb l (default 0 (t !! Z.to_nat i) - 1)) <$> seqZ0 n = perm t l.
Proof.
  intros Hn. rewrite <- (seqZ0_nthb (perm t l) n) by (rewrite length_perm; lia).
  apply seqZ0_ext. intros i Hi. by rewrite nthb_perm by lia.
Qed.

Lemma xorl_seqZ0 a b n :
  Z.of_nat (length a) = n → Z.of_nat (length b) = n →
  (λ i, xorb (nthb a i) (nthb b i)) <$> seqZ0 n = xorl a b.
Proof.
  intros Ha Hb. rewrite <- (seqZ0_nthb (xorl a b) n) by (rewrite length_xorl; lia).
  apply seqZ0_ext. intros i Hi. unfold xorl, nthb. rewrite lookup_zip_with.
  destruct (lookup_lt_Z a i) as [x ->]; [lia|]. by destruct (lookup_lt_Z b i) as [y ->]; [lia|].
Qed.

(** ** The bit operations *)

Lemma bit_cpy_spec out inp num :
  0 ≤ num ≤ Z.of_nat (length out) → num ≤ Z.of_nat (length inp) →
  bit_cpy out inp num = Ok (take (Z.to_nat num) inp ++ drop (Z.to_nat num) out).
Proof.
  intros Ho Hi. unfold bit_cpy. rewrite (fill_list (nthb inp)).
  - do 2 f_equal. rewrite <- (seqZ0_nthb (take (Z.to_nat num) inp) num) by (rewrite length_take; lia).
    apply seqZ0_ext. intros i Hin. unfold nthb. by rewrite lookup_take_lt by lia.
  - done.
  - intros i m' Hin _ _. by rewrite load_nthb by lia.
Qed.

Lemma byte_to_bit_spec out inp :
  length out = 64%nat → (8 ≤ length inp)%nat → byte_to_bit out inp 64 = Ok (bits64 inp).
Proof.
  intros Ho Hi. unfold byte_to_bit.
  rewrite (fill_list (λ i, char_bit (default 0 (inp !! Z.to_nat (i / 8))) (i mod 8))).
  - rewrite drop_ge by (cbn; lia). by rewrite app_nil_r.
  - lia.
  - intros i m' Hin _ _. pose proof (Z.div_mod i 8 ltac:(lia)). pose proof (Z.mod_pos_bound i 8 ltac:(lia)).
    destruct (lookup_lt_Z inp (i / 8)) as [c Hc]; [lia|].
    by rewrite (load_ok _ _ c), Hc by (done || lia).
Qed.

(** The table replacement, in place or not: [perm] over the target. *)
Lemma tbl_replace_spec tmp out data table num :
  num = Z.of_nat (length table) → num ≤ Z.of_nat (length tmp) → num ≤ Z.of_nat (length out) →
  Forall (λ t, 1 ≤ t ≤ Z.of_nat (length data)) table →
  tbl_replace tmp out data table num =
    Ok (perm table data ++ drop (Z.to_nat num) tmp, perm table data ++ drop (Z.to_nat num) out).
Proof.
  intros Hn Ht Ho Hf. unfold tbl_replace.
  rewrite (fill_list (λ i, nthb data (default 0 (table !! Z.to_nat i) - 1))); [|lia|].
  - rewrite perm_seqZ0 by lia. rewrite bind_ok, bit_cpy_spec by (len; lia). rewrite bind_ok.
    do 3 f_equal. rewrite take_app_le by (len; lia). rewrite firstn_all2 by (len; lia). done.
  - intros i m' Hi _ _. destruct (lookup_lt_Z table i) as [t Hti]; [lia|].
    rewrite (load_ok _ _ t), Hti, bind_ok by (done || lia). cbn [default].
    assert (1 ≤ t ≤ Z.of_nat (length data)) by (by eapply (Forall_lookup_1 _ _ _ _ Hf)).
    by rewrite load_nthb by lia.
Qed.

(** A permutation reads only positions in its range. *)
Lemma perm_app_le table a b :
  Forall (λ t, 1 ≤ t ≤ Z.of_nat (length a)) table → perm table (a ++ b) = perm table a.
Proof.
  intros Hf. unfold perm. apply list_fmap_ext. intros i t Ht.
  assert (1 ≤ t ≤ Z.of_nat (length a)) by (by eapply (Forall_lookup_1 _ _ _ _ Hf)).
  unfold nthb. by rewrite lookup_app_l by lia.
Qed.

Lemma xor_spec out inp num :
  num = Z.of_nat (length out) → num = Z.of_nat (length inp) → xor out inp num = Ok (xorl out inp).
Proof.
  intros Ho Hi. unfold xor. rewrite (fill_list (λ i, xorb (nthb out i) (nthb inp i))).
  - rewrite drop_ge by lia. rewrite app_nil_r. by rewrite xorl_seqZ0 by lia.
  - lia.
  - intros i m' Hin Hl Hs. rewrite (load_ok m' i (nthb out i)), bind_ok.
    + by rewrite load_nthb by lia.
    + lia.
    + rewrite Hs by lia. apply nthb_lookup. lia.
Qed.

(** The upward copy inside one array is a rotation step: reading ahead of the
    writes, it sees the original contents. *)
Lemma bit_move_spec a b step c :
  let n := Z.of_nat (length b) in
  0 ≤ step ≤ n →
  bit_move (a ++ b ++ c) (Z.of_nat (length a)) (Z.of_nat (length a) + step) (n - step) =
    Ok (a ++ drop (Z.to_nat step) b ++ drop (Z.to_nat (n - step)) b ++ c).
Proof.
  intros n Hs. unfold bit_move.
  destruct (for_range_inv (λ i m, i ≤ n - step ∧
      m = a ++ take (Z.to_nat i) (drop (Z.to_nat step) b) ++ drop (Z.to_nat i) b ++ c)
    (λ i a0, b0 ← load a0 (Z.of_nat (length a) + step + i); store a0 (Z.of_nat (length a) + i) b0)
    0 (n - step) (a ++ b ++ c)) as (m & -> & _ & ->); [lia|by split; [lia|]| |].
  - intros i m Hi [_ ->].
    destruct (lookup_lt_Z b (step + i)) as [x Hx]; [lia|].
    destruct (lookup_lt_Z b i) as [y Hy]; [lia|].
    assert (Lt : length (take (Z.to_nat i) (drop (Z.to_nat step) b)) = Z.to_nat i) by (len; lia).
    rewrite (load_ok _ _ x), bind_ok; [|lia|].
    + rewrite store_ok by (len; lia). eexists. split; [reflexivity|]. split; [lia|].
      rewrite insert_app_r_alt by lia. f_equal.
      replace (Z.to_nat (Z.of_nat (length a) + i) - length a)%nat with (Z.to_nat i) by lia.
      rewrite insert_app_r_alt by lia. rewrite Lt, Nat.sub_diag.
      rewrite (drop_S _ _ _ Hy). cbn [list_insert insert app].
      replace (Z.to_nat (i + 1)) with (S (Z.to_nat i)) by lia.
      rewrite (take_S_r _ _ x), <- app_assoc; [done|].
      rewrite lookup_drop. rewrite <- Hx. f_equal. lia.
    + rewrite lookup_app_r by lia. rewrite lookup_app_r by lia. rewrite Lt.
      rewrite lookup_app_l by (rewrite length_drop; lia). rewrite lookup_drop, <- Hx. f_equal. lia.
  - do 2 f_equal. rewrite firstn_all2 by (len; lia). done.
Qed.

Lemma bit_cpy_at_spec a b c inp n :
  n = Z.of_nat (length b) → n ≤ Z.of_nat (length inp) →
  bit_cpy_at (a ++ b ++ c) (Z.of_nat (length a)) inp n = Ok (a ++ take (Z.to_nat n) inp ++ c).
Proof.
  intros Hn Hi. unfold bit_cpy_at.
  destruct (for_range_inv (λ i m, i ≤ n ∧
      m = a ++ take (Z.to_nat i) inp ++ drop (Z.to_nat i) b ++ c)
    (λ i out, b0 ← load inp i; store out (Z.of_nat (length a) + i) b0)
    0 n (a ++ b ++ c)) as (m & -> & _ & ->); [lia|by split; [lia|]| |].
  - intros i m Hin [_ ->]. destruct (lookup_lt_Z inp i) as [x Hx]; [lia|].
    destruct (lookup_lt_Z b i) as [y Hy]; [lia|].
    rewrite (load_ok _ _ x), bind_ok by (done || lia).
    rewrite store_ok by (len; lia). eexists. split; [reflexivity|]. split; [lia|].
    rewrite insert_app_r_alt by lia. f_equal.
    rewrite insert_app_r_alt by (len; lia).
    replace (Z.to_nat (Z.of_nat (length a) + i) - length a - length (take (Z.to_nat i) inp))%nat
      with O by (len; lia).
    rewrite (drop_S _ _ _ Hy). cbn [list_insert insert app].
    replace (Z.to_nat (i + 1)) with (S (Z.to_nat i)) by lia.
    by rewrite (take_S_r _ _ x), <- app_assoc.
  - do 2 f_equal. rewrite drop_ge by lia. done.
Qed.

(** [loop_bit] rotates its region to the left. *)
Lemma loop_bit_spec tmp a b c step :
  0 ≤ step ≤ Z.of_nat (length b) → step ≤ Z.of_nat (length tmp) →
  ∃ tmp', loop_bit tmp (a ++ b ++ c) (Z.of_nat (length a)) step (Z.of_nat (length b)) =
    Ok (tmp', a ++ rotl step b ++ c) ∧ length tmp' = length tmp.
Proof.
  intros Hs Ht. unfold loop_bit. rewrite (fill_list (nthb b)); [|lia|].
  2: { intros i m' Hi _ _. rewrite (load_ok _ _ (nthb b i)); [done|lia|].
       rewrite lookup_app_r by lia. rewrite lookup_app_l by lia. rewrite <- nthb_lookup by lia.
       f_equal. lia. }
  rewrite bind_ok, bit_move_spec, bind_ok by lia.
  rewrite app_assoc.
  replace (Z.of_nat (length a) + Z.of_nat (length b) - step)
    with (Z.of_nat (length (a ++ drop (Z.to_nat step) b))) by (len; lia).
  rewrite bit_cpy_at_spec by (len; lia). rewrite bind_ok. eexists. split.
  - rewrite <- app_assoc. unfold rotl. rewrite <- app_assoc. do 5 f_equal.
    rewrite take_app_le by (len; lia). rewrite firstn_all2 by (len; lia).
    rewrite <- (seqZ0_nthb (take (Z.to_nat step) b) step) by (len; lia).
    apply seqZ0_ext. intros i Hi. unfold nthb. by rewrite lookup_take_lt by lia.
  - len.
Qed.

(** ** The static arrays keep their sizes *)

Record des_inv (s : Des) : Prop := {
  inv_sub : length (sub_key s) = 16%nat;
  inv_rows : Forall (λ r, length r = 48%nat) (sub_key s);
  inv_key : length (key_bit s) = 64%nat;
  inv_tr : length (tr_tmp s) = 256%nat;
  inv_lb : length (lb_tmp s) = 256%nat;
  inv_e : length (msg_e s) = 48%nat;
  inv_eb : length (enc_bit s) = 64%nat;
  inv_et : length (enc_tmp s) = 32%nat;
  inv_db : length (dec_bit s) = 64%nat;
  inv_dt : length (dec_tmp s) = 32%nat
}.

Lemma des_init_inv : des_inv des_init.
Proof. split; [done| |done..]. by apply Forall_replicate. Qed.

(** ** Properties of the tables, by computation *)

Definition in_tbl (n : Z) (table : list Z) : bool :=
  forallb (λ t, (1 <=? t) && (t <=? n)) table.

Lemma in_tbl_Forall n table : in_tbl n table = true → Forall (λ t, 1 ≤ t ≤ n) table.
Proof.
  unfold in_tbl. rewrite forallb_forall. intros H. apply Forall_forall. intros t Ht.
  specialize (H t). rewrite <- list_elem_of_In, andb_true_iff, !Z.leb_le in H. by apply H.
Qed.

(** [tbl_replace] with one of the constant tables. *)
Lemma tbl_replace_const tmp out data table num k :
  in_tbl k table = true → num = Z.of_nat (length table) → num ≤ 256 →
  length tmp = 256%nat → num ≤ Z.of_nat (length out) → k ≤ Z.of_nat (length data) →
  ∃ tmp', tbl_replace tmp out data table num =
    Ok (tmp', perm table data ++ drop (Z.to_nat num) out) ∧ length tmp' = 256%nat.
Proof.
  intros Ht Hn Hn256 Htmp Hout Hk. apply in_tbl_Forall in Ht.
  assert (Forall (λ t, 1 ≤ t ≤ Z.of_nat (length data)) table) as Hf.
  { eapply Forall_impl; [exact Ht|]. cbn. lia. }
  rewrite tbl_replace_spec by (done || lia). eexists. split; [reflexivity|]. len.
Qed.

Lemma mv_tbl_lookup i : 0 ≤ i < 16 → ∃ m, mv_tbl !! Z.to_nat i = Some m ∧ 0 ≤ m ≤ 28.
Proof.
  intros Hi. destruct (lookup_lt_Z mv_tbl i) as [m Hm]; [cbn; lia|]. exists m. split; [done|].
  assert (Hf : Forall (λ m, 1 ≤ m ≤ 28) mv_tbl) by (by apply in_tbl_Forall).
  pose proof (Forall_lookup_1 _ _ _ _ Hf Hm). cbn in *. lia.
Qed.

(** ** The key schedule *)

(** One round of [set_key]: both halves rotate, the round key is stored. *)
Definition key_body (i : Z) (st : list (list bool) * list bool * list bool * list bool)
  : res (list (list bool) * list bool * list bool * list bool) :=
  let '(sk, kb, tmp, lt) := st in
  m ← load mv_tbl i;
  '(lt, kb) ← loop_bit lt kb 0 m 28;
  '(lt, kb) ← loop_bit lt kb 28 m 28;
  row ← load sk i;
  '(tmp, row) ← tbl_replace tmp row kb pc2_tbl 48;
  sk ← store sk i row;
  mret (sk, kb, tmp, lt).

Definition key_inv (cd rest : list bool) (sk0 : list (list bool)) (i : Z)
    (st : list (list bool) * list bool * list bool * list bool) : Prop :=
  let '(sk, kb, tmp, lt) := st in
  i ≤ 16 ∧
  sk = (round_key cd <$> seq 0 (Z.to_nat i)) ++ drop (Z.to_nat i) sk0 ∧
  kb = rots (Z.to_nat i) (take 28 cd) ++ rots (Z.to_nat i) (drop 28 cd) ++ rest ∧
  length tmp = 256%nat ∧ length lt = 256%nat.

Lemma key_step cd rest sk0 i st :
  length cd = 56%nat → length sk0 = 16%nat → Forall (λ r, length r = 48%nat) sk0 →
  0 ≤ i < 16 → key_inv cd rest sk0 i st →
  ∃ st', key_body i st = Ok st' ∧ key_inv cd rest sk0 (i + 1) st'.
Proof.
  destruct st as [[[sk kb] tmp] lt]. intros Hcd Hsk Hrows Hi (_ & -> & -> & Ht & Hl).
  unfold key_body. destruct (mv_tbl_lookup i Hi) as (m & Em & Hm).
  rewrite (load_ok _ _ m), bind_ok by (done || lia).
  set (c := rots (Z.to_nat i) (take 28 cd)). set (d := rots (Z.to_nat i) (drop 28 cd)).
  assert (Lc : length c = 28%nat) by (subst c; len). assert (Ld : length d = 28%nat) by (subst d; len).
  destruct (loop_bit_spec lt [] c (d ++ rest) m) as (lt1 & E1 & L1); [lia|lia|].
  rewrite Lc in E1. cbn [length app] in E1. change (Z.of_nat 0) with 0 in E1. change (Z.of_nat 28) with 28 in E1.
  rewrite E1, bind_ok. clear E1.
  destruct (loop_bit_spec lt1 (rotl m c) d rest m) as (lt2 & E2 & L2); [lia|lia|].
  rewrite length_rotl, Lc, Ld in E2. change (Z.of_nat 28) with 28 in E2. rewrite E2, bind_ok. clear E2.
  destruct (lookup_lt_Z sk0 i) as [row Hrow]; [lia|].
  assert (Lrow : length row = 48%nat) by (by eapply (Forall_lookup_1 _ _ _ _ Hrows)).
  assert (Lk : length (round_key cd <$> seq 0 (Z.to_nat i)) = Z.to_nat i)
    by (by rewrite length_fmap, length_seq).
  rewrite (load_ok _ _ row), bind_ok; [|lia|by rewrite lookup_app_r, Lk, lookup_drop by lia;
    rewrite <- Hrow; f_equal; lia].
  assert (Lkb : 56 ≤ Z.of_nat (length (rotl m c ++ rotl m d ++ rest))) by len.
  destruct (tbl_replace_const tmp row (rotl m c ++ rotl m d ++ rest) pc2_tbl 48 56)
    as (tmp' & -> & Lt'); [done|done|lia|done|lia|lia|]. rewrite bind_ok.
  rewrite (drop_ge row), app_nil_r by lia. rewrite store_ok by (rewrite length_app, Lk, length_drop; lia).
  rewrite bind_ok. eexists. split; [reflexivity|].
  assert (Ec : rotl m c = rots (S (Z.to_nat i)) (take 28 cd)) by (cbn; by rewrite Em).
  assert (Ed : rotl m d = rots (S (Z.to_nat i)) (drop 28 cd)) by (cbn; by rewrite Em).
  unfold key_inv. replace (Z.to_nat (i + 1)) with (S (Z.to_nat i)) by lia.
  split; [lia|]. rewrite Ec, Ed. split; [|split; [done|split; lia]].
  rewrite insert_app_r_alt by lia. rewrite Lk, Nat.sub_diag, (drop_S _ _ _ Hrow).
  cbn [list_insert insert]. rewrite seq_S, fmap_app, <- app_assoc. cbn [fmap list_fmap app].
  do 2 f_equal. rewrite app_assoc. apply perm_app_le. rewrite <- Ec, <- Ed.
  eapply Forall_impl; [by apply (in_tbl_Forall 56)|]. cbn. len.
Qed.

(** [set_key] computes the key schedule of the 64 key bits. *)
Lemma set_key_refines s key :
  des_inv s → (8 ≤ length key)%nat →
  ∃ s', set_key s key = Ok s' ∧ des_inv s' ∧ sub_key s' = key_schedule (bits64 key).
Proof.
  intros H Hkey. unfold set_key. rewrite byte_to_bit_spec, bind_ok by (apply H || done).
  destruct (tbl_replace_const (tr_tmp s) (bits64 key) (bits64 key) pc1_tbl 56 64)
    as (tmp & -> & Lt); [done|done|lia|apply H|len|len|]. rewrite bind_ok.
  set (cd := perm pc1_tbl (bits64 key)). set (rest := drop (Z.to_nat 56) (bits64 key)).
  assert (Lcd : length cd = 56%nat) by (subst cd; by rewrite length_perm).
  fold key_body.
  destruct (for_range_inv (key_inv cd rest (sub_key s)) key_body 0 16
    (sub_key s, cd ++ rest, tmp, lb_tmp s)) as ([[[sk kb] tmp'] lt] & E & _ & Hsk & Hkb & Lt' & Ll);
    [lia| | |].
  - split; [lia|]. split; [done|]. split; [|split; [done|apply H]].
    change (cd ++ rest = take 28 cd ++ drop 28 cd ++ rest).
    by rewrite (app_assoc (take 28 cd)), take_drop.
  - intros i st Hi. apply key_step; [done|apply H|apply H|done].
  - change (for_range 0 16 _ _) with (for_range 0 16 key_body (sub_key s, cd ++ rest, tmp, lb_tmp s)).
    rewrite E, bind_ok. eexists. split; [reflexivity|].
    assert (Esk : sk = key_schedule (bits64 key)).
    { rewrite Hsk, drop_ge by (rewrite (inv_sub _ H); lia). by rewrite app_nil_r. }
    split; [|done]. destruct H. split; cbn; try done.
    + rewrite Esk. unfold key_schedule. by rewrite length_fmap, length_seq.
    + rewrite Esk. unfold key_schedule. apply Forall_fmap, Forall_forall. intros x _.
      unfold compose, round_key. by rewrite length_perm.
    + rewrite Hkb. subst rest. len.
Qed.
