(* ===== verification/DesProof.v ===== *)
(** Encryption and decryption of [Des]: refinement to the reference functions
    of [DesSpec], and what follows for the program. *)
From S2P Require Import Prelude Des DesSpec.

(** ** The substitution boxes *)

Definition box_at (i r c : Z) : res Z := box ← load s_box i; row ← load box r; load row c.

(** Every box, row and column the code can address exists. *)
Lemma box_at_total :
  forallb (λ i, forallb (λ r, forallb (λ c, is_ok (box_at i r c)) (seqZ0 16)) (seqZ0 4)) (seqZ0 8) = true.
Proof. vm_compute. reflexivity. Qed.

Lemma forallb_seqZ0 (p : Z → bool) n i : forallb p (seqZ0 n) = true → 0 ≤ i < n → p i = true.
Proof.
  rewrite forallb_forall. intros H Hi. apply H. rewrite <- list_elem_of_In.
  apply list_elem_of_lookup. exists (Z.to_nat i). rewrite lookup_seqZ0 by lia. f_equal. lia.
Qed.

Lemma box_at_ok i r c :
  0 ≤ i < 8 → 0 ≤ r < 4 → 0 ≤ c < 16 → ∃ v, box_at i r c = Ok v.
Proof.
  intros Hi Hr Hc. pose proof (forallb_seqZ0 _ _ i box_at_total Hi) as H1.
  pose proof (forallb_seqZ0 _ _ r H1 Hr) as H2. pose proof (forallb_seqZ0 _ _ c H2 Hc) as H3.
  cbn beta in H3. destruct (box_at i r c) as [v|]; [by exists v|done].
Qed.

Lemma b2z_range b : 0 ≤ Z.b2z b ≤ 1.
Proof. destruct b; cbn; lia. Qed.

(** The four bits that [byte_to_bit] writes for one box. *)
Lemma write_nibble (f : Z → bool) (v i : Z) (out : list bool) :
  0 ≤ i → 4 * i + 4 ≤ Z.of_nat (length out) →
  (∀ k, 0 ≤ k < 4 → f (4 * i + k) = char_bit v k) →
  for_range 0 4 (λ j out, store out (4 * i + j) (Z.land (Z.shiftr v (j mod 8)) 1 =? 1))
    ((f <$> seqZ0 (4 * i)) ++ drop (Z.to_nat (4 * i)) out) =
  Ok ((f <$> seqZ0 (4 * i + 4)) ++ drop (Z.to_nat (4 * i + 4)) out).
Proof.
  intros Hi Hl Hf.
  destruct (for_range_inv (λ j m, j ≤ 4 ∧
      m = (f <$> seqZ0 (4 * i + j)) ++ drop (Z.to_nat (4 * i + j)) out)
    (λ j out, store out (4 * i + j) (Z.land (Z.shiftr v (j mod 8)) 1 =? 1)) 0 4
    ((f <$> seqZ0 (4 * i)) ++ drop (Z.to_nat (4 * i)) out)) as (m & -> & _ & ->);
    [lia|split; [lia|by rewrite Z.add_0_r]| |done].
  intros j m Hj [_ ->]. set (n := 4 * i + j).
  assert (Ln : length (f <$> seqZ0 n) = Z.to_nat n) by len.
  rewrite store_ok by (rewrite length_app, Ln, length_drop; lia).
  eexists. split; [reflexivity|]. split; [lia|].
  destruct (lookup_lt_Z out n) as [x Hx]; [lia|].
  rewrite insert_app_r_alt, Ln, Nat.sub_diag, (drop_S _ _ _ Hx) by lia. cbn [list_insert insert].
  replace (4 * i + (j + 1)) with (n + 1) by lia. unfold seqZ0.
  replace (Z.to_nat (n + 1)) with (S (Z.to_nat n)) by lia.
  rewrite seq_S, !fmap_app, <- app_assoc. cbn. do 3 f_equal.
  rewrite Z2Nat.id by lia. subst n. rewrite Hf by lia. unfold char_bit. by rewrite Z.mod_small by lia.
Qed.

Lemma s_change_spec out inp :
  length out = 32%nat → length inp = 48%nat → s_change out inp = Ok (sboxes inp).
Proof.
  intros Ho Hi. unfold s_change, sboxes.
  set (f n := char_bit (sbox_val inp (n / 4)) (n mod 4)).
  match goal with |- for_range 0 8 ?b out = _ => set (body := b) end.
  destruct (for_range_inv (λ i m, i ≤ 8 ∧ m = (f <$> seqZ0 (4 * i)) ++ drop (Z.to_nat (4 * i)) out)
    body 0 8 out) as (m & -> & _ & ->); [lia|done| |].
  - intros i m Hin [_ ->]. subst body. cbn beta.
    rewrite !load_nthb by lia. rewrite !bind_ok. cbn zeta.
    set (b k := Z.b2z (nthb inp (6 * i + k))).
    pose proof (b2z_range (nthb inp (6 * i + 0))). pose proof (b2z_range (nthb inp (6 * i + 1))).
    pose proof (b2z_range (nthb inp (6 * i + 2))). pose proof (b2z_range (nthb inp (6 * i + 3))).
    pose proof (b2z_range (nthb inp (6 * i + 4))). pose proof (b2z_range (nthb inp (6 * i + 5))).
    rewrite (Z.add_0_r (6 * i)) in *.
    destruct (box_at_ok i (Z.b2z (nthb inp (6 * i)) * 2 + Z.b2z (nthb inp (6 * i + 5)) * 1)
      (Z.b2z (nthb inp (6 * i + 1)) * 8 + Z.b2z (nthb inp (6 * i + 2)) * 4 +
       Z.b2z (nthb inp (6 * i + 3)) * 2 + Z.b2z (nthb inp (6 * i + 4)) * 1)) as [v Hv]; [lia..|].
    assert (Es : sbox_val inp i = v).
    { unfold sbox_val. rewrite (Z.add_0_r (6 * i)). unfold box_at in Hv. by rewrite Hv. }
    unfold box_at in Hv. apply bind_ok_inv in Hv as (box & -> & Hv). rewrite bind_ok.
    apply bind_ok_inv in Hv as (row & -> & Hv). rewrite bind_ok, Hv, bind_ok.
    eexists. split; [|split; [lia|reflexivity]].
    replace (4 * (i + 1)) with (4 * i + 4) by lia. apply write_nibble; [lia|lia|].
    intros k Hk. subst f. cbn beta. rewrite <- Es.
    assert ((4 * i + k) / 4 = i) as -> by (symmetry; apply Z.div_unique with k; lia).
    assert ((4 * i + k) mod 4 = k) as ->; [|done].
    symmetry; apply Z.mod_unique with i; lia.
  - rewrite drop_ge by (cbn; lia). by rewrite app_nil_r.
Qed.

(** ** The round function *)

Lemma f_change_spec tmp me r k :
  length tmp = 256%nat → length me = 48%nat → length r = 32%nat → length k = 48%nat →
  ∃ tmp' me', f_change tmp me r k = Ok (tmp', me', feistel k r) ∧
    length tmp' = 256%nat ∧ length me' = 48%nat.
Proof.
  intros Ht Hm Hr Hk. unfold f_change.
  destruct (tbl_replace_const tmp me r e_tbl 48 32) as (t1 & -> & L1); [done|done|lia|done|lia|lia|].
  rewrite bind_ok, (drop_ge me), app_nil_r by lia.
  rewrite xor_spec by (rewrite ?length_perm; (done || lia)). rewrite bind_ok.
  assert (Lx : length (xorl (perm e_tbl r) k) = 48%nat) by (rewrite length_xorl, length_perm, Hk; done).
  rewrite s_change_spec, bind_ok by done.
  destruct (tbl_replace_const t1 (sboxes (xorl (perm e_tbl r) k)) (sboxes (xorl (perm e_tbl r) k)) p_tbl 32 32)
    as (t2 & -> & L2); [done|done|lia|done|rewrite length_sboxes; lia|rewrite length_sboxes; lia|].
  rewrite bind_ok. eexists _, _. split; [|split; [done|exact Lx]].
  rewrite (drop_ge (sboxes _)), app_nil_r by (rewrite length_sboxes; lia). done.
Qed.

(** ** The rounds *)

Definition round_state : Type := list bool * list bool * list bool * list bool * list bool.

Definition enc_body (sk : list (list bool)) (i : Z) (st : round_state) : res round_state :=
  let '(ml, mr, et, tmp, me) := st in
  et ← bit_cpy et mr 32;
  k ← load sk i;
  '(tmp, me, mr) ← f_change tmp me mr k;
  mr ← xor mr ml 32;
  ml ← bit_cpy ml et 32;
  mret (ml, mr, et, tmp, me).

Definition dec_body (sk : list (list bool)) (i : Z) (st : round_state) : res round_state :=
  let '(ml, mr, dt, tmp, me) := st in
  dt ← bit_cpy dt ml 32;
  k ← load sk i;
  '(tmp, me, ml) ← f_change tmp me ml k;
  ml ← xor ml mr 32;
  mr ← bit_cpy mr dt 32;
  mret (ml, mr, dt, tmp, me).

(** The halves are [lr]; the scratch arrays have their sizes. *)
Definition at_round (lr : list bool * list bool) (st : round_state) : Prop :=
  let '(ml, mr, t, tmp, me) := st in
  ml = lr.1 ∧ mr = lr.2 ∧ length ml = 32%nat ∧ length mr = 32%nat ∧ length t = 32%nat ∧
  length tmp = 256%nat ∧ length me = 48%nat.

Lemma bit_cpy_all a b : length a = 32%nat → length b = 32%nat → bit_cpy a b 32 = Ok b.
Proof.
  intros Ha Hb. rewrite bit_cpy_spec by lia. rewrite drop_ge, app_nil_r by lia.
  by rewrite firstn_all2 by lia.
Qed.

Lemma key_at_lookup sk i :
  length sk = 16%nat → Forall (λ r, length r = 48%nat) sk → 0 ≤ i < 16 →
  load sk i = Ok (key_at sk (Z.to_nat i)) ∧ length (key_at sk (Z.to_nat i)) = 48%nat.
Proof.
  intros Hl Hr Hi. destruct (lookup_lt_Z sk i) as [k Hk]; [lia|]. unfold key_at. rewrite Hk.
  split; [by apply load_ok; [lia|]|]. by eapply (Forall_lookup_1 _ _ _ _ Hr).
Qed.

Section rounds.
Context (sk : list (list bool)) (Hlen : length sk = 16%nat)
        (Hrows : Forall (λ r, length r = 48%nat) sk).

Lemma enc_step i lr st :
  0 ≤ i < 16 → at_round lr st →
  ∃ st', enc_body sk i st = Ok st' ∧ at_round (enc_round (key_at sk (Z.to_nat i)) lr) st'.
Proof.
  destruct st as [[[[ml mr] t] tmp] me]. intros Hi (-> & -> & Ll & Lr & Lt & Lp & Le).
  unfold enc_body. rewrite bit_cpy_all, bind_ok by done.
  destruct (key_at_lookup sk i Hlen Hrows Hi) as [-> Lk]. rewrite bind_ok.
  destruct (f_change_spec tmp me lr.2 (key_at sk (Z.to_nat i))) as (tmp' & me' & -> & Lp' & Le'); [done..|].
  rewrite bind_ok. rewrite xor_spec by (rewrite ?length_feistel; lia). rewrite bind_ok.
  rewrite bit_cpy_all, bind_ok by done. eexists. split; [reflexivity|].
  unfold at_round, enc_round. cbn [fst snd]. rewrite length_xorl, length_feistel, Ll. done.
Qed.

Lemma dec_step i lr st :
  0 ≤ i < 16 → at_round lr st →
  ∃ st', dec_body sk i st = Ok st' ∧ at_round (dec_round (key_at sk (Z.to_nat i)) lr) st'.
Proof.
  destruct st as [[[[ml mr] t] tmp] me]. intros Hi (-> & -> & Ll & Lr & Lt & Lp & Le).
  unfold dec_body. rewrite bit_cpy_all, bind_ok by done.
  destruct (key_at_lookup sk i Hlen Hrows Hi) as [-> Lk]. rewrite bind_ok.
  destruct (f_change_spec tmp me lr.1 (key_at sk (Z.to_nat i))) as (tmp' & me' & -> & Lp' & Le'); [done..|].
  rewrite bind_ok. rewrite xor_spec by (rewrite ?length_feistel; lia). rewrite bind_ok.
  rewrite bit_cpy_all, bind_ok by done. eexists. split; [reflexivity|].
  unfold at_round, dec_round. cbn [fst snd]. rewrite length_xorl, length_feistel, Lr. done.
Qed.

Lemma enc_loop lr st :
  at_round lr st →
  ∃ st', for_range 0 16 (enc_body sk) st = Ok st' ∧ at_round (enc_rounds sk 16 lr) st'.
Proof.
  intros H. destruct (for_range_inv (λ i st, at_round (enc_rounds sk (Z.to_nat i) lr) st)
    (enc_body sk) 0 16 st) as (st' & E & H'); [lia|done| |by exists st'].
  intros i s Hi Hs. destruct (enc_step i _ s Hi Hs) as (s' & -> & Hs').
  exists s'. split; [done|]. by replace (Z.to_nat (i + 1)) with (S (Z.to_nat i)) by lia.
Qed.

Lemma dec_loop lr st :
  at_round lr st →
  ∃ st', for_down 15 0 (dec_body sk) st = Ok st' ∧ at_round (dec_rounds sk 16 lr) st'.
Proof.
  intros H. destruct (for_down_inv (λ i st, ∃ lr', at_round lr' st ∧
      dec_rounds sk (Z.to_nat (i + 1)) lr' = dec_rounds sk 16 lr)
    (dec_body sk) 15 0 st) as (st' & E & lr' & H' & El); [lia|by exists lr| |].
  - intros i s Hi (lr' & Hs & El). destruct (dec_step i _ s ltac:(lia) Hs) as (s' & -> & Hs').
    exists s'. split; [done|]. eexists. split; [exact Hs'|]. rewrite <- El.
    replace (Z.to_nat (i + 1)) with (S (Z.to_nat i)) by lia. cbn [dec_rounds].
    by replace (i - 1 + 1) with i by lia.
  - exists st'. split; [done|]. by rewrite <- El.
Qed.
End rounds.

(** ** Hexadecimal digits and characters of a block *)

Definition hex_digit (v : Z) : Z := if 9 <? v then v + 55 else v + 48.

Definition nibble (l : list bool) (i : Z) : Z :=
  Z.b2z (nthb l (4 * i)) + Z.b2z (nthb l (4 * i + 1)) * 2 +
  Z.b2z (nthb l (4 * i + 2)) * 4 + Z.b2z (nthb l (4 * i + 3)) * 8.

Definition hex16 (l : list bool) : list Z := (λ i, hex_digit (nibble l i)) <$> seqZ0 16.

Lemma length_hex16 l : length (hex16 l) = 16%nat.
Proof. unfold hex16. by rewrite length_fmap, length_seqZ0. Qed.

Lemma bit_to_hex_spec out l :
  length l = 64%nat → (16 ≤ length out)%nat →
  bit_to_hex out l 64 = Ok (hex16 l ++ drop 16 out).
Proof.
  intros Hl Ho. unfold bit_to_hex. change (64 / 4) with 16.
  rewrite (fill_list (λ _, 0)); [|lia|done]. rewrite bind_ok.
  rewrite (fill_list (λ i, hex_digit (nibble l i))).
  - done.
  - len.
  - intros i m' Hi _ _. rewrite !load_nthb by lia. rewrite !bind_ok. cbv zeta. f_equal.
    unfold hex_digit, nibble.
    destruct (nthb l (4 * i)), (nthb l (4 * i + 1)), (nthb l (4 * i + 2)), (nthb l (4 * i + 3)); done.
Qed.

Lemma hex_to_bit_spec out l rest :
  length l = 64%nat → length out = 64%nat → hex_to_bit out (hex16 l ++ rest) 64 = Ok l.
Proof.
  intros Hl Ho. unfold hex_to_bit. rewrite (fill_list (nthb l)).
  - rewrite drop_ge, app_nil_r by lia. by rewrite seqZ0_nthb by lia.
  - lia.
  - intros i m' Hi _ _. pose proof (Z.div_mod i 4 ltac:(lia)) as Hdm.
    pose proof (Z.mod_pos_bound i 4 ltac:(lia)) as Hm. set (q := i / 4) in *. set (k := i mod 4) in *.
    rewrite (load_ok _ _ (hex_digit (nibble l q))), bind_ok; [|lia|].
    + f_equal. rewrite Hdm. unfold hex_digit, nibble.
      assert (k = 0 ∨ k = 1 ∨ k = 2 ∨ k = 3) as [E|[E|[E|E]]] by lia; rewrite E, ?Z.add_0_r;
        destruct (nthb l (4 * q)), (nthb l (4 * q + 1)), (nthb l (4 * q + 2)), (nthb l (4 * q + 3)); done.
    + rewrite lookup_app_l by (rewrite length_hex16; lia). unfold hex16.
      rewrite list_lookup_fmap, lookup_seqZ0 by lia. cbn. by rewrite Z2Nat.id by lia.
Qed.

(** The character that the bits [f 0], ..., [f (k-1)] make. *)
Fixpoint pack (f : Z → bool) (k : nat) : Z :=
  match k with
  | O => 0
  | S k' => wrap_i8 (Z.lor (pack f k') (Z.shiftl (Z.b2z (f (Z.of_nat k'))) (Z.of_nat k')))
  end.

Lemma pack_ext f g k : (∀ i, 0 ≤ i < Z.of_nat k → f i = g i) → pack f k = pack g k.
Proof.
  induction k as [|k IH]; intros H; [done|]. cbn [pack]. rewrite IH by (intros; apply H; lia).
  by rewrite H by lia.
Qed.

Lemma pack_char_bit c : - 128 ≤ c < 128 → pack (char_bit c) 8 = c.
Proof.
  intros Hc.
  assert (H : forallb (λ i, pack (char_bit (i - 128)) 8 =? i - 128) (seqZ0 256) = true)
    by (vm_compute; reflexivity).
  pose proof (forallb_seqZ0 _ _ (c + 128) H ltac:(lia)) as H1. cbn beta in H1.
  apply Z.eqb_eq in H1. by replace (c + 128 - 128) with c in H1 by lia.
Qed.

Definition chars8 (l : list bool) : list Z := (λ j, pack (λ k, nthb l (8 * j + k)) 8) <$> seqZ0 8.

Lemma bit_to_byte_spec out l :
  length l = 64%nat → (8 ≤ length out)%nat → bit_to_byte out l 64 = Ok (chars8 l ++ drop 8 out).
Proof.
  intros Hl Ho. unfold bit_to_byte. change (64 / 8) with 8.
  rewrite (fill_list (λ _, 0)); [|lia|done]. rewrite bind_ok. change (Z.to_nat 8) with 8%nat.
  set (f n j := pack (λ k, nthb l (8 * j + k)) (Z.to_nat (Z.min 8 (n - 8 * j)))).
  destruct (for_range_inv (λ n m, n ≤ 64 ∧ m = (f n <$> seqZ0 8) ++ drop 8 out)
    (λ i out, c ← load out (i / 8); b ← load l i;
      store out (i / 8) (wrap_i8 (Z.lor c (Z.shiftl (Z.b2z b) (i mod 8))))) 0 64
    (((λ _, 0) <$> seqZ0 8) ++ drop 8 out)) as (m & -> & _ & ->); [lia|split; [lia|]| |].
  - f_equal.
  - intros i m Hi [_ ->]. pose proof (Z.div_mod i 8 ltac:(lia)) as Hdm.
    pose proof (Z.mod_pos_bound i 8 ltac:(lia)) as Hm. set (q := i / 8) in *. set (k := i mod 8) in *.
    assert (Lf : ∀ n, length (f n <$> seqZ0 8) = 8%nat) by (intros; by rewrite length_fmap, length_seqZ0).
    rewrite (load_ok _ _ (f i q)), bind_ok; [|lia|].
    2: { rewrite lookup_app_l by (rewrite Lf; lia). rewrite list_lookup_fmap, lookup_seqZ0 by lia.
         cbn [fmap option_fmap option_map]. by rewrite Z2Nat.id by lia. }
    rewrite load_nthb, bind_ok by lia.
    rewrite store_ok by (rewrite length_app, Lf; lia). eexists. split; [reflexivity|]. split; [lia|].
    rewrite insert_app_l by (rewrite Lf; lia). f_equal.
    apply list_eq. intros j. destruct (decide (j < 8)%nat) as [Hj|Hj].
    2: { rewrite !lookup_ge_None_2; [done|by rewrite Lf; lia|rewrite length_insert, Lf; lia]. }
    rewrite (list_lookup_fmap (f (i + 1))), lookup_seqZ0 by lia. cbn [fmap option_fmap option_map].
    destruct (decide (j = Z.to_nat q)) as [->|Hne].
    + rewrite list_lookup_insert_eq by (rewrite Lf; lia). f_equal. rewrite Z2Nat.id by lia.
      unfold f. replace (Z.to_nat (Z.min 8 (i + 1 - 8 * q))) with (S (Z.to_nat k)) by lia.
      replace (Z.to_nat (Z.min 8 (i - 8 * q))) with (Z.to_nat k) by lia. cbn [pack].
      rewrite Z2Nat.id by lia. by replace (8 * q + k) with i by lia.
    + rewrite list_lookup_insert_ne by lia. rewrite list_lookup_fmap, lookup_seqZ0 by lia.
      cbn [fmap option_fmap option_map]. unfold f.
      by replace (Z.to_nat (Z.min 8 (i + 1 - 8 * Z.of_nat j)))
        with (Z.to_nat (Z.min 8 (i - 8 * Z.of_nat j))) by lia.
  - done.
Qed.

(** The bits of eight characters pack to the characters. *)
Lemma chars8_bits64 s :
  (8 ≤ length s)%nat → Forall (λ c, - 128 ≤ c < 128) (take 8 s) → chars8 (bits64 s) = take 8 s.
Proof.
  intros Hl Hf. unfold chars8. apply list_eq. intros j. rewrite list_lookup_fmap.
  destruct (decide (j < 8)%nat) as [Hj|Hj].
  2: { by rewrite !lookup_ge_None_2 by (rewrite ?length_take, ?length_seqZ0; lia). }
  rewrite lookup_seqZ0 by lia. rewrite lookup_take_lt by lia. cbn [fmap option_fmap option_map].
  destruct (lookup_lt_is_Some_2 s j) as [c Hc]; [lia|]. rewrite Hc. f_equal.
  assert (- 128 ≤ c < 128) as Hr.
  { assert (Ht : take 8 s !! j = Some c) by (by rewrite lookup_take_lt by lia).
    exact (Forall_lookup_1 _ _ _ _ Hf Ht). }
  transitivity (pack (char_bit c) 8); [|by apply pack_char_bit]. apply pack_ext. intros k Hk. unfold bits64, nthb.
  rewrite list_lookup_fmap, lookup_seqZ0 by lia. cbn [fmap option_fmap option_map default].
  rewrite Z2Nat.id by lia.
  assert ((8 * Z.of_nat j + k) / 8 = Z.of_nat j) as -> by (symmetry; apply Z.div_unique with k; lia).
  assert ((8 * Z.of_nat j + k) mod 8 = k) as -> by (symmetry; apply Z.mod_unique with (Z.of_nat j); lia).
  by rewrite Nat2Z.id, Hc.
Qed.
