(* ===== verification/DesCorrect.v ===== *)
(** What the DES program guarantees: [encrypt] and [decrypt] refine the
    reference cipher, decryption inverts encryption for every key, the cipher
    has the complementation property of DES, one bit of every key character is
    ignored, and what the program's own [main] and [test] do. *)
From S2P Require Import Prelude Des DesSpec DesProof.

(** ** Permutations compose *)

Definition compose_tbl (t1 t2 : list Z) : list Z :=
  (λ t, default 0 (t2 !! Z.to_nat (t - 1))) <$> t1.

Lemma perm_perm t1 t2 l :
  Forall (λ t, 1 ≤ t ≤ Z.of_nat (length t2)) t1 → perm t1 (perm t2 l) = perm (compose_tbl t1 t2) l.
Proof.
  intros Hf. unfold perm at 1 3, compose_tbl. rewrite <- list_fmap_compose.
  apply list_fmap_ext. intros i t Ht. pose proof (Forall_lookup_1 _ _ _ _ Hf Ht) as H. cbn beta in H.
  unfold compose. by rewrite nthb_perm by lia.
Qed.

Lemma perm_id l n : Z.of_nat (length l) = n → perm (Z.succ <$> seqZ0 n) l = l.
Proof.
  intros Hn. unfold perm. rewrite <- list_fmap_compose.
  transitivity (nthb l <$> seqZ0 n); [|by apply seqZ0_nthb]. apply seqZ0_ext. intros i Hi. unfold compose. f_equal. lia.
Qed.

Lemma ip_ipr l : length l = 64%nat → perm ip_tbl (perm ipr_tbl l) = l.
Proof.
  intros Hl. rewrite perm_perm by (by apply (in_tbl_Forall 64)).
  transitivity (perm (Z.succ <$> seqZ0 64) l); [|apply perm_id; lia]. f_equal.
Qed.

Lemma ipr_ip l : length l = 64%nat → perm ipr_tbl (perm ip_tbl l) = l.
Proof.
  intros Hl. rewrite perm_perm by (by apply (in_tbl_Forall 64)).
  transitivity (perm (Z.succ <$> seqZ0 64) l); [|apply perm_id; lia]. f_equal.
Qed.

(** ** The rounds are invertible *)

Definition half (lr : list bool * list bool) : Prop := length lr.1 = 32%nat ∧ length lr.2 = 32%nat.

Lemma xorl_involutive a b : length a = length b → xorl a (xorl a b) = b.
Proof.
  revert b. induction a as [|x a IH]; intros [|y b]; cbn; [done|lia|lia|].
  intros H. f_equal; [by destruct x, y|]. apply IH. lia.
Qed.

Lemma enc_round_half k lr : half lr → half (enc_round k lr).
Proof. intros [H1 H2]. split; cbn [enc_round fst snd]; [done|]. by rewrite length_xorl, length_feistel, H1. Qed.

Lemma enc_rounds_half ks n lr : half lr → half (enc_rounds ks n lr).
Proof. intros H. induction n as [|n IH]; [done|]. cbn [enc_rounds]. by apply enc_round_half. Qed.

Lemma dec_enc_round k lr : half lr → dec_round k (enc_round k lr) = lr.
Proof.
  intros [H1 H2]. unfold dec_round, enc_round. cbn [fst snd].
  rewrite xorl_involutive by (by rewrite length_feistel). by destruct lr.
Qed.

Lemma dec_enc_rounds ks n lr : half lr → dec_rounds ks n (enc_rounds ks n lr) = lr.
Proof.
  intros H. induction n as [|n IH]; [done|]. cbn [enc_rounds dec_rounds].
  by rewrite dec_enc_round by (by apply enc_rounds_half).
Qed.

Lemma halves_half l : length l = 64%nat → half (halves l).
Proof. intros H. split; cbn [halves fst snd]; rewrite ?length_take, ?length_drop; lia. Qed.

Lemma halves_joined lr : half lr → halves (joined lr) = lr.
Proof.
  intros [H1 H2]. unfold halves, joined. destruct lr as [l r]. cbn [fst snd] in *.
  by rewrite take_app_length', drop_app_length' by done.
Qed.

Lemma joined_halves l : joined (halves l) = l.
Proof. apply take_drop. Qed.

Lemma des_dec_enc ks b : length b = 64%nat → des_dec ks (des_enc ks b) = b.
Proof.
  intros Hb. unfold des_dec, des_enc.
  assert (Hh : half (halves (perm ip_tbl b))) by (apply halves_half; by rewrite length_perm).
  rewrite ip_ipr.
  - rewrite halves_joined by (by apply enc_rounds_half). rewrite dec_enc_rounds by done.
    rewrite joined_halves. by apply ipr_ip.
  - unfold joined. rewrite length_app. destruct (enc_rounds_half ks 16 _ Hh). lia.
Qed.

(** ** [encrypt] and [decrypt] refine the reference *)

Lemma print_chars_ok s : 0 ∈ s → ∃ o, print_chars s = Ok o.
Proof.
  intros H. unfold print_chars. destruct (c_strlen_ok s H) as [n Hn]. rewrite Hn, bind_ok.
  pose proof (c_strlen_bounds _ _ Hn) as Hb.
  destruct (for_range_inv (λ _ _, True) (λ i out, c ← load s i; mret (out ++ [PutInt c; PutStr " "])) 0 n [])
    as (o & -> & _); [lia|done| |by exists o].
  intros i out Hi _. destruct (lookup_lt_Z s i) as [c Hc]; [lia|].
  rewrite (load_ok _ _ c), bind_ok by (done || lia). by eexists.
Qed.

Lemma at_round_start lr t tmp me :
  half lr → length t = 32%nat → length tmp = 256%nat → length me = 48%nat →
  at_round lr (lr.1, lr.2, t, tmp, me).
Proof. intros [H1 H2] ???. done. Qed.

Lemma encrypt_ok s plain cypher :
  des_inv s → (8 ≤ length plain)%nat → 0 ∈ plain → (16 ≤ length cypher)%nat →
  ∃ s' out, encrypt s plain cypher =
      Ok (s', hex16 (des_enc (sub_key s) (bits64 plain)) ++ drop 16 cypher, out) ∧
    des_inv s' ∧ sub_key s' = sub_key s.
Proof.
  intros H Hp H0 Hc. unfold encrypt. destruct (print_chars_ok plain H0) as [o1 ->]. rewrite bind_ok.
  rewrite byte_to_bit_spec, bind_ok by (apply H || done). cbv zeta.
  destruct (tbl_replace_const (tr_tmp s) (bits64 plain) (bits64 plain) ip_tbl 64 64)
    as (t1 & -> & L1); [done|done|lia|apply H|len|len|]. rewrite bind_ok.
  rewrite (drop_ge (bits64 plain)), app_nil_r by len.
  set (lr := halves (perm ip_tbl (bits64 plain))).
  assert (Hh : half lr) by (apply halves_half; by rewrite length_perm).
  destruct (enc_loop (sub_key s) (inv_sub _ H) (inv_rows _ H) lr
    (lr.1, lr.2, enc_tmp s, t1, msg_e s)) as ([[[[ml mr] et] t2] me] & E & Hr);
    [apply at_round_start; [done|apply H|done|apply H]|].
  change (for_range 0 16 _ _) with (for_range 0 16 (enc_body (sub_key s)) (lr.1, lr.2, enc_tmp s, t1, msg_e s)).
  rewrite E, bind_ok. cbv beta iota. destruct Hr as (-> & -> & Ll & Lr & Lt & L2 & Le).
  set (j := (enc_rounds (sub_key s) 16 lr).1 ++ (enc_rounds (sub_key s) 16 lr).2).
  assert (Lj : length j = 64%nat) by (subst j; rewrite length_app; lia).
  destruct (tbl_replace_const t2 j j ipr_tbl 64 64) as (t3 & -> & L3); [done|done|lia|done|lia|lia|].
  rewrite bind_ok, (drop_ge j), app_nil_r by lia.
  rewrite bit_to_hex_spec, bind_ok by (by rewrite ?length_perm).
  assert (Ej : perm ipr_tbl j = des_enc (sub_key s) (bits64 plain)) by (subst j lr; unfold des_enc, des_dec, joined; reflexivity).
  clearbody j. rewrite Ej.
  eexists _, _. split; [reflexivity|]. split; [|done].
  destruct H. by split; cbn; rewrite ?length_perm.
Qed.

Lemma decrypt_ok s plain block rest :
  des_inv s → length block = 64%nat → (8 ≤ length plain)%nat →
  ∃ s', decrypt s plain (hex16 block ++ rest) =
      Ok (s', chars8 (des_dec (sub_key s) block) ++ drop 8 plain) ∧
    des_inv s' ∧ sub_key s' = sub_key s.
Proof.
  intros H Hb Hp. unfold decrypt.
  rewrite hex_to_bit_spec, bind_ok by (apply H || done).
  destruct (tbl_replace_const (tr_tmp s) block block ip_tbl 64 64)
    as (t1 & -> & L1); [done|done|lia|apply H|lia|lia|]. rewrite bind_ok.
  rewrite (drop_ge block), app_nil_r by lia.
  set (lr := halves (perm ip_tbl block)).
  assert (Hh : half lr) by (apply halves_half; by rewrite length_perm).
  destruct (dec_loop (sub_key s) (inv_sub _ H) (inv_rows _ H) lr
    (lr.1, lr.2, dec_tmp s, t1, msg_e s)) as ([[[[ml mr] et] t2] me] & E & Hr);
    [apply at_round_start; [done|apply H|done|apply H]|].
  change (for_down 15 0 _ _) with (for_down 15 0 (dec_body (sub_key s)) (lr.1, lr.2, dec_tmp s, t1, msg_e s)).
  rewrite E, bind_ok. cbv beta iota zeta. destruct Hr as (-> & -> & Ll & Lr & Lt & L2 & Le).
  set (j := (dec_rounds (sub_key s) 16 lr).1 ++ (dec_rounds (sub_key s) 16 lr).2).
  assert (Lj : length j = 64%nat) by (subst j; rewrite length_app; lia).
  destruct (tbl_replace_const t2 j j ipr_tbl 64 64) as (t3 & -> & L3); [done|done|lia|done|lia|lia|].
  rewrite bind_ok, (drop_ge j), app_nil_r by lia.
  rewrite bit_to_byte_spec, bind_ok by (by rewrite ?length_perm).
  assert (Ej : perm ipr_tbl j = des_dec (sub_key s) block) by (subst j lr; unfold des_enc, des_dec, joined; reflexivity).
  clearbody j. rewrite Ej.
  eexists. split; [reflexivity|]. split; [|done].
  destruct H. by split; cbn; rewrite ?length_perm.
Qed.

(** ** Complements *)

Definition compl (l : list bool) : list bool := negb <$> l.

Lemma compl_app a b : compl (a ++ b) = compl a ++ compl b.
Proof. apply fmap_app. Qed.

Lemma nthb_compl l i : 0 ≤ i < Z.of_nat (length l) → nthb (compl l) i = negb (nthb l i).
Proof.
  intros Hi. unfold nthb, compl. rewrite list_lookup_fmap. by destruct (lookup_lt_Z l i Hi) as [b ->].
Qed.

Lemma perm_compl t l :
  Forall (λ t, 1 ≤ t ≤ Z.of_nat (length l)) t → perm t (compl l) = compl (perm t l).
Proof.
  intros Hf. unfold perm, compl at 2. rewrite <- list_fmap_compose.
  apply list_fmap_ext. intros i x Hx. pose proof (Forall_lookup_1 _ _ _ _ Hf Hx) as H. cbn beta in H.
  unfold compose. by rewrite nthb_compl by lia.
Qed.

Lemma perm_compl_tbl k t l :
  in_tbl k t = true → k ≤ Z.of_nat (length l) → perm t (compl l) = compl (perm t l).
Proof.
  intros Ht Hk. apply perm_compl. eapply Forall_impl; [by apply (in_tbl_Forall k)|]. cbn. lia.
Qed.

Lemma xorl_compl_r a b : xorl a (compl b) = compl (xorl a b).
Proof. revert b. induction a as [|x a IH]; intros [|y b]; [done..|]. cbn. f_equal; [by destruct x, y|apply IH]. Qed.

Lemma xorl_compl a b : xorl (compl a) (compl b) = xorl a b.
Proof. revert b. induction a as [|x a IH]; intros [|y b]; [done..|]. cbn. f_equal; [by destruct x, y|apply IH]. Qed.

Lemma feistel_compl k r : length r = 32%nat → feistel (compl k) (compl r) = feistel k r.
Proof. intros Hr. unfold feistel. rewrite (perm_compl_tbl 32) by (done || lia). by rewrite xorl_compl. Qed.

Lemma compl_rotl n l : rotl n (compl l) = compl (rotl n l).
Proof. unfold rotl, compl. by rewrite fmap_app, fmap_drop, fmap_take. Qed.

Lemma compl_rots n l : rots n (compl l) = compl (rots n l).
Proof. induction n as [|n IH]; [done|]. cbn [rots]. by rewrite IH, compl_rotl. Qed.

Lemma key_schedule_compl key :
  length key = 64%nat → key_schedule (compl key) = compl <$> key_schedule key.
Proof.
  intros Hk. unfold key_schedule. rewrite <- list_fmap_compose. apply list_fmap_ext. intros i n _.
  unfold compose, round_key. rewrite (perm_compl_tbl 64) by (done || lia).
  set (cd := perm pc1_tbl key). assert (Lcd : length cd = 56%nat) by (subst cd; by rewrite length_perm).
  unfold compl at 1 2. rewrite <- fmap_take, <- fmap_drop. fold (compl (take 28 cd)) (compl (drop 28 cd)).
  rewrite !compl_rots. unfold compl at 1 2. rewrite <- fmap_app.
  fold (compl (rots (S n) (take 28 cd) ++ rots (S n) (drop 28 cd))).
  apply (perm_compl_tbl 56); [done|]. rewrite length_app, !length_rots, length_take, length_drop. lia.
Qed.

Definition compl2 (lr : list bool * list bool) := (compl lr.1, compl lr.2).

Lemma enc_rounds_compl ks n lr :
  half lr → enc_rounds (compl <$> ks) n (compl2 lr) = compl2 (enc_rounds ks n lr).
Proof.
  intros H. induction n as [|n IH]; [done|]. cbn [enc_rounds]. rewrite IH.
  set (x := enc_rounds ks n lr). assert (Hx : half x) by (by apply enc_rounds_half).
  assert (Ek : key_at (compl <$> ks) n = compl (key_at ks n)).
  { unfold key_at. rewrite list_lookup_fmap. by destruct (ks !! n). }
  rewrite Ek. unfold enc_round, compl2. cbn [fst snd].
  by rewrite feistel_compl, xorl_compl_r by apply Hx.
Qed.

Lemma des_enc_compl ks b :
  length b = 64%nat → des_enc (compl <$> ks) (compl b) = compl (des_enc ks b).
Proof.
  intros Hb. unfold des_enc. rewrite (perm_compl_tbl 64) by (done || lia).
  set (p := perm ip_tbl b). assert (Lp : length p = 64%nat) by (subst p; by rewrite length_perm).
  assert (Hh : half (halves p)) by (by apply halves_half).
  assert (E : halves (compl p) = compl2 (halves p)).
  { unfold halves, compl2, compl. cbn [fst snd]. by rewrite fmap_take, fmap_drop. }
  rewrite E, enc_rounds_compl by done. pose proof (enc_rounds_half ks 16 _ Hh) as [H1 H2].
  generalize dependent (enc_rounds ks 16 (halves p)). intros lr H1 H2.
  unfold joined, compl2. cbn [fst snd]. rewrite <- compl_app.
  rewrite (perm_compl_tbl 64); [done|done|]. rewrite length_app. lia.
Qed.

Lemma char_bit_lnot c k : 0 ≤ k → char_bit (Z.lnot c) k = negb (char_bit c k).
Proof.
  intros Hk. assert (E : ∀ z, (Z.land z 1 =? 1) = Z.odd z).
  { intros z. change 1 with (Z.ones 1) at 1. rewrite Z.land_ones by lia.
    change (2 ^ 1) with 2. rewrite Zmod_odd. by destruct (Z.odd z). }
  unfold char_bit. by rewrite !E, <- !Z.bit0_odd, !Z.shiftr_spec, Z.lnot_spec by lia.
Qed.

Lemma bits64_lnot s s' :
  (8 ≤ length s)%nat → take 8 s' = Z.lnot <$> take 8 s → bits64 s' = compl (bits64 s).
Proof.
  intros Hl He. unfold bits64, compl. rewrite <- list_fmap_compose. apply seqZ0_ext. intros i Hi.
  unfold compose. pose proof (Z.div_mod i 8 ltac:(lia)). pose proof (Z.mod_pos_bound i 8 ltac:(lia)).
  rewrite <- char_bit_lnot by lia. f_equal.
  rewrite <- (lookup_take_lt s' 8) by lia. rewrite <- (lookup_take_lt s 8) by lia.
  rewrite He, list_lookup_fmap. destruct (lookup_lt_Z (take 8 s) (i / 8)) as [c ->]; [|done].
  rewrite length_take. lia.
Qed.

(** ** Key bits that matter *)

Lemma perm_pc1_bits a b :
  (∀ i, 0 ≤ i < 64 → i mod 8 ≠ 7 → nthb a i = nthb b i) → perm pc1_tbl a = perm pc1_tbl b.
Proof.
  intros H. apply list_fmap_ext. intros i t Ht.
  assert (Hp : forallb (λ t, (1 <=? t) && (t <=? 64) && negb ((t - 1) mod 8 =? 7)) pc1_tbl = true) by done.
  rewrite forallb_forall in Hp. specialize (Hp t).
  rewrite <- list_elem_of_In in Hp. specialize (Hp ltac:(by eapply list_elem_of_lookup_2)).
  rewrite !andb_true_iff, !Z.leb_le, negb_true_iff, Z.eqb_neq in Hp. apply H; lia.
Qed.

Lemma char_bit_mod c k : 0 ≤ k < 7 → char_bit (c mod 128) k = char_bit c k.
Proof.
  intros Hk. unfold char_bit. f_equal. change 128 with (2 ^ 7). apply Z.bits_inj'. intros n Hn.
  rewrite !Z.land_spec. destruct (decide (n = 0)) as [->|Hne].
  - f_equal. rewrite !Z.shiftr_spec by lia. by rewrite Z.mod_pow2_bits_low by lia.
  - change 1 with (2 ^ 0). rewrite Z.pow2_bits_false by lia. by rewrite !andb_false_r.
Qed.

Lemma key_schedule_msb k k' :
  (8 ≤ length k)%nat → take 8 ((λ c, c mod 128) <$> k) = take 8 ((λ c, c mod 128) <$> k') →
  key_schedule (bits64 k) = key_schedule (bits64 k').
Proof.
  intros Hl He. unfold key_schedule. f_equal. f_equal. apply perm_pc1_bits. intros i Hi Hm.
  unfold bits64, nthb. rewrite !list_lookup_fmap, lookup_seqZ0 by lia.
  cbn [fmap option_fmap option_map default]. rewrite Z2Nat.id by lia.
  pose proof (Z.div_mod i 8 ltac:(lia)) as Hdm. pose proof (Z.mod_pos_bound i 8 ltac:(lia)) as Hb.
  rewrite <- (char_bit_mod (default 0 (k !! _))), <- (char_bit_mod (default 0 (k' !! _))) by lia.
  f_equal. assert (E : take 8 ((λ c, c mod 128) <$> k) !! Z.to_nat (i / 8) = take 8 ((λ c, c mod 128) <$> k') !! Z.to_nat (i / 8))
    by (by rewrite He).
  rewrite !lookup_take_lt, !list_lookup_fmap in E by lia.
  destruct (lookup_lt_Z k (i / 8)) as [c Hc]; [lia|]. rewrite Hc in *.
  destruct (k' !! Z.to_nat (i / 8)) as [c'|]; [|done].
  injection E as E. f_equal. exact E.
Qed.

(** ** The interactive program *)

Lemma scan_str_length buf toks buf' toks' :
  scan_str buf toks = Ok (buf', toks') → length buf' = length buf.
Proof.
  unfold scan_str. destruct toks as [|t ts]; [by intros [= <- <-]|]. intros H.
  minv H. minv H. injection H as <- <-. rewrite (store_length _ _ _ _ E0).
  revert E. unfold for_range. generalize (Z.to_nat (Z.of_nat (length t) - 0)). intros n.
  generalize 0 at 1. revert buf. induction n as [|n IH]; intros buf z; cbn; [by intros [= <-]|].
  intros H. minv H. minv E. rewrite (IH _ _ H). by apply store_length in E.
Qed.

(** A NUL-terminated string of 8 characters does not fit in 8 cells. *)
Lemma read_key_never fuel toks : is_ok (read_key fuel (replicate 8 0) toks) = false.
Proof.
  destruct (read_key fuel (replicate 8 0) toks) as [[key toks']|] eqn:E; [exfalso|done].
  unfold read_key in E. minv E. destruct v as [key0 toks0]. apply scan_str_length in E0.
  minv E. minv E. destruct v0 as [[i key1] toks1]. injection E as <- <-.
  apply (while_ok_inv (λ '(i, key, _), length key = 8%nat ∧ c_strlen key = Ok i)) in E2 as [[Hl Hi] Hc].
  - injection Hc as Hc. apply negb_false_iff, Z.eqb_eq in Hc. apply c_strlen_bounds in Hi. lia.
  - done.
  - intros [[j k] t] [[j' k'] t'] [Hl _] Hb. minv Hb. destruct v0 as [k2 t2].
    apply scan_str_length in E. minv Hb. injection Hb as <- <- <-. split; [lia|done].
Qed.

Lemma scan_str_fits buf t ts :
  (length t < length buf)%nat → ∃ b, scan_str buf (t :: ts) = Ok (b, ts).
Proof.
  intros Hl. unfold scan_str.
  destruct (for_range_inv (λ _ b, length b = length buf) (λ i b, c ← load t i; store b i c)
    0 (Z.of_nat (length t)) buf) as (b & -> & Hb); [lia|done| |].
  - intros i b Hi Hb. destruct (lookup_lt_Z t i) as [c Hc]; [lia|].
    rewrite (load_ok _ _ c), bind_ok, store_ok by (done || lia). eexists. split; [done|].
    by rewrite length_insert.
  - rewrite bind_ok, store_ok by lia. by eexists.
Qed.

Lemma scan_str_overflow buf t ts :
  (length buf ≤ length t)%nat → scan_str buf (t :: ts) = Err OutOfBounds.
Proof.
  intros Hl. unfold scan_str.
  destruct (for_range_inv_err (λ _ b, length b = length buf) (λ i b, c ← load t i; store b i c)
    OutOfBounds 0 (Z.of_nat (length t)) buf) as [(b & -> & Hb)| ->]; [lia|done| | |done].
  - intros i b Hi Hb. destruct (lookup_lt_Z t i) as [c Hc]; [lia|].
    rewrite (load_ok _ _ c), bind_ok by (done || lia).
    destruct (decide (i < Z.of_nat (length b))).
    + rewrite store_ok by lia. left. eexists. split; [done|]. by rewrite length_insert.
    + right. apply store_oob. lia.
  - by rewrite bind_ok, store_oob by lia.
Qed.

(** ** Properties *)

(** C1: set_key followed by encrypt writes the 16 hexadecimal digits of the reference cipher
    (initial permutation, 16 Feistel rounds with the reference key schedule, final
    permutation) applied to the bits of the plain text, from any state of the static scratch
    arrays. *)
Theorem des_encrypt_refines s key plain cypher :
  des_inv s → (8 ≤ length key)%nat → (8 ≤ length plain)%nat → 0 ∈ plain → (16 ≤ length cypher)%nat →
  ∃ s1 s2 out, set_key s key = Ok s1 ∧
    encrypt s1 plain cypher = Ok (s2,
      hex16 (des_enc (key_schedule (bits64 key)) (bits64 plain)) ++ drop 16 cypher, out).
Proof.
  intros H Hk Hp H0 Hc. destruct (set_key_refines s key H Hk) as (s1 & E1 & H1 & Hs1).
  destruct (encrypt_ok s1 plain cypher H1 Hp H0 Hc) as (s2 & out & E2 & _).
  exists s1, s2, out. split; [done|]. by rewrite <- Hs1.
Qed.

Lemma des_encrypt_witness :
  (∃ s1 s2 out, set_key des_init (codes "hellokey" ++ [0]) = Ok s1 ∧
    encrypt s1 (codes "hellodec" ++ [0]) (replicate 17 0) = Ok (s2,
      hex16 (des_enc (key_schedule (bits64 (codes "hellokey" ++ [0]))) (bits64 (codes "hellodec" ++ [0])))
        ++ drop 16 (replicate 17 0), out)) ∧
  hex16 (des_enc (key_schedule (bits64 (codes "hellokey"))) (bits64 (codes "hellodec"))) = codes "84358F6B19B6C87B".
Proof.
  split; [|vm_compute; reflexivity].
  apply (des_encrypt_refines des_init); [apply des_init_inv|cbn; lia|cbn; lia|in_list|cbn; lia].
Defined.

(** C2: For every state of the static arrays, every 8-character key and every 8 characters,
    decrypting under a second set_key with the same key what encrypt produced yields the 8
    characters again and leaves the rest of the output buffer. *)
Theorem des_roundtrip s key key' plain cypher dec :
  des_inv s → (8 ≤ length key)%nat → (8 ≤ length key')%nat → take 8 key = take 8 key' →
  (8 ≤ length plain)%nat → Forall (λ c, - 128 ≤ c < 128) (take 8 plain) → 0 ∈ plain →
  (16 ≤ length cypher)%nat → (8 ≤ length dec)%nat →
  ∃ s1 s2 s3 s4 ct out, set_key s key = Ok s1 ∧ encrypt s1 plain cypher = Ok (s2, ct, out) ∧
    set_key s2 key' = Ok s3 ∧ decrypt s3 dec ct = Ok (s4, take 8 plain ++ drop 8 dec).
Proof.
  intros H Hk Hk' Ek Hp Hf H0 Hc Hd.
  destruct (set_key_refines s key H Hk) as (s1 & E1 & H1 & Hs1).
  destruct (encrypt_ok s1 plain cypher H1 Hp H0 Hc) as (s2 & out & E2 & H2 & Hs2).
  destruct (set_key_refines s2 key' H2 Hk') as (s3 & E3 & H3 & Hs3).
  destruct (decrypt_ok s3 dec (des_enc (sub_key s1) (bits64 plain)) (drop 16 cypher) H3) as (s4 & E4 & _);
    [apply length_des_enc|done|].
  exists s1, s2, s3, s4, (hex16 (des_enc (sub_key s1) (bits64 plain)) ++ drop 16 cypher), out.
  split; [done|]. split; [done|]. split; [done|]. rewrite E4.
  assert (Eb : sub_key s3 = sub_key s1).
  { rewrite Hs3, Hs1. apply key_schedule_msb; [done|]. by rewrite <- !fmap_take, Ek. }
  rewrite Eb, des_dec_enc by apply length_bits64. by rewrite chars8_bits64.
Qed.

Lemma des_roundtrip_witness :
  ∃ s1 s2 s3 s4 ct out, set_key des_init (codes "hellokey") = Ok s1 ∧
    encrypt s1 ([-1; -128; 127; 0; 1; 2; 3; 4]) (replicate 17 0) = Ok (s2, ct, out) ∧
    set_key s2 (codes "hellokey" ++ [0]) = Ok s3 ∧
    decrypt s3 (replicate 9 0) ct = Ok (s4, [-1; -128; 127; 0; 1; 2; 3; 4] ++ [0]).
Proof.
  apply (des_roundtrip des_init (codes "hellokey") (codes "hellokey" ++ [0])
    [-1; -128; 127; 0; 1; 2; 3; 4] (replicate 17 0) (replicate 9 0));
    [apply des_init_inv|cbn; lia|cbn; lia|reflexivity|cbn; lia|cbn; repeat constructor; lia
    |in_list|cbn; lia|cbn; lia].
Defined.

(** C37: Complementing every bit of the key and of the plain text complements every bit of the
    cipher block that encrypt writes. *)
Theorem des_complementation s s' key key' plain plain' cypher cypher' :
  des_inv s → des_inv s' → (8 ≤ length key)%nat → (8 ≤ length plain)%nat →
  take 8 key' = Z.lnot <$> take 8 key → take 8 plain' = Z.lnot <$> take 8 plain →
  0 ∈ plain → 0 ∈ plain' → (16 ≤ length cypher)%nat → (16 ≤ length cypher')%nat →
  ∃ s1 s2 out s1' s2' out' block, length block = 64%nat ∧
    set_key s key = Ok s1 ∧ encrypt s1 plain cypher = Ok (s2, hex16 block ++ drop 16 cypher, out) ∧
    set_key s' key' = Ok s1' ∧
    encrypt s1' plain' cypher' = Ok (s2', hex16 (negb <$> block) ++ drop 16 cypher', out').
Proof.
  intros H H' Hk Hp Ek Ep H0 H0' Hc Hc'.
  assert (Lk : (8 ≤ length key')%nat).
  { assert (L : length (take 8 key') = 8%nat) by (rewrite Ek, length_fmap, length_take; lia).
    rewrite length_take in L. lia. }
  assert (Lp : (8 ≤ length plain')%nat).
  { assert (L : length (take 8 plain') = 8%nat) by (rewrite Ep, length_fmap, length_take; lia).
    rewrite length_take in L. lia. }
  destruct (set_key_refines s key H Hk) as (s1 & E1 & H1 & Hs1).
  destruct (encrypt_ok s1 plain cypher H1 Hp H0 Hc) as (s2 & out & E2 & _).
  destruct (set_key_refines s' key' H' Lk) as (s1' & E1' & H1' & Hs1').
  destruct (encrypt_ok s1' plain' cypher' H1' Lp H0' Hc') as (s2' & out' & E2' & _).
  exists s1, s2, out, s1', s2', out', (des_enc (sub_key s1) (bits64 plain)).
  split; [apply length_des_enc|]. split; [done|]. split; [done|]. split; [done|]. rewrite E2'.
  rewrite Hs1', Hs1, (bits64_lnot key key'), (bits64_lnot plain plain') by done.
  rewrite key_schedule_compl by apply length_bits64.
  by rewrite des_enc_compl by apply length_bits64.
Qed.

Lemma des_complementation_witness :
  ∃ s1 s2 out s1' s2' out' block, length block = 64%nat ∧
    set_key des_init (codes "hellokey") = Ok s1 ∧
    encrypt s1 (codes "hellodec" ++ [0]) (replicate 17 0) = Ok (s2, hex16 block ++ [0], out) ∧
    set_key des_init (Z.lnot <$> codes "hellokey") = Ok s1' ∧
    encrypt s1' ((Z.lnot <$> codes "hellodec") ++ [0]) (replicate 17 0) = Ok (s2', hex16 (negb <$> block) ++ [0], out').
Proof.
  apply (des_complementation des_init des_init (codes "hellokey") (Z.lnot <$> codes "hellokey")
    (codes "hellodec" ++ [0]) ((Z.lnot <$> codes "hellodec") ++ [0]) (replicate 17 0) (replicate 17 0));
    [apply des_init_inv|apply des_init_inv|cbn; lia|cbn; lia|reflexivity|reflexivity
    |in_list|in_list|cbn; lia|cbn; lia].
Defined.

(** Keys that agree in the low seven bits of each character give the same sixteen round keys:
    set_key ignores the top bit of every key character. *)
Theorem des_key_msb s key key' :
  des_inv s → (8 ≤ length key)%nat → (8 ≤ length key')%nat →
  take 8 ((λ c, c mod 128) <$> key) = take 8 ((λ c, c mod 128) <$> key') →
  ∃ s1 s2, set_key s key = Ok s1 ∧ set_key s key' = Ok s2 ∧ sub_key s1 = sub_key s2.
Proof.
  intros H Hk Hk' E. destruct (set_key_refines s key H Hk) as (s1 & E1 & _ & Hs1).
  destruct (set_key_refines s key' H Hk') as (s2 & E2 & _ & Hs2).
  exists s1, s2. split; [done|]. split; [done|]. rewrite Hs1, Hs2. by apply key_schedule_msb.
Qed.

Lemma des_key_msb_witness :
  ∃ s1 s2, set_key des_init [1; 2; 3; 4; 5; 6; 7; 8] = Ok s1 ∧
    set_key des_init [-127; 2; -125; 4; 5; 6; 7; -120] = Ok s2 ∧ sub_key s1 = sub_key s2.
Proof. apply des_key_msb; [apply des_init_inv|cbn; lia|cbn; lia|reflexivity]. Defined.

(** The interactive test never completes for any input: a key has to have eight characters, and
    reading one of eight or more stores its terminating NUL past the eight cells of the key
    buffer. *)
Theorem des_test_overflow fuel s :
  (∀ toks, is_ok (des_test fuel s toks) = false) ∧
  (∀ plain key rest, (length plain ≤ 8)%nat → (8 ≤ length key)%nat →
     des_test fuel s (plain :: key :: rest) = Err OutOfBounds).
Proof.
  split.
  - intros toks. unfold des_test. destruct (scan_str (replicate 9 0) toks) as [[plain ts]|]; [|done].
    rewrite bind_ok. pose proof (read_key_never fuel ts). by destruct (read_key fuel (replicate 8 0) ts).
  - intros plain key rest Hp Hk. unfold des_test.
    destruct (scan_str_fits (replicate 9 0) plain (key :: rest)) as [b ->]; [cbn; lia|].
    rewrite bind_ok. unfold read_key. by rewrite scan_str_overflow by (cbn; lia).
Qed.

(** main encrypts hellodec to 84358F6B19B6C87B, but the constant it then decrypts is another
    text, so that what it prints as the decryption is not the plain text. *)
Theorem des_main_mismatch :
  match des_main with
  | Ok (_, ct, pt) => ct = codes "84358F6B19B6C87B" ∧ pt ≠ codes "hellodec"
  | Err _ => False
  end.
Proof. vm_compute. split; [reflexivity|discriminate]. Qed.
