(* ===== verification/HttpUtil.v ===== *)
(** The text scanners of the HTTP programs, [src/cpp/http/util.c]: request
    method, URI, numbered line, body, and the value of a JSON key.

    Every function reads the NUL-terminated string [s] and writes a prefix of
    the block [t]; [n] is the limit that its caller passes. *)
From S2P Require Import Prelude CString.

(** ** The functions *)

Definition is_eol (c : Z) : bool := (c =? 10) || (c =? 13).

Definition getmethod (s t : list Z) (n : Z) : res (list Z) :=
  '(i, t) ← for_str s (λ i t,
    if n <=? i then mret (inr (i, t))
    else
      c ← load s i;
      if is_eol c || (c =? 32) then mret (inr (i, t))
      else t ← store t i c; mret (inl (i, t))) 0 t;
  store t i 0.

Definition geturi (s t : list Z) (n : Z) : res (list Z) :=
  '(_, (_, k, t)) ← for_str s (λ i '(j, k, t),
    c ← load s i;
    if j =? 1 then
      if c =? 32 then mret (inr (i, (j, k, t)))
      else if k <? n then t ← store t k c; mret (inl (i, (j, k + 1, t)))
      else mret (inr (i, (j, k, t)))
    else if c =? 32 then mret (inl (i, (j + 1, k, t)))
    else mret (inl (i, (j, k, t)))) 0 (0, 0, t);
  store t k 0.

Definition getln (s t : list Z) (n l : Z) : res (list Z) :=
  '(_, (_, k, t)) ← for_str s (λ i '(j, k, t),
    c ← load s i;
    if j =? l then
      if is_eol c then mret (inr (i, (j, k, t)))
      else if k <? n then t ← store t k c; mret (inl (i, (j, k + 1, t)))
      else mret (inr (i, (j, k, t)))
    else if is_eol c then mret (inl (i, (j + 1, k, t)))
    else mret (inl (i, (j, k, t)))) 0 (0, 0, t);
  store t k 0.

Definition getbody (s t : list Z) (n : Z) : res (list Z) :=
  '(_, (j, _, t)) ← for_str s (λ i '(j, k, t),
    if i <? 3 then mret (inl (i, (j, k, t)))
    else if n <=? j then mret (inr (i, (j, k, t)))
    else if negb (k =? 0) then
      c ← load s i; t ← store t j c; mret (inl (i, (j + 1, k, t)))
    else
      c3 ← load s (i - 3); c2 ← load s (i - 2); c1 ← load s (i - 1); c0 ← load s i;
      if (c3 =? 13) && (c2 =? 10) && (c1 =? 13) && (c0 =? 10)
      then mret (inl (i, (j, 1, t))) else mret (inl (i, (j, k, t)))) 0 (0, 0, t);
  store t j 0.

(** [gettime]: the text that [asctime] left in its buffer, without its last
    character. *)
Definition gettime (tmp : list Z) : res (list Z) :=
  n ← c_strlen tmp;
  tmp ← store tmp (n - 1) 0;
  c_chars tmp.

(** The result is the block and what was printed. *)
Definition getjsonv (s t jsonk : list Z) (n : Z) : res (list Z * list output) :=
  '(i, (_, _, t, out)) ← for_str s (λ i '(j, k, t, out),
    lk ← c_strlen jsonk;
    p ← ptr s i;
    d ← (if k =? 0 then strncmp p jsonk (Z.to_nat lk) else mret 0);
    if negb (d =? 0) then mret (inl (i, (j, k, t, out)))
    else if k =? 0 then
      ls ← c_strlen s;
      if i <? wrap_u64 (ls - lk) then mret (inl (i + lk, (j, k + 1, t, out)))
      else
        l ← c_chars p;
        mret (inr (i, (j, k, t, out ++ [PutStr "err_json_str, "; PutChars l; PutStr "\n"])))
    else
      c ← load s i;
      if (k <? 3) && ((c =? 58) || (c =? 34)) then mret (inl (i, (j, k + 1, t, out)))
      else if (j <? n) && negb (c =? 34)
      then t ← store t j c; mret (inl (i, (j + 1, k, t, out)))
      else mret (inr (i, (j, k, t, out)))) 0 (0, 0, t, []);
  t ← store t i 0;
  mret (t, out).

(** [test] of [http/test.c]: the JSON value it prints. *)
Definition test_json : res (list Z) :=
  let s := [123; 34] ++ codes "key1" ++ [34; 58; 34] ++ codes "value1" ++ [34; 44; 32; 34] ++
           codes "key2" ++ [34; 58; 34] ++ codes "value2" ++ [34; 44; 32; 34] ++
           codes "key3" ++ [34; 58; 34] ++ codes "value3" ++ [34; 125; 0] in
  '(jsonv, _) ← getjsonv s (replicate 256 0) (lit "key3") 256;
  c_chars jsonv.

(** ** What they compute *)

(** The longest prefix without a stop character. *)
Fixpoint upto (stop : Z → bool) (l : list Z) : list Z :=
  match l with
  | [] => []
  | c :: l' => if stop c then [] else c :: upto stop l'
  end.

(** What follows the first stop character. *)
Fixpoint after (stop : Z → bool) (l : list Z) : list Z :=
  match l with
  | [] => []
  | c :: l' => if stop c then l' else after stop l'
  end.

Definition is_space (c : Z) : bool := c =? 32.
Definition method_stop (c : Z) : bool := is_eol c || (c =? 32).

Definition method_of (l : list Z) : list Z := upto method_stop l.
Definition uri_of (l : list Z) : list Z := upto is_space (after is_space l).

Fixpoint line_of (k : nat) (l : list Z) : list Z :=
  match k with
  | O => upto is_eol l
  | S k' => line_of k' (after is_eol l)
  end.

(** What follows the first blank line. *)
Fixpoint body_of (l : list Z) : list Z :=
  match l with
  | c3 :: ((c2 :: c1 :: c0 :: l') as tl) =>
      if (c3 =? 13) && (c2 =? 10) && (c1 =? 13) && (c0 =? 10) then l' else body_of tl
  | _ => []
  end.
