(* ===== verification/HttpUtilSpec.v ===== *)
(** The scanners of [HttpUtil] compute their list specifications, and fault
    exactly when the result and its NUL do not fit in the target block. *)
From S2P Require Import Prelude CString HttpUtil.

Lemma load_mid (p q r : list Z) c : load ((p ++ c :: q) ++ r) (Z.of_nat (length p)) = Ok c.
Proof.
  apply load_ok; [lia|]. rewrite Nat2Z.id, <- app_assoc, <- app_comm_cons. by rewrite list_lookup_middle.
Qed.

Lemma length_upto stop l : (length (upto stop l) ≤ length l)%nat.
Proof. induction l as [|c l IH]; cbn; [lia|]. destruct (stop c); cbn; lia. Qed.

(** ** Walking over the string *)

Section walk.
Context {St : Type} (body : Z → St → res (Z * St + Z * St)) (l r : list Z) (Hl : nonul l).
Context (Hmono : ∀ i st i' st', 0 ≤ i → body i st = Ok (inl (i', st')) → i ≤ i').

Lemma walk_end i st : 0 ≤ i → Z.of_nat (length l) ≤ i → for_str (l ++ 0 :: r) body i st = Ok (i, st).
Proof. intros Hi Hge. rewrite for_str_eq by (done || lia). destruct (Z.ltb_spec i (Z.of_nat (length l))); [lia|done]. Qed.

Lemma walk_turn i i' st st' : 0 ≤ i < Z.of_nat (length l) → body i st = Ok (inl (i', st')) →
  for_str (l ++ 0 :: r) body i st = for_str (l ++ 0 :: r) body (i' + 1) st'.
Proof.
  intros Hi Hb. rewrite for_str_eq by (done || lia). rewrite Hb, bind_ok.
  destruct (Z.ltb_spec i (Z.of_nat (length l))); [done|lia].
Qed.

(** A turn that goes on with the next character. *)
Lemma walk_step p c q st st' : l = p ++ c :: q →
  body (Z.of_nat (length p)) st = Ok (inl (Z.of_nat (length p), st')) →
  for_str (l ++ 0 :: r) body (Z.of_nat (length p)) st = for_str (l ++ 0 :: r) body (Z.of_nat (length (p ++ [c]))) st'.
Proof.
  intros El Hb. assert (length l = (length p + S (length q))%nat) by (rewrite El; apply length_app).
  rewrite (walk_turn (Z.of_nat (length p)) (Z.of_nat (length p)) st st') by (done || lia). f_equal. rewrite length_app. cbn [length]. lia.
Qed.

Lemma walk_over p st : l = p → for_str (l ++ 0 :: r) body (Z.of_nat (length p)) st = Ok (Z.of_nat (length p), st).
Proof. intros El. apply walk_end; [lia|by rewrite El]. Qed.
End walk.

(** ** The copying phase *)

Section copy.
Context {St : Type} (mk : Z → list Z → St) (body : Z → St → res (Z * St + Z * St)).
Context (l r : list Z) (stop : Z → bool) (n lo : Z).
Context (Hl : nonul l).
Context (Hmono : ∀ i st i' st', 0 ≤ i → body i st = Ok (inl (i', st')) → i ≤ i').
Context (Hcopy : ∀ i c k t, lo ≤ i → load (l ++ 0 :: r) i = Ok c →
  body i (mk k t) =
    if stop c then mret (inr (i, mk k t))
    else if k <? n then t' ← store t k c; mret (inl (i, mk (k + 1) t'))
    else mret (inr (i, mk k t))).

(** Once in the copying phase with [w] written, the loop appends the
    characters up to the stop character or the limit. *)
Lemma copy_phase p q w t :
  l = p ++ q → lo ≤ Z.of_nat (length p) → (length w ≤ length t)%nat →
  let w' := w ++ take (Z.to_nat n - length w) (upto stop q) in
  (for_str (l ++ 0 :: r) body (Z.of_nat (length p)) (mk (Z.of_nat (length w)) (w ++ drop (length w) t))
     = Ok (Z.of_nat (length p) + Z.of_nat (length w') - Z.of_nat (length w),
           mk (Z.of_nat (length w')) (w' ++ drop (length w') t)) ∧ (length w' ≤ length t)%nat) ∨
  (for_str (l ++ 0 :: r) body (Z.of_nat (length p)) (mk (Z.of_nat (length w)) (w ++ drop (length w) t))
     = Err OutOfBounds ∧ (length t < length w')%nat).
Proof.
  revert p w. induction q as [|c q IH]; intros p w El Hp Hw w'.
  - left. rewrite for_str_eq by (done || lia). subst w'. cbn [upto]. rewrite firstn_nil, app_nil_r in *.
    rewrite El, Z.ltb_irrefl. by rewrite Z.add_simpl_r.
  - subst w'. rewrite for_str_eq by (done || lia).
    destruct (Z.ltb_spec (Z.of_nat (length p)) (Z.of_nat (length l))) as [_|Hge].
    2: { rewrite El, length_app in Hge. cbn in Hge. lia. }
    rewrite (Hcopy _ c) by (rewrite ?El; apply load_mid || lia). cbn [upto].
    destruct (stop c).
    { left. cbn [mret res_ret]. rewrite bind_ok, firstn_nil, app_nil_r. by rewrite Z.add_simpl_r. }
    destruct (Z.ltb_spec (Z.of_nat (length w)) n) as [Hn|Hn].
    2: { left. replace (Z.to_nat n - length w)%nat with O by lia. cbn [take]. rewrite app_nil_r.
         cbn [mret res_ret]. rewrite bind_ok. by rewrite Z.add_simpl_r. }
    rewrite store_next by done.
    replace (Z.to_nat n - length w)%nat with (S (Z.to_nat n - length (w ++ [c])))
      by (rewrite length_app; cbn; lia).
    cbn [take]. replace (w ++ c :: take (Z.to_nat n - length (w ++ [c])) (upto stop q))
      with ((w ++ [c]) ++ take (Z.to_nat n - length (w ++ [c])) (upto stop q))
      by (by rewrite <- app_assoc).
    destruct (Nat.ltb_spec (length w) (length t)) as [Hlt|Hge]; cbn [mret res_ret].
    + rewrite !bind_ok.
      replace (Z.of_nat (length p) + 1) with (Z.of_nat (length (p ++ [c]))) by (rewrite length_app; cbn; lia).
      replace (Z.of_nat (length w) + 1) with (Z.of_nat (length (w ++ [c]))) by (rewrite length_app; cbn; lia).
      specialize (IH (p ++ [c]) (w ++ [c])). cbn zeta in IH.
      replace (Z.of_nat (length (p ++ [c])) +
        Z.of_nat (length ((w ++ [c]) ++ take (Z.to_nat n - length (w ++ [c])) (upto stop q))) -
        Z.of_nat (length (w ++ [c]))) with
        (Z.of_nat (length p) +
        Z.of_nat (length ((w ++ [c]) ++ take (Z.to_nat n - length (w ++ [c])) (upto stop q))) -
        Z.of_nat (length w)) in IH by (rewrite !length_app; cbn [length]; lia).
      apply IH; [by rewrite <- app_assoc|rewrite length_app; lia|rewrite length_app; cbn; lia].
    + right. rewrite !bind_err. split; [done|]. rewrite !length_app. cbn. lia.
Qed.

(** The phase from its start, with the NUL that is stored after it. *)
Lemma copy_nul (k : St → Z * list Z) p q t : (∀ j u, k (mk j u) = (j, u)) → l = p ++ q → lo ≤ Z.of_nat (length p) →
  ('(_, st) ← for_str (l ++ 0 :: r) body (Z.of_nat (length p)) (mk 0 t); store (k st).2 (k st).1 0) =
  put_str (take (Z.to_nat n) (upto stop q)) t.
Proof.
  intros Hk El Hp. pose proof (copy_phase p q [] t El Hp ltac:(cbn; lia)) as C.
  cbn zeta in C. cbn [app length drop] in C. rewrite Nat.sub_0_r in C. change (Z.of_nat 0) with 0 in C. rewrite drop_0 in C.
  destruct C as [[-> Hle]|[-> Hlt]].
  - rewrite bind_ok, Hk. by apply store_nul.
  - by rewrite bind_err, put_str_oob by lia.
Qed.
End copy.

(** ** [getmethod] *)

Lemma getmethod_spec l r t n :
  nonul l → 0 ≤ n → getmethod (l ++ 0 :: r) t n = put_str (take (Z.to_nat n) (method_of l)) t.
Proof.
  intros Hl Hn. unfold getmethod.
  match goal with |- context [for_str _ ?b 0 t] => set (body := b) end.
  assert (Hm : ∀ i st i' st', 0 ≤ i → body i st = Ok (inl (i', st')) → i ≤ i').
  { intros i st i' st' _. subst body. cbn beta. destruct (n <=? i); [done|].
    destruct (load _ i) as [c|]; [rewrite bind_ok|done]. destruct (is_eol c || (c =? 32)); [done|].
    destruct (store st i c); [|done]. rewrite bind_ok. by intros [= -> ->]. }
  enough (G : ∀ q p, l = p ++ q → Z.of_nat (length p) ≤ n → (length p ≤ length t)%nat →
    ('(i, t') ← for_str (l ++ 0 :: r) body (Z.of_nat (length p)) (p ++ drop (length p) t); store t' i 0) =
    put_str (p ++ take (Z.to_nat n - length p) (method_of q)) t).
  { specialize (G l [] eq_refl ltac:(cbn; lia) ltac:(cbn; lia)). cbn [length app] in G.
    by rewrite Nat.sub_0_r in G. }
  induction q as [|c q IH]; intros p El Hp Ht; rewrite for_str_eq by (done || lia).
  - rewrite El, app_nil_r, Z.ltb_irrefl, bind_ok. cbn [method_of upto].
    change (method_of []) with (@nil Z). rewrite firstn_nil, app_nil_r. by apply store_nul.
  - destruct (Z.ltb_spec (Z.of_nat (length p)) (Z.of_nat (length l))) as [_|Hge].
    2: { rewrite El, length_app in Hge. cbn in Hge. lia. }
    subst body. cbn beta. destruct (Z.leb_spec n (Z.of_nat (length p))).
    { cbn [mret res_ret]. rewrite !bind_ok. replace (Z.to_nat n - length p)%nat with O by lia.
      cbn [take]. rewrite app_nil_r. by apply store_nul. }
    rewrite El, load_mid, bind_ok. unfold method_of. cbn [upto]. fold (method_stop c).
    destruct (method_stop c).
    { cbn [mret res_ret]. rewrite !bind_ok, firstn_nil, app_nil_r. by apply store_nul. }
    rewrite store_next by done.
    replace (Z.to_nat n - length p)%nat with (S (Z.to_nat n - length (p ++ [c])))
      by (rewrite length_app; cbn; lia). cbn [take]. fold (method_of q).
    destruct (Nat.ltb_spec (length p) (length t)).
    + rewrite !bind_ok, <- El.
      replace (Z.of_nat (length p) + 1) with (Z.of_nat (length (p ++ [c]))) by (rewrite length_app; cbn; lia).
      rewrite (IH (p ++ [c])); [by rewrite <- app_assoc|by rewrite <- app_assoc| |];
        rewrite length_app; cbn; lia.
    + rewrite !bind_err, put_str_oob; [done|]. rewrite length_app. cbn. lia.
Qed.

(** ** [geturi] *)

Lemma geturi_spec l r t n :
  nonul l → geturi (l ++ 0 :: r) t n = put_str (take (Z.to_nat n) (uri_of l)) t.
Proof.
  intros Hl. unfold geturi.
  match goal with |- context [for_str _ ?b 0 _] => set (body := b) end.
  assert (Hm : ∀ i st i' st', 0 ≤ i → body i st = Ok (inl (i', st')) → i ≤ i').
  { intros i [[j k] u] i' st' _. subst body. cbn beta iota. destruct (load _ i) as [c|]; [rewrite bind_ok|done].
    destruct (j =? 1), (c =? 32); try done; [|by intros [= -> <-]..].
    destruct (k <? n); [|done]. destruct (store u k c); [|done]. rewrite bind_ok. by intros [= -> <-]. }
  assert (Hscan : ∀ i c u, load (l ++ 0 :: r) i = Ok c →
    body i (0, 0, u) = if c =? 32 then mret (inl (i, (1, 0, u))) else mret (inl (i, (0, 0, u)))).
  { intros i c u Hc. subst body. cbn beta iota. by rewrite Hc, bind_ok. }
  enough (G : ∀ q p, l = p ++ q →
    ('(_, st) ← for_str (l ++ 0 :: r) body (Z.of_nat (length p)) (0, 0, t); store st.2 st.1.2 0) =
    put_str (take (Z.to_nat n) (upto is_space (after is_space q))) t).
  { specialize (G l [] eq_refl). cbn [length] in G. unfold uri_of. rewrite <- G.
    apply bind_ext. by intros [? [[? ?] ?]] _. }
  induction q as [|c q IH]; intros p El.
  - rewrite walk_over by (rewrite ?app_nil_r in El; done). rewrite bind_ok. cbn [after upto]. rewrite firstn_nil.
    apply (store_nul []). cbn. lia.
  - assert (El' : l = (p ++ [c]) ++ q) by (by rewrite <- app_assoc).
    pose proof (Hscan _ c t ltac:(rewrite El; apply load_mid)) as Hb. cbn [after]. unfold is_space at 2. destruct (c =? 32).
    + rewrite (walk_step body l r Hl Hm p c q _ _ El Hb).
      apply (copy_nul (λ k u, (1, k, u)) body l r is_space n 0 Hl Hm
        ltac:(intros i c' k u _ Hc; subst body; cbn beta iota; by rewrite Hc, bind_ok) (λ st, (st.1.2, st.2)) _ q t); done || lia.
    + rewrite (walk_step body l r Hl Hm p c q _ _ El Hb). by apply IH.
Qed.

(** ** [getln] *)

Lemma getln_spec l r t n k :
  nonul l → 0 ≤ k → getln (l ++ 0 :: r) t n k = put_str (take (Z.to_nat n) (line_of (Z.to_nat k) l)) t.
Proof.
  intros Hl Hk. unfold getln.
  match goal with |- context [for_str _ ?b 0 _] => set (body := b) end.
  assert (Hm : ∀ i st i' st', 0 ≤ i → body i st = Ok (inl (i', st')) → i ≤ i').
  { intros i [[j k'] u] i' st' _. subst body. cbn beta iota. destruct (load _ i) as [c|]; [rewrite bind_ok|done].
    destruct (j =? k), (is_eol c); try done; [|by intros [= -> <-]..].
    destruct (k' <? n); [|done]. destruct (store u k' c); [|done]. rewrite bind_ok. by intros [= -> <-]. }
  enough (G : ∀ q p j, l = p ++ q → 0 ≤ j ≤ k →
    ('(_, st) ← for_str (l ++ 0 :: r) body (Z.of_nat (length p)) (j, 0, t); store st.2 st.1.2 0) =
    put_str (take (Z.to_nat n) (line_of (Z.to_nat (k - j)) q)) t).
  { specialize (G l [] 0 eq_refl ltac:(lia)). cbn [length] in G. rewrite Z.sub_0_r in G. rewrite <- G.
    apply bind_ext. by intros [? [[? ?] ?]] _. }
  assert (Hc0 : ∀ i c m u, 0 ≤ i → load (l ++ 0 :: r) i = Ok c →
    body i (k, m, u) = if is_eol c then mret (inr (i, (k, m, u)))
      else if m <? n then t' ← store u m c; mret (inl (i, (k, m + 1, t'))) else mret (inr (i, (k, m, u)))).
  { intros i c m u _ Hc. subst body. cbn beta iota. by rewrite Hc, bind_ok, Z.eqb_refl. }
  assert (Hscan : ∀ i c j u, load (l ++ 0 :: r) i = Ok c → j ≠ k →
    body i (j, 0, u) = if is_eol c then mret (inl (i, (j + 1, 0, u))) else mret (inl (i, (j, 0, u)))).
  { intros i c j u Hc Hj. subst body. cbn beta iota. apply Z.eqb_neq in Hj. by rewrite Hc, bind_ok, Hj. }
  induction q as [|c q IH]; intros p j El Hj; (destruct (decide (j = k)) as [->|Hne];
    [rewrite Z.sub_diag; by apply (copy_nul (λ m u, (k, m, u)) body l r is_eol n 0 Hl Hm Hc0 (λ st, (st.1.2, st.2)) _ _ t); done || lia|]).
  - rewrite walk_over by (rewrite ?app_nil_r in El; done). rewrite bind_ok.
    assert (E : ∀ m, line_of m [] = []) by (by intros m; induction m).
    rewrite E, firstn_nil. apply (store_nul []). cbn. lia.
  - assert (El' : l = (p ++ [c]) ++ q) by (by rewrite <- app_assoc).
    pose proof (Hscan _ c j t ltac:(rewrite El; apply load_mid) Hne) as Hb.
    replace (Z.to_nat (k - j)) with (S (Z.to_nat (k - (j + 1)))) by lia. cbn [line_of after].
    destruct (is_eol c); rewrite (walk_step body l r Hl Hm p c q _ _ El Hb), IH by (done || lia); [done|].
    by replace (Z.to_nat (k - j)) with (S (Z.to_nat (k - (j + 1)))) by lia.
Qed.

(** ** [getbody] *)

Lemma upto_none l : upto (λ _, false) l = l.
Proof. induction l as [|c l IH]; cbn; [done|]. by rewrite IH. Qed.

(** The body of its loop. *)
Definition body_step (s : list Z) (n i : Z) (st : Z * Z * list Z) : res (Z * (Z * Z * list Z) + Z * (Z * Z * list Z)) :=
  let '(j, k, t) := st in
  if i <? 3 then mret (inl (i, (j, k, t)))
  else if n <=? j then mret (inr (i, (j, k, t)))
  else if negb (k =? 0) then
    c ← load s i; t ← store t j c; mret (inl (i, (j + 1, k, t)))
  else
    c3 ← load s (i - 3); c2 ← load s (i - 2); c1 ← load s (i - 1); c0 ← load s i;
    if (c3 =? 13) && (c2 =? 10) && (c1 =? 13) && (c0 =? 10)
    then mret (inl (i, (j, 1, t))) else mret (inl (i, (j, k, t))).

Section body.
Context (l r : list Z) (n : Z) (Hl : nonul l) (Hn : 0 < n).
Let body := body_step (l ++ 0 :: r) n.

Lemma body_mono i st i' st' : 0 ≤ i → body i st = Ok (inl (i', st')) → i ≤ i'.
Proof.
  destruct st as [[j k] u]. intros _. subst body. unfold body_step. destruct (i <? 3); [by intros [= -> <-]|].
  destruct (n <=? j); [done|]. destruct (negb (k =? 0)).
  - intros H. minv H. minv H. injection H. lia.
  - intros H. do 4 minv H. destruct (_ && _) in H; injection H; lia.
Qed.

Lemma body_copy i c j u : 3 ≤ i → load (l ++ 0 :: r) i = Ok c →
  body i (j, 1, u) = if (λ _, false) c then mret (inr (i, (j, 1, u)))
    else if j <? n then t' ← store u j c; mret (inl (i, (j + 1, 1, t'))) else mret (inr (i, (j, 1, u))).
Proof.
  intros Hi Hld. subst body. unfold body_step. destruct (Z.ltb_spec i 3); [lia|].
  destruct (Z.leb_spec n j), (Z.ltb_spec j n); try lia; [done|]. cbn. by rewrite Hld, bind_ok.
Qed.

(** The character at [len (p0 ++ w)] of a string that goes on with [w]. *)
Lemma load_window p0 w d q i : l = p0 ++ w ++ d :: q → i = Z.of_nat (length p0) + Z.of_nat (length w) →
  load (l ++ 0 :: r) i = Ok d.
Proof.
  intros -> ->. pose proof (load_mid (p0 ++ w) q (0 :: r) d) as H.
  rewrite length_app, Nat2Z.inj_add in H. by rewrite <- !app_assoc in *.
Qed.

(** A turn of the scan for the blank line. *)
Lemma body_scan p0 a b c d q u : l = p0 ++ [a; b; c] ++ d :: q →
  body (Z.of_nat (length (p0 ++ [a; b; c]))) (0, 0, u) =
  Ok (inl (Z.of_nat (length (p0 ++ [a; b; c])),
    (0, if (a =? 13) && (b =? 10) && (c =? 13) && (d =? 10) then 1 else 0, u))).
Proof.
  intros El. subst body. unfold body_step.
  assert (L : Z.of_nat (length (p0 ++ [a; b; c])) = Z.of_nat (length p0) + 3) by (rewrite length_app; cbn [length]; lia).
  destruct (Z.ltb_spec (Z.of_nat (length (p0 ++ [a; b; c]))) 3); [lia|]. destruct (Z.leb_spec n 0); [lia|].
  change (negb (0 =? 0)) with false. cbn match.
  set (i := Z.of_nat (length (p0 ++ [a; b; c]))) in *.
  rewrite (load_window p0 [] a (b :: c :: d :: q) (i - 3)), bind_ok by (exact El || (cbn [length]; lia)).
  rewrite (load_window p0 [a] b (c :: d :: q) (i - 2)), bind_ok by (exact El || (cbn [length]; lia)).
  rewrite (load_window p0 [a; b] c (d :: q) (i - 1)), bind_ok by (exact El || (cbn [length]; lia)).
  rewrite (load_window p0 [a; b; c] d q i), bind_ok by (exact El || (cbn [length]; lia)).
  by destruct (a =? 13), (b =? 10), (c =? 13), (d =? 10).
Qed.

(** The scan from the fourth character on, and the copy that follows it. *)
Lemma body_from q t : ∀ p0 a b c, l = p0 ++ [a; b; c] ++ q →
  ('(_, st) ← for_str (l ++ 0 :: r) body (Z.of_nat (length (p0 ++ [a; b; c]))) (0, 0, t); store st.2 st.1.1 0) =
  put_str (take (Z.to_nat n) (body_of (a :: b :: c :: q))) t.
Proof.
  induction q as [|d q IH]; intros p0 a b c El.
  - rewrite (walk_over body l r Hl body_mono), bind_ok by done.
    cbn [body_of]. rewrite firstn_nil. apply (store_nul []). cbn. lia.
  - assert (El' : l = ((p0 ++ [a; b; c]) ++ [d]) ++ q) by (rewrite El, <- !app_assoc; done).
    rewrite (walk_step body l r Hl body_mono (p0 ++ [a; b; c]) d q _ _ ltac:(by rewrite El, <- app_assoc) (body_scan p0 a b c d q t El)).
    change (body_of (a :: b :: c :: d :: q)) with
      (if (a =? 13) && (b =? 10) && (c =? 13) && (d =? 10) then q else body_of (b :: c :: d :: q)).
    destruct ((a =? 13) && (b =? 10) && (c =? 13) && (d =? 10)).
    + pose proof (copy_nul (λ m u, (m, 1, u)) body l r (λ _, false) n 3 Hl body_mono body_copy (λ st, (st.1.1, st.2))
        _ q t ltac:(done) El') as C. rewrite upto_none in C. apply C. rewrite !length_app. cbn [length]. lia.
    + replace ((p0 ++ [a; b; c]) ++ [d]) with ((p0 ++ [a]) ++ [b; c; d]) in * by (by rewrite <- !app_assoc).
      apply IH. by rewrite El', <- !app_assoc.
Qed.

Lemma body_head_skip i st : 0 ≤ i < 3 → i < Z.of_nat (length l) →
  for_str (l ++ 0 :: r) body i st = for_str (l ++ 0 :: r) body (i + 1) st.
Proof.
  intros Hi Hlt. apply (walk_turn body l r Hl body_mono); [lia|].
  destruct st as [[j k] u]. subst body. unfold body_step. destruct (Z.ltb_spec i 3); [done|lia].
Qed.
End body.

Lemma getbody_spec l r t n :
  nonul l → 0 < n → getbody (l ++ 0 :: r) t n = put_str (take (Z.to_nat n) (body_of l)) t.
Proof.
  intros Hl Hn. unfold getbody.
  transitivity ('(_, st) ← for_str (l ++ 0 :: r) (body_step (l ++ 0 :: r) n) 0 (0, 0, t); store st.2 st.1.1 0).
  { apply bind_ext. by intros [? [[? ?] ?]] _. }
  destruct l as [|a [|b [|c q]]].
  4: { rewrite !(body_head_skip _ r n Hl) by (cbn [length]; lia). by apply (body_from _ r n Hl Hn q t [] a b c). }
  all: rewrite ?(body_head_skip _ r n Hl) by (cbn [length]; lia);
    rewrite (walk_end _ _ r Hl (body_mono _ r n)), bind_ok by (cbn [length]; lia);
    cbn [body_of fst snd]; rewrite firstn_nil; apply (store_nul [] t); cbn; lia.
Qed.

(** ** [getjsonv] *)

(** The body of its loop, for a key [jsonk] of [lk] characters. *)
Definition json_body (s jsonk : list Z) (n i : Z) (st : Z * Z * list Z * list output)
  : res (Z * (Z * Z * list Z * list output) + Z * (Z * Z * list Z * list output)) :=
  let '(j, k, t, out) := st in
  lk ← c_strlen jsonk;
  p ← ptr s i;
  d ← (if k =? 0 then strncmp p jsonk (Z.to_nat lk) else mret 0);
  if negb (d =? 0) then mret (inl (i, (j, k, t, out)))
  else if k =? 0 then
    ls ← c_strlen s;
    if i <? wrap_u64 (ls - lk) then mret (inl (i + lk, (j, k + 1, t, out)))
    else
      l ← c_chars p;
      mret (inr (i, (j, k, t, out ++ [PutStr "err_json_str, "; PutChars l; PutStr "\n"])))
  else
    c ← load s i;
    if (k <? 3) && ((c =? 58) || (c =? 34)) then mret (inl (i, (j, k + 1, t, out)))
    else if (j <? n) && negb (c =? 34)
    then t ← store t j c; mret (inl (i, (j + 1, k, t, out)))
    else mret (inr (i, (j, k, t, out))).

Section json.
Context (l r key rk : list Z) (n : Z) (Hl : nonul l) (Hk : nonul key) (Hlen : Z.of_nat (length l) < 2 ^ 64).
Let body := json_body (l ++ 0 :: r) (key ++ 0 :: rk) n.

Lemma ptr_app i : 0 ≤ i ≤ Z.of_nat (length l) → ptr (l ++ 0 :: r) i = Ok (drop (Z.to_nat i) l ++ 0 :: r).
Proof.
  intros Hi. rewrite ptr_ok by (rewrite length_app; lia). by rewrite drop_app_le by lia.
Qed.

Lemma json_mono i st i' st' : 0 ≤ i → body i st = Ok (inl (i', st')) → i ≤ i'.
Proof.
  intros Hi. subst body. destruct st as [[[j k] t] out]. unfold json_body.
  rewrite (c_strlen_app key), bind_ok by done. intros H. minv H. minv H.
  destruct (negb (v0 =? 0)); [injection H; lia|]. destruct (k =? 0).
  - minv H. destruct (i <? _); [injection H; lia|]. minv H. done.
  - minv H. destruct (_ && _); [injection H; lia|]. destruct (_ && _); [|done].
    minv H. injection H. lia.
Qed.

(** Before the key: positions where it does not start are skipped. *)
Lemma json_skip i j t out :
  0 ≤ i < Z.of_nat (length l) → ¬ key `prefix_of` drop (Z.to_nat i) l →
  body i (j, 0, t, out) = Ok (inl (i, (j, 0, t, out))).
Proof.
  intros Hi Hp. subst body. unfold json_body. rewrite (c_strlen_app key), bind_ok by done.
  rewrite ptr_app, bind_ok by lia. change (0 =? 0) with true. cbn match. rewrite Nat2Z.id.
  destruct (strncmp_prefix key (drop (Z.to_nat i) l) r rk Hk) as (d & -> & Hd); [by apply nonul_drop|].
  rewrite bind_ok. destruct (Z.eqb_spec d 0); [tauto|done].
Qed.

Lemma json_found i j t out :
  0 ≤ i → i + Z.of_nat (length key) < Z.of_nat (length l) → key `prefix_of` drop (Z.to_nat i) l →
  body i (j, 0, t, out) = Ok (inl (i + Z.of_nat (length key), (j, 1, t, out))).
Proof.
  intros Hi Hlt Hp. subst body. unfold json_body. rewrite (c_strlen_app key), bind_ok by done.
  rewrite ptr_app, bind_ok by lia. change (0 =? 0) with true. cbn match. rewrite Nat2Z.id.
  destruct (strncmp_prefix key (drop (Z.to_nat i) l) r rk Hk) as (d & -> & Hd); [by apply nonul_drop|].
  rewrite bind_ok. destruct (Z.eqb_spec d 0); [|tauto]. cbn match. cbn [negb].
  rewrite c_strlen_app, bind_ok by done. unfold wrap_u64. rewrite Z.mod_small by lia.
  destruct (Z.ltb_spec i (Z.of_nat (length l) - Z.of_nat (length key))); [done|lia].
Qed.

Lemma json_later i c j k t out :
  1 ≤ k → load (l ++ 0 :: r) i = Ok c →
  body i (j, k, t, out) =
    if (k <? 3) && ((c =? 58) || (c =? 34)) then mret (inl (i, (j, k + 1, t, out)))
    else if (j <? n) && negb (c =? 34)
    then t ← store t j c; mret (inl (i, (j + 1, k, t, out)))
    else mret (inr (i, (j, k, t, out))).
Proof.
  intros Hk1 Hc. subst body. unfold json_body. rewrite (c_strlen_app key), bind_ok by done.
  pose proof (load_ok_inv _ _ _ Hc) as [Hi Hs%lookup_lt_Some].
  rewrite ptr_ok, bind_ok by lia. destruct (Z.eqb_spec k 0); [lia|].
  change (mret 0) with (@Ok Z 0). rewrite bind_ok. change (negb (0 =? 0)) with false. cbn match.
  by rewrite Hc, bind_ok.
Qed.

Lemma json_search p q j t out :
  l = p ++ q →
  (∀ i, (i < length p)%nat → ¬ key `prefix_of` drop i l) →
  for_str (l ++ 0 :: r) body 0 (j, 0, t, out) =
  for_str (l ++ 0 :: r) body (Z.of_nat (length p)) (j, 0, t, out).
Proof.
  revert q. induction p as [|c p IH] using rev_ind; intros q El Hno; [done|].
  rewrite (IH (c :: q)).
  - rewrite for_str_eq by (done || lia || apply json_mono).
    destruct (Z.ltb_spec (Z.of_nat (length p)) (Z.of_nat (length l))) as [Hlt|Hge].
    2: { rewrite El, !length_app in Hge. cbn in Hge. lia. }
    rewrite json_skip, bind_ok; [|lia|rewrite Nat2Z.id; apply Hno; rewrite length_app; cbn; lia].
    f_equal. rewrite length_app. cbn [length]. lia.
  - by rewrite El, <- app_assoc.
  - intros i Hi. apply Hno. rewrite length_app. lia.
Qed.

(** The colon and the quotation mark behind the key. *)
Lemma json_punct p x q j k t out :
  l = p ++ x :: q → x = 58 ∨ x = 34 → 1 ≤ k < 3 →
  for_str (l ++ 0 :: r) body (Z.of_nat (length p)) (j, k, t, out) =
  for_str (l ++ 0 :: r) body (Z.of_nat (length (p ++ [x]))) (j, k + 1, t, out).
Proof.
  intros El Hx Hk3. apply (walk_step body l r Hl json_mono _ _ q); [done|].
  rewrite (json_later _ x) by (lia || (rewrite El; apply load_mid)).
  destruct (Z.ltb_spec k 3); [|lia]. by destruct Hx as [-> | ->].
Qed.

(** The quoted text is copied up to its end or the limit. *)
Lemma json_copy i c j u : 0 ≤ i → load (l ++ 0 :: r) i = Ok c →
  body i (j, 3, u, []) = if c =? 34 then mret (inr (i, (j, 3, u, [])))
    else if j <? n then t' ← store u j c; mret (inl (i, (j + 1, 3, t', []))) else mret (inr (i, (j, 3, u, []))).
Proof.
  intros Hi Hc. rewrite (json_later _ c) by (done || lia). cbn. by destruct (j <? n), (c =? 34).
Qed.

(** From the key on: its turn and those of the punctuation. *)
Lemma json_key pre q t : l = pre ++ key ++ [34; 58; 34] ++ q →
  for_str (l ++ 0 :: r) body (Z.of_nat (length pre)) (0, 0, t, []) =
  for_str (l ++ 0 :: r) body (Z.of_nat (length (pre ++ key ++ [34; 58; 34]))) (0, 3, t, []).
Proof.
  intros El. assert (Ll : length l = (length pre + length key + 3 + length q)%nat).
  { rewrite El, !length_app. cbn [length]. lia. }
  assert (Hf : body (Z.of_nat (length pre)) (0, 0, t, []) = Ok (inl (Z.of_nat (length pre) + Z.of_nat (length key), (0, 1, t, [])))).
  { apply json_found; [lia|lia|]. rewrite Nat2Z.id, El, drop_app_length. by eexists. }
  rewrite (walk_turn body l r Hl json_mono (Z.of_nat (length pre)) _ _ _ ltac:(lia) Hf).
  replace (Z.of_nat (length pre) + Z.of_nat (length key) + 1) with (Z.of_nat (length (pre ++ key ++ [34])))
    by (rewrite !length_app; cbn [length]; lia).
  rewrite (json_punct (pre ++ key ++ [34]) 58 (34 :: q)) by (lia || (rewrite El, <- !app_assoc; done)).
  rewrite (json_punct ((pre ++ key ++ [34]) ++ [58]) 34 q) by (lia || (rewrite El, <- !app_assoc; done)).
  by rewrite <- !app_assoc.
Qed.
End json.

Lemma upto_quote v post : Forall (λ c, c ≠ 34) v → upto (λ c, c =? 34) (v ++ 34 :: post) = v.
Proof. intros H. induction H as [|c v Hc _ IH]; cbn; [done|]. destruct (Z.eqb_spec c 34); [done|]. by rewrite IH. Qed.

(** A quoted value after the first occurrence of the key. *)
Lemma getjsonv_spec pre key v post r rk t n :
  let l := pre ++ key ++ [34; 58; 34] ++ v ++ 34 :: post in
  let w := take (Z.to_nat n) v in
  let stop := Z.of_nat (length pre + length key + 3 + length w) in
  nonul l → Z.of_nat (length l) < 2 ^ 64 → Forall (λ c, c ≠ 34) v →
  (∀ i, (i < length pre)%nat → ¬ key `prefix_of` drop i l) →
  getjsonv (l ++ 0 :: r) t (key ++ 0 :: rk) n =
    if stop <? Z.of_nat (length t)
    then Ok (<[Z.to_nat stop := 0]> (w ++ drop (length w) t), []) else Err OutOfBounds.
Proof.
  intros l w stop Hl Hlen Hv Hno. unfold getjsonv.
  assert (Hk : nonul key) by (subst l; rewrite !nonul_app in Hl; tauto).
  change (λ i '(j, k, t, out), lk ← c_strlen (key ++ 0 :: rk); _) with
    (json_body (l ++ 0 :: r) (key ++ 0 :: rk) n).
  rewrite (json_search l r key rk n Hl Hk pre (key ++ [34; 58; 34] ++ v ++ 34 :: post)) by done.
  rewrite (json_key l r key rk n Hl Hk Hlen pre (v ++ 34 :: post)) by done.
  set (p4 := pre ++ key ++ [34; 58; 34]).
  assert (Lp : length p4 = (length pre + length key + 3)%nat) by (subst p4; rewrite !length_app; cbn [length]; lia).
  pose proof (copy_phase (λ j u, (j, 3, u, [])) _ l r (λ c, c =? 34) n 0 Hl (json_mono l r key rk n Hk)
    (json_copy l r key rk n Hk) p4 (v ++ 34 :: post) [] t ltac:(by subst p4 l; rewrite <- !app_assoc) ltac:(lia) ltac:(cbn; lia)) as C.
  cbn zeta in C. rewrite upto_quote in C by done. cbn [app length drop] in C. rewrite Nat.sub_0_r, Z.sub_0_r, drop_0 in C.
  fold w in C. change (Z.of_nat 0) with 0 in C.
  replace (Z.of_nat (length p4) + Z.of_nat (length w)) with stop in C by (subst stop; lia).
  destruct C as [[-> Hle]|[-> Hlt]].
  - rewrite bind_ok. assert (Lw : length (w ++ drop (length w) t) = length t)
      by (rewrite length_app, length_drop; lia).
    destruct (Z.ltb_spec stop (Z.of_nat (length t))); [by rewrite store_ok by lia|].
    by rewrite store_oob by lia.
  - rewrite bind_err. destruct (Z.ltb_spec stop (Z.of_nat (length t))); [lia|done].
Qed.
