(* ===== verification/DtParser.v ===== *)
(** The report parser [src/cpp/dtprs/dtparser.c]: a frame of fixed-width
    fields becomes a JSON text in static buffers.

    The file [src/cpp/http/dtparser.c] is the same text with [prs_dt], [test]
    and [test1] renamed.  The static buffers are the fields of [Dt]; a function
    that returns a pointer to one of them returns its contents.  The JSON
    literals are written with a single quote for each double quote ([js]). *)
From S2P Require Import Prelude CString.

(** A literal of the source, its double quotes written as single ones. *)
Definition js (s : string) : list Z := (λ c, if c =? 39 then 34 else c) <$> codes s.
Definition jlit (s : string) : list Z := js s ++ [0].

(** ** The static buffers *)

Record Dt := mkDt {
  up_dt : list Z;      (* [dt[1024]] of [prs_up_rpt_dt] *)
  up_ctrl : list Z;    (* [ctrl[3]] *)
  up_seq : list Z;     (* [seq[3]] *)
  dt_obj : list Z;     (* [dt_obj[512]] *)
  dt_u : list Z;       (* [dt_u[1024]] of [prs_dt_u] *)
  u_id : list Z;       (* [id[5]] *)
  obj_dt : list Z;     (* [dt[1024]] of [prs_up_rpt_dt_obj] *)
  evt_dt : list Z;     (* [dt[1024]] of [prs_evt_ext] *)
  at_dt : list Z       (* [dt[1024]] of [prs_at_ext] *)
}.

Definition set_at (d : Dt) (x : list Z) : Dt :=
  mkDt (up_dt d) (up_ctrl d) (up_seq d) (dt_obj d) (dt_u d) (u_id d) (obj_dt d) (evt_dt d) x.
Definition set_evt (d : Dt) (x : list Z) : Dt :=
  mkDt (up_dt d) (up_ctrl d) (up_seq d) (dt_obj d) (dt_u d) (u_id d) (obj_dt d) x (at_dt d).
Definition set_obj (d : Dt) (x : list Z) : Dt :=
  mkDt (up_dt d) (up_ctrl d) (up_seq d) (dt_obj d) (dt_u d) (u_id d) x (evt_dt d) (at_dt d).
Definition set_u (d : Dt) (x y : list Z) : Dt :=
  mkDt (up_dt d) (up_ctrl d) (up_seq d) (dt_obj d) x y (obj_dt d) (evt_dt d) (at_dt d).
Definition set_up (d : Dt) (x c q : list Z) : Dt :=
  mkDt x c q (dt_obj d) (dt_u d) (u_id d) (obj_dt d) (evt_dt d) (at_dt d).
Definition set_dt_obj (d : Dt) (x : list Z) : Dt :=
  mkDt (up_dt d) (up_ctrl d) (up_seq d) x (dt_u d) (u_id d) (obj_dt d) (evt_dt d) (at_dt d).

(** ** Fields *)

(** [strcat(dt, t); strncat(dt, s+i, k); i += k;] *)
Definition put_field (dt s : list Z) (i : Z) (t : string) (k : Z) : res (list Z * Z) :=
  dt ← strcat dt (jlit t);
  p ← ptr s i;
  dt ← strncat dt p k;
  mret (dt, i + k).

(** A run of such statements. *)
Fixpoint put_fields (fs : list (string * Z)) (dt s : list Z) (i : Z) : res (list Z * Z) :=
  match fs with
  | [] => mret (dt, i)
  | (t, k) :: fs => '(dt, i) ← put_field dt s i t k; put_fields fs dt s i
  end.

(** ** The extensions *)

Definition prs_at_ext (d : Dt) (s : list Z) : res (Dt * list Z) :=
  dt ← memset (at_dt d) 0 1024;
  '(dt, i) ← put_field dt s 0 "{'date':'" 6;
  dt ← strcat dt (jlit "','dt':'");
  p ← ptr s i;
  dt ← strcat dt p;
  dt ← strcat dt (jlit "'}");
  mret (set_at d dt, dt).

Definition evt_item_fields : list (string * Z) :=
  [("{'date':'", 6); ("','fVStd':'", 16); ("','fV':'", 16)]%string.

Definition prs_evt_ext (d : Dt) (s : list Z) : res (Dt * list Z) :=
  dt ← memset (evt_dt d) 0 1024;
  '(dt, i) ← put_fields [("{'evt':'", 2); ("','fvStdS1':'", 16)]%string dt s 0;
  dt ← strcat dt (jlit "','dt':[");
  '(dt, i) ← for_range 0 3 (λ j '(dt, i),
    tmp ← memset (replicate 128 0) 0 128;
    tmp ← (if 0 <? j then strcat tmp (jlit ",") else mret tmp);
    '(tmp, i) ← put_fields evt_item_fields tmp s i;
    tmp ← strcat tmp (jlit "'}");
    dt ← strcat dt tmp;
    mret (dt, i)) (dt, i);
  dt ← strcat dt (jlit "]}");
  mret (set_evt d dt, dt).

(** ** The report *)

Definition obj_fields : list (string * Z) :=
  [("{'time':'", 12); ("','sts':'", 8); ("','iVStd':'", 16); ("','iV':'", 16);
   ("','fVStd':'", 16); ("','fV':'", 16); ("','flwRtStd':'", 8); ("','flwRt':'", 8);
   ("','t':'", 8); ("','p':'", 8); ("','engSum':'", 16); ("','engDst':'", 8);
   ("','acsV':'", 4); ("','vlt':'", 4); ("','pwr':'", 2); ("','nb':'", 8);
   ("','ecl':'", 4); ("','cid':'", 12); ("','rnf':'", 4)]%string.

Definition prs_up_rpt_dt_obj (d : Dt) (id s : list Z) : res (Dt * list Z) :=
  dt ← memset (obj_dt d) 0 1024;
  '(dt, i) ← put_fields obj_fields dt s 0;
  dt ← strcat dt (jlit "','ext':");
  c ← load id 3;
  '(d, dt) ← (if c =? 51 then
      p ← ptr s i;
      '(d, e) ← prs_evt_ext d p;
      dt ← strcat dt e;
      mret (d, dt)
    else if c =? 50 then
      p ← ptr s i;
      '(d, e) ← prs_at_ext d p;
      dt ← strcat dt e;
      mret (d, dt)
    else mret (d, dt));
  dt ← strcat dt (jlit "}");
  mret (set_obj d dt, dt).

Definition prs_dt_u (d : Dt) (s : list Z) : res (Dt * list Z) :=
  u ← memset (dt_u d) 0 1024;
  '(u, i) ← put_fields [("{'ctrl':'", 2); ("','n':'", 2)]%string u s 0;
  '(u, i') ← put_field u s i "','id':'" 4;
  id ← memset (u_id d) 0 5;
  p ← ptr s i;
  id ← strncat id p 4;
  u ← strcat u (jlit "','dt':'");
  p ← ptr s i';
  u ← strcat u p;
  u ← strcat u (jlit "'}");
  prs_up_rpt_dt_obj (set_u d u id) id p.

Definition prs_up_rpt_dt (d : Dt) (s : list Z) : res (Dt * list Z) :=
  dt ← memset (up_dt d) 0 1024;
  '(dt, i) ← put_field dt s 0 "{'cr':'" 2;
  '(dt, i1) ← put_field dt s i "','ctrl':'" 2;
  ctrl ← memset (up_ctrl d) 0 3;
  p ← ptr s i;
  ctrl ← strncat ctrl p 2;
  '(dt, i) ← put_fields [("','l':'", 2); ("','c':'", 4); ("','r':'", 4)]%string dt s i1;
  '(dt, i2) ← put_field dt s i "','seq':'" 2;
  seq ← memset (up_seq d) 0 3;
  p ← ptr s i;
  seq ← strncat seq p 2;
  c ← load s (i2 - 1);
  '(dt, i) ← (if c =? 48 then put_field dt s i2 "','appId':'" 46 else mret (dt, i2));
  dt ← strcat dt (jlit "','dt':'");
  p ← ptr s i;
  dt ← strcat dt p;
  dt ← strcat dt (jlit "'}");
  let d := set_up d dt ctrl seq in
  c1 ← load ctrl 1;
  q1 ← load seq 1;
  if (c1 =? 50) && (q1 =? 49) then
    o ← memset (dt_obj d) 0 1024;
    o ← strcat o (jlit "{'ext':{'dt':'");
    o ← strcat o p;
    o ← strcat o (jlit "'}}");
    mret (set_dt_obj d o, o)
  else prs_dt_u d p.

Definition prs_dt (d : Dt) (s : list Z) : res (Dt * list Z) := prs_up_rpt_dt d s.

(** The entry point of the copy under [http]. *)
Definition parsedt (d : Dt) (s : list Z) : res (Dt * list Z) := prs_up_rpt_dt d s.

(** Program start: the static buffers are zero. *)
Definition dt_init : Dt :=
  mkDt (replicate 1024 0) (replicate 3 0) (replicate 3 0) (replicate 512 0) (replicate 1024 0)
       (replicate 5 0) (replicate 1024 0) (replicate 1024 0) (replicate 1024 0).

(** [main] and [test1]: the exit code and what they print for the argument. *)
Definition dtprs_main (d : Dt) (arg : option (list Z)) : res (Z * list output) :=
  match arg with
  | None => mret (-1, [PutStr "pls input dt\n"])
  | Some s => '(_, j) ← prs_dt d s; l ← c_chars j; mret (0, [PutChars l; PutStr "\n"])
  end.

Definition test1 (d : Dt) (arg : option (list Z)) : res (Z * list output) :=
  match arg with
  | None => mret (-1, [PutStr "pls input dt\n"])
  | Some s =>
      a ← c_chars s;
      '(_, j) ← prs_up_rpt_dt d s;
      l ← c_chars j;
      mret (0, [PutStr "prs_dt, "; PutChars a; PutStr "\n"; PutChars l; PutStr "\n"])
  end.
