(* ===== verification/DtSpec.v ===== *)
(** The JSON text that the report parser builds for a frame, and the frames
    that make it fault. *)
From S2P Require Import Prelude CString DtParser.

(** ** The JSON text of a frame *)

(** The fields [fs] of the characters [l]. *)
Fixpoint jfields (fs : list (string * Z)) (l : list Z) : list Z :=
  match fs with
  | [] => []
  | (t, k) :: fs => js t ++ take (Z.to_nat k) l ++ jfields fs (drop (Z.to_nat k) l)
  end.

Definition width (fs : list (string * Z)) : Z := foldr (λ f w, f.2 + w) 0 fs.

Definition at_json (l : list Z) : list Z :=
  js "{'date':'" ++ take 6 l ++ js "','dt':'" ++ drop 6 l ++ js "'}".

Definition evt_item (j : Z) (l : list Z) : list Z :=
  (if 0 <? j then js "," else []) ++ jfields evt_item_fields l ++ js "'}".

Definition evt_head : list (string * Z) := [("{'evt':'", 2); ("','fvStdS1':'", 16)]%string.

Definition evt_json (l : list Z) : list Z :=
  jfields evt_head l ++ js "','dt':[" ++ evt_item 0 (drop 18 l) ++ evt_item 1 (drop 56 l) ++
  evt_item 2 (drop 94 l) ++ js "]}".

(** The report, [kind] being the last character of the id. *)
Definition obj_json (kind : Z) (l : list Z) : list Z :=
  jfields obj_fields l ++ js "','ext':" ++
  (if kind =? 51 then evt_json (drop 178 l)
   else if kind =? 50 then at_json (drop 178 l) else []) ++ js "}".

(** Where the data of a frame starts: an application id follows sequence
    numbers that end in 0. *)
Definition data_at (l : list Z) : nat := if default 0 (l !! 15%nat) =? 48 then 62 else 16.

(** Extension frames. *)
Definition is_ext (l : list Z) : bool :=
  (default 0 (l !! 3%nat) =? 50) && (default 0 (l !! 15%nat) =? 49).

Definition report_json (l : list Z) : list Z :=
  let u := drop (data_at l) l in obj_json (default 0 (u !! 7%nat)) (drop 8 u).

(** The shortest frame that has all the fields. *)
Definition frame_len (l : list Z) : nat :=
  let u := drop (data_at l) l in
  data_at l + 8 + 178 +
  (if default 0 (u !! 7%nat) =? 51 then 132 else if default 0 (u !! 7%nat) =? 50 then 6 else 0).

(** The buffers have their sizes. *)
Record dt_wf (d : Dt) : Prop := {
  wf_up : length (up_dt d) = 1024%nat;
  wf_ctrl : length (up_ctrl d) = 3%nat;
  wf_seq : length (up_seq d) = 3%nat;
  wf_dobj : length (dt_obj d) = 512%nat;
  wf_u : length (dt_u d) = 1024%nat;
  wf_id : length (u_id d) = 5%nat;
  wf_obj : length (obj_dt d) = 1024%nat;
  wf_evt : length (evt_dt d) = 1024%nat;
  wf_at : length (at_dt d) = 1024%nat
}.

Lemma dt_init_wf : dt_wf dt_init.
Proof. by split. Qed.

(** ** Statements on a cleared buffer *)

Definition fields_ok (fs : list (string * Z)) : bool :=
  forallb (λ f, bool_decide (nonul (js f.1)) && (0 <=? f.2)) fs.

Definition texts (fs : list (string * Z)) : nat := foldr (λ f n, (length (js f.1) + n)%nat) O fs.

Lemma strcat_jlit cap acc t :
  nonul (js t) → nonul acc → (length acc + length (js t) < cap)%nat →
  strcat (zbuf cap acc) (jlit t) = Ok (zbuf cap (acc ++ js t)).
Proof.
  intros Ht Ha Hl. unfold strcat, jlit. rewrite (c_chars_app _ []), bind_ok by done.
  rewrite append_zbuf by (done || lia).
  by destruct (Nat.ltb_spec (length acc + length (js t)) cap); [|lia].
Qed.

Lemma strcat_rest cap acc l r :
  nonul l → nonul acc → (length acc < cap)%nat →
  strcat (zbuf cap acc) (l ++ 0 :: r) =
    if (length acc + length l <? cap)%nat then Ok (zbuf cap (acc ++ l)) else Err OutOfBounds.
Proof.
  intros Ht Ha Hl. unfold strcat. rewrite c_chars_app, bind_ok by done. by apply append_zbuf.
Qed.

Lemma strcat_buf cap cap' acc m :
  nonul m → nonul acc → (length acc < cap)%nat → (length m < cap')%nat →
  strcat (zbuf cap acc) (zbuf cap' m) =
    if (length acc + length m <? cap)%nat then Ok (zbuf cap (acc ++ m)) else Err OutOfBounds.
Proof. intros Hm Ha Hc Hc'. rewrite (zbuf_cons cap') by done. by apply strcat_rest. Qed.

Lemma strncat_take cap acc l r k :
  nonul l → nonul acc → 0 ≤ k → (Z.to_nat k ≤ length l)%nat → (length acc + Z.to_nat k < cap)%nat →
  strncat (zbuf cap acc) (l ++ r) k = Ok (zbuf cap (acc ++ take (Z.to_nat k) l)).
Proof.
  intros Ht Ha Hk Hl Hc. unfold strncat. rewrite c_prefix_take, bind_ok by done.
  rewrite append_zbuf by (done || lia). rewrite length_take.
  by destruct (Nat.ltb_spec (length acc + Z.to_nat k `min` length l) cap); [|lia].
Qed.

Lemma ptr_rest (l r : list Z) i :
  0 ≤ i ≤ Z.of_nat (length l) → ptr (l ++ 0 :: r) i = Ok (drop (Z.to_nat i) l ++ 0 :: r).
Proof. intros Hi. rewrite ptr_ok by (rewrite length_app; lia). by rewrite drop_app_le by lia. Qed.

Section fields.
Context (l r : list Z) (Hl : nonul l).

Lemma put_field_spec cap acc i t k :
  nonul (js t) → nonul acc → 0 ≤ i → 0 ≤ k → i + k ≤ Z.of_nat (length l) →
  (length acc + length (js t) + Z.to_nat k < cap)%nat →
  put_field (zbuf cap acc) (l ++ 0 :: r) i t k =
    Ok (zbuf cap (acc ++ js t ++ take (Z.to_nat k) (drop (Z.to_nat i) l)), i + k).
Proof.
  intros Ht Ha Hi Hk Hik Hc. unfold put_field. rewrite strcat_jlit, bind_ok by (done || lia).
  rewrite ptr_rest, bind_ok by lia.
  rewrite strncat_take, bind_ok; [by rewrite <- app_assoc|by apply nonul_drop|by apply nonul_app|done
    |rewrite length_drop; lia|rewrite length_app; lia].
Qed.

Lemma nonul_jfields fs m : fields_ok fs = true → nonul m → nonul (jfields fs m).
Proof.
  revert m. induction fs as [|[t k] fs IH]; intros m; cbn; [intros; constructor|].
  rewrite !andb_true_iff, bool_decide_eq_true. intros [[? ?] ?] Hm.
  rewrite !nonul_app. split; [done|]. split; [by apply nonul_take|]. apply IH; [done|by apply nonul_drop].
Qed.

Lemma put_fields_spec fs cap acc i :
  fields_ok fs = true → nonul acc → 0 ≤ i → i + width fs ≤ Z.of_nat (length l) →
  (length acc + texts fs + Z.to_nat (width fs) < cap)%nat →
  put_fields fs (zbuf cap acc) (l ++ 0 :: r) i =
    Ok (zbuf cap (acc ++ jfields fs (drop (Z.to_nat i) l)), i + width fs).
Proof.
  revert acc i. induction fs as [|[t k] fs IH]; intros acc i.
  - intros _ Ha Hi Hw Hc. cbn. by rewrite app_nil_r, Z.add_0_r.
  - cbn [fields_ok forallb fst snd put_fields jfields width foldr texts].
    rewrite !andb_true_iff, bool_decide_eq_true, Z.leb_le. fold (width fs) (texts fs) (fields_ok fs).
    intros [[Ht Hk] Hfs] Ha Hi Hw Hc.
    assert (0 ≤ width fs).
    { clear -Hfs. induction fs as [|[t k] fs IH]; cbn in *; [lia|].
      rewrite !andb_true_iff, Z.leb_le in Hfs. specialize (IH (proj2 Hfs)). unfold width in IH. lia. }
    rewrite put_field_spec, bind_ok by (done || lia).
    assert (nonul (acc ++ js t ++ take (Z.to_nat k) (drop (Z.to_nat i) l))).
    { rewrite !nonul_app. split; [done|]. split; [done|]. by apply nonul_take, nonul_drop. }
    rewrite IH; [|done|done|lia|lia|rewrite !length_app, length_take, length_drop; lia].
    f_equal. f_equal; [|lia]. f_equal. rewrite <- !app_assoc. do 3 f_equal. rewrite drop_drop. f_equal. f_equal. lia.
Qed.
End fields.

Lemma length_jfields fs m :
  fields_ok fs = true → width fs ≤ Z.of_nat (length m) →
  length (jfields fs m) = (texts fs + Z.to_nat (width fs))%nat.
Proof.
  revert m. induction fs as [|[t k] fs IH]; intros m; [done|].
  cbn [fields_ok forallb fst snd jfields width foldr texts].
  rewrite !andb_true_iff, Z.leb_le. fold (width fs) (texts fs) (fields_ok fs). intros [[_ Hk] Hfs] Hw.
  assert (0 ≤ width fs).
  { clear -Hfs. induction fs as [|[t k] fs IH]; cbn in *; [lia|].
    rewrite !andb_true_iff, Z.leb_le in Hfs. specialize (IH (proj2 Hfs)). unfold width in IH. lia. }
  rewrite !length_app, length_take, IH by (done || (rewrite length_drop; lia)). lia.
Qed.

(** ** The functions *)

(** Lengths of the literals, computed. *)
Ltac jslen :=
  repeat match goal with
  | |- context [length (js ?s)] => let n := eval vm_compute in (length (js s)) in change (length (js s)) with n
  | |- context [texts ?f] => let n := eval vm_compute in (texts f) in change (texts f) with n
  | |- context [width ?f] => let n := eval vm_compute in (width f) in change (width f) with n
  end.

Ltac jlia := rewrite ?length_app, ?length_take, ?length_drop; jslen; cbn [length]; lia.

Ltac jside :=
  first [ assumption
        | lazymatch goal with
          | |- nonul (js _) => nonul
          | |- nonul [] => apply Forall_nil_2
          | |- nonul (take _ _) => apply nonul_take; jside
          | |- nonul (drop _ _) => apply nonul_drop; jside
          | |- nonul (_ ++ _) => apply nonul_app; split; jside
          | |- fields_ok _ = true => reflexivity
          | |- _ = _ => reflexivity
          | _ => first [lia | jslen; lia | jlia]
          end ].

Lemma memset_0 buf cap n : length buf = cap → n = Z.of_nat cap → memset buf 0 n = Ok (zbuf cap []).
Proof. intros Hb ->. by apply memset_zbuf. Qed.

Lemma prs_at_ext_spec d l r :
  dt_wf d → nonul l → (6 ≤ length l)%nat → (length l + 19 < 1024)%nat →
  prs_at_ext d (l ++ 0 :: r) = Ok (set_at d (zbuf 1024 (at_json l)), zbuf 1024 (at_json l)).
Proof.
  intros Hd Hl H6 Hc. unfold prs_at_ext. rewrite (memset_0 _ 1024), bind_ok by (done || apply Hd).
  rewrite put_field_spec, bind_ok by jside.
  assert (N1 : nonul ([] ++ js "{'date':'" ++ take 6 l)) by (apply nonul_app; split; [constructor|apply nonul_app; split; [nonul|by apply nonul_take]]).
  change (take (Z.to_nat 6) (drop (Z.to_nat 0) l)) with (take 6 l).
  rewrite strcat_jlit, bind_ok by jside.
  rewrite ptr_rest, bind_ok by lia. change (Z.to_nat (0 + 6)) with 6%nat.
  assert (N2 : nonul (([] ++ js "{'date':'" ++ take 6 l) ++ js "','dt':'")) by (apply nonul_app; split; [done|nonul]).
  rewrite strcat_rest by (by apply nonul_drop || done || jlia).
  match goal with |- context [(?a <? 1024)%nat] => destruct (Nat.ltb_spec a 1024) as [Hlt|Hge] end.
  2: { exfalso. revert Hge. jlia. }
  rewrite bind_ok. rewrite strcat_jlit, bind_ok.
  - unfold at_json. by rewrite <- !app_assoc.
  - nonul.
  - apply nonul_app; split; [done|by apply nonul_drop].
  - jlia.
Qed.

Lemma nonul_at_json l : nonul l → nonul (at_json l).
Proof.
  intros Hl. unfold at_json. rewrite !nonul_app. split; [nonul|]. split; [by apply nonul_take|].
  split; [nonul|]. split; [by apply nonul_drop|nonul].
Qed.

Lemma nonul_evt_item j l : nonul l → nonul (evt_item j l).
Proof.
  intros Hl. unfold evt_item. rewrite !nonul_app. split; [destruct (0 <? j); [nonul|constructor]|].
  split; [by apply nonul_jfields|nonul].
Qed.

Lemma length_evt_item j l : (38 ≤ length l)%nat → (length (evt_item j l) ≤ 69)%nat.
Proof.
  intros Hl. unfold evt_item. rewrite !length_app, length_jfields by (done || jlia). jslen.
  destruct (0 <? j); jslen; cbn [length]; lia.
Qed.

(** One of the three items. *)
Lemma evt_item_step l r acc i j :
  nonul l → nonul acc → 0 ≤ i → i + 38 ≤ Z.of_nat (length l) → (length acc + 69 < 1024)%nat →
  (tmp ← memset (replicate 128 0) 0 128;
   tmp ← (if 0 <? j then strcat tmp (jlit ",") else mret tmp);
   '(tmp, i) ← put_fields evt_item_fields tmp (l ++ 0 :: r) i;
   tmp ← strcat tmp (jlit "'}");
   dt ← strcat (zbuf 1024 acc) tmp;
   mret (dt, i)) =
  Ok (zbuf 1024 (acc ++ evt_item j (drop (Z.to_nat i) l)), i + 38).
Proof.
  intros Hl Ha Hi Hw Hc. rewrite (memset_0 _ 128), bind_ok by done.
  set (c := if 0 <? j then js "," else []).
  assert (Hcn : nonul c) by (subst c; destruct (0 <? j); [nonul|constructor]).
  assert (Hcl : (length c ≤ 1)%nat) by (subst c; destruct (0 <? j); [jslen|cbn]; lia).
  assert (E : (if 0 <? j then strcat (zbuf 128 []) (jlit ",") else mret (zbuf 128 [])) = Ok (zbuf 128 c)).
  { subst c. destruct (0 <? j); [|done]. by rewrite strcat_jlit by (done || nonul || constructor || jlia). }
  rewrite E, bind_ok.
  rewrite put_fields_spec, bind_ok by jside.
  assert (Lf : length (jfields evt_item_fields (drop (Z.to_nat i) l)) = 66%nat).
  { rewrite length_jfields by (done || jlia). reflexivity. }
  assert (Nf : nonul (c ++ jfields evt_item_fields (drop (Z.to_nat i) l))).
  { apply nonul_app; split; [done|]. apply nonul_jfields; [done|by apply nonul_drop]. }
  rewrite strcat_jlit, bind_ok by jside.
  rewrite <- app_assoc.
  change (c ++ jfields evt_item_fields (drop (Z.to_nat i) l) ++ js "'}") with (evt_item j (drop (Z.to_nat i) l)).
  assert (Li : (length (evt_item j (drop (Z.to_nat i) l)) ≤ 69)%nat) by (apply length_evt_item; rewrite length_drop; lia).
  rewrite strcat_buf by (done || lia || by apply nonul_evt_item, nonul_drop).
  destruct (Nat.ltb_spec (length acc + length (evt_item j (drop (Z.to_nat i) l))) 1024); [|lia].
  by rewrite bind_ok.
Qed.

Lemma prs_evt_ext_spec d l r :
  dt_wf d → nonul l → (132 ≤ length l)%nat →
  prs_evt_ext d (l ++ 0 :: r) = Ok (set_evt d (zbuf 1024 (evt_json l)), zbuf 1024 (evt_json l)).
Proof.
  intros Hd Hl Hlen. unfold prs_evt_ext. rewrite (memset_0 (evt_dt d) 1024), bind_ok by (done || apply Hd).
  fold evt_head.
  rewrite put_fields_spec, bind_ok by jside.
  change (0 + width evt_head) with 18. change (drop (Z.to_nat 0) l) with l. cbn [app].
  assert (Lh : length (jfields evt_head l) = 39%nat) by (rewrite length_jfields by (done || jlia); reflexivity).
  assert (Nh : nonul (jfields evt_head l)) by (by apply nonul_jfields).
  rewrite strcat_jlit, bind_ok by jside.
  set (a0 := jfields evt_head l ++ js "','dt':[").
  assert (L0 : length a0 = 47%nat) by (subst a0; rewrite length_app, Lh; reflexivity).
  assert (N0 : nonul a0) by (subst a0; apply nonul_app; split; [done|nonul]).
  assert (Hi : ∀ j n, (n + 38 ≤ length l)%nat → nonul (evt_item j (drop n l)) ∧ (length (evt_item j (drop n l)) ≤ 69)%nat).
  { intros j n Hn. split; [by apply nonul_evt_item, nonul_drop|]. apply length_evt_item. rewrite length_drop. lia. }
  destruct (Hi 0 18%nat) as [I0 J0]; [lia|]. destruct (Hi 1 56%nat) as [I1 J1]; [lia|].
  destruct (Hi 2 94%nat) as [I2 J2]; [lia|].
  rewrite for_range_step by lia. rewrite evt_item_step, bind_ok by (done || lia).
  change (Z.to_nat 18) with 18%nat. change (18 + 38) with 56. change (0 + 1) with 1.
  assert (nonul (a0 ++ evt_item 0 (drop 18 l))) by (by apply nonul_app).
  rewrite for_range_step by lia. rewrite evt_item_step, bind_ok by (done || lia || (rewrite !length_app; lia)).
  change (Z.to_nat 56) with 56%nat. change (56 + 38) with 94. change (1 + 1) with 2.
  assert (nonul ((a0 ++ evt_item 0 (drop 18 l)) ++ evt_item 1 (drop 56 l))) by (by apply nonul_app).
  rewrite for_range_step by lia. rewrite evt_item_step, bind_ok by (done || lia || (rewrite !length_app; lia)).
  change (Z.to_nat 94) with 94%nat. rewrite for_range_empty, bind_ok by lia.
  rewrite strcat_jlit, bind_ok by jside.
  unfold evt_json. subst a0. by rewrite <- !app_assoc.
Qed.

Lemma nonul_evt_json l : nonul l → nonul (evt_json l).
Proof.
  intros Hl. unfold evt_json. rewrite !nonul_app. split; [by apply nonul_jfields|]. split; [nonul|].
  split; [by apply nonul_evt_item, nonul_drop|]. split; [by apply nonul_evt_item, nonul_drop|].
  split; [by apply nonul_evt_item, nonul_drop|nonul].
Qed.

Lemma length_evt_json l : (132 ≤ length l)%nat → (length (evt_json l) ≤ 260)%nat.
Proof.
  intros Hl. unfold evt_json. rewrite !length_app, length_jfields by (done || jlia).
  pose proof (length_evt_item 0 (drop 18 l) ltac:(jlia)). pose proof (length_evt_item 1 (drop 56 l) ltac:(jlia)).
  pose proof (length_evt_item 2 (drop 94 l) ltac:(jlia)). jslen. lia.
Qed.

Definition ext_len (kind : Z) : nat := if kind =? 51 then 132 else if kind =? 50 then 6 else 0.

Lemma set_wf d :
  dt_wf d →
  (∀ x, length x = 1024%nat → dt_wf (set_at d x)) ∧ (∀ x, length x = 1024%nat → dt_wf (set_evt d x)) ∧
  (∀ x, length x = 1024%nat → dt_wf (set_obj d x)) ∧
  (∀ x y, length x = 1024%nat → length y = 5%nat → dt_wf (set_u d x y)) ∧
  (∀ x y z, length x = 1024%nat → length y = 3%nat → length z = 3%nat → dt_wf (set_up d x y z)).
Proof.
  intros []. split; [|split; [|split; [|split]]]; intros; split; cbn; assumption.
Qed.

(** A text of a buffer of its own behind what is there. *)
Lemma append_buf a e : nonul a → nonul e → (length a + length e < 1023)%nat →
  strcat (zbuf 1024 a) (zbuf 1024 e) = Ok (zbuf 1024 (a ++ e)) ∧ nonul (a ++ e) ∧ (length (a ++ e) < 1023)%nat.
Proof.
  intros Ha He Hlen. rewrite strcat_buf by (done || lia).
  destruct (Nat.ltb_spec (length a + length e) 1024); [|lia].
  split; [done|]. split; [by apply nonul_app|rewrite length_app; lia].
Qed.

Lemma prs_obj_spec d (uid l r : list Z) :
  dt_wf d → nonul l → (178 + ext_len (default 0%Z (uid !! 3%nat)) ≤ length l)%nat → (length l + 230 < 1024)%nat →
  (4 ≤ length uid)%nat →
  ∃ d', prs_up_rpt_dt_obj d uid (l ++ 0 :: r) = Ok (d', zbuf 1024 (obj_json (default 0 (uid !! 3%nat)) l)) ∧ dt_wf d'.
Proof.
  intros Hd Hl Hlen Hc Hid. destruct (lookup_lt_is_Some_2 uid 3) as [k Hk]; [lia|]. rewrite Hk in *.
  cbn [default from_option] in *. unfold id in *. destruct (set_wf d Hd) as (Wa & We & _).
  unfold prs_up_rpt_dt_obj. rewrite (memset_0 (obj_dt d) 1024), bind_ok by (done || apply Hd).
  rewrite put_fields_spec, bind_ok by jside.
  change (0 + width obj_fields) with 178. change (drop (Z.to_nat 0) l) with l. cbn [app].
  assert (Lf : length (jfields obj_fields l) = 360%nat) by (rewrite length_jfields by (done || jlia); reflexivity).
  assert (Nf : nonul (jfields obj_fields l)) by (by apply nonul_jfields).
  rewrite strcat_jlit, bind_ok by jside.
  set (a0 := jfields obj_fields l ++ js "','ext':").
  assert (L0 : length a0 = 368%nat) by (subst a0; rewrite length_app, Lf; reflexivity).
  assert (N0 : nonul a0) by (subst a0; apply nonul_app; split; [done|nonul]).
  rewrite (load_ok uid 3 k), bind_ok by (done || lia).
  set (e := if k =? 51 then evt_json (drop 178 l) else if k =? 50 then at_json (drop 178 l) else []).
  match goal with |- context [(if k =? 51 then ?x else ?y) ≫= _] =>
    assert (E : ∃ d', (if k =? 51 then x else y) = Ok (d', zbuf 1024 (a0 ++ e)) ∧ dt_wf d' ∧
      nonul (a0 ++ e) ∧ (length (a0 ++ e) < 1023)%nat) end.
  { unfold ext_len in Hlen. assert (Nd : nonul (drop 178 l)) by (by apply nonul_drop). subst e. revert Hlen.
    destruct (k =? 51); [|destruct (k =? 50)]; intros Hlen.
    - rewrite ptr_rest, bind_ok by lia. change (Z.to_nat 178) with 178%nat.
      rewrite prs_evt_ext_spec, bind_ok by (done || jlia).
      assert (Le : (length (evt_json (drop 178 l)) ≤ 260)%nat) by (apply length_evt_json; jlia).
      assert (Ne : nonul (evt_json (drop 178 l))) by (by apply nonul_evt_json).
      destruct (append_buf a0 (evt_json (drop 178 l)) N0 Ne ltac:(lia)) as [-> Hfit].
      rewrite bind_ok. eexists. split; [done|]. split; [apply We; by rewrite length_zbuf by lia|exact Hfit].
    - rewrite ptr_rest, bind_ok by lia. change (Z.to_nat 178) with 178%nat.
      rewrite prs_at_ext_spec, bind_ok by (done || jlia).
      assert (Ne : nonul (at_json (drop 178 l))) by (by apply nonul_at_json).
      assert (Le : (length (at_json (drop 178 l)) ≤ length l - 178 + 19)%nat) by (unfold at_json; rewrite !length_app; jlia).
      destruct (append_buf a0 (at_json (drop 178 l)) N0 Ne ltac:(lia)) as [-> Hfit].
      rewrite bind_ok. eexists. split; [done|]. split; [apply Wa; by rewrite length_zbuf by lia|exact Hfit].
    - rewrite app_nil_r. exists d. split; [done|]. split; [done|]. split; [done|lia]. }
  destruct E as (d' & -> & Hd' & Ne & Le). rewrite bind_ok.
  rewrite strcat_jlit, bind_ok by jside.
  exists (set_obj d' (zbuf 1024 ((a0 ++ e) ++ js "}"))). split.
  - unfold obj_json. subst a0. by rewrite <- !app_assoc.
  - apply set_wf; [done|]. rewrite length_zbuf; [done|]. rewrite length_app. jslen. lia.
Qed.

Lemma prs_dt_u_spec d (l r : list Z) :
  dt_wf d → nonul l → (8 + 178 + ext_len (default 0%Z (l !! 7%nat)) ≤ length l)%nat → (length l + 222 < 1024)%nat →
  ∃ d', prs_dt_u d (l ++ 0 :: r) = Ok (d', zbuf 1024 (obj_json (default 0 (l !! 7%nat)) (drop 8 l))) ∧ dt_wf d'.
Proof.
  intros Hd Hl Hlen Hc. unfold prs_dt_u. rewrite (memset_0 (dt_u d) 1024), bind_ok by (done || apply Hd).
  rewrite put_fields_spec, bind_ok by jside.
  set (fs := [("{'ctrl':'", 2); ("','n':'", 2)]%string). change (0 + width fs) with 4.
  change (drop (Z.to_nat 0) l) with l. cbn [app].
  assert (Lf : length (jfields fs l) = 20%nat) by (rewrite length_jfields by (done || jlia); reflexivity).
  assert (Nf : nonul (jfields fs l)) by (by apply nonul_jfields).
  rewrite put_field_spec, bind_ok by jside.
  rewrite (memset_0 _ 5), bind_ok by (done || apply Hd).
  rewrite (ptr_rest l r 4), bind_ok by lia. change (Z.to_nat 4) with 4%nat.
  rewrite strncat_take, bind_ok by (done || nonul || (by apply nonul_drop) || jlia). cbn [app].
  change (Z.to_nat 4) with 4%nat. change (4 + 4) with 8.
  set (a0 := jfields fs l ++ js "','id':'" ++ take 4 (drop 4 l)).
  assert (L0 : length a0 = 32%nat) by (subst a0; rewrite !length_app, Lf; jlia).
  assert (N0 : nonul a0).
  { subst a0. rewrite !nonul_app. split; [done|]. split; [nonul|by apply nonul_take, nonul_drop]. }
  rewrite strcat_jlit, bind_ok by jside.
  assert (nonul (a0 ++ js "','dt':'")) by (apply nonul_app; split; [done|nonul]).
  rewrite (ptr_rest l r 8), bind_ok by lia. change (Z.to_nat 8) with 8%nat.
  rewrite strcat_rest by (done || (by apply nonul_drop) || (rewrite length_app; jslen; lia)).
  match goal with |- context [(?a <? 1024)%nat] => destruct (Nat.ltb_spec a 1024) as [_|Hge] end.
  2: { exfalso. revert Hge. rewrite length_app, L0. jlia. }
  rewrite bind_ok, strcat_jlit, bind_ok.
  - assert (Ek : (zbuf 5 (take 4 (drop 4 l))) !! 3%nat = l !! 7%nat).
    { unfold zbuf. rewrite lookup_app_l by jlia. rewrite lookup_take_lt by lia. by rewrite lookup_drop. }
    set (d1 := set_u d _ _).
    destruct (prs_obj_spec d1 (zbuf 5 (take 4 (drop 4 l))) (drop 8 l) r) as (d' & E & Hd').
    + apply set_wf; [done| |]; rewrite length_zbuf; try done; [|jlia].
      rewrite !length_app, L0. jlia.
    + by apply nonul_drop.
    + rewrite Ek. jlia.
    + jlia.
    + rewrite length_zbuf; [lia|jlia].
    + rewrite Ek in E. exists d'. by rewrite E.
  - nonul.
  - apply nonul_app; split; [done|by apply nonul_drop].
  - rewrite !length_app, L0. jlia.
Qed.
