(* ===== verification/DtCorrect.v ===== *)
(** What [prs_dt] guarantees, and the frames it cannot handle. *)
From S2P Require Import Prelude CString DtParser DtSpec.

(** ** The outer frame *)

Definition mid_fields : list (string * Z) := [("','l':'", 2); ("','c':'", 4); ("','r':'", 4)]%string.

(** The text of [dt] before the data is appended. *)
Definition up_head (l : list Z) : list Z :=
  js "{'cr':'" ++ take 2 l ++ js "','ctrl':'" ++ take 2 (drop 2 l) ++
  jfields mid_fields (drop 4 l) ++ js "','seq':'" ++ take 2 (drop 14 l) ++
  (if default 0 (l !! 15%nat) =? 48 then js "','appId':'" ++ take 46 (drop 16 l) else []) ++ js "','dt':'".

Lemma nonul_up_head l : nonul l → nonul (up_head l).
Proof.
  intros Hl. unfold up_head. rewrite !nonul_app.
  repeat match goal with |- _ ∧ _ => split end; try nonul; try (by apply nonul_take);
    try (by apply nonul_take, nonul_drop); try (by apply nonul_jfields, nonul_drop).
  destruct (_ =? 48); [|constructor]. apply nonul_app. split; [nonul|by apply nonul_take, nonul_drop].
Qed.

Lemma length_up_head l :
  (data_at l ≤ length l)%nat → length (up_head l) = (data_at l + if (default 0 (l !! 15%nat) =? 48)%Z then 66 else 55)%nat.
Proof.
  unfold up_head, data_at. intros Hl. destruct (_ =? 48);
    rewrite !length_app, length_jfields by (done || jlia); jlia.
Qed.

Definition up_state (d : Dt) (l : list Z) : Dt :=
  set_up d (zbuf 1024 (up_head l ++ drop (data_at l) l ++ js "'}")) (zbuf 3 (take 2 (drop 2 l)))
    (zbuf 3 (take 2 (drop 14 l))).

(** The text before the application's number, and with it. *)
Definition up_first (l : list Z) : list Z :=
  (((js "{'cr':'" ++ take 2 l) ++ js "','ctrl':'" ++ take 2 (drop 2 l)) ++
    jfields mid_fields (drop 4 l)) ++ js "','seq':'" ++ take 2 (drop 14 l).

Definition up_second (l : list Z) : list Z :=
  up_first l ++ if default 0 (l !! 15%nat) =? 48 then js "','appId':'" ++ take 46 (drop 16 l) else [].

Lemma up_head_second l : up_head l = up_second l ++ js "','dt':'".
Proof. unfold up_head, up_second, up_first. by rewrite <- !app_assoc. Qed.

Lemma length_up_first l : (16 ≤ length l)%nat → length (up_first l) = 63%nat.
Proof.
  intros H. unfold up_first. pose proof (length_drop l 4) as L4.
  assert (Lm : length (jfields mid_fields (drop 4 l)) = 31%nat) by (rewrite length_jfields by (done || jlia); reflexivity).
  rewrite !length_app, Lm. jlia.
Qed.

Lemma length_up_second l : (data_at l ≤ length l)%nat → (length (up_second l) ≤ 121)%nat.
Proof.
  intros Hlen. pose proof (length_up_head l Hlen) as Lh. rewrite up_head_second, length_app in Lh.
  revert Lh. jslen. unfold data_at. destruct (_ =? 48); lia.
Qed.

Lemma nonul_up_second l : nonul l → nonul (up_second l).
Proof. intros Hl. apply nonul_up_head in Hl. rewrite up_head_second in Hl. by apply nonul_app in Hl as [? _]. Qed.

Lemma nonul_up_first l : nonul l → nonul (up_first l).
Proof. intros Hl%nonul_up_second. by apply nonul_app in Hl as [? _]. Qed.

(** The number is taken when the second digit of the sequence is 0. *)
Lemma put_app_id l r c : nonul l → (data_at l ≤ length l)%nat → l !! 15%nat = Some c →
  (if c =? 48 then put_field (zbuf 1024 (up_first l)) (l ++ 0 :: r) 16 "','appId':'" 46
   else mret (zbuf 1024 (up_first l), 16)) = Ok (zbuf 1024 (up_second l), Z.of_nat (data_at l)).
Proof.
  intros Hl Hlen H15. assert (H16 : (16 ≤ length l)%nat) by (unfold data_at in Hlen; destruct (_ =? 48); lia).
  pose proof (length_up_first l H16) as La1. pose proof (nonul_up_first l Hl) as Na1.
  unfold up_second, data_at in *. rewrite H15 in *. cbn [default] in *. unfold id in *. cbn [from_option] in *. destruct (c =? 48).
  - by rewrite put_field_spec by jside.
  - by rewrite app_nil_r.
Qed.

(** What follows the header of the frame. *)
Lemma prs_up_unfold d (l r : list Z) :
  dt_wf d → nonul l → (data_at l ≤ length l)%nat →
  prs_up_rpt_dt d (l ++ 0 :: r) =
    if (length (up_head l) + length (drop (data_at l) l) + 2 <? 1024)%nat then
      (let p := drop (data_at l) l ++ 0 :: r in
       if is_ext l then
         o ← memset (dt_obj d) 0 1024;
         o ← strcat o (jlit "{'ext':{'dt':'");
         o ← strcat o p;
         o ← strcat o (jlit "'}}");
         mret (set_dt_obj (up_state d l) o, o)
       else prs_dt_u (up_state d l) p)
    else Err OutOfBounds.
Proof.
  intros Hd Hl Hlen. pose proof (length_up_head l Hlen) as Lh. pose proof (nonul_up_head l Hl) as Nh.
  assert (H16 : (16 ≤ length l)%nat) by (unfold data_at in Hlen; destruct (_ =? 48); lia).
  destruct (lookup_lt_is_Some_2 l 3) as [c3 H3]; [lia|]. destruct (lookup_lt_is_Some_2 l 15) as [c15 H15]; [lia|].
  unfold prs_up_rpt_dt. rewrite (memset_0 (up_dt d) 1024), bind_ok by (done || apply Hd).
  rewrite put_field_spec, bind_ok by jside. change (0 + 2) with 2. cbn [app].
  change (drop (Z.to_nat 0) l) with l. change (Z.to_nat 2) with 2%nat.
  rewrite put_field_spec, bind_ok by jside. change (Z.to_nat 2) with 2%nat.
  rewrite (memset_0 (up_ctrl d) 3), bind_ok by (done || apply Hd).
  rewrite (ptr_rest l r 2), bind_ok by lia. change (Z.to_nat 2) with 2%nat.
  rewrite (strncat_take 3), bind_ok by jside. change (Z.to_nat 2) with 2%nat. cbn [app].
  fold mid_fields. change (2 + 2) with 4.
  rewrite put_fields_spec, bind_ok by jside. change (4 + width mid_fields) with 14. change (Z.to_nat 4) with 4%nat.
  assert (Nm : nonul (jfields mid_fields (drop 4 l))) by (by apply nonul_jfields, nonul_drop).
  assert (Lm : length (jfields mid_fields (drop 4 l)) = 31%nat) by (rewrite length_jfields by (done || jlia); reflexivity).
  rewrite put_field_spec, bind_ok by jside. change (Z.to_nat 2) with 2%nat. change (Z.to_nat 14) with 14%nat.
  rewrite (memset_0 (up_seq d) 3), bind_ok by (done || apply Hd).
  rewrite (ptr_rest l r 14), bind_ok by lia. change (Z.to_nat 14) with 14%nat.
  rewrite (strncat_take 3), bind_ok by jside. change (Z.to_nat 2) with 2%nat. cbn [app].
  change (14 + 2) with 16. rewrite (load_ok _ (16 - 1) c15), bind_ok; [|lia|].
  2: { rewrite lookup_app_l by (change (Z.to_nat (16 - 1)) with 15%nat; lia). exact H15. }
  fold (up_first l). rewrite (put_app_id l r c15), bind_ok by done.
  pose proof (length_up_second l Hlen) as Lh2. pose proof (nonul_up_second l Hl) as Na2.
  rewrite strcat_jlit, bind_ok by jside. rewrite <- up_head_second in *.
  rewrite ptr_rest, bind_ok by lia. rewrite Nat2Z.id.
  assert (Lh3 : (length (up_head l) ≤ 129)%nat) by (rewrite up_head_second; jlia).
  rewrite strcat_rest by jside.
  destruct (Nat.ltb_spec (length (up_head l) + length (drop (data_at l) l)) 1024) as [Hlt|Hge].
  2: { rewrite bind_err. destruct (Nat.ltb_spec (length (up_head l) + length (drop (data_at l) l) + 2) 1024); [lia|done]. }
  rewrite bind_ok.
  assert (Nd : nonul (drop (data_at l) l)) by (by apply nonul_drop).
  change (jlit "'}") with (js "'}" ++ 0 :: []).
  rewrite (strcat_rest 1024 _ (js "'}")) by (jside || (rewrite length_app; lia)).
  rewrite length_app. jslen.
  destruct (Nat.ltb_spec (length (up_head l) + length (drop (data_at l) l) + 2) 1024) as [Hlt2|]; [|done].
  rewrite bind_ok. cbv zeta.
  assert (E3 : (zbuf 3 (take 2 (drop 2 l))) !! 1%nat = Some c3).
  { unfold zbuf. rewrite lookup_app_l by jlia. rewrite lookup_take_lt by lia. by rewrite lookup_drop. }
  assert (E4 : (zbuf 3 (take 2 (drop 14 l))) !! 1%nat = Some c15).
  { unfold zbuf. rewrite lookup_app_l by jlia. rewrite lookup_take_lt by lia. by rewrite lookup_drop. }
  rewrite (load_ok (zbuf 3 (take 2 (drop 2 l))) 1 c3), bind_ok by (done || lia).
  rewrite (load_ok (zbuf 3 (take 2 (drop 14 l))) 1 c15), bind_ok by (done || lia).
  unfold is_ext, up_state. rewrite H3, H15, <- app_assoc. done.
Qed.

(** ** Frames that end too early *)

(** A field of a frame that may have ended: it faults past the end. *)
Lemma put_field_any l acc i t k :
  nonul l → nonul (js t) → nonul acc → 0 ≤ i → 1 ≤ k → (length acc + length (js t) + Z.to_nat k < 1024)%nat →
  put_field (zbuf 1024 acc) (l ++ [0]) i t k =
    if i <=? Z.of_nat (length l)
    then Ok (zbuf 1024 (acc ++ js t ++ take (Z.to_nat k) (drop (Z.to_nat i) l)), i + k)
    else Err OutOfBounds.
Proof.
  intros Hl Ht Ha Hi Hk Hc. unfold put_field. rewrite strcat_jlit, bind_ok by (done || lia).
  assert (N : nonul (acc ++ js t)) by (by apply nonul_app).
  destruct (Z.leb_spec i (Z.of_nat (length l))) as [Hle|Hgt].
  - rewrite ptr_rest, bind_ok by lia. unfold strncat.
    set (m := drop (Z.to_nat i) l). assert (Nm : nonul m) by (by apply nonul_drop).
    assert (E : c_prefix (Z.to_nat k) (m ++ [0]) = Ok (take (Z.to_nat k) m)).
    { destruct (decide (Z.to_nat k ≤ length m)%nat); [by apply c_prefix_take|].
      rewrite firstn_all2 by lia. apply c_prefix_all; [done|lia]. }
    rewrite E, bind_ok, append_zbuf by (done || (rewrite length_app; lia)).
    destruct (Nat.ltb_spec (length (acc ++ js t) + length (take (Z.to_nat k) m)) 1024) as [_|Hge].
    + by rewrite bind_ok, <- app_assoc.
    + exfalso. revert Hge. rewrite length_take, length_app. lia.
  - unfold ptr. rewrite length_app. cbn [length].
    destruct ((0 <=? i) && (i <=? Z.of_nat (length l + 1))) eqn:Eb; [|done]. rewrite bind_ok.
    apply andb_true_iff in Eb as [_ Eb%Z.leb_le].
    rewrite drop_ge by (rewrite length_app; cbn; lia). unfold strncat.
    destruct (Z.to_nat k) eqn:Ek; [lia|]. done.
Qed.

Lemma prs_up_short d l :
  dt_wf d → nonul l → (length l < 16)%nat → prs_up_rpt_dt d (l ++ [0]) = Err OutOfBounds.
Proof.
  intros Hd Hl Hlen. unfold prs_up_rpt_dt. rewrite (memset_0 (up_dt d) 1024), bind_ok by (done || apply Hd).
  assert (Nt : ∀ k i, nonul (take k (drop i l))) by (intros; by apply nonul_take, nonul_drop).
  rewrite put_field_any by jside.
  destruct (Z.leb_spec 0 (Z.of_nat (length l))); [rewrite bind_ok|lia].
  change (0 + 2) with 2. cbn [app].
  rewrite put_field_any by jside. destruct (Z.leb_spec 2 (Z.of_nat (length l))); [rewrite bind_ok|done].
  rewrite (memset_0 (up_ctrl d) 3), bind_ok by (done || apply Hd). rewrite (ptr_rest l [] 2), bind_ok by lia.
  assert (Hn : ∀ i, 2 ≤ i ≤ Z.of_nat (length l) → ∃ c, strncat (zbuf 3 []) (drop (Z.to_nat i) l ++ [0]) 2 = Ok c ∧ length c = 3%nat).
  { intros i Hi. unfold strncat. set (m := drop (Z.to_nat i) l). assert (nonul m) by (by apply nonul_drop).
    assert (E : c_prefix (Z.to_nat 2) (m ++ [0]) = Ok (take 2 m)).
    { destruct (decide (2 ≤ length m)%nat); [by apply c_prefix_take|].
      rewrite firstn_all2 by lia. apply c_prefix_all; [done|]. change (Z.to_nat 2) with 2%nat. lia. }
    rewrite E, bind_ok, append_zbuf by (apply Forall_nil_2 || (cbn; lia)). cbn [length app].
    assert (length (take 2 m) ≤ 2)%nat by (rewrite length_take; lia).
    destruct (Nat.ltb_spec (0 + length (take 2 m)) 3); [|lia]. eexists. split; [done|]. apply length_zbuf. lia. }
  destruct (Hn 2) as (c & -> & Lc); [lia|]. rewrite bind_ok.
  change (2 + 2) with 4. cbn [put_fields].
  rewrite put_field_any by jside. destruct (Z.leb_spec 4 (Z.of_nat (length l))); [rewrite bind_ok|done].
  change (4 + 2) with 6.
  rewrite put_field_any by jside. destruct (Z.leb_spec 6 (Z.of_nat (length l))); [rewrite bind_ok|done].
  change (6 + 4) with 10.
  rewrite put_field_any by jside. destruct (Z.leb_spec 10 (Z.of_nat (length l))); [rewrite bind_ok|done].
  change (10 + 4) with 14. change (mret ?x) with (Ok x). rewrite bind_ok.
  rewrite put_field_any by jside. destruct (Z.leb_spec 14 (Z.of_nat (length l))); [rewrite bind_ok|done].
  rewrite (memset_0 (up_seq d) 3), bind_ok by (done || apply Hd). rewrite (ptr_rest l [] 14), bind_ok by lia.
  destruct (Hn 14) as (q & -> & Lq); [lia|]. rewrite bind_ok. change (14 + 2 - 1) with 15.
  destruct (decide (length l = 15%nat)) as [E15|].
  - rewrite (load_ok _ 15 0), bind_ok; [|lia|by rewrite lookup_app_r by (change (Z.to_nat 15) with 15%nat; lia); rewrite E15].
    change (0 =? 48) with false. cbn match. change (mret ?x) with (Ok x). rewrite bind_ok.
    rewrite strcat_jlit, bind_ok by jside. change (14 + 2) with 16.
    rewrite ptr_ok, bind_ok by (rewrite length_app; cbn; lia).
    assert (Ed : drop (Z.to_nat 16) (l ++ [0]) = []).
    { apply drop_ge. rewrite length_app. change (Z.to_nat 16) with 16%nat. cbn. lia. }
    by rewrite Ed.
  - by rewrite (load_oob (l ++ [0]) 15) by (rewrite length_app; cbn; lia).
Qed.

(** ** Properties *)

(** C14: A frame that is long enough for its fields and at most 790 characters, and is not an
    extension frame, is parsed into exactly the JSON report of its fields, whatever the
    buffers held before, and the buffers stay well formed. *)
Theorem dt_report_correct d (l r : list Z) :
  dt_wf d → nonul l → is_ext l = false → (frame_len l ≤ length l ≤ 790)%nat →
  ∃ d', prs_dt d (l ++ 0 :: r) = Ok (d', zbuf 1024 (report_json l)) ∧ dt_wf d'.
Proof.
  intros Hd Hl Hext [Hlen Hmax]. unfold prs_dt, frame_len in *. cbv zeta in Hlen.
  assert (Hda : (data_at l ≤ length l)%nat) by lia.
  rewrite prs_up_unfold by done. pose proof (length_up_head l Hda) as Lh.
  destruct (Nat.ltb_spec (length (up_head l) + length (drop (data_at l) l) + 2) 1024) as [_|Hge].
  2: { exfalso. rewrite length_drop in Hge. destruct ((default 0 (l !! 15%nat) =? 48)%Z); lia. }
  rewrite Hext. cbv zeta.
  assert (Hw : dt_wf (up_state d l)).
  { apply set_wf; [done| | |]; rewrite length_zbuf; try done; try jlia.
    rewrite !length_app, length_drop, Lh. jslen. unfold data_at in *.
    destruct ((default 0 (l !! 15%nat) =? 48)%Z); lia. }
  apply prs_dt_u_spec; [done|by apply nonul_drop| |].
  - rewrite length_drop. unfold ext_len. lia.
  - rewrite length_drop. unfold data_at. destruct (_ =? 48); lia.
Qed.

(** A frame with a parameter report, id 0012. *)
Definition sample_frame : list Z :=
  codes "01" ++ codes "01" ++ codes "20" ++ codes "1234" ++ codes "5678" ++ codes "01" ++
  codes "81" ++ codes "01" ++ codes "0011" ++ replicate 178 55.

Lemma dt_report_witness :
  ∃ d', prs_dt dt_init (sample_frame ++ [0]) = Ok (d', zbuf 1024 (report_json sample_frame)) ∧ dt_wf d'.
Proof.
  apply dt_report_correct; [apply dt_init_wf|nonul|reflexivity|].
  change (frame_len sample_frame) with 202%nat. change (length sample_frame) with 202%nat. lia.
Defined.

(** Every extension frame (control ending in 2, sequence ending in 1) makes the parser clear
    1024 bytes of a 512 byte buffer: it faults. *)
Theorem dt_ext_overflow d (l r : list Z) :
  dt_wf d → nonul l → (16 ≤ length l)%nat → is_ext l = true →
  prs_dt d (l ++ 0 :: r) = Err OutOfBounds.
Proof.
  intros Hd Hl Hlen Hext. unfold prs_dt.
  assert (Hda : data_at l = 16%nat).
  { unfold is_ext, data_at in *. apply andb_true_iff in Hext as [_ E%Z.eqb_eq]. by rewrite E. }
  rewrite prs_up_unfold by (done || lia). rewrite Hext. cbv zeta.
  destruct (_ <? 1024)%nat; [|done]. unfold memset. by rewrite (wf_dobj _ Hd).
Qed.

Lemma dt_ext_witness : prs_dt dt_init (codes "0102203412567801" ++ [0]) = Err OutOfBounds.
Proof. apply (dt_ext_overflow dt_init (codes "0102203412567801") []); [apply dt_init_wf|nonul|cbn; lia|reflexivity]. Defined.

(** Frames of fewer than 16 characters make the parser read past the string, and frames of 970
    or more overflow its first buffer. *)
Theorem dt_short_long d l :
  dt_wf d → nonul l → ((length l < 16)%nat ∨ (970 ≤ length l)%nat) →
  prs_dt d (l ++ [0]) = Err OutOfBounds.
Proof.
  intros Hd Hl [Hs|Hg]; [by apply prs_up_short|]. unfold prs_dt.
  assert (Hda : (data_at l ≤ length l)%nat) by (unfold data_at; destruct (_ =? 48); lia).
  rewrite prs_up_unfold by done. pose proof (length_up_head l Hda) as Lh.
  destruct (Nat.ltb_spec (length (up_head l) + length (drop (data_at l) l) + 2) 1024) as [Hlt|]; [|done].
  exfalso. rewrite length_drop in Hlt. destruct ((default 0 (l !! 15%nat) =? 48)%Z); lia.
Qed.

Lemma dt_short_witness : prs_dt dt_init (codes "010120" ++ [0]) = Err OutOfBounds.
Proof. apply (dt_short_long dt_init (codes "010120")); [apply dt_init_wf|nonul|left; cbn; lia]. Defined.
