(* ===== verification/Posix.v ===== *)
(** What the network programs share: blocks of memory that may be partly
    uninitialised, and the results of system calls.

    The kernel is a parameter: for the [k]-th call of [read] or [write] and
    the number of bytes asked for, it says what the call returns. *)
From S2P Require Import Prelude CString.

(** ** Memory *)

(** The [n] bytes from [off]. *)
Definition slice (buf : list cell) (off n : Z) : res (list Z) :=
  if (0 <=? off) && (0 <=? n) && (off + n <=? Z.of_nat (length buf))
  then values (take (Z.to_nat n) (drop (Z.to_nat off) buf)) else Err OutOfBounds.

(** The bytes [l] stored from [off] on. *)
Definition fill_at (buf : list cell) (off : Z) (l : list Z) : res (list cell) :=
  if (0 <=? off) && (off + Z.of_nat (length l) <=? Z.of_nat (length buf))
  then mret (take (Z.to_nat off) buf ++ (Some <$> l) ++ drop (Z.to_nat off + length l) buf)
  else Err OutOfBounds.

(** The characters up to the NUL. *)
Fixpoint cell_chars (buf : list cell) : res (list Z) :=
  match buf with
  | [] => Err OutOfBounds
  | None :: _ => Err Uninitialised
  | Some c :: buf => if c =? 0 then mret [] else l ← cell_chars buf; mret (c :: l)
  end.

(** The characters before the first NUL. *)
Fixpoint before_nul (l : list Z) : list Z :=
  match l with [] => [] | c :: l => if c =? 0 then [] else c :: before_nul l end.

(** ** System calls *)

(** [read]: the bytes delivered, none at the end of the input, or the error. *)
Inductive rret := RBytes (l : list Z) | RErr (errno : Z).

(** [write]: how many bytes were taken, or the error. *)
Inductive wret := WCount (n : Z) | WErr (errno : Z).

(** A call that returns a descriptor, or the error. *)
Inductive fdret := FdRet (fd : Z) | FdErr (errno : Z).

Definition EINTR : Z := 4.
Definition ECONNABORTED : Z := 103.

(** A function that returns, or leaves the program after [perror(msg)]. *)
Inductive run (A : Type) :=
| Ret (a : A)
| Exit (msg : string) (code : Z).
Arguments Ret {A} a.
Arguments Exit {A} msg code.

(** ** Lemmas *)

Lemma values_app a b l m : values a = Ok l → values b = Ok m → values (a ++ b) = Ok (l ++ m).
Proof.
  unfold values. revert l. induction a as [|[x|] a IH]; intros l Ha Hb; cbn in *.
  - injection Ha as <-. done.
  - destruct (foldr _ _ a) as [l'|]; [|done]. injection Ha as <-. by rewrite (IH l' eq_refl Hb).
  - by destruct (foldr _ _ a).
Qed.

Lemma length_fill_at buf off l buf' : fill_at buf off l = Ok buf' → length buf' = length buf.
Proof.
  unfold fill_at. destruct (_ && _) eqn:E; [|done]. intros [= <-]. apply andb_true_iff in E as [E1 E2].
  apply Z.leb_le in E1, E2. rewrite !length_app, length_fmap, length_take, length_drop. lia.
Qed.

(** Appending to what was stored so far. *)
Lemma fill_at_snoc done_ l rest :
  (length l ≤ length rest)%nat →
  fill_at ((Some <$> done_) ++ rest) (Z.of_nat (length done_)) l = Ok ((Some <$> done_ ++ l) ++ drop (length l) rest).
Proof.
  intros Hl. unfold fill_at. rewrite length_app, length_fmap, Nat2Z.id.
  rewrite (proj2 (Z.leb_le 0 _)), (proj2 (Z.leb_le _ _)) by lia. cbn [andb].
  rewrite take_app_length' by (by rewrite length_fmap). rewrite fmap_app, <- app_assoc.
  rewrite drop_app_ge by (rewrite length_fmap; lia). do 4 f_equal. f_equal. rewrite length_fmap. lia.
Qed.

Lemma slice_some l off n :
  0 ≤ off → 0 ≤ n → off + n ≤ Z.of_nat (length l) →
  slice (Some <$> l) off n = Ok (take (Z.to_nat n) (drop (Z.to_nat off) l)).
Proof.
  intros H1 H2 H3. unfold slice. rewrite length_fmap.
  rewrite (proj2 (Z.leb_le 0 _)), (proj2 (Z.leb_le 0 _)), (proj2 (Z.leb_le _ _)) by lia. cbn [andb].
  by rewrite <- fmap_drop, <- fmap_take, values_some.
Qed.

Lemma slice_app l rest off n :
  0 ≤ off → 0 ≤ n → off + n ≤ Z.of_nat (length l) →
  slice ((Some <$> l) ++ rest) off n = Ok (take (Z.to_nat n) (drop (Z.to_nat off) l)).
Proof.
  intros H1 H2 H3. unfold slice. rewrite length_app, length_fmap.
  rewrite (proj2 (Z.leb_le 0 _)), (proj2 (Z.leb_le 0 _)), (proj2 (Z.leb_le _ _)) by lia. cbn [andb].
  rewrite drop_app_le by (rewrite length_fmap; lia). rewrite take_app_le by (rewrite length_drop, length_fmap; lia).
  by rewrite <- fmap_drop, <- fmap_take, values_some.
Qed.

(** Text without a NUL, and what follows it. *)
Lemma cell_chars_app l rest :
  nonul l → cell_chars ((Some <$> l) ++ rest) = (m ← cell_chars rest; mret (l ++ m)).
Proof.
  induction l as [|c l IH]; intros H; cbn; [by destruct (cell_chars rest)|].
  inversion H; subst. destruct (Z.eqb_spec c 0); [done|]. rewrite IH by done. by destruct (cell_chars rest).
Qed.

(** The next cell. *)
Lemma store_next_cell got rest c :
  (0 < length rest)%nat →
  store_init ((Some <$> got) ++ rest) (Z.of_nat (length got)) c = Ok ((Some <$> got ++ [c]) ++ drop 1 rest).
Proof.
  intros Hr. unfold store_init, store. rewrite length_app, length_fmap.
  rewrite (proj2 (Z.leb_le 0 _)), (proj2 (Z.ltb_lt _ _)) by lia. cbn [andb]. rewrite Nat2Z.id.
  destruct rest as [|x rest]; [cbn in Hr; lia|]. rewrite <- (length_fmap Some got) at 1. rewrite insert_app_r_alt by lia.
  rewrite Nat.sub_diag. cbn. by rewrite fmap_app, <- app_assoc.
Qed.

(** At the start of a block. *)
Lemma fill_at_0 buf l :
  (length l ≤ length buf)%nat → fill_at buf 0 l = Ok ((Some <$> l) ++ drop (length l) buf).
Proof. intros Hl. exact (fill_at_snoc [] l buf Hl). Qed.

Lemma fill_at_oob buf l : (length buf < length l)%nat → fill_at buf 0 l = Err OutOfBounds.
Proof. intros Hl. unfold fill_at. by rewrite (proj2 (Z.leb_gt (0 + _) _)) by lia. Qed.

Lemma cell_chars_str l rest : nonul l → cell_chars ((Some <$> l ++ [0]) ++ rest) = Ok l.
Proof. intros H. rewrite fmap_app, <- app_assoc, cell_chars_app by done. cbn. by rewrite app_nil_r. Qed.
