(* ===== verification/HttpServer.v ===== *)
(** The HTTP server and client of [src/cpp/http]: [dispatcher.c], [server.c],
    [http.c], [peer.c], [client.c] and the driver of [test.c].

    The operating system is an argument: the text that [asctime] produces, the
    results of [socket], [bind], [connect] and [accept], and the chunks that
    [recv] delivers (after the last one the stream has ended, and [recv]
    returns 0).  The log lines that the functions print carry a time stamp and
    are not part of the results, but the strings they print are read. *)
From S2P Require Import Prelude CString HttpUtil DtParser Posix.

Definition CRLF : list Z := [13; 10].
Definition zeros (n : nat) : list Z := replicate n 0.

(** ** dispatcher.c *)

(** What [respbd] points to when it is used. *)
Inductive respbd :=
| Uninit                    (* no branch assigned it *)
| OutOfScope                (* an array whose block has ended *)
| Text (l : list Z).        (* a live string *)

Definition use_respbd (b : respbd) : res (list Z) :=
  match b with
  | Uninit => Err Uninitialised
  | OutOfScope => Err DanglingPointer
  | Text l => c_chars l
  end.

(** [strncmp(s, p, strlen(p)) == 0] for a literal [p]. *)
Definition starts (s p : list Z) : res bool :=
  d ← strncmp s (p ++ [0]) (length p); mret (d =? 0).

Definition status200 : list Z := js "{'status':200}".

(** The text that the GET branch formats into its [tmp]. *)
Definition get_text (uri time : list Z) : list Z :=
  js "{'uri':'" ++ uri ++ js "','timestamp':'" ++ time ++ js "','status':200}".

Definition http_response (l : list Z) : list Z :=
  codes "HTTP/1.1 200 OK" ++ CRLF ++ codes "Content-Length: " ++ dec_chars (Z.of_nat (length l)) ++
  CRLF ++ CRLF ++ l.

(** The result is the parser's buffers, [resp] and the returned length. *)
Definition dispatch (asc : list Z) (d : Dt) (req resp : list Z) : res (Dt * list Z * Z) :=
  l0 ← getln req (zeros 100) 100 0;
  body ← getbody req (zeros 1024) 1024;
  method ← getmethod l0 (zeros 5) 5;
  uri ← geturi l0 (zeros 50) 50;
  time ← gettime asc;
  _ ← c_chars method;
  u ← c_chars uri;
  _ ← c_chars body;
  get ← (d ← strncmp method (lit "GET") 3; mret (d =? 0));
  '(d, bd) ← (if (get : bool) then
      tmp ← sprintf (zeros 512) (get_text u time);
      mret (d, OutOfScope)
    else
      prs ← starts uri (codes "/prs/dt");
      if (prs : bool) then '(d, j) ← parsedt d body; mret (d, Text j)
      else
        up ← starts uri (codes "/up/dt");
        if (up : bool) then mret (d, OutOfScope)
        else
          dn ← (x ← strncmp uri (lit "/dn/dt") (length (codes "/up/dt")); mret (x =? 0));
          if (dn : bool) then mret (d, Uninit) else mret (d, Text (status200 ++ [0])));
  l ← use_respbd bd;
  resp ← sprintf resp (http_response l);
  n ← c_strlen resp;
  mret (d, resp, n).

(** ** server.c *)

(** [rcvdata]: [data] is what [read] delivered, the result what [write] sends. *)
Definition rcvdata (asc : list Z) (d : Dt) (data : list Z) : res (Dt * list Z) :=
  let buf := zbuf 1024 (take 1024 data) in
  _ ← c_chars buf;
  '(d, resp, _) ← dispatch asc d buf (zeros 1024);
  l ← c_chars resp;
  mret (d, l).

(** [getresponse], for the text [msg] of the macro [_MSG_]. *)
Definition getresponse (msg buf resp : list Z) : res (list Z) :=
  l0 ← getln buf (zeros 100) 100 0;
  body ← getln buf (zeros 1024) 1024 2;
  method ← getmethod l0 (zeros 5) 5;
  uri ← geturi l0 (zeros 50) 50;
  _ ← c_chars method;
  _ ← c_chars uri;
  same ← starts uri (codes "/prs/dt");
  if negb same then strcat resp (lit "prsdt") else strcat resp (msg ++ [0]).

(** What [accept] returns: a descriptor, or the error number. *)
Inductive accepted := AccFd (fd : Z) | AccErr (errno : Z).

(** The accept loop: [None] while the server runs, the result of [startsrv]
    once it returns, and the descriptors handed to threads. *)
Fixpoint accept_loop (acc : list accepted) : option Z * list Z :=
  match acc with
  | [] => (None, [])
  | AccFd fd :: acc => let '(r, fds) := accept_loop acc in (r, fd :: fds)
  | AccErr e :: acc => if (e =? ECONNABORTED) || (e =? EINTR) then accept_loop acc else (Some (-1), [])
  end.

Definition startsrv (sfd bind_res : Z) (acc : list accepted) : option Z * list Z :=
  if sfd <? 0 then (Some (-1), [])
  else if bind_res <? 0 then (Some (-1), [])
  else accept_loop acc.

(** Where [startsrv] is: before [accept], after one that gave a descriptor,
    after one that failed, whose error number decides, or at its end. *)
Inductive srv_at := Accepting | Accepted | Failed (errno : Z) | Returned (r : Z) | Faulted (e : fault).

(** The threads: [startsrv] stores whatever [accept] returns in [cfd] and passes
    its address to a new thread, which reads it at some later time.  [cfd] is a
    variable of the loop's block, which has the same place in every turn. *)
Record Srv := mkSrv {
  srv_pc : srv_at;
  cfd : option Z;           (* the variable, before and after the first [accept] *)
  stored : list Z;          (* all that [accept] has stored in it *)
  starting : nat;           (* threads that have not read it yet *)
  serving : list Z          (* the descriptors that threads read *)
}.

Definition srv_init : Srv := mkSrv Accepting None [] 0 [].

(** [accept] stores -1 before its failure is tested. When [pthread_create] fails
    there is no thread, and [pthread_detach] is given the variable that it should
    have set. A thread that reads after [startsrv] has returned reads a variable
    that is no more. *)
Inductive srv_step : Srv → Srv → Prop :=
| accept_ok c st n ss fd : 0 ≤ fd →
    srv_step (mkSrv Accepting c st n ss) (mkSrv Accepted (Some fd) (st ++ [fd]) n ss)
| accept_error c st n ss e :
    srv_step (mkSrv Accepting c st n ss) (mkSrv (Failed e) (Some (-1)) (st ++ [-1]) n ss)
| accept_again e c st n ss : (e =? ECONNABORTED) || (e =? EINTR) = true →
    srv_step (mkSrv (Failed e) c st n ss) (mkSrv Accepting c st n ss)
| accept_close e c st n ss : (e =? ECONNABORTED) || (e =? EINTR) = false →
    srv_step (mkSrv (Failed e) c st n ss) (mkSrv (Returned (-1)) c st n ss)
| create_thread c st n ss :
    srv_step (mkSrv Accepted c st n ss) (mkSrv Accepting c st (S n) ss)
| create_error c st n ss :
    srv_step (mkSrv Accepted c st n ss) (mkSrv (Faulted Uninitialised) c st n ss)
| read_cfd pc fd st n ss : match pc with Accepting | Accepted | Failed _ => True | _ => False end →
    srv_step (mkSrv pc (Some fd) st (S n) ss) (mkSrv pc (Some fd) st n (ss ++ [fd]))
| read_late r c st n ss :
    srv_step (mkSrv (Returned r) c st (S n) ss) (mkSrv (Faulted DanglingPointer) c st n ss).

(** ** peer.c *)

(** [while (1)] around [recv]: [n] bytes so far.  A chunk is the return value
    and the bytes delivered. *)
Fixpoint recv_loop (chunks : list (Z * list Z)) (resp : list Z) (n : Z) : res (list Z * Z) :=
  let '(m, data, rest) :=
    match chunks with [] => (0, [], []) | (m, data) :: rest => (m, data, rest) end in
  let buf := zbuf 256 data in
  n ← chk_int (n + m);
  resp ← strncat resp buf (if m <? 0 then wrap_u64 m else m);
  if negb (m =? 256) then mret (resp, n)
  else match chunks with [] => Err OutOfFuel | _ :: rest => recv_loop rest resp n end.

(** The result is the returned number, [resp] and the bytes written. *)
Definition writemsg (connect_ret : Z) (chunks : list (Z * list Z)) (req resp : list Z)
  : res (Z * list Z * list Z) :=
  if connect_ret <? 0 then mret (1, resp, [])
  else
    sent ← c_chars req;
    '(resp, n) ← recv_loop chunks resp 0;
    resp ← store resp n 0;
    mret (n, resp, sent).

(** ** http.c *)

Definition req_header (ip : list Z) (port : Z) (method path : list Z) : list Z :=
  method ++ [32] ++ path ++ codes " HTTP/1.1" ++ CRLF ++
  codes "Host: " ++ ip ++ [58] ++ dec_chars port ++ CRLF ++
  codes "Content-Type: application/json" ++ CRLF.

Definition req_debug (ip : list Z) (port : Z) (method path body : list Z) : list Z :=
  codes "curl -X" ++ method ++ codes " --noproxy '*' 'http://" ++ ip ++ [58] ++ dec_chars port ++ path ++
  codes "' -H 'Content-Type: application/json;charset=UTF-8' -d'" ++ body ++ codes "'".

(** The request text that [req] sends. *)
Definition req_text (get : bool) (header body : list Z) : list Z :=
  if get then header ++ codes "Content-Length:0" ++ CRLF ++ CRLF
  else header ++ codes "Content-Length:" ++ dec_chars (Z.of_nat (length body)) ++ CRLF ++ CRLF ++ body.

(** The result is [resp] and the bytes sent. *)
Definition req (connect_ret : Z) (chunks : list (Z * list Z)) (ip : list Z) (port : Z)
    (method path body resp : list Z) (n bodyline : Z) : res (list Z * list Z) :=
  i ← c_chars ip; m ← c_chars method; p ← c_chars path; b ← c_chars body;
  debug ← sprintf (zeros 1024) (req_debug i port m p b);
  header ← sprintf (zeros 512) (req_header i port m p);
  h ← c_chars header;
  g ← strncmp method (lit "GET") 3;
  request ← sprintf (zeros 1024) (req_text (g =? 0) h b);
  _ ← c_chars debug;
  '(_, raw_resp, sent) ← writemsg connect_ret chunks request (zeros 4096);
  raw_body ← getbody raw_resp (zeros 4096) 4096;
  resp ← getln raw_body resp n bodyline;
  mret (resp, sent).

(** [decdt]: the request it sends to the decoder; the limit is the size of the
    pointer [resp]. *)
Definition decdt (connect_ret : Z) (chunks : list (Z * list Z)) (resp : list Z) : res (list Z * list Z) :=
  bd ← sprintf (zeros 1024)
    (js "{'data':'123','transId':'T20211212091414-123','deviceId':'" ++ [] ++ js "','timestamp':1635756025000}");
  '(resp, sent) ← req connect_ret chunks (lit "11.10.36.1") 19061 (lit "POST")
    (lit "/industry/api/upMsgProcess") bd resp 8 2;
  _ ← c_chars resp;
  mret (resp, sent).

(** [clientreq] of client.c: the body it prints and the bytes it sent. *)
Definition clientreq (connect_ret : Z) (chunks : list (Z * list Z)) : res (list Z * list Z) :=
  '(resp, sent) ← req connect_ret chunks (lit "127.0.0.1") 8083 (lit "POST") (lit "/") (lit "123")
    (zeros 8096) 8096 0;
  l ← c_chars resp;
  mret (l, sent).
