(* ===== verification/HttpServerSpec.v ===== *)
(** The HTTP server and client: what [dispatch] does with every request, the
    agreement of the client's request text with the server's scanners, the
    reading of a response, and the descriptor that the threads share. *)
From stdpp Require Import relations.
From S2P Require Import Prelude CString HttpUtil HttpUtilSpec DtParser HttpServer.

(** ** The scanners on cleared buffers *)

Definition line0 (l : list Z) : list Z := line_of 0 l.
Definition req_method (l : list Z) : list Z := method_of (line0 l).
Definition req_uri (l : list Z) : list Z := uri_of (line0 l).

Lemma put_take w cap :
  put_str (take cap w) (zbuf cap []) = if (length w <? cap)%nat then Ok (zbuf cap w) else Err OutOfBounds.
Proof.
  rewrite put_str_zbuf, length_take.
  destruct (Nat.ltb_spec (cap `min` length w) cap), (Nat.ltb_spec (length w) cap); try lia; [|done].
  by rewrite firstn_all2 by lia.
Qed.

Lemma zeros_zbuf n : zeros n = zbuf n [].
Proof. unfold zeros, zbuf. cbn. by rewrite Nat.sub_0_r. Qed.

Lemma nonul_upto stop l : nonul l → nonul (upto stop l).
Proof.
  induction 1 as [|c l Hc _ IH]; cbn; [constructor|]. destruct (stop c); [constructor|]. by constructor.
Qed.

Lemma nonul_after stop l : nonul l → nonul (after stop l).
Proof. induction 1 as [|c l Hc Hl IH]; cbn; [constructor|]. by destruct (stop c). Qed.

Lemma nonul_body l : nonul l → nonul (body_of l).
Proof.
  induction l as [|c l IH]; [done|]. intros H. inversion H as [|? ? _ Hl]; subst.
  destruct l as [|a [|b [|e q]]]; try constructor. specialize (IH Hl).
  cbn [body_of]. destruct (_ && _); [|exact IH].
  inversion Hl as [|? ? _ Hl']; subst. inversion Hl' as [|? ? _ Hl2]; subst. by inversion Hl2.
Qed.

Definition fits (l : list Z) : bool :=
  (length (line0 l) <? 100)%nat && (length (body_of l) <? 1024)%nat &&
  (length (req_method l) <? 5)%nat && (length (req_uri l) <? 50)%nat.

Lemma scan_request {A} (l r : list Z) (k : list Z → list Z → list Z → list Z → res A) :
  nonul l →
  (l0 ← getln (l ++ 0 :: r) (zeros 100) 100 0;
   body ← getbody (l ++ 0 :: r) (zeros 1024) 1024;
   method ← getmethod l0 (zeros 5) 5;
   uri ← geturi l0 (zeros 50) 50;
   k l0 body method uri) =
  if fits l then k (zbuf 100 (line0 l)) (zbuf 1024 (body_of l)) (zbuf 5 (req_method l)) (zbuf 50 (req_uri l))
  else Err OutOfBounds.
Proof.
  intros Hl. rewrite !zeros_zbuf. unfold fits.
  assert (Nl : nonul (line0 l)) by (by apply nonul_upto).
  rewrite getln_spec by (done || lia). change (Z.to_nat 100) with 100%nat. change (line_of (Z.to_nat 0) l) with (line0 l).
  rewrite put_take. destruct (Nat.ltb_spec (length (line0 l)) 100) as [H1|]; [rewrite bind_ok|done].
  rewrite getbody_spec by (done || lia). change (Z.to_nat 1024) with 1024%nat. rewrite put_take.
  destruct (Nat.ltb_spec (length (body_of l)) 1024) as [H2|]; [rewrite bind_ok|done].
  rewrite (zbuf_cons 100 (line0 l)) by done.
  rewrite getmethod_spec by (done || lia). change (Z.to_nat 5) with 5%nat. rewrite put_take.
  fold (req_method l). destruct (Nat.ltb_spec (length (req_method l)) 5) as [H3|]; [rewrite bind_ok|done].
  rewrite geturi_spec by (done || lia). change (Z.to_nat 50) with 50%nat. rewrite put_take.
  fold (req_uri l). destruct (Nat.ltb_spec (length (req_uri l)) 50) as [H4|]; [|done].
  by rewrite bind_ok.
Qed.

Lemma starts_prefix cap u p :
  nonul u → nonul p → (length u < cap)%nat → starts (zbuf cap u) p = Ok (bool_decide (p `prefix_of` u)).
Proof.
  intros Hu Hp Hc. unfold starts. rewrite zbuf_cons by done.
  destruct (strncmp_prefix p u (replicate (cap - length u - 1) 0) [] Hp Hu) as (d & -> & Hd). rewrite bind_ok.
  unfold mret, res_ret. f_equal.
  case_bool_decide; [by apply Z.eqb_eq, Hd|]. apply Z.eqb_neq. tauto.
Qed.

(** ** [dispatch] *)

Definition respond (d : Dt) (t : list Z) : res (Dt * list Z * Z) :=
  resp ← sprintf (zeros 1024) (http_response t);
  n ← c_strlen resp;
  mret (d, resp, n).

Definition route (d : Dt) (l : list Z) : res (Dt * list Z * Z) :=
  if bool_decide (codes "GET" `prefix_of` req_method l) then Err DanglingPointer
  else if bool_decide (codes "/prs/dt" `prefix_of` req_uri l) then
    '(d, j) ← parsedt d (zbuf 1024 (body_of l)); t ← c_chars j; respond d t
  else if bool_decide (codes "/up/dt" `prefix_of` req_uri l) then Err DanglingPointer
  else if bool_decide (codes "/dn/dt" `prefix_of` req_uri l) then Err Uninitialised
  else respond d status200.

Lemma dispatch_spec (asc time : list Z) d (l r : list Z) :
  nonul l → gettime asc = Ok time → (length time < 400)%nat →
  dispatch asc d (l ++ 0 :: r) (zeros 1024) = if fits l then route d l else Err OutOfBounds.
Proof.
  intros Hl Ht Lt. unfold dispatch. rewrite scan_request by done. destruct (fits l) eqn:Ef; [|done].
  unfold fits in Ef. rewrite !andb_true_iff, !Nat.ltb_lt in Ef. destruct Ef as [[[H1 H2] H3] H4].
  assert (Nl : nonul (line0 l)) by (by apply nonul_upto).
  assert (Nm : nonul (req_method l)) by (by apply nonul_upto).
  assert (Nu : nonul (req_uri l)) by (by apply nonul_upto, nonul_after).
  assert (Nb : nonul (body_of l)) by (by apply nonul_body).
  rewrite Ht, bind_ok. rewrite !c_chars_zbuf, !bind_ok by done. unfold route.
  change (d0 ← strncmp (zbuf 5 (req_method l)) (lit "GET") 3; mret (d0 =? 0))
    with (starts (zbuf 5 (req_method l)) (codes "GET")).
  rewrite (starts_prefix 5 (req_method l) (codes "GET")), bind_ok by (done || nonul).
  destruct (bool_decide (codes "GET" `prefix_of` req_method l)).
  { rewrite (zeros_zbuf 512), sprintf_zbuf.
    destruct (Nat.ltb_spec (length (get_text (req_uri l) time)) 512) as [_|Hge]; [by rewrite !bind_ok|].
    exfalso. revert Hge. unfold get_text. rewrite !length_app.
    change (length (js "{'uri':'")) with 8%nat. change (length (js "','timestamp':'")) with 15%nat.
    change (length (js "','status':200}")) with 15%nat. lia. }
  rewrite (starts_prefix 50 (req_uri l) (codes "/prs/dt")), bind_ok by (done || nonul).
  destruct (bool_decide (codes "/prs/dt" `prefix_of` req_uri l)).
  { destruct (parsedt d (zbuf 1024 (body_of l))) as [[d' j]|]; [|done]. by rewrite !bind_ok. }
  rewrite (starts_prefix 50 (req_uri l) (codes "/up/dt")), bind_ok by (done || nonul).
  destruct (bool_decide (codes "/up/dt" `prefix_of` req_uri l)); [done|].
  change (x ← strncmp (zbuf 50 (req_uri l)) (lit "/dn/dt") (length (codes "/up/dt")); mret (x =? 0))
    with (starts (zbuf 50 (req_uri l)) (codes "/dn/dt")).
  rewrite (starts_prefix 50 (req_uri l) (codes "/dn/dt")), bind_ok by (done || nonul).
  destruct (bool_decide (codes "/dn/dt" `prefix_of` req_uri l)); [done|].
  rewrite bind_ok. unfold use_respbd. rewrite (c_chars_app status200 []) by nonul. done.
Qed.

(** ** Messages as lines *)

Definition no_eol (l : list Z) : Prop := Forall (λ c, c ≠ 13 ∧ c ≠ 10) l.

#[export] Instance no_eol_dec l : Decision (no_eol l).
Proof. unfold no_eol. apply _. Defined.

Lemma no_eol_app l m : no_eol (l ++ m) ↔ no_eol l ∧ no_eol m.
Proof. apply Forall_app. Qed.

Ltac no_eol_lit := refine (bool_decide_eq_true_1 _ _); vm_compute; reflexivity.

Lemma body_skip c l : c ≠ 13 → body_of (c :: l) = body_of l.
Proof.
  intros Hc. apply Z.eqb_neq in Hc. destruct l as [|a [|b [|e q]]]; try done.
  cbn [body_of]. by rewrite Hc.
Qed.

Lemma body_line w x l : no_eol w → x ≠ 13 → body_of (w ++ CRLF ++ x :: l) = body_of (x :: l).
Proof.
  intros Hw Hx. induction Hw as [|c w [Hc _] _ IH].
  - cbn [app]. transitivity (body_of (10 :: x :: l)); [|by apply body_skip].
    apply Z.eqb_neq in Hx. destruct l as [|e q]; cbn [CRLF app body_of]; [done|]. by rewrite Hx.
  - cbn [app]. by rewrite body_skip.
Qed.

Lemma body_end w b : no_eol w → body_of (w ++ CRLF ++ CRLF ++ b) = b.
Proof. induction 1 as [|c w [Hc _] _ IH]; [done|]. cbn [app]. by rewrite body_skip. Qed.

Lemma line0_crlf w l : no_eol w → line0 (w ++ CRLF ++ l) = w.
Proof.
  unfold line0. cbn [line_of]. induction 1 as [|c w [H13 H10] _ IH]; [done|]. cbn [app upto].
  unfold is_eol at 1. apply Z.eqb_neq in H13, H10. rewrite H13, H10. cbn. f_equal. exact IH.
Qed.

Lemma dec_chars_clean z : 0 ≤ z → no_eol (dec_chars z) ∧ nonul (dec_chars z).
Proof.
  intros Hz. unfold dec_chars. destruct (Z.ltb_spec z 0); [lia|]. pose proof (dec_digits_range 20 z Hz) as H1.
  split; (eapply Forall_impl; [exact H1|]); cbn; lia.
Qed.

(** A word without blank, NUL or line end. *)
Definition clean (l : list Z) : Prop := Forall (λ c, c ≠ 13 ∧ c ≠ 10 ∧ c ≠ 32 ∧ c ≠ 0) l.

#[export] Instance clean_dec l : Decision (clean l).
Proof. unfold clean. apply _. Defined.

Lemma clean_no_eol l : clean l → no_eol l.
Proof. intros H. eapply Forall_impl; [exact H|]. cbn. tauto. Qed.

Lemma clean_nonul l : clean l → nonul l.
Proof. intros H. eapply Forall_impl; [exact H|]. cbn. tauto. Qed.

Lemma upto_clean (stop : Z → bool) w x l :
  Forall (λ c, stop c = false) w → stop x = true → upto stop (w ++ x :: l) = w ∧ after stop (w ++ x :: l) = l.
Proof.
  intros Hw Hx. induction Hw as [|c w Hc _ [IH1 IH2]]; cbn; [by rewrite Hx|].
  rewrite Hc, IH1, IH2. done.
Qed.

Lemma clean_stop w (stop : Z → bool) :
  clean w → (∀ c, c ≠ 13 → c ≠ 10 → c ≠ 32 → stop c = false) → Forall (λ c, stop c = false) w.
Proof. intros Hw Hs. eapply Forall_impl; [exact Hw|]. cbn. intros c (? & ? & ? & _). by apply Hs. Qed.

(** The scanners recover the parts of a request line. *)
Lemma request_line method path :
  clean method → clean path →
  let w := method ++ [32] ++ path ++ codes " HTTP/1.1" in
  no_eol w ∧ method_of w = method ∧ uri_of w = path.
Proof.
  intros Hm Hp w. split; [|split].
  - subst w. rewrite !no_eol_app. split; [by apply clean_no_eol|]. split; [no_eol_lit|].
    split; [by apply clean_no_eol|no_eol_lit].
  - apply (upto_clean method_stop method 32); [|done]. apply clean_stop; [done|].
    intros c H1 H2 H3. unfold method_stop, is_eol. apply Z.eqb_neq in H1, H2, H3. by rewrite H1, H2, H3.
  - unfold uri_of.
    assert (S : ∀ v, clean v → Forall (λ c, is_space c = false) v).
    { intros v Hv. apply clean_stop; [done|]. intros c _ _ H3. by apply Z.eqb_neq. }
    subst w. destruct (upto_clean is_space method 32 (path ++ codes " HTTP/1.1") (S _ Hm) eq_refl) as [_ E].
    change (method ++ [32] ++ path ++ codes " HTTP/1.1") with (method ++ 32 :: path ++ codes " HTTP/1.1").
    rewrite E. by destruct (upto_clean is_space path 32 (codes "HTTP/1.1") (S _ Hp) eq_refl).
Qed.

Section message.
Context (ip method path body : list Z) (port : Z).
Context (Hm : clean method) (Hp : clean path) (Hi : clean ip) (Hport : 0 ≤ port).
Let header := req_header ip port method path.

Lemma header_lines l :
  header ++ l = (method ++ [32] ++ path ++ codes " HTTP/1.1") ++ CRLF ++
    (codes "Host: " ++ ip ++ [58] ++ dec_chars port) ++ CRLF ++
    codes "Content-Type: application/json" ++ CRLF ++ l.
Proof. subst header. unfold req_header. by rewrite <- !app_assoc. Qed.

Lemma header_body x l : x ≠ 13 → body_of (header ++ x :: l) = body_of (x :: l).
Proof.
  intros Hx. rewrite header_lines. destruct (request_line method path Hm Hp) as (Hw & _).
  destruct (dec_chars_clean port Hport) as [Hd _].
  change (codes "Host: ") with (72 :: codes "ost: "). rewrite <- (app_comm_cons (codes "ost: ")).
  rewrite <- (app_comm_cons (codes "ost: " ++ ip ++ [58] ++ dec_chars port)).
  rewrite body_line by done. rewrite app_comm_cons.
  change (codes "Content-Type: application/json") with (67 :: codes "ontent-Type: application/json").
  rewrite <- (app_comm_cons (codes "ontent-Type: application/json")).
  rewrite body_line; [|rewrite !app_comm_cons, !no_eol_app|done].
  - rewrite app_comm_cons. apply body_line; [no_eol_lit|done].
  - split; [no_eol_lit|]. split; [by apply clean_no_eol|]. split; [no_eol_lit|done].
Qed.

Lemma request_parts get :
  let text := req_text get header body in
  req_method text = method ∧ req_uri text = path ∧ body_of text = if get then [] else body.
Proof.
  destruct (request_line method path Hm Hp) as (Hw & E1 & E2).
  assert (El : line0 (req_text get header body) = method ++ [32] ++ path ++ codes " HTTP/1.1").
  { unfold req_text. destruct get; rewrite header_lines; by apply line0_crlf. }
  intros text. subst text. unfold req_method, req_uri. rewrite El. split; [done|]. split; [done|].
  unfold req_text. destruct get.
  - change (codes "Content-Length:0" ++ CRLF ++ CRLF) with (67 :: codes "ontent-Length:0" ++ CRLF ++ CRLF).
    rewrite header_body by done. rewrite app_comm_cons. rewrite <- (app_nil_r CRLF) at 2.
    apply body_end. no_eol_lit.
  - destruct (dec_chars_clean (Z.of_nat (length body)) ltac:(lia)) as [Hd _].
    change (codes "Content-Length:") with (67 :: codes "ontent-Length:"). rewrite <- (app_comm_cons (codes "ontent-Length:")).
    rewrite header_body by done. rewrite app_comm_cons, app_assoc. apply body_end.
    rewrite no_eol_app. split; [no_eol_lit|done].
Qed.
End message.

Lemma response_body t : body_of (http_response t) = t.
Proof.
  unfold http_response. destruct (dec_chars_clean (Z.of_nat (length t)) ltac:(lia)) as [Hd _].
  change (codes "Content-Length: ") with (67 :: codes "ontent-Length: "). rewrite <- (app_comm_cons (codes "ontent-Length: ")).
  rewrite body_line by (done || no_eol_lit). rewrite app_comm_cons, app_assoc. apply body_end.
  rewrite no_eol_app. split; [no_eol_lit|done].
Qed.
