(* ===== verification/HttpServerProps.v ===== *)
(** Properties of the HTTP programs: the scanners, the server's answers, the
    client's exchange and the descriptor shared by the server's threads. *)
From stdpp Require Import relations.
From S2P Require Import Prelude CString Posix HttpUtil HttpUtilSpec DtParser HttpServer HttpServerSpec.

(** ** Receiving *)







Lemma nonul_header ip port method path :
  clean method → clean path → clean ip → 0 ≤ port → nonul (req_header ip port method path).
Proof.
  intros Hm Hp Hi Hport. unfold req_header. destruct (dec_chars_clean port Hport) as [_ Hd].
  pose proof (clean_nonul _ Hm). pose proof (clean_nonul _ Hp). pose proof (clean_nonul _ Hi).
  rewrite !nonul_app. repeat match goal with |- _ ∧ _ => split end; first [assumption|nonul].
Qed.


Lemma nonul_req_text g ip port method path body :
  clean method → clean path → clean ip → 0 ≤ port → nonul body →
  nonul (req_text g (req_header ip port method path) body).
Proof.
  intros Hm Hp Hi Hport Hb. pose proof (nonul_header ip port method path Hm Hp Hi Hport).
  destruct (dec_chars_clean (Z.of_nat (length body)) ltac:(lia)) as [_ Hd].
  unfold req_text. destruct g; rewrite !nonul_app;
    repeat match goal with |- _ ∧ _ => split end; first [assumption|nonul].
Qed.

(** ** Properties *)

(** C26: getmethod, geturi, getln and getbody write to the target the first n characters of the
    method, URI, numbered line and body of the string, followed by a NUL, and fault when the
    block has no room for that NUL. *)
Theorem scanners_correct l r t n k :
  nonul l → 0 < n → 0 ≤ k →
  getmethod (l ++ 0 :: r) t n = put_str (take (Z.to_nat n) (method_of l)) t ∧
  geturi (l ++ 0 :: r) t n = put_str (take (Z.to_nat n) (uri_of l)) t ∧
  getln (l ++ 0 :: r) t n k = put_str (take (Z.to_nat n) (line_of (Z.to_nat k) l)) t ∧
  getbody (l ++ 0 :: r) t n = put_str (take (Z.to_nat n) (body_of l)) t.
Proof.
  intros Hl Hn Hk. split; [apply getmethod_spec; [done|lia]|]. split; [by apply geturi_spec|].
  split; [by apply getln_spec|by apply getbody_spec].
Qed.

(** A method of four characters fits in five cells, one of six does not. *)
Lemma scanners_witness :
  getmethod (codes "POST / HTTP/1.1" ++ [0]) (zeros 5) 5 = Ok (codes "POST" ++ [0]) ∧
  getmethod (codes "DELETE / HTTP/1.1" ++ [0]) (zeros 5) 5 = Err OutOfBounds.
Proof.
  destruct (scanners_correct (codes "POST / HTTP/1.1") [] (zeros 5) 5 0) as (E1 & _); [nonul|lia|lia|].
  destruct (scanners_correct (codes "DELETE / HTTP/1.1") [] (zeros 5) 5 0) as (E2 & _); [nonul|lia|lia|].
  split; [exact E1|exact E2].
Defined.

(** On a string with the key, a colon and a quoted value, getjsonv copies the first n characters
    of the value to the target but stores the NUL at the position where it stopped in the
    source, and faults when that position is outside the target. *)
Theorem getjsonv_value pre key v post r rk t n :
  let l := pre ++ key ++ [34; 58; 34] ++ v ++ 34 :: post in
  let w := take (Z.to_nat n) v in
  let stop := Z.of_nat (length pre + length key + 3 + length w) in
  nonul l → Z.of_nat (length l) < 2 ^ 64 → Forall (λ c, c ≠ 34) v →
  (∀ i, (i < length pre)%nat → ¬ key `prefix_of` drop i l) →
  getjsonv (l ++ 0 :: r) t (key ++ 0 :: rk) n =
    if stop <? Z.of_nat (length t)
    then Ok (<[Z.to_nat stop := 0]> (w ++ drop (length w) t), []) else Err OutOfBounds.
Proof. apply getjsonv_spec. Qed.

(** The terminator goes to element 9 for a value of one character: with a
    block that holds [?] the string is [1????????]. *)
Lemma getjsonv_witness :
  getjsonv ([123; 34] ++ codes "key" ++ [34; 58; 34] ++ codes "1" ++ [34; 125; 0]) (replicate 12 63) (codes "key" ++ [0]) 12 =
    Ok ([49; 63; 63; 63; 63; 63; 63; 63; 63; 0; 63; 63], []).
Proof.
  pose proof (getjsonv_value [123; 34] (codes "key") (codes "1") [125] [] [] (replicate 12 63) 12) as H.
  apply H; [nonul|cbn; lia|in_list|].
  intros i Hi [k Hk]. destruct i as [|[|i]]; [discriminate|discriminate|cbn in Hi; lia].
Defined.

(** For every request string, dispatch faults out of bounds exactly when one of its scanned
    parts does not fit its buffer, and otherwise behaves as the routing specification:
    dangling response for GET and /up/dt, uninitialised response for /dn/dt, the parser's
    report for /prs/dt, the fixed status for every other path. *)
Theorem dispatch_routes (asc time : list Z) d (l r : list Z) :
  nonul l → gettime asc = Ok time → (length time < 400)%nat →
  dispatch asc d (l ++ 0 :: r) (zeros 1024) = if fits l then route d l else Err OutOfBounds.
Proof. apply dispatch_spec. Qed.

Definition sample_request (head : string) : list Z :=
  codes head ++ CRLF ++ codes "Host: a" ++ CRLF ++ CRLF ++ codes "123".

Lemma dispatch_witness :
  let asc := codes "Thu Nov 23 06:00:57 2023" ++ [10; 0] in
  dispatch asc dt_init (sample_request "POST / HTTP/1.1" ++ [0]) (zeros 1024) =
    Ok (dt_init, zbuf 1024 (http_response status200), 53) ∧
  dispatch asc dt_init (sample_request "GET / HTTP/1.1" ++ [0]) (zeros 1024) = Err DanglingPointer ∧
  dispatch asc dt_init (sample_request "POST /dn/dt HTTP/1.1" ++ [0]) (zeros 1024) = Err Uninitialised ∧
  dispatch asc dt_init (sample_request "DELETE / HTTP/1.1" ++ [0]) (zeros 1024) = Err OutOfBounds.
Proof.
  cbv zeta. split; [|split; [|split]].
  - rewrite (dispatch_routes _ (codes "Thu Nov 23 06:00:57 2023") dt_init (sample_request "POST / HTTP/1.1") []);
      [vm_compute; reflexivity|nonul|reflexivity|cbn; lia].
  - rewrite (dispatch_routes _ (codes "Thu Nov 23 06:00:57 2023") dt_init (sample_request "GET / HTTP/1.1") []);
      [vm_compute; reflexivity|nonul|reflexivity|cbn; lia].
  - rewrite (dispatch_routes _ (codes "Thu Nov 23 06:00:57 2023") dt_init (sample_request "POST /dn/dt HTTP/1.1") []);
      [vm_compute; reflexivity|nonul|reflexivity|cbn; lia].
  - rewrite (dispatch_routes _ (codes "Thu Nov 23 06:00:57 2023") dt_init (sample_request "DELETE / HTTP/1.1") []);
      [vm_compute; reflexivity|nonul|reflexivity|cbn; lia].
Defined.

(** C13: Method, path and ip hold no blank, CR, LF or NUL, the body no NUL, the port is not
    negative and the time text is shorter than 400 characters. When the method is shorter
    than 5 characters, the URI than 50, the request line than 100 and the body than 1024,
    dispatch understands the request text that req builds as that method, path and body: the
    outcome is the branch that the path selects, run on exactly that body (a fault for GET,
    for /up/dt and for /dn/dt). *)
Theorem request_understood ip port method path body asc time d :
  clean method → clean path → clean ip → nonul body → 0 ≤ port →
  gettime asc = Ok time → (length time < 400)%nat →
  let get := bool_decide (codes "GET" `prefix_of` method) in
  let text := req_text get (req_header ip port method path) body in
  fits text = true →
  dispatch asc d (text ++ [0]) (zeros 1024) =
    if get then Err DanglingPointer
    else if bool_decide (codes "/prs/dt" `prefix_of` path) then
      '(d, j) ← parsedt d (zbuf 1024 body); t ← c_chars j; respond d t
    else if bool_decide (codes "/up/dt" `prefix_of` path) then Err DanglingPointer
    else if bool_decide (codes "/dn/dt" `prefix_of` path) then Err Uninitialised
    else respond d status200.
Proof.
  intros Hm Hp Hi Nb Hport Ht Lt get text Hfits.
  rewrite (dispatch_spec asc time d text []), Hfits; [|by apply nonul_req_text|done|done].
  destruct (request_parts ip method path body port Hm Hp Hi Hport get) as (E1 & E2 & E3).
  fold text in E1, E2, E3. unfold route. rewrite E1, E2, E3. fold get. by case get.
Qed.

Lemma request_witness :
  dispatch (codes "Thu Nov 23 06:00:57 2023" ++ [10; 0]) dt_init
    (req_text false (req_header (codes "127.0.0.1") 8083 (codes "POST") (codes "/")) (codes "123") ++ [0]) (zeros 1024) =
  Ok (dt_init, zbuf 1024 (http_response status200), 53).
Proof.
  etransitivity; [apply (request_understood (codes "127.0.0.1") 8083 (codes "POST") (codes "/") (codes "123")
    (codes "Thu Nov 23 06:00:57 2023" ++ [10; 0]) (codes "Thu Nov 23 06:00:57 2023") dt_init)|];
    [in_list|in_list|in_list|nonul|lia|reflexivity|cbn; lia|vm_compute; reflexivity|vm_compute; reflexivity].
Defined.



(** ** The threads *)

(** The descriptors among all that [accept] stored. *)
Definition accepted_fds (s : Srv) : list Z := filter (λ fd, 0 ≤ fd) (stored s).

(** A connection whose thread is still to be made. *)
Definition pending (s : Srv) : nat := match srv_pc s with Accepted => 1 | _ => 0 end.

Definition running (s : Srv) : Prop := match srv_pc s with Faulted _ => False | _ => True end.

Record srv_inv (s : Srv) : Prop := {
  inv_stored : Forall (λ v, 0 ≤ v ∨ v = -1) (stored s);
  inv_cfd : cfd s = last (stored s);
  inv_served : Forall (.∈ stored s) (serving s);
  inv_count : running s → (length (serving s) + starting s + pending s = length (accepted_fds s))%nat;
  inv_end : ∀ r, srv_pc s = Returned r → r = -1 ∧ cfd s = Some (-1)
}.

Lemma accepted_snoc st v : filter (λ fd, 0 ≤ fd) (st ++ [v]) = filter (λ fd, 0 ≤ fd) st ++ (if decide (0 ≤ v) then [v] else []).
Proof. rewrite filter_app, filter_cons, filter_nil. by destruct (decide (0 ≤ v)). Qed.

Lemma elem_snoc (ss st : list Z) v : Forall (.∈ st) ss → Forall (.∈ st ++ [v]) ss.
Proof. intros H. eapply Forall_impl; [exact H|]. intros x Hx. apply elem_of_app. by left. Qed.

(** What holds while [startsrv] tests the error. *)
Definition failed_inv (s : Srv) : Prop := ∀ e, srv_pc s = Failed e → cfd s = Some (-1).

Lemma srv_inv_step s s' : srv_inv s ∧ failed_inv s → srv_step s s' → srv_inv s' ∧ failed_inv s'.
Proof.
  intros [[Hst Hc Hs Hn He] Hf] Hstep.
  destruct Hstep; cbn in *; unfold running, accepted_fds, pending, failed_inv in *; cbn in *; (split; [constructor|]); cbn; try done;
    rewrite ?last_snoc; try done; try (by apply elem_snoc); unfold running, accepted_fds, pending; cbn; rewrite ?accepted_snoc; try done.
  - apply Forall_app; split; [done|]. constructor; [by left|done].
  - intros _. rewrite decide_True, length_app, <- Hn by done. cbn. lia.
  - apply Forall_app; split; [done|]. constructor; [by right|done].
  - intros _. rewrite decide_False, app_nil_r, <- Hn by (done || lia). lia.
  - intros q [= <-]. split; [done|]. by apply (Hf e).
  - intros _. specialize (Hn I). lia.
  - apply Forall_app; split; [done|]. constructor; [|done]. symmetry in Hc. by apply last_Some_elem_of in Hc.
  - rewrite length_app. cbn. destruct pc; try done; intros _; specialize (Hn I); lia.
Qed.

Lemma reached_inv (P : Srv → Prop) (R : Srv → Srv → Prop) s :
  P srv_init → (∀ s s', P s → R s s' → P s') → rtc R srv_init s → P s.
Proof.
  intros H0 Hstep H. revert H0. generalize srv_init, H. clear H. intros s0 H. induction H as [|x y z Hxy _ IH]; [done|].
  intros Hx. apply IH. by eapply Hstep.
Qed.

(** One connection at a time: nothing is stored while a thread is starting. *)
Definition seq_step (s s' : Srv) : Prop := srv_step s s' ∧ (stored s' ≠ stored s → starting s = O).

(** What the threads are still to read. *)
Definition seq_inv (s : Srv) : Prop :=
  running s → ∃ rest, accepted_fds s = serving s ++ rest ∧ length rest = (starting s + pending s)%nat ∧
    (length rest ≤ 1)%nat ∧ (rest ≠ [] → cfd s = last rest).

Lemma seq_inv_step s s' : seq_inv s → seq_step s s' → seq_inv s'.
Proof.
  intros Hi [Hstep Hseq]. assert (Hsnoc : ∀ (st : list Z) v, st ++ [v] ≠ st) by (intros st v E%(f_equal length); rewrite length_app in E; cbn in E; lia).
  destruct Hstep; cbn in *; unfold seq_inv, running, accepted_fds, pending in *; cbn in *; try done;
    destruct (Hi ltac:(by try destruct pc)) as (rest & E & L & L1 & C); intros _; rewrite ?accepted_snoc.
  - specialize (Hseq (Hsnoc _ _)). subst n. destruct rest; [|done]. exists [fd]. rewrite decide_True, E, app_nil_r by done. done.
  - specialize (Hseq (Hsnoc _ _)). subst n. destruct rest; [|done]. exists []. rewrite decide_False, E by lia. split_and!; (done || lia || by rewrite app_nil_r).
  - exists rest. split_and!; (done || lia).
  - destruct rest as [|x [|]]; cbn in L, L1; [lia| |lia]. specialize (C ltac:(done)). cbn in C. injection C as ->.
    exists []. rewrite E. split_and!; [by rewrite app_nil_r|cbn; lia|cbn; lia|done].
Qed.

(** The results of [accept] as steps of [startsrv], each thread reading at once. *)
Lemma accept_loop_steps acc : ∀ c st ss,
  Forall (λ a, match a with AccFd fd => 0 ≤ fd | _ => True end) acc →
  ∃ c' st', rtc seq_step (mkSrv Accepting c st 0 ss)
      (mkSrv (match (accept_loop acc).1 with Some r => Returned r | None => Accepting end) c' st' 0 (ss ++ (accept_loop acc).2)).
Proof.
  induction acc as [|a acc IH]; intros c st ss Ha; cbn.
  - exists c, st. rewrite app_nil_r. apply rtc_refl.
  - apply Forall_cons_1 in Ha as [H1 Ha]. destruct a as [fd|e].
    + destruct (IH (Some fd) (st ++ [fd]) (ss ++ [fd]) Ha) as (c' & st' & H). destruct (accept_loop acc) as [r fds]. cbn in *.
      exists c', st'. rewrite <- app_assoc in H.
      apply (rtc_l _ _ (mkSrv Accepted (Some fd) (st ++ [fd]) 0 ss)); [split; [by apply accept_ok|done]|].
      apply (rtc_l _ _ (mkSrv Accepting (Some fd) (st ++ [fd]) 1 ss)); [split; [apply create_thread|done]|].
      apply (rtc_l _ _ (mkSrv Accepting (Some fd) (st ++ [fd]) 0 (ss ++ [fd]))); [split; [by apply read_cfd|done]|exact H].
    + destruct (_ || _) eqn:Ee; cbn.
      * destruct (IH (Some (-1)) (st ++ [-1]) ss Ha) as (c' & st' & H). exists c', st'.
        apply (rtc_l _ _ (mkSrv (Failed e) (Some (-1)) (st ++ [-1]) 0 ss)); [split; [apply accept_error|done]|].
        eapply rtc_l; [split; [by apply accept_again|done]|exact H].
      * exists (Some (-1)), (st ++ [-1]). rewrite app_nil_r.
        apply (rtc_l _ _ (mkSrv (Failed e) (Some (-1)) (st ++ [-1]) 0 ss)); [split; [apply accept_error|done]|].
        eapply rtc_l; [split; [by apply accept_close|done]|apply rtc_refl].
Qed.

(** C27: In every reachable state of the server and its threads the shared variable holds what
    accept stored last, which is a descriptor or the -1 of a failed accept, and every value
    that a thread serves was stored there, so that it may be -1; unless a fault has occurred
    (pthread_create failed, or a thread read the variable after startsrv returned) the
    threads that serve, those that are starting and a connection whose thread is still to be
    made are together as many as the accepted connections; startsrv only returns -1, with -1
    in the variable. When accept stores nothing while a thread is starting, the threads
    serve the accepted descriptors, each once and in order, and the outcome and the
    descriptors that accept_loop computes from the results of accept are those of such a
    run. *)
Theorem threads_invariant s :
  (rtc srv_step srv_init s →
    Forall (λ v, 0 ≤ v ∨ v = -1) (stored s) ∧ cfd s = last (stored s) ∧ Forall (.∈ stored s) (serving s) ∧
    (running s → length (serving s) + starting s + pending s = length (accepted_fds s))%nat ∧
    (∀ r, srv_pc s = Returned r → r = -1 ∧ cfd s = Some (-1))) ∧
  (rtc seq_step srv_init s → running s →
    ∃ rest, accepted_fds s = serving s ++ rest ∧ length rest = (starting s + pending s)%nat) ∧
  (∀ acc, Forall (λ a, match a with AccFd fd => 0 ≤ fd | _ => True end) acc →
    ∃ c st, rtc seq_step srv_init
      (mkSrv (match (accept_loop acc).1 with Some r => Returned r | None => Accepting end) c st 0 (accept_loop acc).2)).
Proof.
  split; [|split; [|intros acc; apply (accept_loop_steps acc None [] [])]]; intros H.
  - destruct (reached_inv (λ s, srv_inv s ∧ failed_inv s) srv_step s) as [[] _]; [|exact srv_inv_step|done|done].
    split; [|intros e He; discriminate He]. constructor; cbn; try done.
  - intros Hr. destruct (reached_inv seq_inv seq_step s) as (rest & E & L & _); [|exact seq_inv_step|done|done|by exists rest].
    intros _. exists []. split_and!; cbn; (done || lia).
Qed.

Lemma threads_witness :
  let s := mkSrv (Failed EINTR) (Some (-1)) [5; -1] 0 [-1] in
  let q := mkSrv Accepting (Some 5) [5] 1 [] in
  (cfd s = last (stored s) ∧ Forall (.∈ stored s) (serving s)) ∧
  ∃ rest, accepted_fds q = serving q ++ rest ∧ length rest = (starting q + pending q)%nat.
Proof.
  intros s q. split.
  - destruct (proj1 (threads_invariant s)) as (_ & Hc & Hs & _); [|done].
    apply (rtc_l _ _ (mkSrv Accepted (Some 5) [5] 0 [])); [by apply (accept_ok None [])|].
    apply (rtc_l _ _ (mkSrv Accepting (Some 5) [5] 1 [])); [apply create_thread|].
    apply (rtc_l _ _ (mkSrv (Failed EINTR) (Some (-1)) [5; -1] 1 [])); [apply (accept_error _ [5])|].
    apply (rtc_l _ _ s); [by apply (read_cfd (Failed EINTR) (-1) _ 0 [])|apply rtc_refl].
  - apply (proj1 (proj2 (threads_invariant q))); [|done].
    apply (rtc_l _ _ (mkSrv Accepted (Some 5) [5] 0 [])); [split; [by apply (accept_ok None [])|done]|].
    apply (rtc_l _ _ q); [split; [apply create_thread|done]|apply rtc_refl].
Defined.

(** Two connections may both be served through the second one's descriptor, a
    thread may be given -1, and one that starts after [startsrv] has returned
    reads what is no more, because the threads read the shared variable late. *)
Lemma threads_race a b : 0 ≤ a → 0 ≤ b →
  (∃ s, rtc srv_step srv_init s ∧ running s ∧ stored s = [a; b] ∧ serving s = [b; b]) ∧
  (∃ s, rtc srv_step srv_init s ∧ running s ∧ stored s = [a; -1] ∧ serving s = [-1]) ∧
  (∃ s, rtc srv_step srv_init s ∧ stored s = [a; -1] ∧ srv_pc s = Faulted DanglingPointer).
Proof.
  intros Ha Hb.
  assert (H1 : rtc srv_step srv_init (mkSrv Accepting (Some a) [a] 1 [])).
  { eapply rtc_l; [exact (accept_ok None [] 0 [] a Ha)|]. eapply rtc_l; [apply create_thread|apply rtc_refl]. }
  split_and!.
  - exists (mkSrv Accepting (Some b) [a; b] 0 [b; b]). split; [|done]. etrans; [exact H1|].
    eapply rtc_l; [exact (accept_ok (Some a) [a] 1 [] b Hb)|]. eapply rtc_l; [apply create_thread|].
    eapply rtc_l; [by apply read_cfd|]. eapply rtc_l; [by apply (read_cfd _ b _ 0 [b])|apply rtc_refl].
  - exists (mkSrv (Failed EINTR) (Some (-1)) [a; -1] 0 [-1]). split; [|done]. etrans; [exact H1|].
    eapply rtc_l; [apply (accept_error _ [a])|]. eapply rtc_l; [by apply (read_cfd _ (-1) _ 0 [])|apply rtc_refl].
  - exists (mkSrv (Faulted DanglingPointer) (Some (-1)) [a; -1] 0 []). split; [|done]. etrans; [exact H1|].
    eapply rtc_l; [apply (accept_error _ [a] 1 [] 24)|]. eapply rtc_l; [by apply accept_close|].
    eapply rtc_l; [apply read_late|apply rtc_refl].
Qed.
