(* ===== verification/Crc16.v ===== *)
(** The checksum of [src/cpp/algorithm/crc16_xmodem.c], and its agreement with
    the remainder of a division of polynomials over GF(2). *)
From S2P Require Import Prelude.

(** ** The program *)

(** The body of the inner loop: [wCRCin] is an [unsigned short]. *)
Definition crc_bit (c : Z) : Z :=
  if negb (Z.land c 0x8000 =? 0) then wrap_u16 (Z.lxor (Z.shiftl c 1) 0x1021) else wrap_u16 (Z.shiftl c 1).

Fixpoint times {A} (n : nat) (f : A → A) (x : A) : A :=
  match n with O => x | S n' => times n' f (f x) end.

Definition crc_byte (c wChar : Z) : Z := times 8 crc_bit (wrap_u16 (Z.lxor c (Z.shiftl wChar 8))).

Definition CRC16_XMODEM (puchMsg : list Z) (usDataLen : Z) : res Z :=
  for_range 0 usDataLen (λ i c, wChar ← load puchMsg i; mret (crc_byte c wChar)) 0.

(** [test_CRC16_Xmode]: the value it formats with [%X]. *)
Definition test_CRC16_Xmode : res Z :=
  CRC16_XMODEM [0x98; 0x00; 0x12; 0x01; 0x00; 0x01; 0x12; 0x34; 0x56; 0x78; 0x5A; 0x26; 0x08; 0xCE; 0x23] 15.

(** ** The reference: long division by x^16 + x^12 + x^5 + 1 *)

Definition reduce (r : Z) : Z := if Z.testbit r 16 then Z.lxor r 0x11021 else r.

(** The remainder of the polynomial whose coefficients are [bits], highest
    first, [r] being the remainder so far. *)
Definition poly_mod (r : Z) (bits : list bool) : Z :=
  foldl (λ r b, reduce (2 * r + Z.b2z b)) r bits.

Definition byte_bits (b : Z) : list bool := (λ i, Z.testbit b i) <$> [7; 6; 5; 4; 3; 2; 1; 0].

(** The message times x^16. *)
Definition crc_ref (msg : list Z) : Z :=
  poly_mod 0 ((msg ≫= byte_bits) ++ replicate 16 false).

Definition crc_fold (c : Z) (msg : list Z) : Z := foldl crc_byte c msg.

(** ** Bit arithmetic on 16 bits *)

Definition u16 (z : Z) : Prop := 0 ≤ z < 2 ^ 16.
Definition byte (z : Z) : Prop := 0 ≤ z < 2 ^ 8.

Lemma u16_high z n : u16 z → 16 ≤ n → Z.testbit z n = false.
Proof.
  intros [H1 H2] Hn. destruct (decide (z = 0)) as [->|]; [apply Z.bits_0|].
  apply Z.bits_above_log2; [done|]. apply Z.log2_lt_pow2; [lia|].
  assert (2 ^ 16 ≤ 2 ^ n) by (apply Z.pow_le_mono_r; lia). lia.
Qed.

Lemma wrap_u16_spec z n : 0 ≤ n → Z.testbit (wrap_u16 z) n = (n <? 16) && Z.testbit z n.
Proof.
  intros Hn. unfold wrap_u16. destruct (Z.ltb_spec n 16).
  - by rewrite Z.mod_pow2_bits_low by lia.
  - by rewrite Z.mod_pow2_bits_high by lia.
Qed.

Lemma wrap_u16_u16 z : u16 (wrap_u16 z).
Proof. unfold u16, wrap_u16. apply Z.mod_pos_bound. lia. Qed.

Lemma wrap_u16_small z : u16 z → wrap_u16 z = z.
Proof. intros H. by apply Z.mod_small. Qed.

Lemma u16_lxor a b : u16 a → u16 b → u16 (Z.lxor a b).
Proof.
  intros Ha Hb. replace (Z.lxor a b) with (wrap_u16 (Z.lxor a b)); [apply wrap_u16_u16|].
  apply Z.bits_inj'. intros n Hn. rewrite wrap_u16_spec by done. destruct (Z.ltb_spec n 16); [done|].
  by rewrite Z.lxor_spec, !u16_high.
Qed.

Lemma land_8000 c : negb (Z.land c 0x8000 =? 0) = Z.testbit c 15.
Proof.
  destruct (Z.testbit c 15) eqn:E.
  - apply negb_true_iff, Z.eqb_neq. intros H. apply (f_equal (λ z, Z.testbit z 15)) in H.
    rewrite Z.land_spec, E in H. done.
  - apply negb_false_iff, Z.eqb_eq. apply Z.bits_inj'. intros n Hn. rewrite Z.land_spec, Z.bits_0.
    change 0x8000 with (2 ^ 15). rewrite Z.pow2_bits_eqb by lia.
    destruct (Z.eqb_spec 15 n) as [<-|]; [by rewrite E|apply andb_false_r].
Qed.

(** The step of the program as one bit equation. *)
Lemma crc_bit_spec c n :
  0 ≤ n → Z.testbit (crc_bit c) n =
    (n <? 16) && xorb (Z.testbit c (n - 1)) (Z.testbit c 15 && Z.testbit 0x1021 n).
Proof.
  intros Hn. unfold crc_bit. rewrite land_8000.
  destruct (Z.testbit c 15); rewrite wrap_u16_spec by done; destruct (n <? 16); try done; cbn [andb].
  - by rewrite Z.lxor_spec, Z.shiftl_spec by done.
  - by rewrite Z.shiftl_spec, xorb_false_r by done.
Qed.

Lemma crc_bit_u16 c : u16 (crc_bit c).
Proof. unfold crc_bit. destruct (negb _); apply wrap_u16_u16. Qed.

(** The step is linear and injective. *)
Lemma crc_bit_lxor a b : crc_bit (Z.lxor a b) = Z.lxor (crc_bit a) (crc_bit b).
Proof.
  apply Z.bits_inj'. intros n Hn. rewrite Z.lxor_spec, !crc_bit_spec by done. rewrite !Z.lxor_spec.
  destruct (n <? 16), (Z.testbit a (n - 1)), (Z.testbit b (n - 1)), (Z.testbit a 15), (Z.testbit b 15),
    (Z.testbit 0x1021 n); done.
Qed.

Lemma crc_bit_0 c : u16 c → crc_bit c = 0 → c = 0.
Proof.
  intros Hc H0.
  assert (B : ∀ n, 0 ≤ n → Z.testbit (crc_bit c) n = false) by (intros; by rewrite H0, Z.bits_0).
  assert (E15 : Z.testbit c 15 = false).
  { pose proof (B 0 ltac:(lia)) as H. rewrite crc_bit_spec in H by lia.
    rewrite (Z.testbit_neg_r c) in H by lia. cbn in H. by rewrite andb_true_r in H. }
  apply Z.bits_inj'. intros n Hn. rewrite Z.bits_0. destruct (decide (16 ≤ n)) as [|]; [by apply u16_high|].
  destruct (decide (n = 15)) as [->|]; [done|].
  pose proof (B (n + 1) ltac:(lia)) as H. rewrite crc_bit_spec, E15 in H by lia.
  replace (n + 1 - 1) with n in H by lia. replace (n + 1 <? 16) with true in H by (symmetry; apply Z.ltb_lt; lia).
  cbn in H. by rewrite xorb_false_r in H.
Qed.

(** ** Iterated steps *)

Lemma times_add {A} (f : A → A) m n x : times (m + n) f x = times n f (times m f x).
Proof. revert x. induction m as [|m IH]; intros x; cbn; [done|apply IH]. Qed.

Lemma times_comm {A} (f : A → A) m n x : times m f (times n f x) = times n f (times m f x).
Proof. rewrite <- !times_add. f_equal. lia. Qed.

Lemma times_u16 n c : u16 c → u16 (times n crc_bit c).
Proof. revert c. induction n as [|n IH]; intros c Hc; cbn; [done|]. apply IH, crc_bit_u16. Qed.

Lemma times_lxor n a b : times n crc_bit (Z.lxor a b) = Z.lxor (times n crc_bit a) (times n crc_bit b).
Proof. revert a b. induction n as [|n IH]; intros a b; cbn; [done|]. by rewrite crc_bit_lxor, IH. Qed.

Lemma times_zero n : times n crc_bit 0 = 0.
Proof. induction n as [|n IH]; [done|]. exact IH. Qed.

Lemma times_0 n c : u16 c → times n crc_bit c = 0 → c = 0.
Proof.
  revert c. induction n as [|n IH]; intros c Hc; cbn; [done|]. intros H.
  apply crc_bit_0; [done|]. apply IH; [apply crc_bit_u16|done].
Qed.

Lemma times_inj n a b : u16 a → u16 b → times n crc_bit a = times n crc_bit b → a = b.
Proof.
  intros Ha Hb E. apply Z.lxor_eq. apply (times_0 n); [by apply u16_lxor|].
  by rewrite times_lxor, E, Z.lxor_nilpotent.
Qed.

(** ** Long division in terms of the step *)

Lemma reduce_step r b : u16 r → reduce (2 * r + Z.b2z b) = Z.lxor (crc_bit r) (Z.b2z b).
Proof.
  intros Hr. apply Z.bits_inj'. intros n Hn. unfold reduce.
  assert (E16 : Z.testbit (2 * r + Z.b2z b) 16 = Z.testbit r 15) by (apply (Z.testbit_succ_r r b 15); lia).
  rewrite E16, Z.lxor_spec, crc_bit_spec by done.
  destruct (decide (n = 0)) as [->|Hn0].
  - assert (E0 : Z.testbit (2 * r + Z.b2z b) 0 = b) by apply Z.testbit_0_r.
    rewrite (Z.testbit_neg_r r (0 - 1)) by lia. rewrite (Z.b2z_bit0 b).
    destruct (Z.testbit r 15); rewrite ?Z.lxor_spec, E0; by destruct b.
  - assert (En : Z.testbit (2 * r + Z.b2z b) n = Z.testbit r (n - 1)).
    { replace n with (Z.succ (n - 1)) at 1 by lia. apply Z.testbit_succ_r. lia. }
    assert (Eb : Z.testbit (Z.b2z b) n = false).
    { destruct b; [|apply Z.bits_0]. change (Z.b2z true) with (2 ^ 0). by apply Z.pow2_bits_false. }
    rewrite Eb, xorb_false_r. destruct (Z.ltb_spec n 16) as [Hlt|Hge]; cbn [andb].
    + destruct (Z.testbit r 15); rewrite ?Z.lxor_spec, En; cbn [andb]; [|by rewrite xorb_false_r].
      f_equal. change 0x11021 with (Z.lxor (2 ^ 16) 0x1021). rewrite Z.lxor_spec, Z.pow2_bits_false by lia. done.
    + destruct (decide (n = 16)) as [->|].
      * change (16 - 1) with 15 in En. destruct (Z.testbit r 15) eqn:E; by rewrite ?Z.lxor_spec, En.
      * assert (Er : Z.testbit r (n - 1) = false) by (apply u16_high; [done|lia]).
        destruct (Z.testbit r 15); rewrite ?Z.lxor_spec, En, Er; [|done]. cbn.
        apply Z.bits_above_log2; [done|]. cbn. lia.
Qed.

Lemma b2z_u16 b : u16 (Z.b2z b).
Proof. destruct b; split; cbn; lia. Qed.

Lemma poly_mod_u16 bits r : u16 r → u16 (poly_mod r bits).
Proof.
  revert r. induction bits as [|b bits IH]; intros r Hr; [done|]. cbn. apply IH.
  rewrite (reduce_step r b Hr). apply u16_lxor; [apply crc_bit_u16|apply b2z_u16].
Qed.

Lemma poly_mod_linear bits r :
  u16 r → poly_mod r bits = Z.lxor (times (length bits) crc_bit r) (poly_mod 0 bits).
Proof.
  revert r. induction bits as [|b bits IH]; intros r Hr; cbn [poly_mod foldl length times].
  - by rewrite Z.lxor_0_r.
  - rewrite (reduce_step r b Hr), (reduce_step 0 b) by (split; lia). fold (poly_mod (Z.lxor (crc_bit r) (Z.b2z b)) bits).
    fold (poly_mod (Z.lxor (crc_bit 0) (Z.b2z b)) bits).
    rewrite IH by (apply u16_lxor; [apply crc_bit_u16|apply b2z_u16]).
    rewrite (IH (Z.lxor (crc_bit 0) (Z.b2z b))) by (apply u16_lxor; [apply crc_bit_u16|apply b2z_u16]).
    change (crc_bit 0) with 0. rewrite Z.lxor_0_l, times_lxor. by rewrite Z.lxor_assoc.
Qed.

Lemma poly_mod_app r a b : poly_mod r (a ++ b) = poly_mod (poly_mod r a) b.
Proof. apply foldl_app. Qed.

Lemma poly_mod_zeros r : u16 r → poly_mod r (replicate 16 false) = times 16 crc_bit r.
Proof.
  intros Hr. rewrite poly_mod_linear by done. change (poly_mod 0 (replicate 16 false)) with 0.
  by rewrite Z.lxor_0_r.
Qed.

(** ** Bytes, exhaustively *)

Lemma byte_facts b :
  byte b → poly_mod 0 (byte_bits b) = b ∧ times 8 crc_bit b = Z.shiftl b 8 ∧ u16 b ∧ u16 (Z.shiftl b 8).
Proof.
  intros Hb. unfold u16. rewrite Z.shiftl_mul_pow2 by lia. unfold byte in Hb.
  assert (H : forallb (λ b, (poly_mod 0 (byte_bits b) =? b) && (times 8 crc_bit b =? b * 2 ^ 8)) (seqZ0 256) = true)
    by (vm_compute; reflexivity).
  rewrite forallb_forall in H. specialize (H b). rewrite andb_true_iff, !Z.eqb_eq in H.
  destruct H as [H1 H2]; [|split; [done|split; [done|lia]]].
  apply list_elem_of_In, list_elem_of_lookup. exists (Z.to_nat b). rewrite lookup_seqZ0 by lia. f_equal. lia.
Qed.

Lemma length_byte_bits b : length (byte_bits b) = 8%nat.
Proof. done. Qed.

Lemma poly_mod_byte r b : u16 r → byte b → poly_mod r (byte_bits b) = Z.lxor (times 8 crc_bit r) b.
Proof.
  intros Hr Hb. rewrite poly_mod_linear by done. destruct (byte_facts b Hb) as (-> & _). done.
Qed.

Lemma crc_byte_spec c b :
  u16 c → byte b → crc_byte c b = Z.lxor (times 8 crc_bit c) (times 16 crc_bit b).
Proof.
  intros Hc Hb. destruct (byte_facts b Hb) as (_ & E & Ub & Us). unfold crc_byte.
  rewrite wrap_u16_small by (by apply u16_lxor). rewrite times_lxor, <- E.
  by rewrite <- (times_add crc_bit 8 8).
Qed.

(** ** The program computes the remainder *)

Lemma crc_fold_ref msg r :
  u16 r → Forall byte msg →
  crc_fold (times 16 crc_bit r) msg = times 16 crc_bit (poly_mod r (msg ≫= byte_bits)).
Proof.
  intros Hr Hm. revert r Hr. induction Hm as [|b msg Hb _ IH]; intros r Hr; [done|].
  cbn [crc_fold foldl]. fold (crc_fold (crc_byte (times 16 crc_bit r) b) msg).
  rewrite crc_byte_spec by (done || by apply times_u16).
  rewrite times_comm, <- times_lxor, <- poly_mod_byte by done.
  rewrite IH by (by apply poly_mod_u16). rewrite bind_cons, poly_mod_app. done.
Qed.

Lemma crc_fold_crc_ref msg : Forall byte msg → crc_fold 0 msg = crc_ref msg.
Proof.
  intros Hm. assert (H0 : u16 0) by (split; lia). pose proof (crc_fold_ref msg 0 H0 Hm) as E.
  rewrite times_zero in E. unfold crc_ref. rewrite poly_mod_app, poly_mod_zeros; [exact E|].
  by apply poly_mod_u16.
Qed.

Lemma CRC16_fold msg n :
  0 ≤ n ≤ Z.of_nat (length msg) → CRC16_XMODEM msg n = Ok (crc_fold 0 (take (Z.to_nat n) msg)).
Proof.
  intros Hn. unfold CRC16_XMODEM.
  destruct (for_range_inv (λ i c, i ≤ n ∧ c = crc_fold 0 (take (Z.to_nat i) msg))
    (λ i c, wChar ← load msg i; mret (crc_byte c wChar)) 0 n 0) as (c & -> & _ & ->); [lia|split; [lia|done]| |done].
  intros i c Hi [_ ->]. destruct (lookup_lt_Z msg i) as [x Hx]; [lia|].
  rewrite (load_ok _ _ x), bind_ok by (done || lia). eexists. split; [done|]. split; [lia|].
  replace (Z.to_nat (i + 1)) with (S (Z.to_nat i)) by lia. rewrite (take_S_r _ _ _ Hx).
  unfold crc_fold. by rewrite foldl_app.
Qed.

(** ** Properties *)

(** C15: CRC16_XMODEM is the remainder of the message times x^16 modulo x^16+x^12+x^5+1, for
    every length; a length above the block's reads out of bounds. *)
Theorem crc_refines msg n :
  Forall byte msg → 0 ≤ n →
  CRC16_XMODEM msg n =
    if n <=? Z.of_nat (length msg) then Ok (crc_ref (take (Z.to_nat n) msg)) else Err OutOfBounds.
Proof.
  intros Hm Hn. destruct (Z.leb_spec n (Z.of_nat (length msg))) as [Hle|Hgt].
  - rewrite CRC16_fold by lia. by rewrite crc_fold_crc_ref by (by apply Forall_take).
  - unfold CRC16_XMODEM. rewrite (for_range_split _ 0 (Z.of_nat (length msg)) n) by lia.
    pose proof (CRC16_fold msg (Z.of_nat (length msg)) ltac:(lia)) as E. unfold CRC16_XMODEM in E.
    rewrite E, bind_ok, for_range_step by lia. cbn beta. by rewrite load_oob by lia.
Qed.

Lemma crc_witness : CRC16_XMODEM (codes "123456789") 9 = Ok 0x31C3.
Proof.
  etransitivity; [apply crc_refines; [in_list|lia]|vm_compute; reflexivity].
Defined.

(** A message followed by the two bytes of its checksum, high byte first, has checksum zero. *)
Theorem crc_append msg c :
  Forall byte msg → CRC16_XMODEM msg (Z.of_nat (length msg)) = Ok c →
  CRC16_XMODEM (msg ++ [c / 256; c mod 256]) (Z.of_nat (length msg) + 2) = Ok 0.
Proof.
  intros Hm Hc. rewrite CRC16_fold in Hc by lia. rewrite Nat2Z.id, firstn_all in Hc. injection Hc as Hc.
  assert (Uc : u16 c).
  { rewrite <- Hc, crc_fold_crc_ref by done. apply poly_mod_u16. split; lia. }
  rewrite CRC16_fold by (rewrite length_app; cbn; lia).
  rewrite firstn_all2 by (rewrite length_app; cbn; lia). f_equal.
  unfold crc_fold. rewrite foldl_app. fold (crc_fold 0 msg). rewrite Hc. cbn [foldl].
  set (hi := c / 256). set (lo := c mod 256).
  assert (Hhi : byte hi) by (subst hi; unfold u16, byte in *; split; [apply Z.div_pos|apply Z.div_lt_upper_bound]; lia).
  assert (Hlo : byte lo) by (subst lo; apply Z.mod_pos_bound; lia).
  destruct (byte_facts hi Hhi) as (_ & Ehi & Uhi & Shi). destruct (byte_facts lo Hlo) as (_ & Elo & Ulo & Slo).
  assert (Ec : c = Z.lxor (Z.shiftl hi 8) lo).
  { rewrite <- Z.add_nocarry_lxor.
    - rewrite Z.shiftl_mul_pow2 by lia. subst hi lo. pose proof (Z.div_mod c 256 ltac:(lia)). lia.
    - apply Z.bits_inj'. intros n Hn. rewrite Z.land_spec, Z.bits_0, Z.shiftl_spec by done.
      destruct (decide (n < 8)); [by rewrite Z.testbit_neg_r by lia|].
      replace (Z.testbit lo n) with false; [apply andb_false_r|]. symmetry.
      subst lo. change 256 with (2 ^ 8). by rewrite Z.mod_pow2_bits_high by lia. }
  assert (E1 : crc_byte c hi = Z.shiftl lo 8).
  { unfold crc_byte. rewrite wrap_u16_small by (by apply u16_lxor).
    rewrite Ec at 1. rewrite (Z.lxor_comm (Z.shiftl hi 8) lo), Z.lxor_assoc, Z.lxor_nilpotent, Z.lxor_0_r.
    exact Elo. }
  rewrite E1. unfold crc_byte. rewrite Z.lxor_nilpotent. reflexivity.
Qed.

Lemma crc_append_witness : CRC16_XMODEM (codes "123456789" ++ [0x31; 0xC3]) 11 = Ok 0.
Proof. apply (crc_append (codes "123456789") 0x31C3); [in_list|vm_compute; reflexivity]. Defined.

(** C38: Two messages of the same length that differ only in two adjacent bytes have different
    checksums. *)
Theorem crc_detects_burst p a b a' b' q :
  Forall byte (p ++ [a; b; a'; b'] ++ q) → (a, b) ≠ (a', b') →
  let n := Z.of_nat (length (p ++ [a; b] ++ q)) in
  CRC16_XMODEM (p ++ [a; b] ++ q) n ≠ CRC16_XMODEM (p ++ [a'; b'] ++ q) n.
Proof.
  intros Hall Hne n. rewrite !Forall_app, !Forall_cons in Hall.
  destruct Hall as (Hp & (Ha & Hb & Ha' & Hb' & _) & Hq).
  rewrite !CRC16_fold by (subst n; rewrite !length_app; cbn [length]; lia).
  rewrite !firstn_all2 by (subst n; rewrite !length_app; cbn [length]; lia).
  assert (H0 : u16 0) by (split; lia). intros E. injection E as E.
  assert (Hw : ∀ x y, byte x → byte y → crc_fold 0 (p ++ [x; y] ++ q) =
    times 16 crc_bit (poly_mod (poly_mod (poly_mod 0 (p ≫= byte_bits)) ([x; y] ≫= byte_bits)) (q ≫= byte_bits))).
  { intros x y Hx Hy. pose proof (crc_fold_ref (p ++ [x; y] ++ q) 0 H0) as R. rewrite times_zero in R.
    rewrite R by (apply Forall_app; split; [done|apply Forall_app; split; [|done]]; rewrite !Forall_cons; split_and!; (done || apply Forall_nil_2)).
    by rewrite !bind_app, !poly_mod_app. }
  change (p ++ a :: b :: q) with (p ++ [a; b] ++ q) in E. change (p ++ a' :: b' :: q) with (p ++ [a'; b'] ++ q) in E.
  rewrite !Hw in E by done. set (r := poly_mod 0 (p ≫= byte_bits)) in E.
  assert (Hr : u16 r) by (by apply poly_mod_u16).
  apply times_inj in E; [|apply poly_mod_u16, poly_mod_u16, Hr|apply poly_mod_u16, poly_mod_u16, Hr].
  assert (Hxy : ∀ x y, byte x → byte y → poly_mod r ([x; y] ≫= byte_bits) = Z.lxor (times 16 crc_bit r) (Z.lxor (Z.shiftl x 8) y)).
  { intros x y Hx Hy. change ([x; y] ≫= byte_bits) with (byte_bits x ++ byte_bits y ++ []).
    rewrite app_nil_r, poly_mod_app, (poly_mod_byte r x) by done.
    destruct (byte_facts x Hx) as (_ & Ex & Ux & _).
    rewrite poly_mod_byte by (done || (apply u16_lxor; [by apply times_u16|done])).
    rewrite times_lxor, Ex, <- (times_add crc_bit 8 8). by rewrite Z.lxor_assoc. }
  rewrite (poly_mod_linear (q ≫= byte_bits) (poly_mod r ([a; b] ≫= byte_bits))),
    (poly_mod_linear (q ≫= byte_bits) (poly_mod r ([a'; b'] ≫= byte_bits))) in E by (by apply poly_mod_u16).
  apply (f_equal (λ z, Z.lxor z (poly_mod 0 (q ≫= byte_bits)))) in E.
  rewrite !Z.lxor_assoc, !Z.lxor_nilpotent, !Z.lxor_0_r in E.
  apply times_inj in E; [|by apply poly_mod_u16|by apply poly_mod_u16].
  rewrite !Hxy in E by done. apply (f_equal (Z.lxor (times 16 crc_bit r))) in E.
  rewrite <- !Z.lxor_assoc, !Z.lxor_nilpotent, !Z.lxor_0_l in E.
  apply Hne. assert (G : ∀ x y, byte x → byte y → Z.lxor (Z.shiftl x 8) y = 256 * x + y).
  { intros x y Hx Hy. rewrite <- Z.add_nocarry_lxor; [rewrite Z.shiftl_mul_pow2 by lia; lia|].
    apply Z.bits_inj'. intros k Hk. rewrite Z.land_spec, Z.bits_0, Z.shiftl_spec by done.
    destruct (decide (k < 8)); [by rewrite Z.testbit_neg_r by lia|].
    replace (Z.testbit y k) with false; [apply andb_false_r|]. symmetry.
    rewrite <- (Z.mod_small y (2 ^ 8)) by (apply Hy). by rewrite Z.mod_pow2_bits_high by lia. }
  rewrite !G in E by done. unfold byte in *. f_equal; lia.
Qed.

Lemma crc_burst_witness :
  CRC16_XMODEM ([1; 2] ++ [3; 4] ++ [5]) 5 ≠ CRC16_XMODEM ([1; 2] ++ [3; 5] ++ [5]) 5.
Proof. apply (crc_detects_burst [1; 2] 3 4 3 5 [5]); [in_list|done]. Defined.
