(* ===== verification/Sort.v ===== *)
(** The sorts of [src/cpp/algorithm/algorithm.c] on random numbers, and the
    generator that the file shares with [src/cpp/random_xid.c].

    The operating system is an argument: the descriptor that [open] returns,
    the result of [read] and the seed it delivers, the time, and the generator
    [rnd] behind [srand] and [rand] (seed and position to value). *)
From S2P Require Import Prelude CString.

Definition SIZE : Z := 10.

(** ** Random numbers *)

(** The static [initialized] and the state of the library's generator. *)
Record Rng := mkRng { initialized : Z; seed : Z; drawn : nat }.

Definition rng_init : Rng := mkRng 0 1 0.

(** [%ld] of an [unsigned long]. *)
Definition as_long (z : Z) : Z := (z + 2 ^ 63) mod 2 ^ 64 - 2 ^ 63.

Section random.
Context (rnd : Z → nat → Z) (fd rd urandom now : Z) (err : list Z).

(** The seed that is read, and what is said when it cannot be. *)
Definition load_seed : Z * list output :=
  if (fd <? 0) || (rd <? 0)
  then (now, [PutStr "Could not load seed from /dev/urandom: "; PutChars err])
  else (urandom, []).

(** [rand()]; [srand] takes an [unsigned int]. *)
Definition next_rand (g : Rng) : Z * Rng :=
  (rnd (seed g) (drawn g), mkRng (initialized g) (seed g) (S (drawn g))).

(** [random_xid]; [verbose] is the copy in random_xid.c, which prints the seed. *)
Definition random_xid (verbose : bool) (g : Rng) (out : list output) : Z * Rng * list output :=
  if initialized g =? 0 then
    let '(s, msg) := load_seed in
    let say := if verbose then [PutStr "seed="; PutInt (as_long s); PutStr "\n"] else [] in
    (next_rand (mkRng (initialized g + 1) (wrap_u32 s) 0), out ++ msg ++ say)
  else (next_rand g, out).

(** [for (i = 0; i < l; i++) a[i] = random_xid() % _SIZE_;] *)
Definition fill (g : Rng) (l : Z) (out : list output) : res (list cell * Rng * list output) :=
  for_range 0 l (λ i '(a, g, out),
    let '(x, g, out) := random_xid false g out in
    a ← store_init a i (x mod SIZE);
    mret (a, g, out)) (replicate (Z.to_nat l) None, g, out).

(** ** Printing *)

(** [%3d ]: padded to three characters. *)
Definition fmt3 (z : Z) : list Z :=
  let d := dec_chars z in replicate (3 - length d) 32 ++ d ++ [32].

Definition printa (p : list Z) (l : Z) (out : list output) : res (list output) :=
  out ← for_range 0 l (λ i out,
    x ← load p i;
    let out := out ++ [PutChars (fmt3 x)] in
    mret (if Z.rem (i + 1) 10 =? 0 then out ++ [PutStr "\n"] else out)) out;
  mret (out ++ [PutStr "\n"]).

(** ** The exchange sort *)

Definition popup_inner (i l : Z) (s : list Z * Z) : res (list Z * Z) :=
  for_range i l (λ j '(a, round),
    round ← chk_int (round + 1);
    x ← load a i;
    y ← load a j;
    if x <? y then a ← store a i y; a ← store a j x; mret (a, round)
    else mret (a, round)) s.

Definition popup_sort (a : list Z) (l round : Z) : res (list Z * Z) :=
  for_range 0 l (λ i s, popup_inner i l s) (a, round).

(** [popup]: the sorted array, the counter, the generator and the output. *)
Definition popup (g : Rng) (round : Z) : res (list Z * Z * Rng * list output) :=
  '(a, g, out) ← fill g SIZE [PutStr "popup sort.\n"];
  a ← values a;
  out ← printa a SIZE (out ++ [PutStr "sort "; PutInt SIZE; PutStr " random number\n"]);
  '(a, round) ← popup_sort a SIZE round;
  out ← printa a SIZE (out ++ [PutStr "\nrun "; PutInt round; PutStr " round, after popup:\n"]);
  mret (a, round, g, out).

(** ** The quick sort *)

(** [while (i < j && key <= a[j]) { round++; j--; }] *)
Definition scan_down (a : list Z) (key i : Z) (s : Z * Z) : res (Z * Z) :=
  while (S (length a))
    (λ '(j, _), if i <? j then x ← load a j; mret (key <=? x) else mret false)
    (λ '(j, round), round ← chk_int (round + 1); mret (j - 1, round)) s.

(** [while (i < j && key >= a[i]) { i++; round++; }] *)
Definition scan_up (a : list Z) (key j : Z) (s : Z * Z) : res (Z * Z) :=
  while (S (length a))
    (λ '(i, _), if i <? j then x ← load a i; mret (x <=? key) else mret false)
    (λ '(i, round), round ← chk_int (round + 1); mret (i + 1, round)) s.

(** [while (i < j) { ... }]: the hole wanders from [i] to [j] and back. *)
Definition partition (a : list Z) (key i j round : Z) : res (list Z * Z * Z * Z) :=
  while (S (length a)) (λ '(_, i, j, _), mret (i <? j))
    (λ '(a, i, j, round),
      '(j, round) ← scan_down a key i (j, round);
      x ← load a j;
      a ← store a i x;
      '(i, round) ← scan_up a key j (i, round);
      y ← load a i;
      a ← store a j y;
      mret (a, i, j, round)) (a, i, j, round).

Fixpoint q_sort (fuel : nat) (a : list Z) (left right round : Z) (out : list output)
  : res (list Z * Z * list output) :=
  match fuel with
  | O => Err OutOfFuel
  | S fuel' =>
      if right <=? left then mret (a, round, out)
      else
        key ← load a left;
        '(a, i, j, round) ← partition a key left right round;
        a ← store a i key;
        out ← printa a SIZE out;
        '(a, round, out) ← q_sort fuel' a left (i - 1) round out;
        q_sort fuel' a (i + 1) right round out
  end.

(** [myqsort] and [main]; [SIZE + 1] levels of recursion are enough. *)
Definition myqsort (g : Rng) (round : Z) : res (list Z * Z * Rng * list output) :=
  '(a, g, out) ← fill g SIZE [PutStr "run myqsort\n"];
  a ← values a;
  out ← printa a SIZE (out ++ [PutStr "sort "; PutInt SIZE; PutStr " random number\n"]);
  '(a, round, out) ← q_sort 11 a 0 (SIZE - 1) round out;
  out ← printa a SIZE (out ++ [PutStr "after run "; PutInt round; PutStr " round\n"]);
  mret (a, round, g, out).

(** [main] of random_xid.c: what it prints. *)
Definition random_xid_main : list output :=
  let '(l, _, out) := random_xid true rng_init [] in
  out ++ [PutStr "l="; PutInt (as_long l); PutStr "\n"].
End random.
