(* ===== verification/SortSpec.v ===== *)
(** The sorts produce a sorted permutation of the numbers that were drawn, and
    terminate. *)
From S2P Require Import Prelude CString Sort.

(** ** Arrays *)

Definition at_ (a : list Z) (k : Z) : Z := default 0 (a !! Z.to_nat k).

Lemma load_at a k : 0 ≤ k < Z.of_nat (length a) → load a k = Ok (at_ a k).
Proof.
  intros Hk. destruct (lookup_lt_Z a k Hk) as [x Hx]. unfold at_. rewrite Hx. apply load_ok; [lia|done].
Qed.

Lemma at_lookup a k : 0 ≤ k < Z.of_nat (length a) → a !! Z.to_nat k = Some (at_ a k).
Proof. intros Hk. destruct (lookup_lt_Z a k Hk) as [x Hx]. unfold at_. by rewrite Hx. Qed.

Lemma at_insert a i k x :
  0 ≤ i < Z.of_nat (length a) → 0 ≤ k → at_ (<[Z.to_nat i := x]> a) k = if decide (i = k) then x else at_ a k.
Proof. intros Hi Hk. unfold at_. rewrite lookup_insert_Z by done. by case_decide. Qed.

(** Writing [x] where [y] was: the list gains [x] and loses [y]. *)
Lemma insert_perm (a : list Z) i x :
  0 ≤ i < Z.of_nat (length a) → at_ a i :: <[Z.to_nat i := x]> a ≡ₚ x :: a.
Proof.
  intros Hi. pose proof (at_lookup a i Hi) as E.
  rewrite <- (take_drop_middle a (Z.to_nat i) (at_ a i)) at 3 by done.
  rewrite insert_take_drop by lia.
  rewrite <- !Permutation_middle. apply Permutation_swap.
Qed.

(** ** Sorted ranges *)

Definition sorted (R : Z → Z → Prop) (a : list Z) (l r : Z) : Prop :=
  ∀ p q, l ≤ p → p < q → q ≤ r → R (at_ a p) (at_ a q).

(** [a'] is [a] with the range [l..r] rearranged. *)
Record rearr (a a' : list Z) (l r : Z) : Prop := {
  re_len : length a' = length a;
  re_perm : a' ≡ₚ a;
  re_out : ∀ k, 0 ≤ k → k < l ∨ r < k → at_ a' k = at_ a k;
  re_all : ∀ P : Z → Prop, (∀ k, l ≤ k ≤ r → P (at_ a k)) → ∀ k, l ≤ k ≤ r → P (at_ a' k)
}.

Lemma rearr_refl a l r : rearr a a l r.
Proof. by split. Qed.

Lemma rearr_trans a b c l r : rearr a b l r → rearr b c l r → rearr a c l r.
Proof.
  intros [L1 P1 O1 A1] [L2 P2 O2 A2]. split; [congruence|by rewrite P2| |].
  - intros k Hk Ho. by rewrite O2, O1.
  - intros P H. by apply A2, A1.
Qed.

Lemma rearr_sub a a' l r l' r' : 0 ≤ l → l ≤ l' → r' ≤ r → rearr a a' l' r' → rearr a a' l r.
Proof.
  intros H0 Hl Hr [L P O A]. split; [done|done| |].
  - intros k Hk Ho. apply O; [done|lia].
  - intros Q HQ k Hk. destruct (decide (l' ≤ k ≤ r')); [|rewrite O by lia; by apply HQ].
    apply A; [|done]. intros j Hj. apply HQ. lia.
Qed.

(** ** The exchange sort *)

(** One exchange inside a range. *)
Lemma swap_rearr a i j l r :
  0 ≤ l → l ≤ i ≤ r → l ≤ j ≤ r → r < Z.of_nat (length a) →
  rearr a (<[Z.to_nat j := at_ a i]> (<[Z.to_nat i := at_ a j]> a)) l r.
Proof.
  intros H0 Hi Hj Hr.
  assert (L1 : length (<[Z.to_nat i := at_ a j]> a) = length a) by apply length_insert.
  assert (E : ∀ k, 0 ≤ k → at_ (<[Z.to_nat j := at_ a i]> (<[Z.to_nat i := at_ a j]> a)) k =
    if decide (j = k) then at_ a i else if decide (i = k) then at_ a j else at_ a k).
  { intros k Hk. rewrite at_insert by (rewrite ?L1; lia). case_decide; [done|]. by rewrite at_insert by lia. }
  split.
  - by rewrite !length_insert.
  - pose proof (insert_perm a i (at_ a j) ltac:(lia)) as P1.
    pose proof (insert_perm (<[Z.to_nat i := at_ a j]> a) j (at_ a i) ltac:(rewrite L1; lia)) as P2.
    rewrite at_insert in P2 by lia. assert (Ej : (if decide (i = j) then at_ a j else at_ a j) = at_ a j) by by case_decide.
    rewrite Ej in P2. rewrite P1 in P2. by apply Permutation_cons_inv in P2.
  - intros k Hk Ho. rewrite E by done. do 2 (case_decide; [lia|]). done.
  - intros P HP k Hk. rewrite E by lia. case_decide; [by apply HP|]. case_decide; by apply HP.
Qed.

Definition tri (n i : Z) : Z := 2 * n * i - i * (i - 1).

Lemma popup_inner_spec a i l round :
  0 ≤ i < l → l = Z.of_nat (length a) → INT_MIN ≤ round → round + (l - i) ≤ INT_MAX →
  ∃ a', popup_inner i l (a, round) = Ok (a', round + (l - i)) ∧ rearr a a' i (l - 1) ∧
    ∀ q, i ≤ q < l → at_ a' q ≤ at_ a' i.
Proof.
  intros Hi Hl Hlo Hhi. unfold popup_inner.
  match goal with |- context [for_range i l ?b _] => set (body := b) end.
  destruct (for_range_inv (λ j s, s.2 = round + (j - i) ∧ rearr a s.1 i (l - 1) ∧
      (∀ q, i ≤ q < j → at_ s.1 q ≤ at_ s.1 i)) body i l (a, round)) as ([a' n] & E & En & R & M).
  - lia.
  - cbn. split; [lia|]. split; [apply rearr_refl|]. lia.
  - intros j [b n] Hj (En & R & M). cbn [fst snd] in *. subst n. pose proof (re_len _ _ _ _ R) as Lb.
    unfold body. cbn beta iota. rewrite chk_int_ok, bind_ok by lia.
    rewrite !load_at, !bind_ok by lia. destruct (Z.ltb_spec (at_ b i) (at_ b j)) as [Hlt|Hge].
    + rewrite store_ok, bind_ok by lia. rewrite store_ok, bind_ok by (rewrite length_insert; lia).
      eexists. split; [reflexivity|]. cbn [fst snd]. split; [lia|]. split.
      * eapply rearr_trans; [exact R|]. apply swap_rearr; lia.
      * assert (Hne : i ≠ j) by (intros ->; lia). intros q Hq.
        rewrite !at_insert by (rewrite ?length_insert; lia).
        destruct (decide (j = i)); [lia|]. destruct (decide (i = i)); [|done].
        destruct (decide (j = q)); [lia|]. destruct (decide (i = q)); [lia|].
        pose proof (M q ltac:(lia)). lia.
    + eexists. split; [reflexivity|]. cbn [fst snd]. split; [lia|]. split; [done|].
      intros q Hq. destruct (decide (q = j)) as [->|]; [lia|]. apply M. lia.
  - cbn [fst snd] in *. exists a'. rewrite E, En. split; [done|]. split; [done|]. exact M.
Qed.

Lemma popup_sort_spec a round :
  let l := Z.of_nat (length a) in
  l ≤ 1000 → 0 ≤ round → round + l * (l + 1) / 2 ≤ INT_MAX →
  ∃ a', popup_sort a l round = Ok (a', round + l * (l + 1) / 2) ∧ a' ≡ₚ a ∧ sorted Z.ge a' 0 (l - 1).
Proof.
  intros l Hl Hlo Hhi. unfold popup_sort.
  destruct (for_range_inv (λ i s, 0 ≤ i ≤ l ∧ s.2 = round + (2 * l * i - i * (i - 1)) / 2 ∧ rearr a s.1 0 (l - 1) ∧
      (∀ p q, 0 ≤ p < i → p < q < l → at_ s.1 q ≤ at_ s.1 p))
    (λ i s, popup_inner i l s) 0 l (a, round)) as ([a' n] & E & _ & En & R & M).
  - lia.
  - cbn [fst snd]. split; [lia|]. split; [by replace (2 * l * 0 - 0 * (0 - 1)) with 0 by ring; rewrite Z.div_0_l, Z.add_0_r|]. split; [apply rearr_refl|]. lia.
  - intros i [b n] Hi (_ & En & R & M). cbn [fst snd] in *. pose proof (re_len _ _ _ _ R) as Lb.
    assert (Ev : ∃ k, i * (i - 1) = 2 * k).
    { destruct (Z.Even_or_Odd i) as [[k ->]|[k ->]]; [exists (k * (2 * k - 1))|exists ((2 * k + 1) * k)]; ring. }
    destruct Ev as [k Ek].
    assert (Ex : (2 * l * i - i * (i - 1)) / 2 = l * i - k).
    { rewrite Ek. replace (2 * l * i - 2 * k) with ((l * i - k) * 2) by ring. by rewrite Z.div_mul. }
    assert (Ex' : (2 * l * (i + 1) - (i + 1) * (i + 1 - 1)) / 2 = l * i - k + (l - i)).
    { replace (2 * l * (i + 1) - (i + 1) * (i + 1 - 1)) with ((l * i - k + (l - i)) * 2) by nia. by rewrite Z.div_mul. }
    assert (Etop : l * i - k + (l - i) ≤ l * (l + 1) / 2).
    { apply Z.div_le_lower_bound; [lia|]. nia. }
    destruct (popup_inner_spec b i l n) as (b' & -> & R' & M'); [lia|lia|unfold INT_MIN; nia|nia|].
    exists (b', n + (l - i)). split; [done|]. cbn [fst snd]. split; [lia|]. split; [lia|].
    split; [eapply rearr_trans; [exact R|]; by apply (rearr_sub b b' 0 (l - 1) i (l - 1)); lia || done|].
    intros p q Hp Hq. destruct (decide (p = i)) as [->|].
    + apply M'. lia.
    + rewrite (re_out _ _ _ _ R' p) by lia. destruct (decide (i ≤ q)).
      * apply (re_all _ _ _ _ R' (λ x, x ≤ at_ b p)); [|lia]. intros k' Hk'. apply M; lia.
      * rewrite (re_out _ _ _ _ R' q) by lia. apply M; lia.
  - cbn [fst snd] in *. exists a'. rewrite E. split.
    + do 2 f_equal. rewrite En. do 2 f_equal. ring.
    + split; [apply R|]. intros p q Hp Hpq Hq. apply Z.le_ge, M; lia.
Qed.

(** ** Printing *)

(** What [printa] shows of an array. *)
Definition shown (p : list Z) : list output :=
  concat (imap (λ k x, PutChars (fmt3 x) ::
    (if Z.rem (Z.of_nat k + 1) 10 =? 0 then [PutStr "\n"] else [])) p) ++ [PutStr "\n"].

Lemma printa_spec p out : printa p (Z.of_nat (length p)) out = Ok (out ++ shown p).
Proof.
  unfold printa, shown. set (f := λ (k : nat) (x : Z), PutChars (fmt3 x) :: _).
  match goal with |- context [for_range 0 _ ?b _] => set (body := b) end.
  destruct (for_range_inv (λ i o, 0 ≤ i ∧ o = out ++ concat (imap f (take (Z.to_nat i) p)))
    body 0 (Z.of_nat (length p)) out) as (o & -> & _ & ->).
  - lia.
  - split; [lia|]. cbn. by rewrite app_nil_r.
  - intros i o Hi [_ ->]. destruct (lookup_lt_Z p i) as [x Hx]; [lia|]. unfold body.
    rewrite (load_ok p i x), bind_ok by (lia || done). eexists. split; [reflexivity|]. split; [lia|].
    replace (Z.to_nat (i + 1)) with (S (Z.to_nat i)) by lia.
    rewrite (take_S_r _ _ _ Hx), imap_app, concat_app, app_assoc. cbn [imap concat].
    rewrite length_take, app_nil_r, Nat.add_0_r, Nat.min_l by lia. unfold f. rewrite Z2Nat.id by lia.
    destruct (_ =? 0); [|done]. by rewrite <- app_assoc.
  - rewrite Nat2Z.id, firstn_all, bind_ok. by rewrite <- app_assoc.
Qed.

(** ** The quick sort *)

Lemma scan_down_spec a key i j round :
  0 ≤ i ≤ j → j < Z.of_nat (length a) → INT_MIN ≤ round → round + (j - i) ≤ INT_MAX →
  ∃ j', scan_down a key i (j, round) = Ok (j', round + (j - j')) ∧ i ≤ j' ≤ j ∧
    (∀ k, j' < k ≤ j → key ≤ at_ a k) ∧ (i < j' → at_ a j' < key).
Proof.
  intros Hi Hj Hlo Hhi. unfold scan_down.
  match goal with |- context [while _ ?c ?b _] => set (cond := c); set (body := b) end.
  destruct (while_inv (λ s, i ≤ s.1 ≤ j ∧ s.2 = round + (j - s.1) ∧ (∀ k, s.1 < k ≤ j → key ≤ at_ a k))
    cond body (λ s, Z.to_nat (s.1 - i)) (S (length a)) (j, round)) as ([j' n] & E & (H1 & H2 & H3) & Hc).
  - cbn. split; [lia|]. split; [lia|]. lia.
  - cbn. lia.
  - intros [p n] (H1 & H2 & H3). cbn [fst snd] in *. subst n. unfold cond. cbn beta iota.
    destruct (Z.ltb_spec i p); [|by left]. rewrite load_at, bind_ok by lia.
    destruct (Z.leb_spec key (at_ a p)); [right|by left]. split; [done|]. unfold body. cbn beta iota.
    rewrite chk_int_ok, bind_ok by lia. eexists. split; [reflexivity|]. cbn [fst snd].
    split; [|lia]. split; [lia|]. split; [lia|]. intros k Hk. destruct (decide (k = p)) as [->|]; [done|].
    apply H3. lia.
  - cbn [fst snd] in *. exists j'. rewrite E, H2. split; [done|]. split; [done|]. split; [done|].
    intros Hl. unfold cond in Hc. cbn beta iota in Hc. rewrite (proj2 (Z.ltb_lt i j') Hl) in Hc.
    rewrite load_at, bind_ok in Hc by lia. injection Hc as Hc. by apply Z.leb_gt in Hc.
Qed.

Lemma scan_up_spec a key i j round :
  0 ≤ i ≤ j → j < Z.of_nat (length a) → INT_MIN ≤ round → round + (j - i) ≤ INT_MAX →
  ∃ i', scan_up a key j (i, round) = Ok (i', round + (i' - i)) ∧ i ≤ i' ≤ j ∧
    (∀ k, i ≤ k < i' → at_ a k ≤ key) ∧ (i < j → at_ a i ≤ key → i < i').
Proof.
  intros Hi Hj Hlo Hhi. unfold scan_up.
  match goal with |- context [while _ ?c ?b _] => set (cond := c); set (body := b) end.
  destruct (while_inv (λ s, i ≤ s.1 ≤ j ∧ s.2 = round + (s.1 - i) ∧ (∀ k, i ≤ k < s.1 → at_ a k ≤ key))
    cond body (λ s, Z.to_nat (j - s.1)) (S (length a)) (i, round)) as ([i' n] & E & (H1 & H2 & H3) & Hc).
  - cbn. split; [lia|]. split; [lia|]. lia.
  - cbn. lia.
  - intros [p n] (H1 & H2 & H3). cbn [fst snd] in *. subst n. unfold cond. cbn beta iota.
    destruct (Z.ltb_spec p j); [|by left]. rewrite load_at, bind_ok by lia.
    destruct (Z.leb_spec (at_ a p) key); [right|by left]. split; [done|]. unfold body. cbn beta iota.
    rewrite chk_int_ok, bind_ok by lia. eexists. split; [reflexivity|]. cbn [fst snd].
    split; [|lia]. split; [lia|]. split; [lia|]. intros k Hk. destruct (decide (k = p)) as [->|]; [done|].
    apply H3. lia.
  - cbn [fst snd] in *. exists i'. rewrite E, H2. split; [done|]. split; [done|]. split; [done|].
    intros Hl Hk. destruct (decide (i' = i)) as [->|]; [|lia]. unfold cond in Hc. cbn beta iota in Hc.
    rewrite (proj2 (Z.ltb_lt i j) Hl) in Hc. rewrite load_at, bind_ok in Hc by lia. injection Hc as Hc.
    apply Z.leb_gt in Hc. lia.
Qed.

(** The state of the partition: position [h] is a hole, whose old content is
    either the key or has a copy elsewhere. *)
Record hole (a0 a : list Z) (key l r h : Z) : Prop := {
  ho_len : length a = length a0;
  ho_perm : key :: a ≡ₚ at_ a h :: a0;
  ho_out : ∀ k, 0 ≤ k → k < l ∨ r < k → at_ a k = at_ a0 k;
  ho_all : ∀ P : Z → Prop, (∀ k, l ≤ k ≤ r → P (at_ a0 k)) → ∀ k, l ≤ k ≤ r → P (at_ a k)
}.

(** Moving the hole from [h] to [g]. *)
Lemma hole_move a0 a key l r h g :
  0 ≤ l → r < Z.of_nat (length a0) → l ≤ h ≤ r → l ≤ g ≤ r → hole a0 a key l r h →
  hole a0 (<[Z.to_nat h := at_ a g]> a) key l r g.
Proof.
  intros H0 Hr Hh Hg [L P O A]. assert (E : ∀ k, 0 ≤ k → at_ (<[Z.to_nat h := at_ a g]> a) k =
    if decide (h = k) then at_ a g else at_ a k) by (intros k Hk; apply at_insert; lia).
  split.
  - by rewrite length_insert.
  - assert (Eg : at_ (<[Z.to_nat h := at_ a g]> a) g = at_ a g) by (rewrite E by lia; by case_decide).
    rewrite Eg. apply (Permutation_cons_inv (a := at_ a h)).
    rewrite (Permutation_swap key (at_ a h)), (insert_perm a h (at_ a g)) by lia.
    by rewrite (Permutation_swap (at_ a g) (at_ a h)), <- P, Permutation_swap.
  - intros k Hk Ho. rewrite E by done. case_decide; [lia|]. by apply O.
  - intros Q HQ k Hk. rewrite E by lia. case_decide; by apply A.
Qed.

(** Filling the hole with the key. *)
Lemma hole_fill a0 a key l r h :
  0 ≤ l → r < Z.of_nat (length a0) → l ≤ h ≤ r → (∃ k, l ≤ k ≤ r ∧ at_ a0 k = key) → hole a0 a key l r h →
  rearr a0 (<[Z.to_nat h := key]> a) l r.
Proof.
  intros H0 Hr Hh (k0 & Hk0 & Ek) [L P O A]. assert (E : ∀ k, 0 ≤ k → at_ (<[Z.to_nat h := key]> a) k =
    if decide (h = k) then key else at_ a k) by (intros k Hk; apply at_insert; lia).
  split.
  - by rewrite length_insert.
  - apply (Permutation_cons_inv (a := at_ a h)). rewrite (insert_perm a h key) by lia. done.
  - intros k Hk Ho. rewrite E by done. case_decide; [lia|]. by apply O.
  - intros Q HQ k Hk. rewrite E by lia. case_decide; [|by apply A]. rewrite <- Ek. by apply HQ.
Qed.

Lemma partition_spec a0 l r round :
  0 ≤ l < r → r < Z.of_nat (length a0) → INT_MIN ≤ round → round + (r - l) ≤ INT_MAX →
  ∃ a i, partition a0 (at_ a0 l) l r round = Ok (a, i, i, round + (r - l)) ∧ l ≤ i ≤ r ∧
    hole a0 a (at_ a0 l) l r i ∧ (∀ k, l ≤ k < i → at_ a k ≤ at_ a0 l) ∧ (∀ k, i < k ≤ r → at_ a0 l ≤ at_ a k).
Proof.
  intros Hl Hr Hlo Hhi. unfold partition. set (key := at_ a0 l).
  match goal with |- context [while _ ?c ?b _] => set (cond := c); set (body := b) end.
  destruct (while_inv (λ '(a, i, j, n), l ≤ i ≤ j ∧ j ≤ r ∧ n + (j - i) = round + (r - l) ∧
      hole a0 a key l r i ∧ (∀ k, l ≤ k < i → at_ a k ≤ key) ∧ (∀ k, j < k ≤ r → key ≤ at_ a k))
    cond body (λ '(a, i, j, n), Z.to_nat (j - i)) (S (length a0)) (a0, l, r, round))
    as ([[[a i] j] n] & E & (H1 & H2 & H3 & Ho & Lo & Hi) & Hc).
  - cbn beta iota. split; [lia|]. split; [lia|]. split; [lia|]. split; [|split; lia]. by split.
  - cbn beta iota. lia.
  - intros [[[a i] j] n] (H1 & H2 & H3 & Ho & Lo & Hi). unfold cond. cbn beta iota.
    destruct (Z.ltb_spec i j); [right|by left]. split; [done|]. unfold body. cbn beta iota.
    pose proof (ho_len _ _ _ _ _ _ Ho) as La.
    destruct (scan_down_spec a key i j n) as (j' & -> & Hj' & Dn & Ds); [lia..|]. rewrite bind_ok. cbn beta iota.
    rewrite load_at, bind_ok, store_ok, bind_ok by lia.
    pose proof (hole_move a0 a key l r i j' ltac:(lia) ltac:(lia) ltac:(lia) ltac:(lia) Ho) as Ho1.
    assert (E1 : ∀ k, 0 ≤ k → at_ (<[Z.to_nat i := at_ a j']> a) k = if decide (i = k) then at_ a j' else at_ a k)
      by (intros k Hk; apply at_insert; lia).
    set (a1 := <[Z.to_nat i := at_ a j']> a) in *. pose proof (ho_len _ _ _ _ _ _ Ho1) as La1.
    destruct (scan_up_spec a1 key i j' (n + (j - j'))) as (i' & -> & Hi' & Up & Us); [lia..|].
    rewrite bind_ok. cbn beta iota. rewrite load_at, bind_ok, store_ok, bind_ok by lia.
    pose proof (hole_move a0 a1 key l r j' i' ltac:(lia) ltac:(lia) ltac:(lia) ltac:(lia) Ho1) as Ho2.
    assert (E2 : ∀ k, 0 ≤ k → at_ (<[Z.to_nat j' := at_ a1 i']> a1) k = if decide (j' = k) then at_ a1 i' else at_ a1 k)
      by (intros k Hk; apply at_insert; lia).
    eexists. split; [reflexivity|]. cbn beta iota. repeat split; try lia; try done; try apply Ho2.
    + intros k Hk. rewrite E2 by lia. destruct (decide (j' = k)); [lia|]. destruct (decide (i ≤ k)); [apply Up; lia|].
      rewrite E1 by lia. destruct (decide (i = k)); [lia|]. apply Lo. lia.
    + intros k Hk. rewrite E2 by lia. destruct (decide (j' = k)); [lia|]. rewrite E1 by lia.
      destruct (decide (i = k)); [lia|]. destruct (decide (k ≤ j)); [apply Dn; lia|apply Hi; lia].
    + enough (i < i' ∨ j' < j) by lia. destruct (decide (j' < j)); [by right|left].
      apply Us; [lia|]. rewrite E1 by lia. destruct (decide (i = i)); [|done]. specialize (Ds ltac:(lia)). lia.
  - exists a, i. cbn beta iota in *. unfold cond in Hc. cbn beta iota in Hc. injection Hc as Hc. apply Z.ltb_ge in Hc.
    assert (j = i) by lia. subst j. rewrite E.
    replace n with (round + (r - l)) by lia. split; [done|]. split; [lia|]. done.
Qed.

(** Two sorted ranges on the two sides of a pivot. *)
Lemma sorted_join e key l i r :
  at_ e i = key → (∀ p, l ≤ p ≤ i - 1 → at_ e p ≤ key) → (∀ q, i + 1 ≤ q ≤ r → key ≤ at_ e q) →
  sorted Z.le e l (i - 1) → sorted Z.le e (i + 1) r → sorted Z.le e l r.
Proof.
  intros Ei Lo Gt S1 S2 p q Hp Hpq Hq. destruct (Z.lt_trichotomy p i) as [Hpi|[->|Hpi]].
  - destruct (Z.lt_trichotomy q i) as [Hqi|[->|Hqi]].
    + apply S1; lia.
    + rewrite Ei. apply Lo. lia.
    + specialize (Lo p ltac:(lia)). specialize (Gt q ltac:(lia)). lia.
  - rewrite Ei. apply Gt. lia.
  - apply S2; lia.
Qed.

(** The recursion: [w] is the width of the range, and bounds its depth. *)
Lemma q_sort_spec fuel : ∀ a l r round out,
  length a = 10%nat → 0 ≤ l → r < 10 → 0 ≤ r - l + 1 → (Z.to_nat (Z.max 1 (r - l + 1)) ≤ fuel)%nat →
  INT_MIN ≤ round → round + (r - l + 1) * (r - l) ≤ INT_MAX →
  ∃ a' n' tr, q_sort fuel a l r round out = Ok (a', n', out ++ tr) ∧ rearr a a' l r ∧ sorted Z.le a' l r ∧
    round ≤ n' ∧ 2 * (n' - round) ≤ (r - l + 1) * (r - l).
Proof.
  induction fuel as [|fuel IH]; intros a l r round out La Hl Hr Hw Hf Hlo Hhi; [lia|]. cbn [q_sort].
  destruct (Z.leb_spec r l) as [Hrl|Hrl].
  { exists a, round, []. rewrite app_nil_r. split; [done|]. split; [apply rearr_refl|].
    split; [intros p q ? ? ?; lia|]. split; [lia|]. nia. }
  rewrite load_at, bind_ok by lia. set (w := r - l) in *.
  destruct (partition_spec a l r round) as (b & i & -> & Hi & Ho & Lo & Gt); [lia|lia|lia|nia|].
  rewrite bind_ok. cbn beta iota. pose proof (ho_len _ _ _ _ _ _ Ho) as Lb. rewrite store_ok, bind_ok by lia.
  assert (Hk : ∃ k, l ≤ k ≤ r ∧ at_ a k = at_ a l) by (exists l; split; [lia|done]).
  pose proof (hole_fill a b (at_ a l) l r i Hl ltac:(lia) ltac:(lia) Hk Ho) as R.
  assert (E : ∀ k, 0 ≤ k → at_ (<[Z.to_nat i := at_ a l]> b) k = if decide (i = k) then at_ a l else at_ b k)
    by (intros k Hk'; apply at_insert; lia).
  set (c := <[Z.to_nat i := at_ a l]> b) in *. set (key := at_ a l) in *. pose proof (re_len _ _ _ _ R) as Lc.
  replace SIZE with (Z.of_nat (length c)) by (rewrite Lc, La; reflexivity). rewrite printa_spec, bind_ok.
  destruct (IH c l (i - 1) (round + (r - l)) (out ++ shown c)) as (d & n1 & t1 & -> & R1 & S1 & B1 & B1');
    [lia|lia|lia|lia|lia|lia|nia|]. rewrite bind_ok. cbn beta iota. pose proof (re_len _ _ _ _ R1) as Ld.
  destruct (IH d (i + 1) r n1 ((out ++ shown c) ++ t1)) as (e & n2 & t2 & -> & R2 & S2 & B2 & B2');
    [lia|lia|lia|lia|lia|lia|nia|].
  exists e, n2, (shown c ++ t1 ++ t2). rewrite !app_assoc. split; [done|]. split; [|split; [|split; [lia|nia]]].
  - eapply rearr_trans; [exact R|]. eapply rearr_trans; [apply (rearr_sub c d l r l (i - 1)); lia || done|].
    apply (rearr_sub d e l r (i + 1) r); lia || done.
  - apply (sorted_join e key l i r).
    + rewrite (re_out _ _ _ _ R2), (re_out _ _ _ _ R1), E by lia. by destruct (decide (i = i)).
    + intros p Hp. rewrite (re_out _ _ _ _ R2) by lia. apply (re_all _ _ _ _ R1 (λ x, x ≤ key)); [|lia].
      intros k Hk'. rewrite E by lia. destruct (decide (i = k)); [lia|]. apply Lo. lia.
    + apply (re_all _ _ _ _ R2 (λ x, key ≤ x)). intros k Hk'. rewrite (re_out _ _ _ _ R1), E by lia.
      destruct (decide (i = k)); [lia|]. apply Gt. lia.
    + intros p q Hp Hpq Hq. rewrite !(re_out _ _ _ _ R2) by lia. by apply S1.
    + done.
Qed.

(** ** The programs *)

(** The numbers that the first ten draws leave in the array. *)
Definition numbers (rnd : Z → nat → Z) (s : Z) : list Z := (λ k, rnd (wrap_u32 s) k mod SIZE) <$> seq 0 10.

Lemma draw_fill_spec rnd fd rd urandom now err out :
  fill rnd fd rd urandom now err rng_init SIZE out =
  Ok (Some <$> numbers rnd (load_seed fd rd urandom now err).1,
    mkRng 1 (wrap_u32 (load_seed fd rd urandom now err).1) 10, out ++ (load_seed fd rd urandom now err).2).
Proof.
  unfold fill, random_xid. cbn [initialized rng_init]. destruct (load_seed fd rd urandom now err) as [s msg].
  rewrite app_nil_r. unfold store_init, numbers. cbn [fst snd]. generalize (wrap_u32 s). intros u. reflexivity.
Qed.

Lemma numbers_length rnd s : length (numbers rnd s) = 10%nat.
Proof. done. Qed.

Lemma numbers_digits rnd s : Forall (λ x, 0 ≤ x < SIZE) (numbers rnd s).
Proof. apply Forall_fmap, Forall_forall. intros k _. by apply Z.mod_pos_bound. Qed.

Lemma printa_10 p out : length p = 10%nat → printa p SIZE out = Ok (out ++ shown p).
Proof. intros H. rewrite <- printa_spec. by rewrite H. Qed.

(** For every generator and environment popup returns the ten drawn numbers in descending order
    after exactly 55 rounds, and prints them before and after. *)
Theorem popup_sorts rnd fd rd urandom now err round :
  0 ≤ round ≤ INT_MAX - 55 →
  let s := load_seed fd rd urandom now err in
  let xs := numbers rnd s.1 in
  ∃ a, popup rnd fd rd urandom now err rng_init round =
    Ok (a, round + 55, mkRng 1 (wrap_u32 s.1) 10,
      [PutStr "popup sort.\n"] ++ s.2 ++ [PutStr "sort "; PutInt 10; PutStr " random number\n"] ++ shown xs ++
      [PutStr "\nrun "; PutInt (round + 55); PutStr " round, after popup:\n"] ++ shown a) ∧
    a ≡ₚ xs ∧ sorted Z.ge a 0 9 ∧ Forall (λ x, 0 ≤ x < 10) a.
Proof.
  intros Hr s xs. unfold popup. rewrite draw_fill_spec, bind_ok. cbn beta iota. fold s xs.
  rewrite values_some, bind_ok, (printa_10 xs), bind_ok by done.
  destruct (popup_sort_spec xs round) as (a & E & P & S); [done|lia|change (round + 55 ≤ INT_MAX); lia|].
  change (Z.of_nat (length xs)) with SIZE in *. change (SIZE * (SIZE + 1) / 2) with 55 in E. rewrite E, bind_ok. cbn beta iota.
  pose proof (Permutation_length P) as L. rewrite (printa_10 a), bind_ok by done.
  exists a. split; [by rewrite <- !app_assoc|]. split; [done|]. split; [done|].
  rewrite P. apply numbers_digits.
Qed.

Lemma popup_witness :
  (0 ≤ 7 ≤ INT_MAX - 55) ∧
  ∃ a out, popup (λ s k, s * Z.of_nat k) 3 8 17 0 [] rng_init 7 = Ok (a, 62, mkRng 1 17 10, out) ∧ sorted Z.ge a 0 9.
Proof.
  split; [by vm_compute|].
  destruct (popup_sorts (λ s k, s * Z.of_nat k) 3 8 17 0 [] 7 ltac:(by vm_compute)) as (a & E & _ & S & _).
  eexists _, _. split; [exact E|exact S].
Defined.

(** C33: For every generator and environment myqsort returns: the array is a permutation of the
    ten drawn numbers in ascending order, the round counter grows by at most 45, and the
    output shows the numbers before and after. *)
Theorem myqsort_sorts rnd fd rd urandom now err round :
  0 ≤ round ≤ INT_MAX - 90 →
  let s := load_seed fd rd urandom now err in
  let xs := numbers rnd s.1 in
  ∃ a n trace, myqsort rnd fd rd urandom now err rng_init round =
    Ok (a, n, mkRng 1 (wrap_u32 s.1) 10,
      [PutStr "run myqsort\n"] ++ s.2 ++ [PutStr "sort "; PutInt 10; PutStr " random number\n"] ++ shown xs ++
      trace ++ [PutStr "after run "; PutInt n; PutStr " round\n"] ++ shown a) ∧
    a ≡ₚ xs ∧ sorted Z.le a 0 9 ∧ Forall (λ x, 0 ≤ x < 10) a ∧ round ≤ n ≤ round + 45.
Proof.
  intros Hr s xs. unfold myqsort. rewrite draw_fill_spec, bind_ok. cbn beta iota. fold s xs.
  rewrite values_some, bind_ok, (printa_10 xs), bind_ok by done. change (SIZE - 1) with 9.
  destruct (q_sort_spec 11 xs 0 9 round (((([PutStr "run myqsort\n"] ++ s.2) ++
    [PutStr "sort "; PutInt SIZE; PutStr " random number\n"]) ++ shown xs))) as (a & n & tr & E & R & S & B & B');
    [done|lia|lia|lia|cbn; lia|unfold INT_MIN; lia|lia|].
  rewrite E, bind_ok. cbn beta iota. pose proof (re_len _ _ _ _ R) as L. rewrite (printa_10 a), bind_ok by done.
  exists a, n, tr. split; [by rewrite <- !app_assoc|]. split; [apply R|]. split; [done|].
  split; [|lia]. rewrite (re_perm _ _ _ _ R). apply numbers_digits.
Qed.

Lemma myqsort_witness :
  (0 ≤ 0 ≤ INT_MAX - 90) ∧
  ∃ a n out, myqsort (λ s k, s * Z.of_nat k) 3 (-1) 0 23 [] rng_init 0 = Ok (a, n, mkRng 1 23 10, out) ∧ sorted Z.le a 0 9.
Proof.
  split; [by vm_compute|].
  destruct (myqsort_sorts (λ s k, s * Z.of_nat k) 3 (-1) 0 23 [] 0 ltac:(by vm_compute)) as (a & n & tr & E & _ & S & _).
  eexists _, _, _. split; [exact E|exact S].
Defined.
