(* ===== verification/Primes.v ===== *)
(** Trial division: [src/cpp/algorithm/isprime.c], which prints primes, and
    [is_prime] of [src/cpp/algorithm/rsa_demo.c]. *)
From Stdlib Require Import Zdivisibility Sorted.
From S2P Require Import Prelude.

(** ** Loops that return from their body *)

(** ** The programs *)

(** [isprime]: 0 for a prime; below 2 the end of the body is reached without a
    value. *)
Definition isprime (num : Z) : res Z :=
  r ← for_ret (Z.to_nat (num - 1)) 2 (λ i,
    m ← c_mod num i;
    if m =? 0 then mret (Some (if negb (num =? i) then 1 else 0)) else mret None);
  match r with Some x => Ok x | None => Err NoReturnValue end.

(** [main] of isprime.c: [i], [N] and the output. *)
Definition isprime_main (fuel : nat) : res (Z * Z * list output) :=
  while fuel (λ '(i, N, _), mret (i <? 2800))
    (λ '(i, N, out),
      r ← isprime N;
      let '(i, out) := if r =? 0 then (i + 1, out ++ [PutInt N; PutStr "\t"]) else (i, out) in
      N ← chk_int (N + 1);
      mret (i, N, out)) (0, 3, []).

(** [is_prime] of rsa_demo.c: 1 for a prime, and what it prints; [i] is an
    [int] and [s] is unsigned. *)
Definition is_prime (s : Z) : res (Z * list output) :=
  r ← for_ret (Z.to_nat (s - 2)) 2 (λ i,
    if s mod i =? 0 then mret (Some (0, [PutInt s; PutStr " 不是一个素数("; PutInt s; PutStr " is not a prime)\n"]))
    else _ ← chk_int (i + 1); mret None);
  match r with Some x => Ok x | None => Ok (1, []) end.

(** ** Least divisors *)

(** [d] is the least divisor of [n] from 2 on. *)
Definition least_div (n d : Z) : Prop := 2 ≤ d ≤ n ∧ n mod d = 0 ∧ ∀ i, 2 ≤ i < d → n mod i ≠ 0.

Lemma least_div_ex n : 2 ≤ n → ∃ d, least_div n d.
Proof.
  intros Hn. enough (H : ∀ k : nat, 2 + Z.of_nat k ≤ n → (∃ d, least_div n d) ∨ ∀ i, 2 ≤ i < 2 + Z.of_nat k → n mod i ≠ 0).
  { destruct (H (Z.to_nat (n - 2))) as [?|Hi]; [lia|done|]. exists n. split; [lia|].
    split; [apply Z.mod_same; lia|]. intros i Hi'. apply Hi. lia. }
  induction k as [|k IH]; intros Hk; [right; lia|]. destruct IH as [?|Hi]; [lia|by left|].
  set (d := 2 + Z.of_nat k) in *. destruct (decide (n mod d = 0)) as [E|E].
  - left. exists d. split; [lia|done].
  - right. intros i Hi'. destruct (decide (i = d)) as [->|]; [done|]. apply Hi. lia.
Qed.

Lemma prime_no_div n : 2 ≤ n → Z.prime n ↔ ∀ i, 2 ≤ i < n → n mod i ≠ 0.
Proof.
  intros Hn. split.
  - intros [_ H] i Hi E. apply (H i); [lia|]. by apply Z.mod_divide; [lia|].
  - intros H. split; [lia|]. intros i Hi D. apply (H i); [lia|]. by apply Z.mod_divide; [lia|].
Qed.

Lemma least_div_prime n d : 2 ≤ n → least_div n d → d = n ↔ Z.prime n.
Proof.
  intros Hn (Hd & E & H). rewrite prime_no_div by done. split; [by intros ->|].
  intros Hp. destruct (decide (d = n)); [done|]. exfalso. apply (Hp d); [lia|done].
Qed.

Lemma isprime_spec num d :
  2 ≤ num → least_div num d → isprime num = Ok (if decide (d = num) then 0 else 1).
Proof.
  intros Hn (Hd & E & H). unfold isprime.
  rewrite (for_ret_stop _ 2 d (if decide (d = num) then 0 else 1)).
  - done.
  - lia.
  - intros j Hj. rewrite c_mod_nonneg, bind_ok by lia. specialize (H j ltac:(lia)).
    by destruct (Z.eqb_spec (num mod j) 0).
  - rewrite c_mod_nonneg, bind_ok, E by lia. change (0 =? 0) with true. cbn beta iota.
    case_decide as Ed.
    + by rewrite Ed, Z.eqb_refl.
    + destruct (Z.eqb_spec num d); [congruence|done].
Qed.

(** ** A faster test, for computing *)

(** No divisor among the [k] numbers from [i]. *)
Fixpoint no_div (n i : Z) (k : nat) : bool :=
  match k with O => true | S k' => if n mod i =? 0 then false else no_div n (i + 1) k' end.

Lemma no_div_spec n i k : no_div n i k = true ↔ ∀ j, i ≤ j < i + Z.of_nat k → n mod j ≠ 0.
Proof.
  revert i. induction k as [|k IH]; intros i; cbn [no_div]; [split; [lia|done]|].
  destruct (Z.eqb_spec (n mod i) 0) as [E|E].
  - split; [done|]. intros H. exfalso. apply (H i); [lia|done].
  - rewrite IH. split; intros H j Hj; [|apply H; lia].
    destruct (decide (j = i)) as [->|]; [done|]. apply H. lia.
Qed.

(** Trial division up to the square root. *)
Definition sqrt_prime (n : Z) : bool := no_div n 2 (Z.to_nat (Z.sqrt n - 1)).

Lemma sqrt_prime_spec n : 2 ≤ n → sqrt_prime n = true ↔ Z.prime n.
Proof.
  intros Hn. rewrite prime_no_div by done. unfold sqrt_prime. rewrite no_div_spec.
  pose proof (Z.sqrt_spec n ltac:(lia)) as [S1 S2]. set (r := Z.sqrt n) in *. split.
  - intros H i Hi E. apply Z.mod_divide in E as [k Ek]; [|lia].
    assert (D : ∀ x, 2 ≤ x ≤ r → (x | n) → False).
    { intros x Hx Ex. apply (H x); [lia|]. by apply Z.mod_divide; [lia|]. }
    destruct (decide (i ≤ r)).
    + apply (D i); [lia|]. by exists k.
    + assert (2 ≤ k ≤ r) by nia. apply (D k); [lia|]. exists i. lia.
  - intros H x Hx. apply H. nia.
Qed.

(** The numbers [i], [i + 1], ... *)
Fixpoint upfrom (i : Z) (k : nat) : list Z :=
  match k with O => [] | S k' => i :: upfrom (i + 1) k' end.

Lemma upfrom_snoc i k : upfrom i (S k) = upfrom i k ++ [i + Z.of_nat k].
Proof.
  revert i. induction k as [|k IH]; intros i; [by rewrite Z.add_0_r|]. cbn [upfrom app] in *.
  f_equal. etransitivity; [exact (IH (i + 1))|]. f_equal. f_equal. lia.
Qed.

Lemma elem_of_upfrom i k x : x ∈ upfrom i k ↔ i ≤ x < i + Z.of_nat k.
Proof.
  revert i. induction k as [|k IH]; intros i; cbn [upfrom].
  - rewrite elem_of_nil. lia.
  - rewrite elem_of_cons, IH. lia.
Qed.

(** The primes of the range [3..N-1]. *)
Definition primes_below (N : Z) : list Z := List.filter sqrt_prime (upfrom 3 (Z.to_nat (N - 3))).

Lemma primes_below_step N :
  3 ≤ N → primes_below (N + 1) = primes_below N ++ (if sqrt_prime N then [N] else []).
Proof.
  intros HN. unfold primes_below. replace (Z.to_nat (N + 1 - 3)) with (S (Z.to_nat (N - 3))) by lia.
  rewrite upfrom_snoc, List.filter_app. f_equal. replace (3 + Z.of_nat (Z.to_nat (N - 3))) with N by lia. done.
Qed.

Lemma primes_below_elem N x : x ∈ primes_below N ↔ 3 ≤ x < N ∧ Z.prime x.
Proof.
  unfold primes_below. rewrite list_elem_of_In, filter_In, <- list_elem_of_In, elem_of_upfrom. split.
  - intros [Hx Hp]. split; [lia|]. apply sqrt_prime_spec; [lia|done].
  - intros [Hx Hp]. split; [lia|]. apply sqrt_prime_spec; [lia|done].
Qed.

Lemma primes_below_mono N M : 3 ≤ N ≤ M → (length (primes_below N) ≤ length (primes_below M))%nat.
Proof.
  intros [HN HM]. replace M with (N + Z.of_nat (Z.to_nat (M - N))) by lia. generalize (Z.to_nat (M - N)). intros k.
  induction k as [|k IH]; [by rewrite Z.add_0_r|]. replace (N + Z.of_nat (S k)) with (N + Z.of_nat k + 1) by lia.
  rewrite primes_below_step, length_app by lia. lia.
Qed.

Lemma primes_2800 : length (primes_below 25410) = 2800%nat ∧ length (primes_below 25409) = 2799%nat.
Proof.
  assert (E : length (primes_below 25409) = 2799%nat) by (vm_compute; reflexivity).
  split; [|exact E]. change 25410 with (25409 + 1). rewrite primes_below_step, length_app, E by lia. vm_compute; reflexivity.
Qed.

Lemma primes_below_sorted N : StronglySorted Z.lt (primes_below N).
Proof.
  unfold primes_below. generalize (Z.to_nat (N - 3)). intros k. generalize 3. induction k as [|k IH]; intros i; [constructor|].
  cbn [upfrom List.filter]. destruct (sqrt_prime i); [|apply IH]. constructor; [apply IH|].
  apply Forall_forall. intros x Hx. apply list_elem_of_In, filter_In in Hx as [Hx _].
  apply list_elem_of_In, elem_of_upfrom in Hx. lia.
Qed.

(** ** Properties *)

Lemma is_prime_spec n d :
  2 ≤ n ≤ INT_MAX → least_div n d →
  is_prime n = Ok (if decide (d = n) then (1, [])
    else (0, [PutInt n; PutStr " 不是一个素数("; PutInt n; PutStr " is not a prime)\n"])).
Proof.
  intros Hn (Hd & E & H). unfold is_prime. case_decide as Ed.
  - rewrite for_ret_end; [done|]. intros j Hj. specialize (H j ltac:(lia)).
    destruct (Z.eqb_spec (n mod j) 0); [done|]. by rewrite chk_int_ok by (unfold INT_MIN; lia).
  - erewrite (for_ret_stop _ 2 d); [reflexivity|lia| |].
    + intros j Hj. specialize (H j ltac:(lia)). destruct (Z.eqb_spec (n mod j) 0); [done|].
      by rewrite chk_int_ok by (unfold INT_MIN; lia).
    + cbn beta. rewrite E. done.
Qed.

(** From 2 to INT_MAX isprime returns 0 and is_prime returns 1 for the primes, and 1 and 0 for
    the other numbers; below 2 isprime returns no value and is_prime returns 1. *)
Theorem primes_decided n :
  (n < 2 → isprime n = Err NoReturnValue ∧ is_prime n = Ok (1, [])) ∧
  (2 ≤ n ≤ INT_MAX → ∃ r out, isprime n = Ok r ∧ is_prime n = Ok (1 - r, out) ∧ 0 ≤ r ≤ 1 ∧ (r = 0 ↔ Z.prime n)).
Proof.
  split.
  - intros Hn. unfold isprime, is_prime. by replace (Z.to_nat (n - 1)) with O by lia;
      replace (Z.to_nat (n - 2)) with O by lia.
  - intros Hn. destruct (least_div_ex n) as [d Hd]; [lia|].
    rewrite (isprime_spec n d), (is_prime_spec n d) by (done || lia).
    pose proof (least_div_prime n d ltac:(lia) Hd) as Hp.
    case_decide as E; eexists _, _; (split; [reflexivity|]); (split; [reflexivity|]); (split; [lia|]).
    + tauto.
    + split; [lia|]. intros P. tauto.
Qed.

Lemma primes_decided_witness : isprime 1 = Err NoReturnValue ∧ ∃ r out, isprime 91 = Ok r ∧ is_prime 91 = Ok (1 - r, out) ∧ 0 ≤ r ≤ 1 ∧ (r = 0 ↔ Z.prime 91).
Proof.
  split; [apply (proj1 (primes_decided 1)); lia|apply (proj2 (primes_decided 91)); by vm_compute].
Defined.

(** The state of [main] when it looks at [N]. *)
Definition printed (N : Z) : list output := primes_below N ≫= λ p, [PutInt p; PutStr "\t"].

Lemma printed_step N :
  3 ≤ N → printed (N + 1) = printed N ++ (if sqrt_prime N then [PutInt N; PutStr "\t"] else []).
Proof.
  intros HN. unfold printed. rewrite primes_below_step, bind_app by done. by destruct (sqrt_prime N).
Qed.

Lemma isprime_sqrt N : 2 ≤ N → isprime N = Ok (if sqrt_prime N then 0 else 1).
Proof.
  intros HN. destruct (least_div_ex N HN) as [d Hd]. rewrite (isprime_spec N d HN Hd).
  pose proof (least_div_prime N d HN Hd). pose proof (sqrt_prime_spec N HN). case_decide.
  - destruct (sqrt_prime N); [done|]. assert (false = true) by tauto. done.
  - destruct (sqrt_prime N); [tauto|done].
Qed.

(** C34: The loop of isprime's main ends after looking at every number from 3 to 25409, and has
    printed in ascending order exactly the 2800 primes among them. *)
Theorem isprime_main_primes :
  ∃ l, isprime_main (Z.to_nat 25408) = Ok (2800, 25410, l ≫= λ p, [PutInt p; PutStr "\t"]) ∧
    length l = 2800%nat ∧ StronglySorted Z.lt l ∧ ∀ x, x ∈ l ↔ 3 ≤ x < 25410 ∧ Z.prime x.
Proof.
  exists (primes_below 25410). split; [|split; [apply primes_2800|split; [apply primes_below_sorted|apply primes_below_elem]]].
  unfold isprime_main. match goal with |- while _ ?c ?b _ = _ => set (cond := c); set (body := b) end.
  destruct (while_inv (λ '(i, N, out), 3 ≤ N ≤ 25410 ∧ i = Z.of_nat (length (primes_below N)) ∧ out = printed N)
    cond body (λ '(_, N, _), Z.to_nat (25410 - N)) (Z.to_nat 25408) (0, 3, [])) as ([[i N] out] & -> & (HN & Hi & Ho) & Hc).
  - done.
  - apply Z2Nat.inj_lt; lia.
  - intros [[i N] out] (HN & Hi & Ho). unfold cond. cbn beta iota. destruct (Z.ltb_spec i 2800) as [Hlt|]; [right|by left].
    split; [done|]. assert (N < 25410).
    { destruct (decide (N = 25410)) as [->|]; [|lia]. rewrite (proj1 primes_2800) in Hi. lia. }
    unfold body. cbn beta iota. rewrite isprime_sqrt, bind_ok by lia.
    exists (Z.of_nat (length (primes_below (N + 1))), N + 1, printed (N + 1)).
    rewrite primes_below_step, printed_step, length_app, <- Ho by lia. split.
    + destruct (sqrt_prime N); cbn beta iota; change (0 =? 0) with true; change (1 =? 0) with false; cbn beta iota;
        rewrite chk_int_ok, bind_ok by (unfold INT_MIN, INT_MAX; lia); cbn [length]; repeat f_equal; rewrite ?app_nil_r; lia || done.
    + split; [|lia]. split; [lia|]. done.
  - unfold cond in Hc. cbn beta iota in Hc. injection Hc as Hc. apply Z.ltb_ge in Hc.
    assert (N = 25410).
    { destruct (decide (N = 25410)); [done|]. pose proof (primes_below_mono N 25409 ltac:(lia)) as M.
      rewrite (proj2 primes_2800) in M. lia. }
    subst N. rewrite (proj1 primes_2800) in Hi. rewrite Hi, Ho. done.
Qed.
