(* ===== verification/Rsa.v ===== *)
(** The RSA programs of [src/cpp/algorithm]: [rsa_demo.c] with its key
    generation, [rsa_algorithm.c] with fixed keys, and [rsa_deploy.c], which
    only decrypts.

    Characters are signed; [unsigned int] is reduced modulo 2^32.  The values
    that [rand] returns are an argument. *)
From S2P Require Import Prelude CString Primes.

Definition P : Z := 7.
Definition Q : Z := 11.

(** ** rsa_demo.c: keys *)

(** Two levels of the recursion halve the product of the arguments, so that 66
    levels are enough for 32-bit numbers. *)
Fixpoint com_div (fuel : nat) (p q : Z) : res Z :=
  match fuel with
  | O => Err OutOfFuel
  | S fuel' =>
      let '(a, b) := if q <? p then (p, q) else (q, p) in
      if b =? 0 then mret a else r ← c_mod a b; com_div fuel' b r
  end.

Definition get_com_div (p q : Z) : res Z := com_div 66 p q.

Definition get_private_key (e t : Z) : res (Z * list output) :=
  r ← for_ret (Z.to_nat t) 0 (λ d,
    m ← c_mod (wrap_u32 (e * d)) t;
    mret (if m =? 1 then Some (d, []) else None));
  match r with
  | Some x => Ok x
  | None => Ok (wrap_u32 (-1), [PutStr "get_private_key_err, give another \n"])
  end.

(** [rands]: the values of [rand], one for each turn of the loop. *)
Fixpoint draw (t : Z) (rands : list Z) : res Z :=
  match rands with
  | [] => Err OutOfFuel
  | x :: rands =>
      e ← c_mod x t;
      g ← get_com_div e t;
      if g =? 1 then mret e else draw t rands
  end.

Definition get_random (p q : Z) (rands : list Z) : res Z :=
  draw (wrap_u32 (wrap_u32 (p - 1) * wrap_u32 (q - 1))) rands.

(** ** rsa_demo.c: encryption *)

(** [for (int j = 0; j < e; j++) flag = flag * m % n], all unsigned. *)
Definition pow_u32 (m e n : Z) : res Z :=
  for_range 0 e (λ j flag,
    flag ← c_mod (wrap_u32 (flag * m)) n;
    _ ← chk_int (j + 1);
    mret flag) 1.

Definition encrypt_dt (e n : Z) (plain : list Z) (size : Z) (cypher : list cell) : res (list cell) :=
  plain_num ← for_range 0 size (λ i a, c ← load plain i; store_init a i (wrap_u32 c))
    (replicate (Z.to_nat size) None);
  for_range 0 size (λ i cypher,
    m ← load_init plain_num i;
    flag ← pow_u32 m e n;
    store_init cypher i flag) cypher.

Definition decrypt_dt (d n : Z) (cypher : list cell) (plain : list Z) (size : Z) : res (list Z) :=
  dec_num ← for_range 0 size (λ i a,
    c ← load_init cypher i;
    flag ← pow_u32 c d n;
    store_init a i flag) (replicate (Z.to_nat size) None);
  for_range 0 size (λ i plain, c ← load_init dec_num i; store plain i (wrap_i8 c)) plain.

(** [%x]: the digits of a number, and at least [w] of them; [a] is the code of
    the digit ten. *)
Fixpoint hex_digits (a : Z) (fuel : nat) (z : Z) : list Z :=
  match fuel with
  | O => []
  | S fuel' =>
      let d := z mod 16 in
      (if z <? 16 then [] else hex_digits a fuel' (z / 16)) ++ [if d <? 10 then 48 + d else a + d - 10]
  end.

Definition hex_chars (a : Z) (w : nat) (z : Z) : list Z :=
  let d := hex_digits a 8 z in replicate (w - length d) 48 ++ d.

Definition rsa_txt : list Z := codes "hellorsa1hellorsa2hellorsa3".

(** [main] of rsa_demo.c: the exit code and the output. *)
Definition rsa_demo_main (rands : list Z) : res (Z * list output) :=
  '(tep, out) ← is_prime P;
  if tep =? 0 then mret (-1, out ++ [PutStr "p="; PutInt P; PutStr " is not a prime\n"]) else
  '(tep, o) ← is_prime Q;
  let out := out ++ o in
  if tep =? 0 then mret (-1, out ++ [PutStr "q="; PutInt Q; PutStr " is not a prime\n"]) else
  tep ← get_com_div P Q;
  if negb (tep =? 1)
  then mret (-1, out ++ [PutInt P; PutStr " and "; PutInt Q; PutStr " is not with a co-prime relation\n"]) else
  let n := P * Q in
  let t := (P - 1) * (Q - 1) in
  e ← get_random P Q rands;
  '(d, o) ← get_private_key e t;
  let out := out ++ [PutStr "大素数 p="; PutInt P; PutStr ", q="; PutInt Q; PutStr "\n";
    PutStr "t=(q-1)*(p-1)="; PutInt t; PutStr "\n";
    PutStr "pub_key(e="; PutInt e; PutStr " n="; PutInt n; PutStr ")\n"] ++ o ++
    [PutStr "pri_key(d="; PutInt (wrap_i32 d); PutStr ", n="; PutInt n; PutStr ")\n"] in
  size ← c_strlen (rsa_txt ++ [0]);
  cypher ← encrypt_dt e n (rsa_txt ++ [0]) size (replicate (Z.to_nat size) None);
  out ← for_range 0 size (λ i out, c ← load_init cypher i; mret (out ++ [PutChars (hex_chars 97 4 c)]))
    (out ++ [PutStr "plain_text:"; PutChars rsa_txt; PutStr "\n"; PutStr "cypher:"]);
  dec_result ← decrypt_dt d n cypher (replicate (Z.to_nat (size + 1)) 0) size;
  l ← c_chars dec_result;
  mret (0, out ++ [PutStr "\n"; PutStr "dec_dt："; PutChars l; PutStr "\n"]).

(** ** rsa_algorithm.c *)

Definition RSA_SIZE : Z := 20.

Definition pow_int (m e n : Z) : res Z :=
  for_range 0 e (λ _ flag, x ← chk_int (flag * m); c_mod x n) 1.

(** [encrypt_dt]: the static [cypher] is overwritten at every call. *)
Definition encrypt_dt_int (e n : Z) (plain_txt cypher : list Z) : res (list Z) :=
  plain_num ← for_range 0 RSA_SIZE (λ i a, c ← load plain_txt i; store_init a i c)
    (replicate (Z.to_nat RSA_SIZE) None);
  for_range 0 RSA_SIZE (λ i cypher,
    m ← load_init plain_num i;
    flag ← pow_int m e n;
    store cypher i flag) cypher.

(** [flag] is an [unsigned long]; [cypher[i]] and [n] are converted to it. *)
Definition pow_u64 (m e n : Z) : res Z :=
  for_range 0 e (λ _ flag, c_mod (wrap_u64 (flag * wrap_u64 m)) (wrap_u64 n)) 1.

(** [decrypt_dt], the same in rsa_deploy.c. *)
Definition decrypt_dt_long (d n : Z) (cypher dec_str : list Z) : res (list Z) :=
  dec_num ← for_range 0 RSA_SIZE (λ i a,
    c ← load cypher i;
    flag ← pow_u64 c d n;
    store_init a i flag) (replicate (Z.to_nat RSA_SIZE) None);
  for_range 0 RSA_SIZE (λ i s, c ← load_init dec_num i; store s i (wrap_i8 c)) dec_str.

Definition algo_txt : list Z := codes "ZeYJd8HFkI9l2$lGifRT".

(** [main] of rsa_algorithm.c, from the call of [encrypt_dt] to the end. *)
Definition rsa_algorithm_main : res (list output) :=
  let '(e, n, d) := (480317, 968087, 537653) in
  let txt := algo_txt ++ [0] in
  cypher ← encrypt_dt_int e n txt (replicate 20 0);
  len ← c_strlen txt;
  out ← for_range 0 len (λ i out, c ← load cypher i; mret (out ++ [PutInt c; PutStr " "]))
    [PutStr "(e="; PutInt e; PutStr ", n="; PutInt n; PutStr ")\n";
     PutStr "(d="; PutInt d; PutStr ", n="; PutInt n; PutStr ")\n"; PutStr "txt="; PutChars algo_txt; PutStr "\n";
     PutStr "encrypt_dt("; PutInt e; PutStr ", "; PutInt n; PutStr ", "; PutChars algo_txt; PutStr ")\n"; PutStr "cypher="];
  out ← for_range 0 len (λ i out, c ← load cypher i; mret (out ++ [PutChars (hex_chars 65 2 c)]))
    (out ++ [PutStr "cypher_hex="]);
  dec_dt ← decrypt_dt_long d n cypher (replicate 20 0);
  l ← c_chars dec_dt;
  mret (out ++ [PutStr "\n"; PutStr "dec_dt="; PutChars l; PutStr "\n"]).

(** ** rsa_deploy.c *)

Definition D : Z := 3989.
Definition N : Z := 4171.

Definition dec (cypher dec_str : list Z) : res (list Z) := decrypt_dt_long D N cypher dec_str.

(** [strncpy(dst, s, n)]: the characters up to a NUL, padded with NULs. *)
Definition strncpy (dst s : list Z) (n : nat) : res (list Z) :=
  l ← c_prefix n s;
  for_range 0 (Z.of_nat n) (λ i d, store d i (default 0 (l !! Z.to_nat i))) dst.

Definition hexval (c : Z) : option Z :=
  if (48 <=? c) && (c <=? 57) then Some (c - 48)
  else if (97 <=? c) && (c <=? 102) then Some (c - 87)
  else if (65 <=? c) && (c <=? 70) then Some (c - 55) else None.

Fixpoint strtol_digits (s : list Z) (acc : Z) : res Z :=
  match s with
  | [] => Err OutOfBounds
  | c :: s' => match hexval c with Some v => strtol_digits s' (16 * acc + v) | None => Ok acc end
  end.

(** [strtol(s, NULL, 16)] on a text that starts with a digit. *)
Definition strtol16 (s : list Z) : res Z := v ← strtol_digits s 0; mret (v `min` (2 ^ 63 - 1)).

Definition cypher_hex : list Z := codes (
  "00000E930000021B0000005900000E930000012600000E930000021B00000059" ++
  "00000E930000015200000E930000021B0000005900000E9300000EE300000E93" ++
  "0000021B0000005900000E9300000751").

(** One turn of the loop that reads the numbers. *)
Definition read_cypher (i : Z) : res Z :=
  p ← ptr (cypher_hex ++ [0]) (i * 8);
  int_str ← strncpy (replicate 8 0) p 8;
  v ← strtol16 int_str;
  mret (wrap_i32 v).

Definition rsa_deploy_main : res (list output) :=
  int_cypher ← for_range 0 RSA_SIZE (λ i a, v ← read_cypher i; store a i v) (replicate 20 0);
  dec_dt ← dec int_cypher (replicate 20 0);
  l ← c_chars dec_dt;
  mret ([PutStr "config(d="; PutInt D; PutStr ", n="; PutInt N; PutStr ", s="; PutInt RSA_SIZE; PutStr ")\n";
    PutStr "assert_txt=test1test2test3test4\n"; PutStr "cypher_hex="; PutChars cypher_hex; PutStr "\n";
    PutStr "dec_dt="; PutChars l; PutStr "\n"]).
