(* ===== verification/RsaSpec.v ===== *)
(** The arithmetic of the RSA programs: their loops compute powers, their keys
    are inverse to each other, and decryption undoes encryption. *)
From Stdlib Require Import Zdivisibility Zmod.ZmodInv.
From S2P Require Import Prelude CString Primes Rsa.

(** ** Powers *)

Lemma pow_step m n j : 1 < n → 0 ≤ j → ((m ^ j mod n) * m) mod n = m ^ (j + 1) mod n.
Proof. intros Hn Hj. rewrite Z.mul_mod_idemp_l, Z.pow_add_r, Z.pow_1_r by lia. done. Qed.

Lemma pow_u32_spec m e n :
  1 < n ≤ 65536 → 0 ≤ m < 65536 → 0 ≤ e ≤ INT_MAX → pow_u32 m e n = Ok (m ^ e mod n).
Proof.
  intros Hn Hm He. unfold pow_u32.
  match goal with |- for_range 0 e ?b 1 = _ => set (body := b) end.
  destruct (for_range_inv (λ j flag, 0 ≤ j ∧ flag = m ^ j mod n) body 0 e 1) as (f & E & _ & ->); [lia| | |exact E].
  - split; [lia|]. by rewrite Z.pow_0_r, Z.mod_1_l by lia.
  - intros j flag Hj [H0 ->]. unfold body. pose proof (Z.mod_pos_bound (m ^ j) n ltac:(lia)).
    rewrite wrap_u32_id by nia. rewrite c_mod_nonneg, bind_ok by nia. rewrite chk_int_ok, bind_ok by (unfold INT_MIN; lia).
    eexists. split; [reflexivity|]. split; [lia|]. apply pow_step; lia.
Qed.

Lemma pow_int_spec m e n :
  1 < n → 0 ≤ m → (n - 1) * m ≤ INT_MAX → 0 ≤ e → pow_int m e n = Ok (m ^ e mod n).
Proof.
  intros Hn Hm Hmn He. unfold pow_int.
  match goal with |- for_range 0 e ?b 1 = _ => set (body := b) end.
  destruct (for_range_inv (λ j flag, 0 ≤ j ∧ flag = m ^ j mod n) body 0 e 1) as (f & E & _ & ->); [lia| | |exact E].
  - split; [lia|]. by rewrite Z.pow_0_r, Z.mod_1_l by lia.
  - intros j flag Hj [H0 ->]. unfold body. pose proof (Z.mod_pos_bound (m ^ j) n ltac:(lia)).
    rewrite chk_int_ok, bind_ok by (unfold INT_MIN; nia). rewrite c_mod_nonneg by nia.
    eexists. split; [reflexivity|]. split; [lia|]. apply pow_step; lia.
Qed.

Lemma pow_u64_spec m e n :
  1 < n < 2 ^ 31 → 0 ≤ m < 2 ^ 31 → 0 ≤ e → pow_u64 m e n = Ok (m ^ e mod n).
Proof.
  intros Hn Hm He. unfold pow_u64.
  match goal with |- for_range 0 e ?b 1 = _ => set (body := b) end.
  destruct (for_range_inv (λ j flag, 0 ≤ j ∧ flag = m ^ j mod n) body 0 e 1) as (f & E & _ & ->); [lia| | |exact E].
  - split; [lia|]. by rewrite Z.pow_0_r, Z.mod_1_l by lia.
  - intros j flag Hj [H0 ->]. unfold body. pose proof (Z.mod_pos_bound (m ^ j) n ltac:(lia)).
    assert (Hw : ∀ z, 0 ≤ z < 2 ^ 64 → wrap_u64 z = z) by (intros z Hz; by apply Z.mod_small).
    rewrite !Hw by (try (rewrite Hw by lia); nia). rewrite c_mod_nonneg by nia.
    eexists. split; [reflexivity|]. split; [lia|]. apply pow_step; lia.
Qed.

(** ** The theorem of Euler for a product of two primes *)

Lemma prime_pow p m k : Z.prime p → 0 ≤ k → (p | m ^ (1 + (p - 1) * k) - m).
Proof.
  intros Hp Hk. pose proof (Z.prime_ge_2 _ Hp). apply Z.mod_divide; [lia|].
  rewrite Z.pow_add_r, Z.pow_1_r, Z.pow_mul_r by nia.
  replace (m * (m ^ (p - 1)) ^ k - m) with (m * ((m ^ (p - 1)) ^ k - 1)) by ring.
  destruct (decide (m mod p = 0)) as [E|E].
  - rewrite <- Z.mul_mod_idemp_l, E, Z.mul_0_l, Z.mod_0_l by lia. done.
  - pose proof (Z.fermat_nz p m Hp E) as F. rewrite <- Z.mul_mod_idemp_r, Zminus_mod, <- Z.mod_pow_l, F, Z.pow_1_l by lia.
    rewrite <- Zminus_mod, Z.sub_diag, Z.mod_0_l, Z.mul_0_r, Z.mod_0_l by lia. done.
Qed.

Lemma rsa_core p q e d m :
  Z.prime p → Z.prime q → p ≠ q → 0 ≤ e → 0 ≤ d → (e * d) mod ((p - 1) * (q - 1)) = 1 →
  ((m ^ e mod (p * q)) ^ d) mod (p * q) = m mod (p * q).
Proof.
  intros Hp Hq Hne He Hd Hed. pose proof (Z.prime_ge_2 _ Hp). pose proof (Z.prime_ge_2 _ Hq).
  set (t := (p - 1) * (q - 1)) in *. assert (Ht : 0 < t) by nia.
  assert (Ek : e * d = 1 + t * (e * d / t)) by (pose proof (Z.div_mod (e * d) t ltac:(lia)); lia).
  set (k := e * d / t) in *. assert (Hk : 0 ≤ k) by (apply Z.div_pos; nia).
  rewrite Z.mod_pow_l, <- Z.pow_mul_r, Ek by lia.
  apply Z.cong_iff_0. apply Z.mod_divide; [nia|].
  assert (Dp : (p | m ^ (1 + t * k) - m)).
  { replace (t * k) with ((p - 1) * ((q - 1) * k)) by (subst t; ring). apply prime_pow; [done|nia]. }
  assert (Dq : (q | m ^ (1 + t * k) - m)).
  { replace (t * k) with ((q - 1) * ((p - 1) * k)) by (subst t; ring). apply prime_pow; [done|nia]. }
  destruct Dp as [x Ex]. rewrite Ex in Dq |- *. rewrite Z.mul_comm in Dq.
  apply Z.gauss in Dq as [y ->]; [exists y; ring|].
  apply Z.coprime_prime_l; [done|]. intros D. apply (Z.divide_prime_prime q p) in D; [lia|done|done].
Qed.

(** ** Keys *)

Lemma com_div_S f p q :
  com_div (S f) p q = let '(a, b) := if q <? p then (p, q) else (q, p) in
    if b =? 0 then mret a else r ← c_mod a b; com_div f b r.
Proof. done. Qed.

Lemma com_div_spec f p q : 0 ≤ p → 0 ≤ q → p * q < 2 ^ Z.of_nat f → com_div (S f) p q = Ok (Z.gcd p q).
Proof.
  revert p q. induction f as [|f IH]; intros p q Hp Hq Hpq.
  all: assert (E : ∃ a b, (if q <? p then (p, q) else (q, p)) = (a, b) ∧ 0 ≤ b ≤ a ∧ a * b = p * q ∧ Z.gcd a b = Z.gcd p q)
    by (destruct (Z.ltb_spec q p); eexists _, _; (split; [reflexivity|]); (split; [lia|]); (split; [ring|]);
        first [reflexivity|apply Z.gcd_comm]).
  all: destruct E as (a & b & E & Hab & Em & Eg); rewrite com_div_S, E; destruct (Z.eqb_spec b 0) as [->|Hb];
    [rewrite <- Eg, Z.gcd_0_r, Z.abs_eq by lia; done|].
  - cbn in Hpq. nia.
  - rewrite c_mod_nonneg, bind_ok by lia. pose proof (Z.mod_pos_bound a b ltac:(lia)).
    rewrite IH; [|lia|lia|].
    + by rewrite Z.gcd_mod_r, <- Eg, Z.gcd_comm.
    + rewrite Nat2Z.inj_succ, Z.pow_succ_r in Hpq by lia. pose proof (Z.div_mod a b ltac:(lia)).
      assert (1 ≤ a / b) by (apply Z.div_le_lower_bound; lia). nia.
Qed.

Lemma get_com_div_spec p q : 0 ≤ p < 2 ^ 32 → 0 ≤ q < 2 ^ 32 → get_com_div p q = Ok (Z.gcd p q).
Proof. intros Hp Hq. apply (com_div_spec 65); [lia|lia|]. cbn. nia. Qed.

Lemma inverse_ex e t : 1 < t → Z.gcd e t = 1 → ∃ d, 0 ≤ d < t ∧ (e * d) mod t = 1.
Proof.
  intros Ht G. destruct (Z.gcd_bezout e t 1 G) as (a & b & Eab). exists (a mod t).
  split; [apply Z.mod_pos_bound; lia|]. rewrite Z.mul_mod_idemp_r by lia.
  replace (e * a) with (1 + (- b) * t) by lia. by rewrite Z_mod_plus_full, Z.mod_1_l by lia.
Qed.

Lemma get_private_key_spec e t :
  1 < t → 0 ≤ e < t → t * t ≤ 2 ^ 32 →
  if Z.gcd e t =? 1
  then ∃ d, get_private_key e t = Ok (d, []) ∧ 0 ≤ d < t ∧ (e * d) mod t = 1
  else get_private_key e t = Ok (2 ^ 32 - 1, [PutStr "get_private_key_err, give another \n"]).
Proof.
  intros Ht He Hsq. unfold get_private_key.
  match goal with |- context [for_ret _ _ ?b] => set (body := b) end.
  assert (Eb : ∀ d, 0 ≤ d < t → body d = Ok (if (e * d) mod t =? 1 then Some (d, []) else None)).
  { intros d Hd. unfold body. rewrite wrap_u32_id, c_mod_nonneg by nia. done. }
  destruct (for_ret_cases (λ x, ∃ d, x = (d, []) ∧ 0 ≤ d < t ∧ (e * d) mod t = 1) (Z.to_nat t) 0 body)
    as [[E H]|(x & E & d & -> & Hd & Ed)].
  - intros d Hd. rewrite Eb by lia. destruct (Z.eqb_spec ((e * d) mod t) 1) as [Ed|]; [right|by left].
    eexists. split; [reflexivity|]. exists d. split; [done|]. split; [lia|done].
  - rewrite E, bind_ok. destruct (Z.eqb_spec (Z.gcd e t) 1) as [G|]; [|done].
    destruct (inverse_ex e t Ht G) as (d & Hd & Ed). specialize (H d ltac:(lia)).
    rewrite Eb, Ed in H by lia. done.
  - rewrite E, bind_ok. replace (Z.gcd e t) with 1; [by exists d|].
    symmetry. apply Z.bezout_1_gcd. exists d, (- ((e * d) / t)). pose proof (Z.div_mod (e * d) t ltac:(lia)). lia.
Qed.

(** The first number that is prime to [t]. *)
Fixpoint first_coprime (t : Z) (rands : list Z) : option Z :=
  match rands with
  | [] => None
  | x :: rands => if Z.gcd (x mod t) t =? 1 then Some (x mod t) else first_coprime t rands
  end.

Lemma draw_spec t rands :
  0 < t < 2 ^ 32 → Forall (λ x, 0 ≤ x) rands →
  draw t rands = match first_coprime t rands with Some e => Ok e | None => Err OutOfFuel end.
Proof.
  intros Ht. induction 1 as [|x rands Hx _ IH]; [done|]. cbn [draw first_coprime].
  rewrite c_mod_nonneg, bind_ok by lia. pose proof (Z.mod_pos_bound x t ltac:(lia)).
  rewrite get_com_div_spec, bind_ok by lia. by destruct (_ =? 1).
Qed.

Lemma first_coprime_spec t rands e :
  0 < t → first_coprime t rands = Some e → 0 ≤ e < t ∧ Z.gcd e t = 1.
Proof.
  intros Ht. induction rands as [|x rands IH]; [done|]. cbn. destruct (Z.eqb_spec (Z.gcd (x mod t) t) 1); [|done].
  intros [= <-]. split; [by apply Z.mod_pos_bound|done].
Qed.

(** ** Texts *)

(** The cells of an array after a loop has written [f] of every element. *)
Lemma map_cells (f : Z → Z) (l : list Z) (body : Z → list cell → res (list cell)) (m : list cell) :
  length m = length l →
  (∀ i x m, 0 ≤ i → l !! Z.to_nat i = Some x → body i m = store_init m i (f x)) →
  for_range 0 (Z.of_nat (length l)) body m = Ok (Some <$> (f <$> l)).
Proof.
  intros Lm Hb. rewrite (map_fill (λ x, Some (f x)) l body m); [|lia|intros i x m' Hi Hx _ _; by apply Hb].
  by rewrite drop_ge, app_nil_r, <- list_fmap_compose by lia.
Qed.

Lemma load_init_cells (l : list Z) i x :
  0 ≤ i → l !! Z.to_nat i = Some x → load_init (Some <$> l) i = Ok x.
Proof. intros Hi Hx. apply load_init_ok; [done|]. by rewrite list_lookup_fmap, Hx. Qed.

Lemma load_app (l r : list Z) i x : 0 ≤ i → l !! Z.to_nat i = Some x → load (l ++ r) i = Ok x.
Proof. intros Hi Hx. apply load_ok; [done|]. rewrite lookup_app_l; [done|]. by apply lookup_lt_Some in Hx. Qed.

(** Characters of the seven-bit range. *)
Definition ascii (l : list Z) : Prop := Forall (λ c, 0 ≤ c < 128) l.

Lemma encrypt_dt_spec e n (l r : list Z) (m : list cell) :
  ascii l → 1 < n ≤ 65536 → 0 ≤ e ≤ INT_MAX → length m = length l →
  encrypt_dt e n (l ++ r) (Z.of_nat (length l)) m = Ok (Some <$> ((λ c, c ^ e mod n) <$> l)).
Proof.
  intros Hl Hn He Lm. unfold encrypt_dt. rewrite (map_cells (λ c, c) l), bind_ok.
  - apply map_cells; [done|]. intros i x m' Hi Hx.
    rewrite list_fmap_id, (load_init_cells l i x), bind_ok by done.
    pose proof (Forall_lookup_1 _ _ _ _ Hl Hx) as Hc. cbn beta in Hc. by rewrite pow_u32_spec, bind_ok by lia.
  - rewrite length_replicate. lia.
  - intros i x m' Hi Hx. rewrite (load_app l r i x), bind_ok by done.
    pose proof (Forall_lookup_1 _ _ _ _ Hl Hx) as Hc. cbn beta in Hc. by rewrite wrap_u32_id by lia.
Qed.

Lemma decrypt_dt_spec d n (l : list Z) (plain : list Z) :
  Forall (λ c, 0 ≤ c < n) l → 1 < n ≤ 65536 → 0 ≤ d ≤ INT_MAX → (length l ≤ length plain)%nat →
  decrypt_dt d n (Some <$> l) plain (Z.of_nat (length l)) =
    Ok (((λ c, wrap_i8 (c ^ d mod n)) <$> l) ++ drop (length l) plain).
Proof.
  intros Hl Hn Hd Lp. unfold decrypt_dt. rewrite (map_cells (λ c, c ^ d mod n) l), bind_ok.
  - apply map_fill; [done|]. intros i x m' Hi Hx _ _. rewrite (load_init_cells _ i (x ^ d mod n)), bind_ok; [done|done|].
    by rewrite list_lookup_fmap, Hx.
  - rewrite length_replicate. lia.
  - intros i x m' Hi Hx. rewrite (load_init_cells l i x), bind_ok by done.
    pose proof (Forall_lookup_1 _ _ _ _ Hl Hx) as Hc. cbn beta in Hc. by rewrite pow_u32_spec, bind_ok by lia.
Qed.

Lemma rsa_chars p q e d (l : list Z) :
  Z.prime p → Z.prime q → p ≠ q → 0 ≤ e → 0 ≤ d → (e * d) mod ((p - 1) * (q - 1)) = 1 → 
  (λ c, wrap_i8 (c ^ d mod (p * q))) <$> ((λ c, c ^ e mod (p * q)) <$> l) = (λ c, wrap_i8 (c mod (p * q))) <$> l.
Proof.
  intros Hp Hq Hne He Hd Hed. rewrite <- list_fmap_compose. apply list_fmap_ext. intros i x _. cbn.
  by rewrite rsa_core.
Qed.

Lemma roundtrip_spec p q e d (l r plain : list Z) (m : list cell) :
  Z.prime p → Z.prime q → p ≠ q → p * q ≤ 65536 → 0 ≤ e ≤ INT_MAX → 0 ≤ d ≤ INT_MAX →
  (e * d) mod ((p - 1) * (q - 1)) = 1 → ascii l → length m = length l → (length l ≤ length plain)%nat →
  let c := (λ c, c ^ e mod (p * q)) <$> l in
  encrypt_dt e (p * q) (l ++ r) (Z.of_nat (length l)) m = Ok (Some <$> c) ∧
  decrypt_dt d (p * q) (Some <$> c) plain (Z.of_nat (length l)) =
    Ok (((λ c, wrap_i8 (c mod (p * q))) <$> l) ++ drop (length l) plain).
Proof.
  intros Hp Hq Hne Hn He Hd Hed Hl Lm Lp c. pose proof (Z.prime_ge_2 _ Hp). pose proof (Z.prime_ge_2 _ Hq).
  split; [apply encrypt_dt_spec; nia || done|].
  assert (Lc : length c = length l) by apply length_fmap. rewrite <- Lc.
  rewrite decrypt_dt_spec; [|subst c|nia|done|lia].
  - rewrite Lc. subst c. by rewrite rsa_chars by (done || lia).
  - apply Forall_fmap, Forall_forall. intros x _. apply Z.mod_pos_bound. nia.
Qed.

Lemma encrypt_int_spec e n (l r c0 : list Z) :
  ascii l → length l = 20%nat → length c0 = 20%nat → 1 < n → (n - 1) * 127 ≤ INT_MAX → 0 ≤ e →
  encrypt_dt_int e n (l ++ r) c0 = Ok ((λ c, c ^ e mod n) <$> l).
Proof.
  intros Hl Ll Lc Hn Hn' He. unfold encrypt_dt_int. change RSA_SIZE with (Z.of_nat 20). rewrite <- Ll.
  rewrite (map_cells (λ c, c) l), bind_ok.
  - rewrite (map_fill (λ c, c ^ e mod n) l); [by rewrite drop_ge, app_nil_r by lia|lia|].
    intros i x m' Hi Hx _ _. rewrite list_fmap_id, (load_init_cells l i x), bind_ok by done.
    pose proof (Forall_lookup_1 _ _ _ _ Hl Hx) as Hc. cbn beta in Hc. by rewrite pow_int_spec, bind_ok by nia.
  - rewrite length_replicate. lia.
  - intros i x m' Hi Hx. by rewrite (load_app l r i x), bind_ok by done.
Qed.

Lemma decrypt_long_spec d n (l s : list Z) :
  Forall (λ c, 0 ≤ c < n) l → length l = 20%nat → length s = 20%nat → 1 < n < 2 ^ 31 → 0 ≤ d →
  decrypt_dt_long d n l s = Ok ((λ c, wrap_i8 (c ^ d mod n)) <$> l).
Proof.
  intros Hl Ll Ls Hn Hd. unfold decrypt_dt_long. change RSA_SIZE with (Z.of_nat 20). rewrite <- Ll.
  rewrite (map_cells (λ c, c ^ d mod n) l), bind_ok.
  - rewrite (map_fill (λ c, wrap_i8 (c ^ d mod n)) l); [by rewrite drop_ge, app_nil_r by lia|lia|].
    intros i x m' Hi Hx _ _. rewrite (load_init_cells _ i (x ^ d mod n)), bind_ok; [done|done|].
    by rewrite list_lookup_fmap, Hx.
  - rewrite length_replicate. lia.
  - intros i x m' Hi Hx. rewrite (load_ok l i x), bind_ok by done.
    pose proof (Forall_lookup_1 _ _ _ _ Hl Hx) as Hc. cbn beta in Hc. by rewrite pow_u64_spec, bind_ok by lia.
Qed.

Lemma roundtrip_20 p q e d (l r c0 s : list Z) :
  Z.prime p → Z.prime q → p ≠ q → (p * q - 1) * 127 ≤ INT_MAX → 0 ≤ e → 0 ≤ d →
  (e * d) mod ((p - 1) * (q - 1)) = 1 → ascii l → length l = 20%nat → length c0 = 20%nat → length s = 20%nat →
  (c ← encrypt_dt_int e (p * q) (l ++ r) c0; decrypt_dt_long d (p * q) c s) =
    Ok ((λ c, wrap_i8 (c mod (p * q))) <$> l).
Proof.
  intros Hp Hq Hne Hn He Hd Hed Hl Ll Lc Ls. pose proof (Z.prime_ge_2 _ Hp). pose proof (Z.prime_ge_2 _ Hq).
  rewrite encrypt_int_spec, bind_ok by (done || nia). unfold INT_MAX in Hn. rewrite decrypt_long_spec.
  - by rewrite rsa_chars.
  - apply Forall_fmap, Forall_forall. intros x _. apply Z.mod_pos_bound. nia.
  - by rewrite length_fmap.
  - done.
  - nia.
  - done.
Qed.

(** ** Properties *)

(** C16: For any two distinct primes with a product n up to 65536 and any non-negative random
    numbers of which one is prime to t = (p-1)(q-1), get_random returns the first of those,
    get_private_key returns an inverse of it, and on characters from 0 to 127 and buffers
    that are long enough decrypt_dt undoes encrypt_dt up to the reduction of every character
    modulo n, which is the identity for n of at least 128. Nothing is claimed of negative
    characters. *)
Theorem rsa_keys_roundtrip p q e rands (l r plain : list Z) (m : list cell) :
  Z.prime p → Z.prime q → p ≠ q → p * q ≤ 65536 → Forall (λ x, 0 ≤ x) rands →
  let n := p * q in
  let t := (p - 1) * (q - 1) in
  first_coprime t rands = Some e → ascii l → length m = length l → (length l ≤ length plain)%nat →
  ∃ d c, get_random p q rands = Ok e ∧ get_private_key e t = Ok (d, []) ∧
    encrypt_dt e n (l ++ r) (Z.of_nat (length l)) m = Ok c ∧
    decrypt_dt d n c plain (Z.of_nat (length l)) = Ok (((λ c, wrap_i8 (c mod n)) <$> l) ++ drop (length l) plain) ∧
    (128 ≤ n → (λ c, wrap_i8 (c mod n)) <$> l = l).
Proof.
  intros Hp Hq Hne Hn Hr n t He Hl Lm Lp. pose proof (Z.prime_ge_2 _ Hp). pose proof (Z.prime_ge_2 _ Hq).
  assert (Ht : 1 < t < 65536) by (subst t; nia).
  destruct (first_coprime_spec t rands e ltac:(lia) He) as [He' G].
  pose proof (get_private_key_spec e t ltac:(lia) He' ltac:(nia)) as K. rewrite G in K. destruct K as (d & Kd & Hd & Ed).
  destruct (roundtrip_spec p q e d l r plain m Hp Hq Hne Hn) as [E1 E2]; [unfold INT_MAX; lia|unfold INT_MAX; lia|done..|].
  exists d. eexists. split; [|split; [exact Kd|split; [exact E1|split; [exact E2|]]]].
  - unfold get_random. assert (Et : wrap_u32 (wrap_u32 (p - 1) * wrap_u32 (q - 1)) = t).
    { rewrite (wrap_u32_id (p - 1)), (wrap_u32_id (q - 1)) by nia. apply wrap_u32_id. fold t. lia. }
    rewrite Et, draw_spec by (done || lia). by rewrite He.
  - intros Hn'. rewrite <- (list_fmap_id l) at 2. apply list_fmap_ext. intros i x Hx.
    pose proof (Forall_lookup_1 _ _ _ _ Hl Hx) as Hc. cbn beta in Hc. rewrite Z.mod_small by lia.
  apply (wrap_i8_id x). lia.
Qed.

Lemma prime_by_sqrt n : 2 ≤ n → sqrt_prime n = true → Z.prime n.
Proof. intros Hn H. by apply sqrt_prime_spec. Qed.

Lemma rsa_keys_witness :
  ∃ d c, get_random 43 97 [0; 9; 5] = Ok 5 ∧ get_private_key 5 4032 = Ok (d, []) ∧
    encrypt_dt 5 4171 (codes "hello" ++ [0]) 5 (replicate 5 None) = Ok c ∧
    decrypt_dt d 4171 c (replicate 6 0) 5 = Ok (codes "hello" ++ [0]).
Proof.
  destruct (rsa_keys_roundtrip 43 97 5 [0; 9; 5] (codes "hello") [0] (replicate 6 0) (replicate 5 None))
    as (d & c & E1 & E2 & E3 & E4 & E5);
    [by apply prime_by_sqrt|by apply prime_by_sqrt|lia|lia|in_list|vm_compute; reflexivity|in_list|done|by vm_compute; lia|].
  exists d, c. rewrite E5 in E4 by lia. split; [exact E1|]. split; [exact E2|]. split; [exact E3|exact E4].
Defined.

(** Whatever key the random numbers give, rsa_demo exits with 0 and prints as decrypted text the
    characters reduced modulo 77, which is never the text it encrypted. *)
Theorem rsa_demo_garbles rands e :
  Forall (λ x, 0 ≤ x) rands → first_coprime 60 rands = Some e →
  ∃ out, rsa_demo_main rands =
    Ok (0, out ++ [PutStr "dec_dt："; PutChars ((λ c, c mod 77) <$> rsa_txt); PutStr "\n"]) ∧
  (λ c, c mod 77) <$> rsa_txt ≠ rsa_txt.
Proof.
  intros Hr He. destruct (first_coprime_spec 60 rands e ltac:(lia) He) as [He' G].
  pose proof (get_private_key_spec e 60 ltac:(lia) He' ltac:(lia)) as K. rewrite G in K. destruct K as (d & Kd & Hd & Ed).
  assert (Pp : Z.prime P) by by apply prime_by_sqrt. assert (Pq : Z.prime Q) by by apply prime_by_sqrt.
  unfold rsa_demo_main. change (is_prime P) with (Ok (1, [] : list output)). change (is_prime Q) with (Ok (1, [] : list output)).
  rewrite bind_ok. change (1 =? 0) with false. cbn beta iota. rewrite bind_ok. cbn beta iota.
  change (get_com_div P Q) with (Ok 1). rewrite bind_ok. change (1 =? 1) with true. cbn beta iota.
  assert (Eg : get_random P Q rands = Ok e).
  { unfold get_random. change (wrap_u32 _) with 60. by rewrite draw_spec, He. }
  rewrite Eg, bind_ok. change ((P - 1) * (Q - 1)) with 60. rewrite Kd, bind_ok. cbn beta iota. change (c_strlen (rsa_txt ++ [0])) with (Ok (Z.of_nat (length rsa_txt))). rewrite bind_ok.
  destruct (roundtrip_spec P Q e d rsa_txt [0] (replicate (Z.to_nat (Z.of_nat (length rsa_txt) + 1)) 0)
    (replicate (Z.to_nat (Z.of_nat (length rsa_txt))) None) Pp Pq) as [E1 E2];
    [done|by vm_compute|unfold INT_MAX; lia|unfold INT_MAX; lia|done|in_list|done|by apply Nat.leb_le|].
  rewrite E1, bind_ok. set (c := (λ c, c ^ e mod (P * Q)) <$> rsa_txt) in *. 
  assert (Lc : length c = length rsa_txt) by apply length_fmap.
  match goal with |- context [for_range 0 _ ?b ?o] => set (body := b); set (o0 := o) end.
  destruct (for_range_inv (λ _ o, True) body 0 (Z.of_nat (length rsa_txt)) o0) as (o1 & E & _); [lia|done| |].
  { intros i o Hi _. destruct (lookup_lt_Z c i) as [x Hx]; [lia|]. unfold body. rewrite (load_init_cells c i x) by (done || lia). by eexists. }
  rewrite E, bind_ok, E2, bind_ok.
  assert (Ew : ((λ c, wrap_i8 (c mod (P * Q))) <$> rsa_txt) ++ drop (length rsa_txt)
    (replicate (Z.to_nat (Z.of_nat (length rsa_txt) + 1)) 0) = ((λ c, c mod 77) <$> rsa_txt) ++ [0]) by reflexivity.
  rewrite Ew, (c_chars_app _ []), bind_ok by in_list. exists (o1 ++ [PutStr "\n"]).
  split; [change (1 =? 0) with false; cbn [negb]; by rewrite <- app_assoc|]. intros Hx. vm_compute in Hx. discriminate.
Qed.

Lemma rsa_demo_witness :
  (λ c, c mod 77) <$> rsa_txt ≠ rsa_txt.
Proof. destruct (rsa_demo_garbles [60; 5; 7] 7) as (out & _ & H); [in_list|reflexivity|exact H]. Defined.

(** With keys from two primes whose product is at least 128 and small enough for int arithmetic,
    decrypt_dt of rsa_algorithm.c returns the 20 characters that its encrypt_dt was given. *)
Theorem rsa_algorithm_roundtrip p q e d (l r c0 s : list Z) :
  Z.prime p → Z.prime q → p ≠ q → 128 ≤ p * q → (p * q - 1) * 127 ≤ INT_MAX → 0 ≤ e → 0 ≤ d →
  (e * d) mod ((p - 1) * (q - 1)) = 1 → ascii l → length l = 20%nat → length c0 = 20%nat → length s = 20%nat →
  (c ← encrypt_dt_int e (p * q) (l ++ r) c0; decrypt_dt_long d (p * q) c s) = Ok l.
Proof.
  intros Hp Hq Hne Hn' Hn He Hd Hed Hl Ll Lc Ls. rewrite roundtrip_20 by done. f_equal.
  rewrite <- (list_fmap_id l) at 2. apply list_fmap_ext. intros i x Hx.
  pose proof (Forall_lookup_1 _ _ _ _ Hl Hx) as Hc. cbn beta in Hc. rewrite Z.mod_small by lia.
  apply (wrap_i8_id x). lia.
Qed.

Lemma rsa_algorithm_witness :
  (c ← encrypt_dt_int 480317 (971 * 997) (algo_txt ++ [0]) (replicate 20 0);
   decrypt_dt_long 537653 (971 * 997) c (replicate 20 0)) = Ok algo_txt.
Proof.
  apply rsa_algorithm_roundtrip; [by apply prime_by_sqrt|by apply prime_by_sqrt|lia|lia|by vm_compute|lia|lia|reflexivity|in_list|reflexivity|reflexivity|reflexivity].
Defined.

(** The number in the [i]-th group of eight hexadecimal digits. *)
Definition group (i : Z) : Z :=
  default 0 ((λ v : Z, v) <$> match strtol16 (take 8 (drop (Z.to_nat (8 * i)) cypher_hex) ++ [0]) with Ok v => Some v | Err _ => None end).

Lemma for_range_total {St} (body : Z → St → res St) a b s :
  a ≤ b → (∀ i s, a ≤ i < b → is_ok (body i s) = true) → ∃ s', for_range a b body s = Ok s'.
Proof.
  intros Hab H. destruct (for_range_inv (λ _ _, True) body a b s) as (s' & E & _); [done|done| |by exists s'].
  intros i s0 Hi _. specialize (H i s0 Hi). destruct (body i s0); [by eexists|done].
Qed.

(** rsa_algorithm decrypts correctly but prints 20 characters that no NUL ends, and rsa_deploy
    parses each group of eight digits from an array of eight characters without a NUL: both
    read out of bounds. The decryption function itself returns the expected text for the
    numbers meant. *)
Theorem rsa_drivers_fault :
  rsa_algorithm_main = Err OutOfBounds ∧ rsa_deploy_main = Err OutOfBounds ∧
  dec (group <$> seqZ0 20) (replicate 20 0) = Ok (codes "test1test2test3test4").
Proof.
  split; [|split; vm_compute; reflexivity].
  unfold rsa_algorithm_main. cbn beta iota zeta.
  assert (E1 : encrypt_dt_int 480317 968087 (algo_txt ++ [0]) (replicate 20 0) = Ok ((λ c, c ^ 480317 mod 968087) <$> algo_txt))
    by (apply encrypt_int_spec; [in_list|done|done|lia|by vm_compute|lia]).
  assert (E2 : decrypt_dt_long 537653 968087 ((λ c, c ^ 480317 mod 968087) <$> algo_txt) (replicate 20 0) = Ok algo_txt).
  { pose proof (roundtrip_20 971 997 480317 537653 algo_txt [0] (replicate 20 0) (replicate 20 0)) as R.
    change (971 * 997) with 968087 in R. rewrite E1, bind_ok in R.
    rewrite R; [reflexivity|by apply prime_by_sqrt|by apply prime_by_sqrt|lia|by vm_compute|lia|lia|done|in_list|done|done|done]. }
  rewrite E1, bind_ok. set (c := (λ c, c ^ 480317 mod 968087) <$> algo_txt) in *.
  assert (Lc : length c = 20%nat) by apply length_fmap. clearbody c.
  change (c_strlen (algo_txt ++ [0])) with (Ok 20). rewrite bind_ok.
  match goal with |- (for_range 0 20 ?b ?o ≫= _) = _ => destruct (for_range_total b 0 20 o) as [o1 ->] end; [lia| |].
  { intros i o Hi. destruct (lookup_lt_Z c i) as [x Hx]; [lia|]. by rewrite (load_ok c i x) by (lia || done). }
  rewrite bind_ok. match goal with |- (for_range 0 20 ?b ?o ≫= _) = _ => destruct (for_range_total b 0 20 o) as [o2 ->] end; [lia| |].
  { intros i o Hi. destruct (lookup_lt_Z c i) as [x Hx]; [lia|]. by rewrite (load_ok c i x) by (lia || done). }
  by rewrite bind_ok, E2, bind_ok.
Qed.
