(* ===== verification/Tetris.v ===== *)
(** The Tetris evaluation of [src/cpp/test]: the board features of [eipd.c],
    the matrix conversions of [util.c] and the constants of [config.c].

    A board is an array of [int], one per row, a bit per column; row 0 is at
    the bottom.  Doubles are those of the library's specification of binary64. *)
From Stdlib Require Import SpecFloat.
From S2P Require Import Prelude.

(** ** Bits *)

(** [x >> j] on an [int]. *)
Definition shr (x j : Z) : res Z :=
  if (0 <=? j) && (j <? 32) then Ok (Z.shiftr x j) else Err BadShift.

(** [(x >> j) & 1] *)
Definition bit_at (x j : Z) : res Z := y ← shr x j; mret (Z.land y 1).

(** A local variable, [None] until it is assigned. *)
Definition read_var (c : cell) : res Z := match c with Some v => Ok v | None => Err Uninitialised end.

(** ** eipd.c *)

Definition rvs (brd : list Z) : list Z := brd.
Definition get_len (array : list Z) : Z := 0.
Definition get_rw_n (brd : list Z) : Z := get_len brd.
Definition pop_i (array : list Z) (i : Z) : list Z := array.
Definition insert_i (array : list Z) (i i_v : Z) : list Z := array.

(** The loop variable has no initial value. *)
Definition get_ld_h (pce_x : list Z) (pce_x_size pos_y rw_n : Z) : res Z :=
  '(_, c, p_h) ← while (S (Z.to_nat pce_x_size))
    (λ '(i, c, p_h), i ← read_var i; mret (i <? pce_x_size))
    (λ '(i, c, p_h),
      i ← read_var i;
      x ← load pce_x i;
      '(c, p_h) ← (if negb (x =? 0) then mret (c, p_h)
        else
          c ← chk_int (c + 1);
          r ← chk_int (rw_n - 1);
          a ← chk_int (pos_y + i);
          h ← chk_int (r - a);
          p_h ← chk_int (p_h + h);
          mret (c, p_h));
      i ← chk_int (i + 1);
      mret (Some i, c, p_h)) (None, 0, 0);
  c_div p_h c.

(** The loop over the rows ends at the first empty one. *)
Definition get_rw_rm (brd : list Z) (col_max rw_n : Z) : res Z :=
  iter (S (Z.to_nat rw_n)) (λ '(i, c, brd),
    if i <? rw_n then
      row ← load brd i;
      if row =? col_max then
        c ← chk_int (c + 1);
        mret (inl (i + 1, c, insert_i (pop_i brd i) (rw_n - 1) 0))
      else if row =? 0 then mret (inr c)
      else mret (inl (i + 1, c, brd))
    else mret (inr c)) (0, 0, brd).

(** The changes along one row. *)
Definition row_scan (row col : Z) (s : Z * Z * Z) : res (Z * Z * Z) :=
  for_range 0 col (λ j '(t, last_bit, bit),
    bit ← bit_at row j;
    if negb (bit =? last_bit) then t ← chk_int (t + 1); mret (t, bit, bit)
    else mret (t, last_bit, bit)) s.

Definition get_rw_t (brd : list Z) (col rw_n : Z) : res Z :=
  '(t, _, _) ← for_range 0 rw_n (λ i '(t, last_bit, bit),
    row ← load brd i;
    if row =? 0 then t ← chk_int (t + 2); mret (t, 1, bit)
    else
      '(t, last_bit, bit) ← row_scan row col (t, last_bit, bit);
      t ← (if bit =? 0 then chk_int (t + 1) else mret t);
      mret (t, 1, bit)) (0, 1, 0);
  mret t.

(** [for (j...) if ((xor >> j) & 1) t += 1;] *)
Definition count_bits (x col t : Z) : res Z :=
  for_range 0 col (λ j t, b ← bit_at x j; if negb (b =? 0) then chk_int (t + 1) else mret t) t.

Definition get_col_t (brd : list Z) (col rw_n col_max : Z) : res Z :=
  b0 ← load brd 0;
  t ← count_bits (Z.lxor b0 col_max) col 0;
  for_range 1 rw_n (λ i t,
    x ← load brd i;
    y ← load brd (i - 1);
    count_bits (Z.lxor x y) col t) t.

(** The inner loop variable has no initial value. *)
Definition get_col_t1 (brd : list Z) (col rw_n col_max : Z) : res Z :=
  '(t, _) ← for_range 0 col (λ i '(t, last_bit),
    '(t, last_bit, _) ← while (S (Z.to_nat rw_n))
      (λ '(_, _, j), j ← read_var j; mret (j <? rw_n))
      (λ '(t, last_bit, j),
        j ← read_var j;
        row ← load brd j;
        bit ← bit_at row i;
        t ← (if negb (bit =? last_bit) then chk_int (t + 1) else mret t);
        mret (t, bit, Some (j + 1))) (t, last_bit, None);
    mret (t, 1)) (0, 1);
  mret t.

Definition gt_hl (brd : list Z) (col rw_n : Z) : res Z :=
  p_rw ← load brd (rw_n - 1);
  '(hl, _, _) ← for_down (rw_n - 2) 1 (λ i '(hl, rw_hl, p_rw),
    c_rw ← load brd i;
    let rw_hl := Z.land (Z.lnot c_rw) (Z.lor p_rw rw_hl) in
    hl ← for_range 0 col (λ j hl, b ← bit_at rw_hl j; chk_int (hl + b)) hl;
    mret (hl, rw_hl, c_rw)) (0, 0, p_rw);
  mret hl.

(** The wells between two columns: [k] stays at [j - 1] while [j] counts down. *)
Definition inner_well (brd : list Z) (i k j wl : Z) : res (Z * Z) :=
  iter (S (Z.to_nat j)) (λ '(j, wl),
    if 0 <? j then
      x ← load brd k;
      b ← bit_at x i;
      if b =? 0 then wl ← chk_int (wl + 1); mret (inl (j - 1, wl)) else mret (inr (j, wl))
    else mret (inr (j, wl))) (j, wl).

(** [(!(x >> i) & 1) && (x >> (i-1) & 1) && ((x >> (i+1)) & 1)]: the negation
    binds tighter than the mask. *)
Definition mid_test (x i : Z) : res bool :=
  y ← shr x i;
  if negb (Z.land (if y =? 0 then 1 else 0) 1 =? 0) then
    a ← bit_at x (i - 1);
    if negb (a =? 0) then b ← bit_at x (i + 1); mret (negb (b =? 0)) else mret false
  else mret false.

Definition mid_wells (brd : list Z) (i rw_n wl : Z) : res Z :=
  '(_, wl) ← while (S (Z.to_nat rw_n)) (λ '(j, _), mret (0 <? j))
    (λ '(j, wl),
      x ← load brd j;
      w ← mid_test x i;
      '(j, wl) ← (if (w : bool) then wl ← chk_int (wl + 1); inner_well brd i (j - 1) j wl else mret (j, wl));
      mret (j - 1, wl)) (rw_n - 1, wl);
  mret wl.

(** [for (k = j - 1; k > 0; k--)]: the depth of a well at the border column [c]. *)
Definition well_depth (brd : list Z) (c k wl : Z) : res Z :=
  '(_, wl) ← iter (S (Z.to_nat k)) (λ '(k, wl),
    if 0 <? k then
      x ← load brd k;
      b ← bit_at x c;
      if b =? 0 then wl ← chk_int (wl + 1); mret (inl (k - 1, wl)) else mret (inr (k, wl))
    else mret (inr (k, wl))) (k, wl);
  mret wl.

(** [(!(x >> 0) & 1) && ((x >> 1) & 1)] *)
Definition left_test (x : Z) : res bool :=
  y ← shr x 0;
  if negb (Z.land (if y =? 0 then 1 else 0) 1 =? 0) then b ← bit_at x 1; mret (negb (b =? 0)) else mret false.

(** [(!((x >> (col-1)) & 1)) && (x >> (col-2) & 1)] *)
Definition right_test (x col : Z) : res bool :=
  a ← bit_at x (col - 1);
  if a =? 0 then b ← bit_at x (col - 2); mret (negb (b =? 0)) else mret false.

Definition border_wells (brd : list Z) (test : Z → res bool) (c rw_n wl : Z) : res Z :=
  for_down (rw_n - 1) 1 (λ j wl,
    x ← load brd j;
    w ← test x;
    if (w : bool) then wl ← chk_int (wl + 1); well_depth brd c (j - 1) wl else mret wl) wl.

Definition gt_wl (brd : list Z) (col rw_n : Z) : res Z :=
  wl ← for_range 1 (col - 1) (λ i wl, mid_wells brd i rw_n wl) 0;
  wl ← border_wells brd left_test 0 rw_n wl;
  border_wells brd (λ x, right_test x col) (col - 1) rw_n wl.

(** ** The score *)

Definition fnum (s : bool) (m : positive) (e : Z) : spec_float := S754_finite s m e.
Definition int_to_double (z : Z) : spec_float := binary_normalize 53 1024 z 0 false.
Definition fadd := SFadd 53 1024.
Definition fmul := SFmul 53 1024.

(** [scr += x * w] *)
Definition weigh (scr : spec_float) (x : Z) (w : spec_float) : spec_float := fadd scr (fmul (int_to_double x) w).

Definition evl (brd pce_x : list Z) (pos_y col col_max rw_n : Z) : res spec_float :=
  ld_h ← get_ld_h pce_x 4 pos_y rw_n;
  rw_rm ← get_rw_rm brd col_max rw_n;
  rw_t ← get_rw_t brd col rw_n;
  col_t ← get_col_t brd col rw_n col_max;
  hl ← gt_hl brd col rw_n;
  wl ← gt_wl brd col rw_n;
  let scr := weigh (S754_zero false) ld_h (fnum true 5066728401937699 (-50)) in
  let scr := weigh scr rw_rm (fnum false 7696937314224158 (-51)) in
  let scr := weigh scr rw_t (fnum true 7246040244786014 (-51)) in
  let scr := weigh scr col_t (fnum true 5262847586750413 (-49)) in
  let scr := weigh scr hl (fnum true 8893782208780385 (-50)) in
  mret (weigh scr wl (fnum true 7623687199852116 (-51))).

(** ** util.c *)

(** [c[i][j] = v] for rows that are separate blocks. *)
Definition store2 (m : list (list Z)) (i j v : Z) : res (list (list Z)) :=
  row ← load m i; row ← store row j v; store m i row.

Definition get_matrix (b : list Z) (size_b col_n : Z) (c : list (list Z)) : res (list (list Z)) :=
  for_range 0 size_b (λ i c,
    for_range 0 col_n (λ j c, x ← load b i; v ← bit_at x j; store2 c i j v) c) c.

(** [tmp += m[i][j] * pow(2, j)]: the double is exact or its conversion to
    [int] is undefined. *)
Definition get_bin (m : list (list Z)) (row_n col_n : Z) (b : list Z) : res (list Z) :=
  for_range 0 row_n (λ i b,
    tmp ← for_range 0 col_n (λ j tmp, row ← load m i; v ← load row j; chk_int (tmp + v * 2 ^ j)) 0;
    store b i tmp) b.

(** [bin_l[i] <<= x]: undefined for a negative value and for a result that is
    not an [int]. *)
Definition shl (v x : Z) : res Z :=
  if (0 <=? x) && (x <? 32) then (if v <? 0 then Err SignedOverflow else chk_int (Z.shiftl v x)) else Err BadShift.

Definition shift (bin_l : list Z) (bin_size x : Z) : res (list Z) :=
  for_range 0 bin_size (λ i l, v ← load l i; w ← shl v x; store l i w) bin_l.

(** ** config.c *)

Record rot_piece := mkPiece { r_lmt : Z; type : Z; r : Z; piece : list (list Z) }.

Record config := mkConfig {
  base_url : string; config_file : string; pcs : list (option rot_piece);
  col : Z; row : Z; pce_col : Z; pce_row : Z; col_bd_msk : Z; col_max : Z; new_pce_pos : list Z }.

(** The fourth piece is never assigned. *)
Definition get_config : config := {|
  base_url := "http://127.0.0.1:8000/"; config_file := "config.txt";
  pcs := [
    Some (mkPiece 4 2 0 [[2; 7; 0; 0]; [2; 6; 2; 0]; [0; 7; 2; 0]; [2; 3; 2; 0]]);
    Some (mkPiece 4 0 0 [[0; 6; 6; 0]; [0; 6; 6; 0]; [0; 6; 6; 0]; [0; 6; 6; 0]]);
    Some (mkPiece 4 1 0 [[0; 15; 0; 0]; [4; 4; 4; 4]; [0; 0; 15; 0]; [2; 2; 2; 2]]);
    None];
  col := 10; row := 20; pce_col := 4; pce_row := 4;
  col_bd_msk := 2 ^ (10 - 1); col_max := 2 ^ 10 - 1; new_pce_pos := [-3; 1] |}.
