(* ===== verification/TetrisSpec.v ===== *)
(** The features of a Tetris board as counts over its cells, and the faults and
    dead branches of the evaluation. *)
From S2P Require Import Prelude Tetris.

(** ** Cells *)

Lemma bit_at_spec x j : 0 ≤ j < 32 → bit_at x j = Ok (Z.b2z (Z.testbit x j)).
Proof.
  intros Hj. unfold bit_at, shr. destruct (Z.leb_spec 0 j); [|lia]. destruct (Z.ltb_spec j 32); [|lia].
  cbn [andb]. rewrite bind_ok. f_equal. change 1 with (Z.ones 1). rewrite Z.land_ones by lia. change (2 ^ 1) with 2.
  by rewrite <- Z.bit0_mod, Z.shiftr_spec by lia.
Qed.

Lemma b2z_bound (b : bool) : 0 ≤ Z.b2z b ≤ 1.
Proof. destruct b; cbn; lia. Qed.

Lemma b2z_zero b : (Z.b2z b =? 0) = negb b.
Proof. by destruct b. Qed.

Definition row_at (brd : list Z) (i : Z) : Z := default 0 (brd !! Z.to_nat i).

Lemma load_row brd i : 0 ≤ i < Z.of_nat (length brd) → load brd i = Ok (row_at brd i).
Proof. intros Hi. destruct (lookup_lt_Z brd i Hi) as [x Hx]. unfold row_at. rewrite Hx. apply load_ok; [lia|done]. Qed.

(** Whether column [j] of row [x] is filled. *)
Abbreviation filled := Z.testbit.

(** Changes along a sequence of cells that starts after [b]. *)
Fixpoint changes (b : bool) (l : list bool) : Z :=
  match l with [] => 0 | c :: l' => Z.b2z (xorb c b) + changes c l' end.

(** The last cell of such a sequence. *)
Definition final (b : bool) (l : list bool) : bool := foldl (λ _ c, c) b l.

Lemma changes_app b l m : changes b (l ++ m) = changes b l + changes (final b l) m.
Proof. revert b. induction l as [|c l IH]; intros b; [done|]. cbn. rewrite IH. unfold final. lia. Qed.

Lemma changes_bound b l : 0 ≤ changes b l ≤ Z.of_nat (length l).
Proof.
  revert b. induction l as [|c l IH]; intros b; cbn [changes length]; [lia|].
  pose proof (b2z_bound (xorb c b)). specialize (IH c). lia.
Qed.

Lemma changes_const n b l : (∀ c, c ∈ l → c = b) → length l = n → changes b l = 0.
Proof.
  revert n. induction l as [|c l IH]; intros n H Hn; [done|]. cbn. rewrite (H c) by left.
  rewrite xorb_nilpotent. cbn. eapply IH; [|reflexivity]. intros d Hd. apply H. by right.
Qed.

(** ** The specification *)

(** The cells of the row [x], between two walls. *)
Definition cells (x col : Z) : list bool := (λ j, filled x j) <$> seqZ0 col.
Definition row_changes (x col : Z) : Z := changes true (cells x col ++ [true]).

(** Column [j], on a floor with the cells of [col_max]. *)
Definition col_changes (col_max : Z) (rows : list Z) (j : Z) : Z :=
  changes (filled col_max j) ((λ x, filled x j) <$> rows).

(** The cell of row [i] is empty and one above it is not. *)
Definition is_hole (brd : list Z) (i j : Z) : bool :=
  negb (filled (row_at brd i) j) && existsb (λ x, filled x j) (drop (Z.to_nat (i + 1)) brd).

(** Full rows below the first empty one. *)
Fixpoint full_rows (col_max : Z) (rows : list Z) : Z :=
  match rows with
  | [] => 0
  | x :: rows => if x =? col_max then 1 + full_rows col_max rows else if x =? 0 then 0 else full_rows col_max rows
  end.

(** Empty cells of column [c] in the rows [k], [k - 1], ..., down to row 1. *)
Fixpoint well_run (brd : list Z) (c : Z) (k : nat) : Z :=
  match k with O => 0 | S k' => if filled (row_at brd (Z.of_nat k)) c then 0 else 1 + well_run brd c k' end.

(** A cell of the last column that is empty while its neighbour is filled. *)
Definition right_well (brd : list Z) (col j : Z) : Z :=
  let x := row_at brd j in
  if negb (filled x (col - 1)) && filled x (col - 2) then 1 + well_run brd (col - 1) (Z.to_nat (j - 1)) else 0.

(** ** Rows *)

Lemma seqZ0_snoc j : 0 ≤ j → seqZ0 (j + 1) = seqZ0 j ++ [j].
Proof.
  intros Hj. unfold seqZ0. replace (Z.to_nat (j + 1)) with (S (Z.to_nat j)) by lia.
  rewrite seq_S, fmap_app. cbn. by rewrite Z2Nat.id.
Qed.

Lemma cells_snoc x j : 0 ≤ j → cells x (j + 1) = cells x j ++ [filled x j].
Proof. intros Hj. unfold cells. by rewrite seqZ0_snoc, fmap_app. Qed.

Lemma length_cells x col : length (cells x col) = Z.to_nat col.
Proof. unfold cells. by rewrite length_fmap, length_seqZ0. Qed.

Lemma final_snoc b l c : final b (l ++ [c]) = c.
Proof. unfold final. by rewrite foldl_app. Qed.

Lemma row_scan_spec x col t b0 :
  1 ≤ col ≤ 32 → 0 ≤ t → t + col ≤ INT_MAX →
  row_scan x col (t, 1, b0) =
    Ok (t + changes true (cells x col), Z.b2z (final true (cells x col)), Z.b2z (final true (cells x col))).
Proof.
  intros Hc Ht Hb. unfold row_scan. match goal with |- for_range 0 col ?b _ = _ => set (body := b) end.
  destruct (for_range_inv (λ j '(t', lb, bit), 0 ≤ j ∧ t' = t + changes true (cells x j) ∧
      lb = Z.b2z (final true (cells x j)) ∧ (0 < j → bit = lb)) body 0 col (t, 1, b0))
    as ([[t' lb] bit] & E & _ & -> & -> & Hbit).
  - lia.
  - split; [lia|]. change (cells x 0) with (@nil bool). cbn [changes]. split; [lia|]. split; [done|lia].
  - intros j [[t' lb] bit] Hj (_ & -> & -> & _). unfold body. rewrite bit_at_spec, bind_ok by lia.
    pose proof (changes_bound true (cells x j)) as Hbd. rewrite length_cells in Hbd.
    rewrite cells_snoc, changes_app, final_snoc by lia. set (f := final true (cells x j)) in *. cbn [changes].
    destruct (Z.eqb_spec (Z.b2z (filled x j)) (Z.b2z f)) as [E|E]; cbn [negb].
    + apply Z.b2z_inj in E. rewrite E, xorb_nilpotent. eexists. split; [reflexivity|].
      split; [lia|]. split; [cbn; lia|]. split; [done|done].
    + assert (Ex : xorb (filled x j) f = true) by (destruct (filled x j), f; done). rewrite Ex, chk_int_ok, bind_ok by (unfold INT_MIN; lia).
      eexists. split; [reflexivity|]. split; [lia|]. split; [cbn; lia|]. done.
  - rewrite E, Hbit by lia. done.
Qed.

Lemma row_changes_bound x col : 0 ≤ col → 0 ≤ row_changes x col ≤ col + 1.
Proof.
  intros Hc. unfold row_changes. pose proof (changes_bound true (cells x col ++ [true])) as H.
  rewrite length_app, length_cells in H. cbn in H. lia.
Qed.

Lemma row_changes_zero col : 1 ≤ col → row_changes 0 col = 2.
Proof.
  intros Hc. unfold row_changes, cells. replace col with ((col - 1) + 1) by lia. unfold seqZ0.
  replace (Z.to_nat (col - 1 + 1)) with (S (Z.to_nat (col - 1))) by lia. cbn [seq fmap list_fmap app changes].
  rewrite Z.bits_0, changes_app. cbn [xorb].
  assert (A : ∀ l : list nat, (λ j, filled 0 j) <$> (Z.of_nat <$> l) = replicate (length l) false).
  { intros l. induction l as [|k l IH]; [done|]. cbn. by rewrite Z.bits_0, IH. }
  change (list_fmap _ _ ?f ?l) with (f <$> l). rewrite A, length_seq. generalize (Z.to_nat (col - 1)). intros n.
  assert (B : changes false (replicate n false) = 0 ∧ final false (replicate n false) = false) by (induction n; done).
  destruct B as [-> ->]. done.
Qed.

Lemma get_rw_t_spec brd col :
  1 ≤ col ≤ 32 → Z.of_nat (length brd) ≤ 1000 →
  get_rw_t brd col (Z.of_nat (length brd)) = Ok (sumf (λ i, row_changes (row_at brd i) col) 0 (length brd)).
Proof.
  intros Hc Hl. unfold get_rw_t. set (n := Z.of_nat (length brd)) in *.
  match goal with |- context [for_range 0 n ?b _] => set (body := b) end.
  set (f := λ i, row_changes (row_at brd i) col).
  destruct (for_range_inv (λ i '(t, lb, bit), t = sumf f 0 (Z.to_nat i) ∧ lb = 1) body 0 n (0, 1, 0))
    as ([[t lb] bit] & E & -> & _).
  - lia.
  - done.
  - intros i [[t lb] bit] Hi [-> ->]. unfold body. rewrite load_row, bind_ok by lia.
    assert (Es : sumf f 0 (Z.to_nat (i + 1)) = sumf f 0 (Z.to_nat i) + f i).
    { replace (Z.to_nat (i + 1)) with (S (Z.to_nat i)) by lia. rewrite sumf_snoc. do 2 f_equal. lia. }
    pose proof (sumf_bound f 0 (Z.to_nat i) (col + 1) ltac:(intros k _; apply row_changes_bound; lia)) as Hb.
    assert (Hsmall : sumf f 0 (Z.to_nat i) ≤ 33 * 1000) by nia. rewrite Es. clear Es.
    generalize dependent (sumf f 0 (Z.to_nat i)). intros t Hb Hsmall. unfold f. set (x := row_at brd i).
    destruct (Z.eqb_spec x 0) as [->|Hx].
    + rewrite row_changes_zero, chk_int_ok, bind_ok by (unfold INT_MIN, INT_MAX; lia). by eexists.
    + rewrite row_scan_spec, bind_ok by (unfold INT_MAX; lia). unfold row_changes. rewrite changes_app.
      pose proof (changes_bound true (cells x col)) as Hc2. rewrite length_cells in Hc2. rewrite b2z_zero.
      destruct (final true (cells x col)) eqn:Ef; cbn [negb changes xorb Z.b2z].
      * eexists. split; [reflexivity|]. split; [lia|done].
      * rewrite chk_int_ok, bind_ok by (unfold INT_MIN, INT_MAX; lia). eexists. split; [reflexivity|]. split; [lia|done].
  - rewrite E, bind_ok. subst n. by rewrite Nat2Z.id.
Qed.

(** ** Columns *)

(** The cells of the columns [0..col-1] of [x], counted. *)
Definition popcount (x col : Z) : Z := sumf (λ j, Z.b2z (filled x j)) 0 (Z.to_nat col).

Lemma popcount_bound x col : 0 ≤ col → 0 ≤ popcount x col ≤ col.
Proof.
  intros Hc. pose proof (sumf_bound (λ j, Z.b2z (filled x j)) 0 (Z.to_nat col) 1
    ltac:(intros i _; apply b2z_bound)) as H. unfold popcount. lia.
Qed.

Lemma count_bits_spec x col t :
  0 ≤ col ≤ 32 → 0 ≤ t → t + col ≤ INT_MAX → count_bits x col t = Ok (t + popcount x col).
Proof.
  intros Hc Ht Hb. unfold count_bits, popcount. replace col with (col - 0) at 2 by lia.
  apply (sum_loop _ _ 0 col t 1); [lia|done|lia|intros i _; apply b2z_bound|].
  intros j t' Hj Ht' Hb'. rewrite bit_at_spec, bind_ok, b2z_zero by lia.
  destruct (filled x j); cbn in *; [apply chk_int_ok; unfold INT_MIN; lia|]. by rewrite Z.add_0_r.
Qed.

(** Row by row or column by column, the changes are the same. *)
Lemma col_changes_sum prev rows col :
  sumf (λ i, popcount (Z.lxor (row_at rows i) (row_at (prev :: rows) i)) col) 0 (length rows) =
  sumf (col_changes prev rows) 0 (Z.to_nat col).
Proof.
  revert prev. induction rows as [|x rows IH]; intros prev.
  - cbn [length sumf]. symmetry. pose proof (sumf_bound (col_changes prev []) 0 (Z.to_nat col) 0) as H.
    cut (0 ≤ sumf (col_changes prev []) 0 (Z.to_nat col) ≤ 0 * Z.of_nat (Z.to_nat col)); [lia|]. apply H. done.
  - cbn [length sumf]. change (row_at (x :: rows) 0) with x. change (row_at (prev :: x :: rows) 0) with prev.
    assert (Es : sumf (λ i, popcount (Z.lxor (row_at (x :: rows) i) (row_at (prev :: x :: rows) i)) col) (0 + 1) (length rows) =
      sumf (λ i, popcount (Z.lxor (row_at rows i) (row_at (x :: rows) i)) col) 0 (length rows)).
    { assert (G : ∀ f g a n, (∀ i, a ≤ i → f (i + 1) = g i) → sumf f (a + 1) n = sumf g a n).
      { intros f g a n. revert a. induction n as [|n IHn]; intros a Hfg; [done|]. cbn. rewrite Hfg, IHn by (lia || (intros; apply Hfg; lia)). done. }
      apply G. intros i Hi. unfold row_at. by replace (Z.to_nat (i + 1)) with (S (Z.to_nat i)) by lia. }
    rewrite Es, IH. unfold popcount. rewrite <- sumf_add. apply sumf_ext. intros j Hj. unfold col_changes.
    cbn [fmap list_fmap changes]. by rewrite Z.lxor_spec.
Qed.

Lemma get_col_t_spec brd col col_max :
  0 ≤ col ≤ 32 → (1 ≤ length brd)%nat → Z.of_nat (length brd) ≤ 1000 →
  get_col_t brd col (Z.of_nat (length brd)) col_max = Ok (sumf (col_changes col_max brd) 0 (Z.to_nat col)).
Proof.
  intros Hc Hl Hn. unfold get_col_t. rewrite load_row, bind_ok by lia.
  rewrite count_bits_spec, bind_ok by (unfold INT_MAX; lia).
  pose proof (popcount_bound (Z.lxor (row_at brd 0) col_max) col ltac:(lia)).
  set (f := λ i, popcount (Z.lxor (row_at brd i) (row_at brd (i - 1))) col).
  rewrite (sum_loop f _ 1 (Z.of_nat (length brd)) _ 32); [|lia|lia|unfold INT_MAX; lia| |].
  - f_equal. rewrite <- col_changes_sum. destruct brd as [|x brd]; [cbn in Hl; lia|]. cbn [length sumf].
    change (row_at (x :: brd) 0) with x. change (row_at (col_max :: x :: brd) 0) with col_max.
    rewrite Z.add_0_l. f_equal. replace (Z.to_nat (Z.of_nat (S (length brd)) - 1)) with (length brd) by lia.
    apply sumf_ext. intros i Hi. unfold f. do 2 f_equal. unfold row_at.
    replace (Z.to_nat i) with (S (Z.to_nat (i - 1))) by lia. done.
  - intros i Hi. pose proof (popcount_bound (Z.lxor (row_at brd i) (row_at brd (i - 1))) col ltac:(lia)). unfold f. lia.
  - intros i t Hi Ht Hb. rewrite (load_row brd i), bind_ok, (load_row brd (i - 1)), bind_ok by lia.
    apply count_bits_spec; lia.
Qed.

(** ** Full rows *)

Lemma get_rw_rm_spec brd col_max :
  Z.of_nat (length brd) ≤ 1000 →
  get_rw_rm brd col_max (Z.of_nat (length brd)) = Ok (full_rows col_max brd).
Proof.
  intros Hl. unfold get_rw_rm. set (n := Z.of_nat (length brd)).
  match goal with |- iter _ ?s _ = _ => set (step := s) end.
  assert (Hb : ∀ l, 0 ≤ full_rows col_max l ≤ Z.of_nat (length l)).
  { induction l as [|x l IH]; cbn [full_rows length]; [lia|]. destruct (x =? col_max); [lia|]. destruct (x =? 0); lia. }
  enough (G : ∀ fuel i c, 0 ≤ i ≤ n → (Z.to_nat (n - i) < fuel)%nat → 0 ≤ c ≤ i →
    iter fuel step (i, c, brd) = Ok (c + full_rows col_max (drop (Z.to_nat i) brd)))
    by (by rewrite (G (S (Z.to_nat n)) 0 0) by lia).
  induction fuel as [|fuel IH]; intros i c Hi Hf Hc; [lia|]. cbn [iter]. unfold step at 2. cbn beta iota.
  destruct (Z.ltb_spec i n).
  - destruct (lookup_lt_Z brd i) as [x Hx]; [lia|]. rewrite (load_ok brd i x), bind_ok by (lia || done).
    rewrite (drop_S _ _ _ Hx). cbn [full_rows]. replace (S (Z.to_nat i)) with (Z.to_nat (i + 1)) by lia.
    destruct (x =? col_max); [|destruct (x =? 0)].
    + rewrite chk_int_ok, bind_ok by (unfold INT_MIN, INT_MAX; lia). rewrite bind_ok. rewrite IH by lia. f_equal. lia.
    + rewrite bind_ok. f_equal. lia.
    + rewrite bind_ok, IH by lia. done.
  - rewrite bind_ok, drop_ge by lia. cbn. f_equal. lia.
Qed.

(** ** Holes *)

(** The columns filled above row [i]. *)
Definition above (brd : list Z) (i : Z) : Z := foldr Z.lor 0 (drop (Z.to_nat (i + 1)) brd).

Lemma above_bit brd i j : filled (above brd i) j = existsb (λ x, filled x j) (drop (Z.to_nat (i + 1)) brd).
Proof.
  unfold above. induction (drop (Z.to_nat (i + 1)) brd) as [|x l IH]; [apply Z.bits_0|].
  cbn [foldr existsb]. by rewrite Z.lor_spec, IH.
Qed.

Lemma above_step brd i : 0 ≤ i → i + 1 < Z.of_nat (length brd) → above brd i = Z.lor (row_at brd (i + 1)) (above brd (i + 1)).
Proof.
  intros Hi Hl. unfold above. destruct (lookup_lt_Z brd (i + 1)) as [x Hx]; [lia|].
  rewrite (drop_S _ _ _ Hx). unfold row_at. rewrite Hx. cbn [foldr default].
  by replace (Z.to_nat (i + 1 + 1)) with (S (Z.to_nat (i + 1))) by lia.
Qed.

Definition row_holes (brd : list Z) (col i : Z) : Z := sumf (λ j, Z.b2z (is_hole brd i j)) 0 (Z.to_nat col).

Lemma row_holes_popcount brd col i :
  row_holes brd col i = popcount (Z.land (Z.lnot (row_at brd i)) (above brd i)) col.
Proof.
  unfold row_holes, popcount. apply sumf_ext. intros j Hj. unfold is_hole.
  by rewrite Z.land_spec, Z.lnot_spec, above_bit by lia.
Qed.

Lemma gt_hl_spec brd col :
  0 ≤ col ≤ 32 → (2 ≤ length brd)%nat → Z.of_nat (length brd) ≤ 1000 →
  gt_hl brd col (Z.of_nat (length brd)) = Ok (sumf (row_holes brd col) 1 (length brd - 2)).
Proof.
  intros Hc Hl Hn. unfold gt_hl. set (n := Z.of_nat (length brd)) in *. rewrite load_row, bind_ok by lia.
  match goal with |- context [for_down _ _ ?b _] => set (body := b) end.
  destruct (for_down_inv (λ i '(hl, rw_hl, p_rw), hl = sumf (row_holes brd col) (i + 1) (Z.to_nat (n - 2 - i)) ∧
      (0 ≤ i → Z.lor p_rw rw_hl = above brd i)) body (n - 2) 1 (0, 0, row_at brd (n - 1)))
    as ([[hl rw] p] & E & -> & _).
  - lia.
  - replace (Z.to_nat (n - 2 - (n - 2))) with O by lia. split; [done|]. intros _. rewrite Z.lor_0_r.
    rewrite above_step by lia. replace (n - 2 + 1) with (n - 1) by lia. unfold above.
    rewrite drop_ge by lia. cbn [foldr]. by rewrite Z.lor_0_r.
  - intros i [[hl rw] p] Hi [-> Ha]. unfold body. rewrite load_row, bind_ok by lia. rewrite Ha by lia.
    set (x := Z.land (Z.lnot (row_at brd i)) (above brd i)).
    set (t := sumf (row_holes brd col) (i + 1) (Z.to_nat (n - 2 - i))).
    assert (Ht : 0 ≤ t ≤ 32 * Z.of_nat (Z.to_nat (n - 2 - i))).
    { apply sumf_bound. intros k _. rewrite row_holes_popcount. pose proof (popcount_bound (Z.land (Z.lnot (row_at brd k)) (above brd k)) col ltac:(lia)). lia. }
    rewrite (sum_loop (λ j, Z.b2z (filled x j)) _ 0 col t 1), bind_ok;
      [|lia|lia|unfold INT_MAX; lia|intros j _; apply b2z_bound|].
    + eexists. split; [reflexivity|]. cbn beta iota. replace (col - 0) with col by lia. split.
      * replace (Z.to_nat (n - 2 - (i - 1))) with (S (Z.to_nat (n - 2 - i))) by lia. cbn [sumf].
        replace (i - 1 + 1) with i by lia. rewrite row_holes_popcount. fold t. unfold popcount. fold x. lia.
      * intros Hi0. rewrite above_step by lia. replace (i - 1 + 1) with i by lia. subst x.
        apply Z.bits_inj'. intros k Hk. rewrite !Z.lor_spec, Z.land_spec, Z.lnot_spec by done.
        by destruct (Z.testbit (row_at brd i) k), (Z.testbit (above brd i) k).
    + intros j t' Hj Ht' Hb. rewrite bit_at_spec, bind_ok by lia. pose proof (b2z_bound (filled x j)).
      apply chk_int_ok. unfold INT_MIN. lia.
  - rewrite E, bind_ok. f_equal. replace (1 - 1 + 1) with 1 by lia. f_equal. lia.
Qed.

(** ** Wells *)

Lemma shr_ok x j : 0 ≤ j < 32 → shr x j = Ok (Z.shiftr x j).
Proof. intros Hj. unfold shr. destruct (Z.leb_spec 0 j); [|lia]. by destruct (Z.ltb_spec j 32); [|lia]. Qed.

(** The test for a well between two columns never holds: the row shifted by
    [i] would have to be zero, and the next bit of it would have to be set. *)
Lemma mid_test_false x i : 1 ≤ i → i + 1 < 32 → mid_test x i = Ok false.
Proof.
  intros Hi Hi'. unfold mid_test. rewrite shr_ok, bind_ok by lia. destruct (Z.eqb_spec (Z.shiftr x i) 0) as [E|E]; [|done].
  cbn [Z.land Z.eqb negb]. rewrite !bit_at_spec, bind_ok, b2z_zero by lia. cbn. destruct (filled x (i - 1)); [|done].
  cbn. rewrite b2z_zero. replace (filled x (i + 1)) with false; [done|].
  replace (i + 1) with (1 + i) by lia. rewrite <- Z.shiftr_spec, E by lia. by rewrite Z.bits_0.
Qed.

Lemma left_test_false x : left_test x = Ok false.
Proof.
  unfold left_test. rewrite shr_ok, bind_ok by lia. rewrite Z.shiftr_0_r. by destruct (Z.eqb_spec x 0) as [->|].
Qed.

Lemma right_test_spec x col :
  2 ≤ col ≤ 32 → right_test x col = Ok (negb (filled x (col - 1)) && filled x (col - 2)).
Proof.
  intros Hc. unfold right_test. rewrite !bit_at_spec, bind_ok, b2z_zero by lia.
  destruct (filled x (col - 1)); [done|]. cbn. by destruct (filled x (col - 2)).
Qed.

Lemma mid_wells_spec brd i rw_n wl :
  1 ≤ i → i + 1 < 32 → rw_n ≤ Z.of_nat (length brd) → mid_wells brd i rw_n wl = Ok wl.
Proof.
  intros Hi Hi' Hl. unfold mid_wells.
  match goal with |- context [while _ ?c ?b _] => set (cond := c); set (body := b) end.
  destruct (while_inv (λ '(j, w), w = wl ∧ j ≤ rw_n - 1) cond body (λ '(j, _), Z.to_nat j) (S (Z.to_nat rw_n)) (rw_n - 1, wl))
    as ([j w] & E & [-> _] & _).
  - split; [done|lia].
  - lia.
  - intros [j w] [-> Hj]. unfold cond. destruct (Z.ltb_spec 0 j); [right|by left]. split; [done|]. unfold body.
    rewrite load_row, bind_ok, mid_test_false, bind_ok by lia. rewrite bind_ok. cbn beta iota.
    eexists. split; [reflexivity|]. split; [split; [done|lia]|lia].
  - by rewrite E, bind_ok.
Qed.

Lemma run_bound brd c k : 0 ≤ well_run brd c k ≤ Z.of_nat k.
Proof. induction k as [|k IH]; cbn [well_run]; [lia|]. destruct (filled _ _); lia. Qed.

Lemma well_depth_spec brd c k wl :
  0 ≤ c < 32 → k < Z.of_nat (length brd) → 0 ≤ wl → wl + k ≤ INT_MAX →
  well_depth brd c k wl = Ok (wl + well_run brd c (Z.to_nat k)).
Proof.
  intros Hc Hk Hw Hb. unfold well_depth. match goal with |- context [iter _ ?s _] => set (step := s) end.
  enough (G : ∀ fuel k wl, (Z.to_nat k < fuel)%nat → k < Z.of_nat (length brd) → 0 ≤ wl → wl + k ≤ INT_MAX →
    ∃ k', iter fuel step (k, wl) = Ok (k', wl + well_run brd c (Z.to_nat k))).
  { destruct (G (S (Z.to_nat k)) k wl) as [k' ->]; [lia|done|done|done|]. by rewrite bind_ok. }
  clear k wl Hk Hw Hb. induction fuel as [|fuel IH]; intros k wl Hf Hk Hw Hb; [lia|]. cbn [iter].
  unfold step at 2. cbn beta iota. destruct (Z.ltb_spec 0 k).
  - rewrite load_row, bind_ok, bit_at_spec, bind_ok, b2z_zero by lia.
    replace (Z.to_nat k) with (S (Z.to_nat (k - 1))) by lia. cbn [well_run].
    replace (Z.of_nat (S (Z.to_nat (k - 1)))) with k by lia. destruct (filled (row_at brd k) c); cbn [negb].
    + rewrite bind_ok, Z.add_0_r. by eexists.
    + rewrite chk_int_ok, bind_ok, bind_ok by (unfold INT_MIN; lia).
      destruct (IH (k - 1) (wl + 1)) as [k' ->]; [lia|lia|lia|lia|]. exists k'. do 2 f_equal. lia.
  - rewrite bind_ok. exists k. replace (Z.to_nat k) with O by lia. cbn [well_run]. do 2 f_equal. lia.
Qed.

Lemma right_well_bound brd col j : 1 ≤ j → 0 ≤ right_well brd col j ≤ j.
Proof.
  intros Hj. unfold right_well. pose proof (run_bound brd (col - 1) (Z.to_nat (j - 1))). destruct (_ && _); lia.
Qed.

Lemma border_none brd test c rw_n wl :
  (∀ x, test x = Ok false) → 1 ≤ rw_n ≤ Z.of_nat (length brd) → border_wells brd test c rw_n wl = Ok wl.
Proof.
  intros Ht Hn. unfold border_wells. match goal with |- for_down _ _ ?b _ = _ => set (body := b) end.
  destruct (for_down_inv (λ _ w, w = wl) body (rw_n - 1) 1 wl) as (w & E & ->); [lia|done| |done].
  intros i w Hi ->. unfold body. rewrite load_row, bind_ok, Ht, bind_ok by lia. by eexists.
Qed.

Lemma gt_wl_spec brd col :
  2 ≤ col ≤ 32 → (1 ≤ length brd)%nat → Z.of_nat (length brd) ≤ 1000 →
  gt_wl brd col (Z.of_nat (length brd)) = Ok (sumf (right_well brd col) 1 (length brd - 1)).
Proof.
  intros Hc Hl Hn. unfold gt_wl. set (n := Z.of_nat (length brd)) in *.
  assert (E1 : for_range 1 (col - 1) (λ i wl, mid_wells brd i n wl) 0 = Ok 0).
  { destruct (for_range_inv (λ _ w, w = 0) (λ i wl, mid_wells brd i n wl) 1 (col - 1) 0) as (w & E & ->); [lia|done| |done].
    intros i w Hi ->. exists 0. split; [|done]. apply mid_wells_spec; lia. }
  rewrite E1, bind_ok, (border_none brd left_test), bind_ok by (apply left_test_false || lia).
  unfold border_wells. match goal with |- for_down _ _ ?b _ = _ => set (body := b) end.
  destruct (for_down_inv (λ j w, w = sumf (right_well brd col) (j + 1) (Z.to_nat (n - 1 - j))) body (n - 1) 1 0)
    as (w & E & ->).
  - lia.
  - by replace (Z.to_nat (n - 1 - (n - 1))) with O by lia.
  - intros j w Hj ->. unfold body. set (t := sumf _ (j + 1) _).
    assert (Ht : 0 ≤ t ≤ 1000 * Z.of_nat (Z.to_nat (n - 1 - j))).
    { apply sumf_bound. intros k Hk. pose proof (right_well_bound brd col k ltac:(lia)). lia. }
    rewrite load_row, bind_ok, right_test_spec, bind_ok by lia. eexists. split.
    2: { replace (Z.to_nat (n - 1 - (j - 1))) with (S (Z.to_nat (n - 1 - j))) by lia. cbn [sumf].
         replace (j - 1 + 1) with j by lia. fold t. reflexivity. }
    unfold right_well. destruct (_ && _).
    + rewrite chk_int_ok, bind_ok by (unfold INT_MIN, INT_MAX; lia). rewrite well_depth_spec by (unfold INT_MAX; lia). f_equal. lia.
    + by rewrite Z.add_0_l.
  - rewrite E. do 2 f_equal. lia.
Qed.

(** ** Matrices *)

(** A row as numbers, one per column. *)
Definition bits (col x : Z) : list Z := (λ j, Z.b2z (filled x j)) <$> seqZ0 col.

Lemma bits_snoc x j : 0 ≤ j → bits (j + 1) x = bits j x ++ [Z.b2z (filled x j)].
Proof. intros Hj. unfold bits. by rewrite seqZ0_snoc, fmap_app. Qed.

Lemma length_bits col x : length (bits col x) = Z.to_nat col.
Proof. unfold bits. by rewrite length_fmap, length_seqZ0. Qed.

Lemma matrix_row col b (c : list (list Z)) (i x : Z) (row : list Z) :
  0 ≤ col ≤ 32 → 0 ≤ i → b !! Z.to_nat i = Some x → c !! Z.to_nat i = Some row → length row = Z.to_nat col →
  for_range 0 col (λ j c, x ← load b i; v ← bit_at x j; store2 c i j v) c = store c i (bits col x).
Proof.
  intros Hc Hi Hb Hr Lr. assert (Hl : 0 ≤ i < Z.of_nat (length c)) by (apply lookup_lt_Some in Hr; lia).
  match goal with |- for_range 0 col ?b _ = _ => set (body := b) end.
  destruct (for_range_inv (λ j c', 0 ≤ j ∧ c' = <[Z.to_nat i := bits j x ++ drop (Z.to_nat j) row]> c) body 0 col c)
    as (c' & -> & _ & ->).
  - lia.
  - split; [done|]. cbn. by rewrite list_insert_id.
  - intros j c' Hj [_ ->]. unfold body. rewrite (load_ok b i x), bind_ok, bit_at_spec, bind_ok by (done || lia).
    unfold store2. rewrite (load_ok _ i (bits j x ++ drop (Z.to_nat j) row)), bind_ok;
      [|done|by rewrite lookup_insert_Z, decide_True by lia].
    destruct (lookup_lt_Z row j) as [y Hy]; [lia|].
    rewrite store_ok, bind_ok by (rewrite length_app, length_bits, length_drop; lia).
    rewrite store_ok by (rewrite length_insert; lia). eexists. split; [reflexivity|]. split; [lia|].
    rewrite list_insert_insert_eq. f_equal. rewrite insert_app_r_alt by (rewrite length_bits; lia).
    rewrite length_bits, Nat.sub_diag, (drop_S _ _ _ Hy), bits_snoc, <- app_assoc by lia. cbn.
    by replace (Z.to_nat (j + 1)) with (S (Z.to_nat j)) by lia.
  - rewrite drop_ge, app_nil_r, store_ok by lia. done.
Qed.

Lemma get_matrix_spec b col c :
  0 ≤ col ≤ 32 → length c = length b → Forall (λ row, length row = Z.to_nat col) c →
  get_matrix b (Z.of_nat (length b)) col c = Ok (bits col <$> b).
Proof.
  intros Hc Lc Hf. unfold get_matrix.
  rewrite (map_fill (bits col) b _ c); [by rewrite drop_ge, app_nil_r by lia|lia|].
  intros i x c' Hi Hx Lc' Hrest. pose proof (lookup_lt_Some _ _ _ Hx). destruct (lookup_lt_Z c i) as [row Hrow]; [lia|].
  rewrite (matrix_row col b c' i x row); [done|done|lia|done|by rewrite Hrest|].
  exact (Forall_lookup_1 _ _ _ _ Hf Hrow).
Qed.

Lemma get_bin_spec b col (l : list Z) :
  0 ≤ col ≤ 31 → Forall (λ x, 0 ≤ x < 2 ^ col) b → length l = length b →
  get_bin (bits col <$> b) (Z.of_nat (length b)) col l = Ok b.
Proof.
  intros Hc Hf Ll. unfold get_bin.
  rewrite (map_fill id b _ l); [by rewrite list_fmap_id, drop_ge, app_nil_r by lia|lia|].
  intros i x l' Hi Hx Ll' _. pose proof (Forall_lookup_1 _ _ _ _ Hf Hx) as Hr. cbn beta in Hr.
  match goal with |- (for_range 0 col ?b _ ≫= _) = _ => set (body := b) end.
  destruct (for_range_inv (λ j t, 0 ≤ j ∧ t = x mod 2 ^ j) body 0 col 0) as (t & -> & _ & ->).
  - lia.
  - split; [done|]. by rewrite Z.pow_0_r, Z.mod_1_r.
  - intros j t Hj [_ ->]. unfold body. rewrite (load_ok _ i (bits col x)), bind_ok by (lia || by rewrite list_lookup_fmap, Hx).
    rewrite (load_ok _ j (Z.b2z (filled x j))), bind_ok; [|lia|].
    2: { unfold bits. rewrite list_lookup_fmap, lookup_seqZ0 by lia. cbn. by rewrite Z2Nat.id by lia. }
    rewrite <- pow2_step by lia. pose proof (Z.mod_pos_bound x (2 ^ (j + 1)) ltac:(lia)).
    assert (2 ^ (j + 1) ≤ 2 ^ 31) by (apply Z.pow_le_mono_r; lia).
    rewrite chk_int_ok by (unfold INT_MIN, INT_MAX; lia). eexists. split; [reflexivity|]. split; [lia|done].
  - rewrite bind_ok. by rewrite Z.mod_small.
Qed.

Lemma shift_spec l x col :
  0 ≤ x ≤ col → col ≤ 31 → Forall (λ v, 0 ≤ v < 2 ^ (col - x)) l → x < 32 →
  shift l (Z.of_nat (length l)) x = Ok ((λ v, v * 2 ^ x) <$> l).
Proof.
  intros Hx Hc Hf Hx32. unfold shift.
  rewrite (map_fill (λ v, v * 2 ^ x) l _ l); [by rewrite drop_ge, app_nil_r by lia|lia|].
  intros i v l' Hi Hv Ll Hrest. pose proof (Forall_lookup_1 _ _ _ _ Hf Hv) as Hr. cbn beta in Hr.
  rewrite (load_ok l' i v), bind_ok by (lia || by rewrite Hrest). unfold shl.
  destruct (Z.leb_spec 0 x); [|lia]. destruct (Z.ltb_spec x 32); [|lia]. cbn [andb]. destruct (Z.ltb_spec v 0); [lia|].
  assert (Hp : 2 ^ (col - x) * 2 ^ x ≤ 2 ^ 31).
  { rewrite <- Z.pow_add_r by lia. apply Z.pow_le_mono_r; lia. }
  assert (0 < 2 ^ x) by lia. by rewrite Z.shiftl_mul_pow2, chk_int_ok, bind_ok by (unfold INT_MIN, INT_MAX; nia).
Qed.

(** ** Properties *)

(** C35: On boards of 2 to 1000 rows and 2 to 32 columns the features are counts over the cells:
    full rows below the first empty one, changes along the rows between two walls, changes
    along the columns from the floor up, empty cells below a filled one (row 0 and the top
    row aside), and wells at the right border only, each with the empty cells under it. *)
Theorem board_features brd col col_max :
  2 ≤ col ≤ 32 → (2 ≤ length brd)%nat → Z.of_nat (length brd) ≤ 1000 →
  let n := Z.of_nat (length brd) in
  get_rw_rm brd col_max n = Ok (full_rows col_max brd) ∧
  get_rw_t brd col n = Ok (sumf (λ i, row_changes (row_at brd i) col) 0 (length brd)) ∧
  get_col_t brd col n col_max = Ok (sumf (col_changes col_max brd) 0 (Z.to_nat col)) ∧
  gt_hl brd col n = Ok (sumf (λ i, sumf (λ j, Z.b2z (is_hole brd i j)) 0 (Z.to_nat col)) 1 (length brd - 2)) ∧
  gt_wl brd col n = Ok (sumf (right_well brd col) 1 (length brd - 1)).
Proof.
  intros Hc Hl Hn n. split; [by apply get_rw_rm_spec|]. split; [apply get_rw_t_spec; lia|].
  split; [apply get_col_t_spec; lia|]. split; [apply gt_hl_spec; lia|apply gt_wl_spec; lia].
Qed.

(** A board with a hole in row 1, a well between two columns in row 2 that is
    not counted, and one at the right border that is. *)
Lemma board_features_witness :
  let brd := [7; 5; 5; 3] in
  get_rw_rm brd 7 4 = Ok 1 ∧ get_rw_t brd 3 4 = Ok 6 ∧ get_col_t brd 3 4 7 = Ok 3 ∧
  gt_hl brd 3 4 = Ok 2 ∧ gt_wl brd 3 4 = Ok 1.
Proof.
  destruct (board_features [7; 5; 5; 3] 3 7) as (E1 & E2 & E3 & E4 & E5); [lia|cbn; lia|cbn; lia|].
  split; [exact E1|]. split; [exact E2|]. split; [exact E3|]. split; [exact E4|exact E5].
Defined.

(** get_ld_h reads its loop variable before it is assigned, so that evl never returns a score,
    and get_col_t1 does the same on every board with a column. *)
Theorem evl_faults brd pce_x pos_y col col_max rw_n size :
  get_ld_h pce_x size pos_y rw_n = Err Uninitialised ∧
  evl brd pce_x pos_y col col_max rw_n = Err Uninitialised ∧
  get_col_t1 brd col rw_n col_max = (if 1 <=? col then Err Uninitialised else Ok 0).
Proof.
  split; [done|]. split; [done|]. unfold get_col_t1.
  destruct (Z.leb_spec 1 col); [by rewrite for_range_step by lia|by rewrite for_range_empty by lia].
Qed.

(** For rows that fit, get_bin turns the matrix that get_matrix makes of shifted rows back into
    those rows, and every row of that matrix is x empty columns followed by the bits of the
    row before the shift. *)
Theorem matrix_roundtrip b x col c (l : list Z) :
  0 ≤ x ≤ col → col ≤ 31 → Forall (λ v, 0 ≤ v < 2 ^ (col - x)) b → length c = length b → length l = length b →
  Forall (λ row, length row = Z.to_nat col) c →
  let n := Z.of_nat (length b) in
  ∃ b' m, shift b n x = Ok b' ∧ get_matrix b' n col c = Ok m ∧ get_bin m n col l = Ok b' ∧
    m = (λ v, replicate (Z.to_nat x) 0 ++ bits (col - x) v) <$> b.
Proof.
  intros Hx Hc Hf Lc Ll Hr n. exists ((λ v, v * 2 ^ x) <$> b), (bits col <$> ((λ v, v * 2 ^ x) <$> b)).
  assert (Lb : length ((λ v, v * 2 ^ x) <$> b) = length b) by apply length_fmap. subst n.
  assert (Hf' : Forall (λ v, 0 ≤ v < 2 ^ col) ((λ v, v * 2 ^ x) <$> b)).
  { apply Forall_fmap. eapply Forall_impl; [exact Hf|]. intros v Hv. cbn in *. replace col with ((col - x) + x) by lia.
    rewrite Z.pow_add_r by lia. assert (0 < 2 ^ x) by lia. nia. }
  split; [apply (shift_spec b x col); lia || done|]. rewrite <- Lb.
  split; [apply get_matrix_spec; lia || done|]. split; [apply get_bin_spec; lia || done|].
  rewrite <- list_fmap_compose. apply list_fmap_ext. intros i v _. cbn. apply list_eq. intros k.
  unfold bits. rewrite !list_lookup_fmap. destruct (decide (k < Z.to_nat col)%nat) as [Hk|Hk].
  2: { rewrite !lookup_ge_None_2; [done| |]; rewrite ?length_app, ?length_replicate, ?length_fmap, length_seqZ0; lia. }
  rewrite lookup_seqZ0 by lia. cbn. destruct (decide (k < Z.to_nat x)%nat).
  - rewrite lookup_app_l, lookup_replicate_2 by (rewrite ?length_replicate; lia). f_equal.
    by rewrite Z.mul_pow2_bits_low by lia.
  - rewrite lookup_app_r, length_replicate, list_lookup_fmap, lookup_seqZ0 by ((rewrite length_replicate; lia) || lia).
    cbn. do 2 f_equal. rewrite Z.mul_pow2_bits by lia. f_equal. lia.
Qed.

Lemma matrix_witness :
  ∃ b' m, shift [6; 3] 2 1 = Ok b' ∧ get_matrix b' 2 4 [[9; 9; 9; 9]; [9; 9; 9; 9]] = Ok m ∧ get_bin m 2 4 [0; 0] = Ok b' ∧
    m = [[0; 0; 1; 1]; [0; 1; 1; 0]].
Proof. apply (matrix_roundtrip [6; 3] 1 4 [[9; 9; 9; 9]; [9; 9; 9; 9]] [0; 0]); [lia|lia|in_list|done|done|in_list]. Defined.
