(* ===== verification/BigCpp.v ===== *)
(** The class [BigNum] of [src/cpp/BigNum.cpp]: signed numbers of up to 128
    digits in base 2^32, least significant digit first.

    The digits are [unsigned long]s, whose width [ulw] is the choice of the
    implementation: 32 bits where the program was written for, 64 bits on
    Linux. *)
From S2P Require Import Prelude.

Definition len1 : Z := 128.
Definition len2 : Z := 2.
Definition MAX32 : Z := 0xffffffff.

Record Big := mkBig { len : Z; signal : Z; array : list Z }.

(** [BigNum()] *)
Definition big_zero : Big := mkBig 1 0 (replicate (Z.to_nat len1) 0).

(** The copy constructor and the default assignment. *)
Definition big_copy (A : Big) : Big := A.

(** ** Comparison *)

(** 1 for smaller, 0 for greater, 2 for equal absolute values. *)
Definition Compare (x A : Big) : res Z :=
  if len A <? len x then mret 0
  else if len x <? len A then mret 1
  else
    iter (S (Z.to_nat (len x))) (λ i,
      if 0 <=? i then
        a ← load (array x) i;
        b ← load (array A) i;
        if b <? a then mret (inr 0) else if a <? b then mret (inr 1) else mret (inl (i - 1))
      else mret (inr 2)) (len x - 1).

Definition op_eq (x A : Big) : res bool :=
  if signal x =? signal A then c ← Compare x A; mret (c =? 2) else mret false.

Definition op_ne (x A : Big) : res bool :=
  if signal x =? signal A then c ← Compare x A; mret (negb (c =? 2)) else mret false.

(** The unary minus. *)
Definition op_neg (x : Big) : Big := mkBig (len x) (1 - signal x) (array x).

(** [while (length > 1) if (array[length - 1] == 0) length--; else break;] *)
Definition trim (x : Big) : res Big :=
  iter (S (Z.to_nat (len x))) (λ x,
    if 1 <? len x then
      d ← load (array x) (len x - 1);
      if d =? 0 then mret (inl (mkBig (len x - 1) (signal x) (array x))) else mret (inr x)
    else mret (inr x)) x.

Section digits.
Context (ulw : Z).

(** Conversion to [unsigned long]. *)
Definition ul (z : Z) : Z := z mod 2 ^ ulw.

(** [BigNum(uint64_t)] *)
Definition big_u64 (A : Z) : Big :=
  let z := replicate (Z.to_nat len1) 0 in
  if A <=? MAX32 then mkBig 1 0 (<[0%nat := ul A]> z)
  else mkBig 2 0 (<[0%nat := ul A]> (<[1%nat := ul (Z.shiftr A 32)]> z)).

(** [BigNum(string s)]: the array starts uninitialised; the result is the
    length and the cells. *)
Definition big_str (s : list Z) : res (Z * list cell) :=
  a ← for_range 0 (Z.of_nat (length s)) (λ i a,
    x ← load_init a (i / 4);
    a ← store_init a (i / 4) (ul (Z.shiftl x 8));
    x ← load_init a (i / 4);
    c ← load s i;
    store_init a (i / 4) (ul (Z.lor x c))) (replicate (Z.to_nat len1) None);
  mret (wrap_i32 (wrap_u64 (wrap_u64 (Z.of_nat (length s) - 1) / 4 + 1)), a).

(** ** Sums *)

Definition add_same (x A : Big) : res Big :=
  let n := (if len A <=? len x then len x else len A) + 1 in
  '(_, s) ← for_range 0 n (λ i '(C, s),
    a ← load (array A) i;
    b ← load (array x) i;
    let sum := wrap_u64 (a + b + C) in
    s ← store s i (ul sum);
    mret (if sum <=? MAX32 then 0 else 1, s)) (0, array big_zero);
  trim (mkBig n (signal x) s).

(** The digits of a difference: [sub] is an [unsigned int]. *)
Definition sub_digits (n : Z) (x A : list Z) : res (list Z) :=
  '(_, s) ← for_range 0 n (λ i '(F, s),
    a ← load x i;
    b ← load A i;
    let sub := wrap_u32 (ul (a - F)) in
    let F := if sub <? b then 1 else 0 in
    s ← store s i (ul (wrap_u32 (MAX32 * F) - b + sub + F));
    mret (F, s)) (0, array big_zero);
  mret s.

Definition sub_same (x A : Big) : res Big :=
  c ← Compare x A;
  if (c =? 0) || (c =? 2) then
    s ← sub_digits (len x) (array x) (array A);
    trim (mkBig (Z.max 0 (len x)) (if signal x =? 0 then 0 else 1) s)
  else
    s ← sub_digits (len A) (array A) (array x);
    trim (mkBig (Z.max 0 (len A)) (if signal x =? 0 then 1 else 0) s).

(** The operators call each other once, when the signs differ. *)
Fixpoint addsub (fuel : nat) (minus : bool) (x A : Big) : res Big :=
  match fuel with
  | O => Err OutOfFuel
  | S fuel' =>
      if minus then
        if signal x =? signal A then sub_same x A else addsub fuel' false x (op_neg A)
      else
        if signal x =? signal A then add_same x A
        else if signal x =? 0 then addsub fuel' true x (op_neg A)
        else addsub fuel' true A (op_neg x)
  end.

Definition op_add : Big → Big → res Big := addsub 2 false.
Definition op_sub : Big → Big → res Big := addsub 2 true.

(** ** Products *)

(** The inner loop: [C] is the carry, kept from one row to the next. *)
Definition mul_row (x : Big) (ai i : Z) (s : Z * list Z) : res (Z * list Z) :=
  for_range 0 (len x + 1) (λ j '(C, p),
    xj ← load (array x) j;
    let pro := wrap_u64 (ai * xj + C) in
    d ← load p (i + j);
    let t := wrap_u64 (d + pro) in
    p ← store p (i + j) (ul (d + ul pro));
    mret (if MAX32 <? t then Z.shiftr t 32 else 0, p)) s.

Definition op_mul (x A : Big) : res Big :=
  '(_, p) ← for_range 0 (len A) (λ i s, ai ← load (array A) i; mul_row x ai i s) (0, array big_zero);
  trim (mkBig (len x + len A) (if signal x =? signal A then 0 else 1) p).

(** ** Division *)

(** [Z.length += len], and the digits move up by [k] places. *)
Definition shift_digits (z : Big) (k : Z) : res Big :=
  let n := len z + k in
  a ← for_down (n - 1) k (λ i a, d ← load a (i - k); store a i d) (array z);
  a ← for_range 0 k (λ i a, store a i 0) a;
  mret (mkBig n (signal z) a).

(** The trial quotient for [X > A] and its shift; [None] for equal top digits. *)
Definition div_trial (X A : Big) : res (option (Z * Z)) :=
  xt ← load (array X) (len X - 1);
  at_ ← load (array A) (len A - 1);
  if at_ <? xt then q ← c_div xt (ul (at_ + 1)); mret (Some (q, len X - len A))
  else if len A <? len X then
    x2 ← load (array X) (len X - 2);
    let temp := wrap_u64 (wrap_u64 (Z.shiftl xt 32) + x2) in
    q ← (if at_ =? MAX32 then mret (Z.shiftr temp 32) else c_div temp (ul (at_ + 1)));
    mret (Some (q, len X - len A - 1))
  else mret None.

Definition div_long (fuel : nat) (x A : Big) : res Big :=
  '(X, Y) ← iter fuel (λ '(X, Y),
    c ← Compare X A;
    if c =? 0 then
      t ← div_trial X A;
      match t with
      | None => Y ← op_add Y (big_u64 1); mret (inr (X, Y))
      | Some (q, k) =>
          z ← shift_digits (big_u64 q) k;
          Y ← op_add Y z;
          z ← op_mul A z;
          X ← op_sub X z;
          mret (inl (X, Y))
      end
    else mret (inr (X, Y))) (x, big_zero);
  c ← Compare X A;
  Y ← (if c =? 2 then op_add Y (big_u64 1) else mret Y);
  mret (if negb (signal x =? signal A) then mkBig (len Y) 1 (array Y) else Y).

(** The loop of the division by one digit: [F] is the remainder so far. *)
Definition div_digits (n a0 : Z) (x : list Z) : res (Z * list Z) :=
  for_down (n - 1) 0 (λ i '(F, a),
    d ← load a i;
    let div := wrap_u64 (wrap_u64 (Z.shiftl F 32) + d) in
    q ← c_div div a0;
    a ← store a i (ul q);
    mret (ul (div - wrap_u64 (q * a0)), a)) (0, x).

(** A divisor of one digit. *)
Definition div_short (x A : Big) : res Big :=
  a0 ← load (array A) 0;
  if len x =? 1 then
    x0 ← load (array x) 0;
    q ← c_div x0 a0;
    a ← store (array x) 0 q;
    mret (mkBig (len x) (signal x) a)
  else
    '(_, a) ← div_digits (len x) a0 (array x);
    top ← load a (len x - 1);
    mret (mkBig (if top =? 0 then len x - 1 else len x) (signal x) a).

Definition op_div (fuel : nat) (x A : Big) : res Big :=
  if 1 <? len A then div_long fuel x A else div_short x A.

(** One turn of the loop of the remainder: the new dividend, or the result. *)
Definition mod_step (x A Y : Big) : res (Big + Big) :=
  c ← Compare Y A;
  if (c =? 0) || (c =? 2) then
    div ← load (array Y) (len Y - 1);
    temp ← load (array A) (len A - 1);
    let k := len Y - len A in
    if (div =? temp) && (k =? 0) then Y ← op_sub Y A; mret (inr Y)
    else
      '(div, k) ← (if (div <=? temp) && negb (len x =? 0) then
          y2 ← load (array Y) (len Y - 2);
          mret (wrap_u64 (wrap_u64 (Z.shiftl div 32) + y2), k - 1)
        else mret (div, k));
      q ← c_div div (wrap_u64 (temp + 1));
      z ← (if negb (k =? 0) then shift_digits (big_u64 q) k else mret (big_u64 q));
      T ← op_mul A z;
      Y ← op_sub Y T;
      mret (inl Y)
  else mret (inr Y).

Definition mod_short (x A : Big) : res Big :=
  a0 ← load (array A) 0;
  F ← (if len x =? 1 then x0 ← load (array x) 0; c_mod x0 a0
    else for_down (len x - 1) 0 (λ i F,
      d ← load (array x) i;
      c_mod (Z.lor (wrap_u64 (Z.shiftl F 32)) d) a0) 0);
  mret (big_u64 F).

Definition op_mod (fuel : nat) (x A : Big) : res Big :=
  if 1 <? len A then iter fuel (mod_step x A) x else mod_short x A.
End digits.
