(* ===== verification/BigCppSpec.v ===== *)
(** The arithmetic of the class [BigNum] with digits of 32 bits: values, the
    sum, the product, the comparison, the exact result of the difference with
    the borrows it loses, and the division by one digit. *)
From S2P Require Import Prelude BigCpp.

Definition B : Z := 2 ^ 32.

(** ** Values *)

Definition dig (l : list Z) (k : Z) : Z := default 0 (l !! Z.to_nat k).

(** The number of the first [n] digits. *)
Definition val (l : list Z) (n : Z) : Z := sumf (λ k, dig l k * B ^ k) 0 (Z.to_nat n).

Definition magnitude (x : Big) : Z := val (array x) (len x).
Definition value (x : Big) : Z := if signal x =? 0 then magnitude x else - magnitude x.

Definition digits32 (l : list Z) : Prop := ∀ k, 0 ≤ k → 0 ≤ dig l k < B.

(** The invariant of the class: 128 digits, those above the length are zero,
    and the top one is not, but for a number of one digit. *)
Record wf (x : Big) : Prop := {
  wf_array : length (array x) = 128%nat;
  wf_len : 1 ≤ len x ≤ 128;
  wf_digits : digits32 (array x);
  wf_above : ∀ k, len x ≤ k → dig (array x) k = 0;
  wf_top : len x = 1 ∨ dig (array x) (len x - 1) ≠ 0;
  wf_signal : signal x = 0 ∨ signal x = 1
}.

Lemma load_dig l k : 0 ≤ k < Z.of_nat (length l) → load l k = Ok (dig l k).
Proof. intros Hk. destruct (lookup_lt_Z l k Hk) as [x Hx]. unfold dig. rewrite Hx. apply load_ok; [lia|done]. Qed.

Lemma dig_insert l k v j :
  0 ≤ k < Z.of_nat (length l) → 0 ≤ j → dig (<[Z.to_nat k := v]> l) j = if decide (k = j) then v else dig l j.
Proof. intros Hk Hj. unfold dig. rewrite lookup_insert_Z by done. by case_decide. Qed.

Lemma dig_zero k : 0 ≤ k → dig (array big_zero) k = 0.
Proof.
  intros Hk. unfold dig, big_zero. cbn [array]. destruct (decide (Z.to_nat k < Z.to_nat len1)%nat).
  - by rewrite lookup_replicate_2.
  - rewrite lookup_ge_None_2; [done|]. rewrite length_replicate. lia.
Qed.

Lemma dig_beyond l k : Z.of_nat (length l) ≤ k → dig l k = 0.
Proof. intros Hk. unfold dig. rewrite lookup_ge_None_2; [done|lia]. Qed.

Lemma val_step l n : 0 ≤ n → val l (n + 1) = val l n + dig l n * B ^ n.
Proof.
  intros Hn. unfold val. replace (Z.to_nat (n + 1)) with (S (Z.to_nat n)) by lia. rewrite sumf_snoc.
  by rewrite Z.add_0_l, Z2Nat.id.
Qed.

Lemma val_0 l : val l 0 = 0.
Proof. done. Qed.

Lemma value_ext l m n : (∀ k, 0 ≤ k < n → dig l k = dig m k) → val l n = val m n.
Proof. intros H. unfold val. apply sumf_ext. intros k Hk. rewrite H by lia. done. Qed.

Lemma B_pos k : 0 < B ^ k ∨ k < 0.
Proof. destruct (decide (k < 0)); [by right|left]. apply Z.pow_pos_nonneg; [done|lia]. Qed.

Lemma B_succ k : 0 ≤ k → B ^ (k + 1) = B * B ^ k.
Proof. intros Hk. by rewrite Z.pow_add_r, Z.pow_1_r, Z.mul_comm by lia. Qed.

(** Induction on the number of digits. *)
Lemma digits_ind (P : Z → Prop) : P 0 → (∀ n, 0 ≤ n → P n → P (n + 1)) → ∀ n, 0 ≤ n → P n.
Proof. intros H0 HS n Hn. apply (natlike_ind P); [done|intros x Hx HP; by apply HS|done]. Qed.

Lemma value_bound l n : 0 ≤ n → digits32 l → 0 ≤ val l n < B ^ n.
Proof.
  intros Hn Hl. revert n Hn. apply (digits_ind (λ n, 0 ≤ val l n < B ^ n)); [done|].
  intros n Hn IH. rewrite val_step, B_succ by done. pose proof (Hl n Hn). destruct (B_pos n); nia.
Qed.

Lemma val_above l n m : 0 ≤ n ≤ m → (∀ k, n ≤ k → dig l k = 0) → val l m = val l n.
Proof.
  intros [Hn Hm] H. replace m with (n + (m - n)) by lia. assert (Hd : 0 ≤ m - n) by lia. revert Hd.
  generalize (m - n). clear m Hm. apply (digits_ind (λ d, val l (n + d) = val l n)); [by rewrite Z.add_0_r|].
  intros d Hd IH. rewrite Z.add_assoc, val_step, H by lia. lia.
Qed.

(** ** Removing leading zeros *)

Lemma trim_spec x :
  length (array x) = 128%nat → 1 ≤ len x ≤ 128 →
  ∃ n, trim x = Ok (mkBig n (signal x) (array x)) ∧ 1 ≤ n ≤ len x ∧
    (∀ k, n ≤ k < len x → dig (array x) k = 0) ∧ (n = 1 ∨ dig (array x) (n - 1) ≠ 0).
Proof.
  intros La Hx. unfold trim. match goal with |- context [iter _ ?s _] => set (step := s) end.
  destruct (iter_inv (λ y, ∃ n, y = mkBig n (signal x) (array x) ∧ 1 ≤ n ≤ len x ∧ ∀ k, n ≤ k < len x → dig (array x) k = 0)
    (λ y, ∃ n, y = mkBig n (signal x) (array x) ∧ 1 ≤ n ≤ len x ∧ (∀ k, n ≤ k < len x → dig (array x) k = 0) ∧
      (n = 1 ∨ dig (array x) (n - 1) ≠ 0))
    step (λ y, Z.to_nat (len y)) (S (Z.to_nat (len x))) x) as (y & -> & n & -> & H).
  - exists (len x). split; [by destruct x|]. split; [lia|]. lia.
  - lia.
  - intros y (n & -> & Hn & Hz). unfold step. cbn [len array signal].
    destruct (Z.ltb_spec 1 n) as [H1|H1].
    + rewrite load_dig, bind_ok by lia. destruct (Z.eqb_spec (dig (array x) (n - 1)) 0) as [E|E]; [left|right].
      * eexists. split; [reflexivity|]. cbn [len]. split; [|lia]. exists (n - 1). split; [done|]. split; [lia|].
        intros k Hk. destruct (decide (k = n - 1)) as [->|]; [done|]. apply Hz. lia.
      * eexists. split; [reflexivity|]. exists n. split; [done|]. split; [lia|]. split; [done|by right].
    + right. eexists. split; [reflexivity|]. exists n. split; [done|]. split; [lia|]. split; [done|left; lia].
  - by exists n.
Qed.

(** What the operators return: the digits they computed, with the length cut. *)
Lemma trim_wf n sg a :
  length a = 128%nat → 1 ≤ n ≤ 128 → digits32 a → (∀ k, n ≤ k → dig a k = 0) → sg = 0 ∨ sg = 1 →
  ∃ y, trim (mkBig n sg a) = Ok y ∧ wf y ∧ magnitude y = val a n ∧ signal y = sg.
Proof.
  intros La Hn Hd Hz Hs. destruct (trim_spec (mkBig n sg a)) as (m & E & Hm & Hz' & Ht); [done|done|].
  cbn [len array signal] in *. eexists. split; [exact E|].
  assert (Hz2 : ∀ k, m ≤ k → dig a k = 0) by (intros k Hk; destruct (decide (k < n)); [apply Hz'|apply Hz]; lia).
  split; [split; cbn [len array signal]; try done; lia|]. split; [|done].
  unfold magnitude. cbn [len array]. symmetry. apply val_above; [lia|done].
Qed.

(** ** The sum *)

Lemma carry_split s : 0 ≤ s < 2 * B → s = ul 32 s + B * (if s <=? MAX32 then 0 else 1).
Proof.
  intros Hs. unfold ul. change (2 ^ 32) with B. pose proof (Z.div_mod s B ltac:(done)) as E.
  destruct (Z.leb_spec s MAX32) as [H|H]; unfold MAX32, B in *.
  - rewrite Z.mod_small by lia. lia.
  - assert (s / 2 ^ 32 = 1) by (symmetry; apply (Z.div_unique _ _ _ (s - 2 ^ 32)); lia). lia.
Qed.

Lemma ul_digit z : 0 ≤ ul 32 z < B.
Proof. apply Z.mod_pos_bound. done. Qed.

Lemma ul_id z : 0 ≤ z < B → ul 32 z = z.
Proof. apply Z.mod_small. Qed.

(** The digits written so far, with zeros above. *)
Definition written (s : list Z) (i : Z) : Prop :=
  length s = 128%nat ∧ digits32 s ∧ ∀ k, i ≤ k → dig s k = 0.

Lemma written_zero : written (array big_zero) 0.
Proof.
  split; [done|]. split; [intros k Hk; rewrite dig_zero by done; done|]. intros k Hk. by apply dig_zero.
Qed.

Lemma written_step s i v : written s i → 0 ≤ i < 128 → 0 ≤ v < B → written (<[Z.to_nat i := v]> s) (i + 1).
Proof.
  intros (L & Hd & Hz) Hi Hv. split; [by rewrite length_insert|]. split.
  - intros k Hk. rewrite dig_insert by lia. case_decide; [done|by apply Hd].
  - intros k Hk. rewrite dig_insert by lia. case_decide; [lia|]. apply Hz. lia.
Qed.

Lemma val_written s i v : written s i → 0 ≤ i < 128 → val (<[Z.to_nat i := v]> s) (i + 1) = val s i + v * B ^ i.
Proof.
  intros (L & _) Hi. rewrite val_step, dig_insert, decide_True by lia. f_equal. apply value_ext.
  intros k Hk. rewrite dig_insert, decide_False by lia. done.
Qed.

Lemma add_same_spec x A :
  wf x → wf A → len x ≤ 127 → len A ≤ 127 →
  ∃ y, add_same 32 x A = Ok y ∧ wf y ∧ magnitude y = magnitude x + magnitude A ∧ signal y = signal x.
Proof.
  intros Wx WA Lx LA. unfold add_same. set (n := (if len A <=? len x then len x else len A) + 1).
  pose proof (wf_len _ Wx). pose proof (wf_len _ WA). pose proof (wf_array _ Wx). pose proof (wf_array _ WA).
  assert (Hn : 2 ≤ n ≤ 128 ∧ len x < n ∧ len A < n) by (subst n; destruct (Z.leb_spec (len A) (len x)); lia).
  match goal with |- context [for_range 0 n ?b _] => set (body := b) end.
  destruct (for_range_inv (λ i '(C, s), 0 ≤ i ∧ written s i ∧ 0 ≤ C ≤ 1 ∧
      val s i + C * B ^ i = val (array x) i + val (array A) i) body 0 n (0, array big_zero))
    as ([C s] & -> & _ & Hw & HC & Hv).
  - lia.
  - split; [done|]. split; [apply written_zero|]. done.
  - intros i [C s] Hi (_ & Hw & HC & Hv). unfold body. rewrite (load_dig (array A)), bind_ok, (load_dig (array x)), bind_ok by lia.
    pose proof (wf_digits _ Wx i ltac:(lia)). pose proof (wf_digits _ WA i ltac:(lia)).
    assert (Es : wrap_u64 (dig (array A) i + dig (array x) i + C) = dig (array A) i + dig (array x) i + C)
      by (apply Z.mod_small; unfold B in *; lia).
    rewrite Es. set (t := dig (array A) i + dig (array x) i + C) in *.
    pose proof (carry_split t ltac:(unfold B in *; lia)) as Et. pose proof (ul_digit t).
    rewrite store_ok, bind_ok by (destruct Hw as [-> _]; lia). eexists. split; [reflexivity|].
    split; [lia|]. split; [by apply written_step; lia || done|]. split; [destruct (t <=? MAX32); lia|].
    rewrite val_written, !val_step, B_succ by (lia || done). destruct (t <=? MAX32); nia.
  - rewrite bind_ok. assert (Hx0 : val (array x) n = magnitude x) by (apply val_above; [lia|apply wf_above; done]).
    assert (HA0 : val (array A) n = magnitude A) by (apply val_above; [lia|apply wf_above; done]).
    assert (C = 0).
    { rewrite Hx0, HA0 in Hv. pose proof (value_bound (array x) (n - 1) ltac:(lia) (wf_digits _ Wx)) as B1.
      pose proof (value_bound (array A) (n - 1) ltac:(lia) (wf_digits _ WA)) as B2.
      rewrite (val_above _ (len x)) in B1 by (lia || apply wf_above; done).
      rewrite (val_above _ (len A)) in B2 by (lia || apply wf_above; done).
      unfold magnitude in *. replace n with ((n - 1) + 1) in Hv at 2 by lia. rewrite B_succ in Hv by lia.
      pose proof (value_bound s n ltac:(lia) (proj1 (proj2 Hw))). unfold B in *. nia. }
    subst C. destruct Hw as (Ls & Hd & Hz).
    destruct (trim_wf n (signal x) s) as (y & E & Wy & My & Sy); [done|lia|done|done|by apply wf_signal|].
    exists y. rewrite My. split; [done|]. split; [done|]. split; [lia|done].
Qed.

(** ** The comparison *)

Definition cmp_code (a b : Z) : Z := if b <? a then 0 else if a <? b then 1 else 2.

Lemma top_digit l m n : 0 ≤ n → digits32 l → digits32 m → dig l n < dig m n → val l (n + 1) < val m (n + 1).
Proof.
  intros Hn Hl Hm H. rewrite !val_step by done. pose proof (value_bound l n Hn Hl). pose proof (value_bound m n Hn Hm).
  destruct (B_pos n); nia.
Qed.

Lemma len_lt x A : wf x → wf A → len x < len A → magnitude x < magnitude A.
Proof.
  intros Wx WA Hl. pose proof (wf_len _ Wx). pose proof (wf_len _ WA).
  pose proof (value_bound (array x) (len x) ltac:(lia) (wf_digits _ Wx)) as Bx.
  destruct (wf_top _ WA) as [|Ht]; [lia|]. unfold magnitude. replace (len A) with ((len A - 1) + 1) by lia.
  rewrite val_step by lia. pose proof (value_bound (array A) (len A - 1) ltac:(lia) (wf_digits _ WA)).
  pose proof (wf_digits _ WA (len A - 1) ltac:(lia)).
  assert (B ^ len x ≤ B ^ (len A - 1)) by (apply Z.pow_le_mono_r; [done|lia]). nia.
Qed.

Lemma Compare_spec x A : wf x → wf A → Compare x A = Ok (cmp_code (magnitude x) (magnitude A)).
Proof.
  intros Wx WA. unfold Compare, cmp_code. destruct (Z.ltb_spec (len A) (len x)) as [H|H].
  { pose proof (len_lt _ _ WA Wx H). by destruct (Z.ltb_spec (magnitude A) (magnitude x)); [|lia]. }
  destruct (Z.ltb_spec (len x) (len A)) as [H'|H'].
  { pose proof (len_lt _ _ Wx WA H'). destruct (Z.ltb_spec (magnitude A) (magnitude x)); [lia|].
    by destruct (Z.ltb_spec (magnitude x) (magnitude A)); [|lia]. }
  assert (El : len A = len x) by lia. pose proof (wf_len _ Wx). pose proof (wf_array _ Wx). pose proof (wf_array _ WA).
  match goal with |- iter _ ?s _ = _ => set (step := s) end.
  enough (G : ∀ fuel i, -1 ≤ i < len x → (Z.to_nat (i + 1) < fuel)%nat →
    iter fuel step i = Ok (cmp_code (val (array x) (i + 1)) (val (array A) (i + 1)))).
  { rewrite G by lia. unfold magnitude, cmp_code. rewrite El. by replace (len x - 1 + 1) with (len x) by lia. }
  induction fuel as [|fuel IH]; intros i Hi Hf; [lia|]. cbn [iter]. unfold step at 2.
  destruct (Z.leb_spec 0 i); [|by replace i with (-1) by lia].
  rewrite (load_dig (array x)), bind_ok, (load_dig (array A)), bind_ok by lia. unfold cmp_code.
  destruct (Z.ltb_spec (dig (array A) i) (dig (array x) i)) as [Hd|Hd].
  { pose proof (top_digit _ _ i ltac:(lia) (wf_digits _ WA) (wf_digits _ Wx) Hd). rewrite bind_ok.
    by destruct (Z.ltb_spec (val (array A) (i + 1)) (val (array x) (i + 1))); [|lia]. }
  destruct (Z.ltb_spec (dig (array x) i) (dig (array A) i)) as [Hd'|Hd'].
  { pose proof (top_digit _ _ i ltac:(lia) (wf_digits _ Wx) (wf_digits _ WA) Hd'). rewrite bind_ok.
    destruct (Z.ltb_spec (val (array A) (i + 1)) (val (array x) (i + 1))); [lia|].
    by destruct (Z.ltb_spec (val (array x) (i + 1)) (val (array A) (i + 1))); [|lia]. }
  rewrite bind_ok, IH by lia. replace (i - 1 + 1) with i by lia. unfold cmp_code. rewrite !val_step by done.
  replace (dig (array A) i) with (dig (array x) i) by lia. f_equal.
  repeat match goal with |- context [?a <? ?b] => destruct (Z.ltb_spec a b) end; lia.
Qed.

(** ** The difference *)

(** The borrow into digit [n], as the program computes it. *)
Fixpoint borrow (a b : list Z) (n : nat) : Z :=
  match n with
  | O => 0
  | S n' => if (dig a (Z.of_nat n') - borrow a b n') mod B <? dig b (Z.of_nat n') then 1 else 0
  end.

(** What is gained when a borrow out of a zero digit is forgotten. *)
Definition lost (a b : list Z) (n : Z) : Z :=
  sumf (λ k, if (borrow a b (Z.to_nat k) =? 1) && (dig a k =? 0) then B ^ (k + 1) else 0) 0 (Z.to_nat n).

Lemma borrow_bit a b n : 0 ≤ borrow a b n ≤ 1.
Proof. destruct n; cbn; [lia|]. case_match; lia. Qed.

Lemma lost_step a b n :
  0 ≤ n → lost a b (n + 1) = lost a b n + (if (borrow a b (Z.to_nat n) =? 1) && (dig a n =? 0) then B ^ (n + 1) else 0).
Proof.
  intros Hn. unfold lost. replace (Z.to_nat (n + 1)) with (S (Z.to_nat n)) by lia. rewrite sumf_snoc.
  by replace (0 + Z.of_nat (Z.to_nat n)) with n by lia.
Qed.

Lemma lost_nonneg a b n : 0 ≤ n → 0 ≤ lost a b n.
Proof.
  revert n. apply (digits_ind (λ n, 0 ≤ lost a b n)); [done|]. intros n Hn IH. rewrite lost_step by done.
  destruct (_ && _); [|lia]. destruct (B_pos (n + 1)); lia.
Qed.

(** One digit: [F] is the borrow into it, [F'] the borrow out of it. *)
Lemma sub_digit a b F :
  0 ≤ a < B → 0 ≤ b < B → 0 ≤ F ≤ 1 →
  let sub := (a - F) mod B in
  let F' := if sub <? b then 1 else 0 in
  0 ≤ sub - b + B * F' < B ∧ ul 32 (wrap_u32 (MAX32 * F') - b + sub + F') = sub - b + B * F' ∧
  sub = a - F + (if (F =? 1) && (a =? 0) then B else 0).
Proof.
  intros Ha Hb HF sub F'. assert (Hs : 0 ≤ sub < B) by (by apply Z.mod_pos_bound).
  assert (HF' : 0 ≤ sub - b + B * F' < B) by (subst F'; destruct (Z.ltb_spec sub b); lia).
  split; [done|]. split.
  - assert (E : wrap_u32 (MAX32 * F') = MAX32 * F').
    { apply wrap_u32_id. subst F'. destruct (sub <? b); unfold MAX32; lia. }
    rewrite E. unfold ul. change (2 ^ 32) with B. rewrite <- (Z.mod_small (sub - b + B * F') B) by done. f_equal.
    unfold MAX32, B. lia.
  - subst sub. destruct (Z.eqb_spec F 1) as [->|]; destruct (Z.eqb_spec a 0) as [->|]; cbn [andb];
      [done|rewrite Z.mod_small; lia|replace F with 0 by lia; rewrite Z.mod_small; lia..].
Qed.

Lemma sub_digits_spec n a b :
  length a = 128%nat → length b = 128%nat → 0 ≤ n ≤ 128 → digits32 a → digits32 b →
  ∃ s, sub_digits 32 n a b = Ok s ∧ written s n ∧
    val s n = val a n - val b n + borrow a b (Z.to_nat n) * B ^ n + lost a b n.
Proof.
  intros La Lb Hn Ha Hb. unfold sub_digits. match goal with |- context [for_range 0 n ?b _] => set (body := b) end.
  destruct (for_range_inv (λ i '(F, s), 0 ≤ i ∧ written s i ∧ F = borrow a b (Z.to_nat i) ∧
      val s i = val a i - val b i + F * B ^ i + lost a b i) body 0 n (0, array big_zero))
    as ([F s] & -> & _ & Hw & -> & Hv).
  - lia.
  - split; [done|]. split; [apply written_zero|]. done.
  - intros i [F s] Hi (_ & Hw & -> & Hv). unfold body. rewrite (load_dig a), bind_ok, (load_dig b), bind_ok by lia.
    set (F := borrow a b (Z.to_nat i)) in *. pose proof (borrow_bit a b (Z.to_nat i)) as HF.
    pose proof (Ha i ltac:(lia)) as Hai. pose proof (Hb i ltac:(lia)) as Hbi.
    assert (Es : wrap_u32 (ul 32 (dig a i - F)) = (dig a i - F) mod B) by (apply Z.mod_small, Z.mod_pos_bound; done).
    rewrite Es. destruct (sub_digit (dig a i) (dig b i) F Hai Hbi HF) as (Hr & Ed & Esub).
    set (sub := (dig a i - F) mod B) in *. set (F' := if sub <? dig b i then 1 else 0) in *. cbv zeta. fold F'.
    rewrite Ed, store_ok, bind_ok by (destruct Hw as [-> _]; lia). eexists. split; [reflexivity|].
    split; [lia|]. split; [by apply written_step; lia || done|]. split.
    + replace (Z.to_nat (i + 1)) with (S (Z.to_nat i)) by lia. cbn [borrow]. by rewrite Z2Nat.id by lia.
    + rewrite val_written, !val_step, lost_step by (lia || done). fold F.
      destruct ((F =? 1) && (dig a i =? 0)); rewrite B_succ by lia; nia.
  - rewrite bind_ok. exists s. done.
Qed.

(** Under a larger number the last borrow is none. *)
Lemma sub_digits_exact x A :
  wf x → wf A → magnitude A ≤ magnitude x →
  ∃ s, sub_digits 32 (len x) (array x) (array A) = Ok s ∧ written s (len x) ∧
    val s (len x) = magnitude x - magnitude A + lost (array x) (array A) (len x).
Proof.
  intros Wx WA Hle. pose proof (wf_len _ Wx). pose proof (wf_len _ WA).
  destruct (sub_digits_spec (len x) (array x) (array A)) as (s & E & Hw & Hv);
    [apply wf_array; done|apply wf_array; done|lia|apply wf_digits; done|apply wf_digits; done|].
  exists s. split; [done|]. split; [done|].
  assert (Hlen : len A ≤ len x).
  { destruct (decide (len A ≤ len x)); [done|]. pose proof (len_lt x A Wx WA ltac:(lia)). lia. }
  rewrite (val_above (array A) (len A)) in Hv by (lia || apply wf_above; done).
  fold (magnitude x) (magnitude A) in Hv. pose proof (borrow_bit (array x) (array A) (Z.to_nat (len x))).
  pose proof (value_bound s (len x) ltac:(lia) (proj1 (proj2 Hw))).
  pose proof (lost_nonneg (array x) (array A) (len x) ltac:(lia)).
  assert (borrow (array x) (array A) (Z.to_nat (len x)) = 0); [|nia].
  destruct (decide (borrow (array x) (array A) (Z.to_nat (len x)) = 0)); [done|].
  replace (borrow (array x) (array A) (Z.to_nat (len x))) with 1 in Hv by lia. lia.
Qed.

(** The excess of the computed difference over the true one. *)
Definition excess (x A : Big) : Z :=
  if magnitude x <? magnitude A then lost (array A) (array x) (len A) else lost (array x) (array A) (len x).

Lemma sub_same_spec x A :
  wf x → wf A →
  ∃ y, sub_same 32 x A = Ok y ∧ wf y ∧ magnitude y = Z.abs (magnitude x - magnitude A) + excess x A ∧
    signal y = if magnitude x <? magnitude A then 1 - signal x else signal x.
Proof.
  intros Wx WA. unfold sub_same, excess. rewrite Compare_spec, bind_ok by done. unfold cmp_code.
  pose proof (wf_len _ Wx). pose proof (wf_len _ WA). pose proof (wf_signal _ Wx) as Hs.
  destruct (Z.ltb_spec (magnitude A) (magnitude x)); [|destruct (Z.ltb_spec (magnitude x) (magnitude A))];
    cbn [Z.eqb Pos.eqb orb].
  - destruct (sub_digits_exact x A Wx WA) as (s & -> & (Ls & Hd & Hz) & Hv); [lia|]. rewrite bind_ok, Z.max_r by lia.
    destruct (Z.ltb_spec (magnitude x) (magnitude A)); [lia|].
    destruct (trim_wf (len x) (if signal x =? 0 then 0 else 1) s) as (y & E & Wy & My & Sy);
      [done|lia|done|done|destruct (signal x =? 0); lia|].
    exists y. split; [exact E|]. split; [done|]. split; [lia|]. rewrite Sy. by destruct Hs as [-> | ->].
  - destruct (sub_digits_exact A x WA Wx) as (s & -> & (Ls & Hd & Hz) & Hv); [lia|]. rewrite bind_ok, Z.max_r by lia.
    destruct (trim_wf (len A) (if signal x =? 0 then 1 else 0) s) as (y & E & Wy & My & Sy);
      [done|lia|done|done|destruct (signal x =? 0); lia|].
    exists y. split; [exact E|]. split; [done|]. split; [lia|]. rewrite Sy. by destruct Hs as [-> | ->].
  - destruct (sub_digits_exact x A Wx WA) as (s & -> & (Ls & Hd & Hz) & Hv); [lia|]. rewrite bind_ok, Z.max_r by lia.
    destruct (trim_wf (len x) (if signal x =? 0 then 0 else 1) s) as (y & E & Wy & My & Sy);
      [done|lia|done|done|destruct (signal x =? 0); lia|].
    exists y. split; [exact E|]. split; [done|]. split; [lia|]. rewrite Sy. by destruct Hs as [-> | ->].
Qed.

(** ** Sums and differences of signed numbers *)

(** Case analysis on comparisons of integers. *)
Ltac zcases := repeat match goal with
  | |- context [?a <? ?b] => destruct (Z.ltb_spec a b)
  | |- context [?a =? ?b] => destruct (Z.eqb_spec a b)
  end; try lia.

Lemma wf_neg x : wf x → wf (op_neg x).
Proof. intros [? ? ? ? ? Hs]. split; cbn; try done. lia. Qed.

Lemma value_neg x : wf x → value (op_neg x) = - value x.
Proof.
  intros Wx. unfold value. change (magnitude (op_neg x)) with (magnitude x). cbn [op_neg signal].
  generalize (magnitude x). intros v.
  destruct (wf_signal _ Wx) as [-> | ->]; zcases.
Qed.

(** No borrow gets lost when the smaller number is taken from the larger. *)
Definition exact (x A : Big) : Prop := excess x A = 0 ∧ excess A x = 0.

Lemma sub_same_value x A :
  wf x → wf A → signal x = signal A → excess x A = 0 →
  ∃ y, sub_same 32 x A = Ok y ∧ wf y ∧ value y = value x - value A.
Proof.
  intros Wx WA Hs He. destruct (sub_same_spec x A Wx WA) as (y & E & Wy & My & Sy). exists y.
  split; [done|]. split; [done|]. unfold value. rewrite <- Hs, Sy, My, He.
  destruct (wf_signal _ Wx) as [-> | ->]; zcases.
Qed.

Lemma op_add_value x A :
  wf x → wf A → len x ≤ 127 → len A ≤ 127 → signal x = signal A ∨ exact x A →
  ∃ y, op_add 32 x A = Ok y ∧ wf y ∧ value y = value x + value A.
Proof.
  intros Wx WA Lx LA H. unfold op_add. cbn [addsub]. destruct (Z.eqb_spec (signal x) (signal A)) as [Hs|Hs].
  - destruct (add_same_spec x A Wx WA Lx LA) as (y & E & Wy & My & Sy). exists y. split; [done|]. split; [done|].
    unfold value. rewrite <- Hs, Sy, My. destruct (signal x =? 0); lia.
  - destruct H as [?|[E1 E2]]; [done|]. cbn [op_neg signal].
    destruct (wf_signal _ Wx) as [Sx|Sx], (wf_signal _ WA) as [SA|SA]; try congruence; rewrite Sx, SA; cbn [Z.eqb Pos.eqb Z.sub Z.opp Z.add Z.pos_sub].
    + destruct (sub_same_value x (op_neg A) Wx (wf_neg _ WA)) as (y & E & Wy & Vy);
        [cbn; lia|exact E1|]. exists y. split; [exact E|]. split; [done|]. rewrite Vy, value_neg by done. lia.
    + destruct (sub_same_value A (op_neg x) WA (wf_neg _ Wx)) as (y & E & Wy & Vy);
        [cbn; lia|exact E2|]. exists y. split; [exact E|]. split; [done|]. rewrite Vy, value_neg by done. lia.
Qed.

Lemma op_sub_value x A :
  wf x → wf A → len x ≤ 127 → len A ≤ 127 → signal x ≠ signal A ∨ exact x A →
  ∃ y, op_sub 32 x A = Ok y ∧ wf y ∧ value y = value x - value A.
Proof.
  intros Wx WA Lx LA H. unfold op_sub. cbn [addsub]. destruct (Z.eqb_spec (signal x) (signal A)) as [Hs|Hs].
  - destruct H as [?|[E1 _]]; [done|]. by apply sub_same_value.
  - assert (Hn : signal x = 1 - signal A) by (destruct (wf_signal _ Wx), (wf_signal _ WA); lia).
    cbn [op_neg signal]. rewrite <- Hn, Z.eqb_refl.
    destruct (add_same_spec x (op_neg A) Wx (wf_neg _ WA) Lx LA) as (y & E & Wy & My & Sy). exists y. split; [done|]. split; [done|].
    replace (value y) with (value x + value (op_neg A)) by (unfold value; rewrite Sy, My; cbn [op_neg signal];
      rewrite <- Hn; destruct (signal x =? 0); lia). rewrite value_neg by done. lia.
Qed.

(** ** The product *)

Lemma val_insert l k v n :
  0 ≤ k < n → n ≤ Z.of_nat (length l) → val (<[Z.to_nat k := v]> l) n = val l n + (v - dig l k) * B ^ k.
Proof.
  intros Hk Hn. replace n with (k + 1 + (n - (k + 1))) in * by lia. assert (Hd : 0 ≤ n - (k + 1)) by lia.
  revert Hd Hn. generalize (n - (k + 1)). intros d Hd. revert d Hd.
  apply (digits_ind (λ d, k + 1 + d ≤ Z.of_nat (length l) → val (<[Z.to_nat k := v]> l) (k + 1 + d) = val l (k + 1 + d) + (v - dig l k) * B ^ k)).
  - intros Hn. rewrite Z.add_0_r, !val_step, dig_insert, decide_True by lia.
    rewrite (value_ext (<[Z.to_nat k:=v]> l) l k); [lia|]. intros j Hj. rewrite dig_insert, decide_False by lia. done.
  - intros d Hd IH Hn. rewrite Z.add_assoc, !val_step, IH, dig_insert, decide_False by lia. lia.
Qed.

(** A double digit splits into the digit that is stored and the carry. *)
Lemma mul_carry d pro :
  0 ≤ d → 0 ≤ pro → d + pro < B * B →
  let t := wrap_u64 (d + pro) in
  let C := if MAX32 <? t then Z.shiftr t 32 else 0 in
  d + pro = ul 32 (d + ul 32 pro) + B * C ∧ 0 ≤ C < B ∧ (d + pro < B → C = 0).
Proof.
  intros Hd Hp Hs t C. assert (Et : t = d + pro) by (apply Z.mod_small; unfold B in *; lia).
  assert (Ec : C = (d + pro) / B).
  { subst C. rewrite Et. destruct (Z.ltb_spec MAX32 (d + pro)); [by rewrite Z.shiftr_div_pow2|].
    unfold MAX32, B in *. symmetry. apply Z.div_small. lia. }
  assert (Eu : ul 32 (d + ul 32 pro) = (d + pro) mod B) by (unfold ul; change (2 ^ 32) with B; by rewrite Z.add_mod_idemp_r).
  rewrite Eu, Ec. pose proof (Z.div_mod (d + pro) B ltac:(done)). split; [lia|]. split.
  - split; [apply Z.div_pos; unfold B in *; lia|]. apply Z.div_lt_upper_bound; [done|lia].
  - intros Hlt. apply Z.div_small. lia.
Qed.

Lemma mul_row_spec x ai i p :
  wf x → 0 ≤ ai < B → 0 ≤ i → i + len x ≤ 127 → written p (i + len x) →
  ∃ p', mul_row 32 x ai i (0, p) = Ok (0, p') ∧ written p' (i + 1 + len x) ∧
    val p' 128 = val p 128 + ai * magnitude x * B ^ i.
Proof.
  intros Wx Ha Hi Hl (Lp & Dp & Zp). pose proof (wf_len _ Wx). pose proof (wf_array _ Wx). unfold mul_row.
  match goal with |- context [for_range 0 _ ?b _] => set (body := b) end.
  destruct (for_range_inv (λ j '(C, q), 0 ≤ j ∧ length q = 128%nat ∧ digits32 q ∧
      (∀ k, i + len x ≤ k → i + j ≤ k → dig q k = 0) ∧ 0 ≤ C < B ∧ (j = len x + 1 → C = 0) ∧
      val q 128 + C * B ^ (i + j) = val p 128 + ai * val (array x) j * B ^ i) body 0 (len x + 1) (0, p))
    as ([C q] & -> & _ & Lq & Dq & Zq & HC & HC0 & Hv).
  - lia.
  - split; [done|]. split; [done|]. split; [done|]. split; [by intros k Hk _; apply Zp|]. split; [done|].
    split; [done|]. rewrite val_0. lia.
  - intros j [C q] Hj (_ & Lq & Dq & Zq & HC & _ & Hv). unfold body.
    rewrite (load_dig (array x)), bind_ok by lia. pose proof (wf_digits _ Wx j ltac:(lia)) as Hx.
    assert (Hpro : 0 ≤ ai * dig (array x) j + C < B * B) by (unfold B in *; nia).
    assert (Epro : wrap_u64 (ai * dig (array x) j + C) = ai * dig (array x) j + C) by (apply Z.mod_small; unfold B in *; lia).
    rewrite Epro, load_dig, bind_ok by lia. set (pro := ai * dig (array x) j + C) in *.
    pose proof (Dq (i + j) ltac:(lia)) as Hd. set (d := dig q (i + j)) in *.
    assert (Hs : d + pro < B * B) by (unfold B in *; nia).
    destruct (mul_carry d pro ltac:(lia) ltac:(lia) Hs) as (Es & HC' & HCs). cbv zeta in Es, HC', HCs |- *.
    set (C' := if MAX32 <? wrap_u64 (d + pro) then Z.shiftr (wrap_u64 (d + pro)) 32 else 0) in *.
    rewrite store_ok, bind_ok by lia. eexists. split; [reflexivity|]. split; [lia|]. split; [by rewrite length_insert|].
    split; [intros k Hk; rewrite dig_insert by lia; case_decide; [apply ul_digit|by apply Dq]|].
    split; [intros k Hk Hk'; rewrite dig_insert by lia; case_decide; [lia|apply Zq; lia]|].
    split; [done|]. split.
    + intros Hj'. apply HCs. assert (Hz : dig (array x) j = 0) by (apply (wf_above _ Wx); lia).
      assert (d = 0) by (apply Zq; lia). subst pro. rewrite Hz. lia.
    + rewrite val_insert by lia. fold d. rewrite val_step, Z.add_assoc, B_succ by lia.
      rewrite (Z.pow_add_r B i j) in * by lia. subst pro. nia.
  - rewrite (HC0 eq_refl) in *. exists q. split; [done|]. split.
    + split; [done|]. split; [done|]. intros k Hk. apply Zq; lia.
    + rewrite val_step, (wf_above _ Wx (len x)) in Hv by lia. unfold magnitude. lia.
Qed.

Lemma op_mul_spec x A :
  wf x → wf A → len x + len A ≤ 128 →
  ∃ y, op_mul 32 x A = Ok y ∧ wf y ∧ magnitude y = magnitude x * magnitude A ∧
    signal y = (if signal x =? signal A then 0 else 1).
Proof.
  intros Wx WA Hl. pose proof (wf_len _ Wx). pose proof (wf_len _ WA). pose proof (wf_array _ WA). unfold op_mul.
  match goal with |- context [for_range 0 _ ?b _] => set (body := b) end.
  destruct (for_range_inv (λ i '(C, p), 0 ≤ i ∧ C = 0 ∧ written p (i + len x) ∧
      val p 128 = val (array A) i * magnitude x) body 0 (len A) (0, array big_zero))
    as ([C p] & -> & _ & -> & Hw & Hv).
  - lia.
  - split; [done|]. split; [done|]. destruct written_zero as (L0 & D0 & Z0). split; [|done].
    split; [done|]. split; [done|]. intros k Hk. apply Z0. lia.
  - intros i [C p] Hi (_ & -> & Hw & Hv). unfold body. rewrite (load_dig (array A)), bind_ok by lia.
    destruct (mul_row_spec x (dig (array A) i) i p Wx (wf_digits _ WA i ltac:(lia)) ltac:(lia) ltac:(lia) Hw)
      as (p' & -> & Hw' & Hv'). eexists. split; [reflexivity|]. split; [lia|]. split; [done|]. split; [done|].
    rewrite Hv', Hv, val_step by lia. nia.
  - rewrite bind_ok. destruct Hw as (Lp & Dp & Zp).
    destruct (trim_wf (len x + len A) (if signal x =? signal A then 0 else 1) p) as (y & E & Wy & My & Sy);
      [done|lia|done|intros k Hk; apply Zp; lia|destruct (_ =? _); lia|].
    exists y. split; [done|]. split; [done|]. split; [|done]. rewrite My.
    rewrite <- (val_above p _ 128) by (lia || (intros k Hk; apply Zp; lia)). rewrite Hv. unfold magnitude. lia.
Qed.

(** ** Division by one digit *)

Lemma val_split l n : 1 ≤ n → dig l (n - 1) * B ^ (n - 1) = val l n - val l (n - 1).
Proof. intros Hn. replace n with (n - 1 + 1) at 3 by lia. rewrite val_step by lia. lia. Qed.

Lemma wf_lower x : wf x → 2 ≤ len x → B ^ (len x - 1) ≤ magnitude x.
Proof.
  intros Wx Hn. pose proof (val_split (array x) (len x) ltac:(lia)) as E. fold (magnitude x) in E.
  pose proof (value_bound (array x) (len x - 1) ltac:(lia) (wf_digits _ Wx)).
  pose proof (wf_digits _ Wx (len x - 1) ltac:(lia)). destruct (wf_top _ Wx); [lia|]. destruct (B_pos (len x - 1)); nia.
Qed.

Lemma magnitude_one x : len x = 1 → magnitude x = dig (array x) 0.
Proof.
  intros E. unfold magnitude. rewrite E. replace 1 with (0 + 1) by lia. rewrite val_step, val_0 by lia. cbn. lia.
Qed.

Lemma div_loop x a0 :
  wf x → 0 < a0 < B →
  ∃ F a, div_digits 32 (len x) a0 (array x) = Ok (F, a) ∧
    length a = 128%nat ∧ digits32 a ∧ (∀ k, len x ≤ k → dig a k = 0) ∧ val a (len x) = magnitude x / a0.
Proof.
  intros Wx Ha. pose proof (wf_len _ Wx). pose proof (wf_array _ Wx). set (n := len x) in *. unfold div_digits.
  match goal with |- context [for_down _ _ ?b _] => set (body := b) end.
  destruct (for_down_inv (λ i '(F, a), -1 ≤ i < n ∧ length a = 128%nat ∧ digits32 a ∧ (∀ k, n ≤ k → dig a k = 0) ∧
      (∀ k, 0 ≤ k ≤ i → dig a k = dig (array x) k) ∧ 0 ≤ F < a0 ∧
      magnitude x = (val a n - val (array x) (i + 1)) * a0 + F * B ^ (i + 1) + val (array x) (i + 1)) body (n - 1) 0 (0, array x))
    as ([F a] & E & _ & La & Da & Za & _ & HF & Hv).
  - lia.
  - split; [lia|]. split; [done|]. split; [apply wf_digits; done|]. split; [apply wf_above; done|]. split; [done|].
    split; [lia|]. replace (n - 1 + 1) with n by lia. fold (magnitude x). unfold magnitude. fold n. lia.
  - intros i [F a] Hi (_ & La & Da & Za & Sa & HF & Hv). unfold body. rewrite (load_dig a), bind_ok by lia.
    rewrite Sa by lia. pose proof (wf_digits _ Wx i ltac:(lia)) as Hd. set (d := dig (array x) i) in *.
    assert (Es : wrap_u64 (wrap_u64 (Z.shiftl F 32) + d) = F * B + d).
    { rewrite Z.shiftl_mul_pow2 by lia. change (2 ^ 32) with B. unfold wrap_u64. change (2 ^ 64) with (B * B).
      rewrite (Z.mod_small (F * B)) by nia. apply Z.mod_small. nia. }
    rewrite Es. cbv zeta. rewrite c_div_nonneg, bind_ok by nia. set (q := (F * B + d) / a0).
    pose proof (Z.div_mod (F * B + d) a0 ltac:(lia)) as Edm. pose proof (Z.mod_pos_bound (F * B + d) a0 ltac:(lia)) as Hm. fold q in Edm.
    assert (Hq : 0 ≤ q < B) by (split; [apply Z.div_pos; nia|apply Z.div_lt_upper_bound; nia]).
    rewrite (ul_id q), store_ok, bind_ok by lia.
    assert (Eu : wrap_u64 (q * a0) = q * a0) by (apply Z.mod_small; change (2 ^ 64) with (B * B); nia).
    rewrite Eu, (ul_id (F * B + d - q * a0)) by nia.
    eexists. split; [reflexivity|]. split; [lia|]. split; [by rewrite length_insert|].
    split; [intros k Hk; rewrite dig_insert by lia; case_decide; [done|by apply Da]|].
    split; [intros k Hk; rewrite dig_insert by lia; case_decide; [lia|by apply Za]|].
    split; [intros k Hk; rewrite dig_insert by lia; case_decide; [lia|apply Sa; lia]|].
    split; [nia|]. replace (i - 1 + 1) with i by lia. rewrite val_insert, Sa by lia. fold d.
    rewrite B_succ, val_step in Hv by lia. fold d in Hv. nia.
  - exists F, a. split; [done|]. split; [done|]. split; [done|]. split; [done|].
    change (0 - 1 + 1) with 0 in Hv. rewrite val_0, Z.pow_0_r in Hv. apply (Z.div_unique _ _ _ F); lia.
Qed.

Lemma div_short_spec x A :
  wf x → wf A → len A = 1 → magnitude A ≠ 0 →
  ∃ y, div_short 32 x A = Ok y ∧ wf y ∧ magnitude y = magnitude x / magnitude A ∧ signal y = signal x.
Proof.
  intros Wx WA LA HA. unfold div_short. pose proof (wf_array _ Wx) as Lx. pose proof (wf_array _ WA).
  pose proof (wf_len _ Wx) as Hn. rewrite (magnitude_one A LA) in *. pose proof (wf_digits _ WA 0 ltac:(lia)) as Ha.
  rewrite (load_dig (array A) 0), bind_ok by lia. set (a0 := dig (array A) 0) in *. destruct (Z.eqb_spec (len x) 1) as [E1|E1].
  - pose proof (wf_digits _ Wx 0 ltac:(lia)) as Hx. rewrite (load_dig (array x) 0), bind_ok, c_div_nonneg, bind_ok, store_ok, bind_ok by lia.
    eexists. split; [reflexivity|]. rewrite (magnitude_one x E1).
    assert (Hq : 0 ≤ dig (array x) 0 / a0 < B).
    { split; [apply Z.div_pos; lia|]. apply Z.div_lt_upper_bound; nia. }
    split; [|split; [|done]].
    + split; cbn [len array signal]; [by rewrite length_insert|done| | |lia|by apply wf_signal].
      * intros k Hk. rewrite (dig_insert _ 0) by lia. case_decide; [done|by apply wf_digits].
      * intros k Hk. rewrite (dig_insert _ 0) by lia. case_decide; [lia|by apply wf_above].
    + rewrite magnitude_one by done. cbn [array]. rewrite (dig_insert _ 0) by lia. done.
  - destruct (div_loop x a0 Wx ltac:(lia)) as (F & a & -> & La & Da & Za & Va). rewrite bind_ok. cbn beta iota.
    rewrite (load_dig a), bind_ok by lia. pose proof (wf_lower x Wx ltac:(lia)) as Hlow. set (n := len x) in *.
    pose proof (value_bound a (n - 1) ltac:(lia) Da). pose proof (val_split a n ltac:(lia)) as Hs.
    destruct (Z.eqb_spec (dig a (n - 1)) 0) as [Et|Et].
    + eexists. split; [reflexivity|]. rewrite Et in Hs. split; [split; cbn [len array signal]|split; [|done]].
      * done.
      * lia.
      * done.
      * intros k Hk. destruct (decide (k = n - 1)) as [->|]; [done|]. apply Za. lia.
      * destruct (decide (n = 2)); [left; lia|right]. intros E2. pose proof (val_split a (n - 1) ltac:(lia)) as Hs2.
        replace (n - 1 - 1) with (n - 2) in * by lia. rewrite E2 in Hs2.
        pose proof (value_bound a (n - 2) ltac:(lia) Da) as Hb. replace (n - 1) with (n - 2 + 1) in Hlow by lia.
        rewrite B_succ in Hlow by lia.
        assert (B ^ (n - 2) ≤ magnitude x / a0) by (apply Z.div_le_lower_bound; [lia|]; destruct (B_pos (n - 2)); nia). lia.
      * by apply wf_signal.
      * unfold magnitude at 1. cbn [len array]. lia.
    + eexists. split; [reflexivity|]. split; [split; cbn [len array signal]|split; [exact Va|done]]; try done; [by right|by apply wf_signal].
Qed.

Lemma lor_digit F d : 0 ≤ F → 0 ≤ d < B → Z.lor (F * B) d = F * B + d.
Proof.
  intros HF Hd. assert (E : Z.land (F * B) d = 0).
  { apply Z.bits_inj'. intros k Hk. rewrite Z.land_spec, Z.bits_0. unfold B. destruct (decide (k < 32)).
    - by rewrite Z.mul_pow2_bits_low by lia.
    - rewrite <- (Z.mod_small d (2 ^ 32)) by (exact Hd). by rewrite Z.mod_pow2_bits_high, andb_false_r by lia. }
  rewrite <- Z.lxor_lor by done. symmetry. by apply Z.add_nocarry_lxor.
Qed.

Lemma big_u64_spec A :
  0 ≤ A < B → wf (big_u64 32 A) ∧ magnitude (big_u64 32 A) = A ∧ signal (big_u64 32 A) = 0.
Proof.
  intros HA. unfold big_u64. destruct (Z.leb_spec A MAX32); [|unfold MAX32, B in *; lia]. rewrite ul_id by done.
  set (z := replicate (Z.to_nat len1) 0).
  assert (Hz : ∀ k, 0 ≤ k → dig (<[0%nat := A]> z) k = if decide (0 = k) then A else 0).
  { intros k Hk. change 0%nat with (Z.to_nat 0). rewrite dig_insert by (done || lia). case_decide; [done|]. by apply dig_zero. }
  split; [|split; [|done]].
  - split; cbn [len array signal]; [done|lia| | |by left|by left].
    + intros k Hk. rewrite Hz by done. case_decide; [done|unfold B; lia].
    + intros k Hk. rewrite Hz by lia. by rewrite decide_False by lia.
  - rewrite magnitude_one by done. cbn [array]. by rewrite Hz.
Qed.

Lemma mod_short_spec x A :
  wf x → wf A → len A = 1 → magnitude A ≠ 0 →
  ∃ y, mod_short 32 x A = Ok y ∧ wf y ∧ magnitude y = magnitude x mod magnitude A ∧ signal y = 0.
Proof.
  intros Wx WA LA HA. unfold mod_short. pose proof (wf_array _ Wx) as Lx. pose proof (wf_array _ WA).
  pose proof (wf_len _ Wx) as Hn. rewrite (magnitude_one A LA) in *. pose proof (wf_digits _ WA 0 ltac:(lia)) as Ha.
  rewrite (load_dig (array A) 0), bind_ok by lia. set (a0 := dig (array A) 0) in *.
  match goal with |- ∃ y, (?m ≫= _) = _ ∧ _ => enough (Em : m = Ok (magnitude x mod a0)) end.
  { rewrite Em, bind_ok. pose proof (Z.mod_pos_bound (magnitude x) a0 ltac:(lia)).
    destruct (big_u64_spec (magnitude x mod a0)) as (W & M & S); [lia|]. eexists. split; [reflexivity|]. by rewrite M. }
  destruct (Z.eqb_spec (len x) 1) as [E1|E1].
  - pose proof (wf_digits _ Wx 0 ltac:(lia)). rewrite (load_dig (array x) 0), bind_ok, c_mod_nonneg, (magnitude_one x E1) by lia. done.
  - match goal with |- for_down _ _ ?b _ = _ => set (body := b) end.
    destruct (for_down_inv (λ i F, -1 ≤ i < len x ∧ 0 ≤ F < a0 ∧
      (F * B ^ (i + 1) + val (array x) (i + 1)) mod a0 = magnitude x mod a0) body (len x - 1) 0 0) as (F & -> & _ & HF & Hv).
    + lia.
    + split; [lia|]. split; [lia|]. by replace (len x - 1 + 1) with (len x) by lia.
    + intros i F Hi (_ & HF & Hv). unfold body. rewrite (load_dig (array x)), bind_ok by lia.
      pose proof (wf_digits _ Wx i ltac:(lia)) as Hd. set (d := dig (array x) i) in *.
      assert (Es : Z.lor (wrap_u64 (Z.shiftl F 32)) d = F * B + d).
      { rewrite Z.shiftl_mul_pow2 by lia. change (2 ^ 32) with B. unfold wrap_u64. change (2 ^ 64) with (B * B).
        rewrite (Z.mod_small (F * B)) by nia. apply lor_digit; lia. }
      rewrite Es, c_mod_nonneg by nia. eexists. split; [reflexivity|]. split; [lia|]. split; [apply Z.mod_pos_bound; lia|].
      replace (i - 1 + 1) with i by lia. rewrite B_succ, val_step in Hv by lia. fold d in Hv. rewrite <- Hv.
      rewrite (Z.mod_eq (F * B + d)) by lia. rewrite <- (Z_mod_plus_full _ ((F * B + d) / a0 * B ^ i) a0). f_equal. ring.
    + f_equal. change (0 - 1 + 1) with 0 in Hv. rewrite val_0, Z.pow_0_r, Z.add_0_r, Z.mul_1_r, Z.mod_small in Hv by lia. done.
Qed.
