(* ===== verification/Paillier.v ===== *)
(** The rest of [src/cpp/BigNum.cpp]: random numbers, the primality test, the
    modular power, the algorithms of Euclid, printing, and the program that
    encrypts a line with the cryptosystem of Paillier.

    The values that [rand] returns are an argument; [fuel] bounds the loops
    whose end depends on them and on the long division. *)
From S2P Require Import Prelude Primes PrimeTable BigCpp Rsa Tetris.

Section paillier.
Context (ulw : Z) (fuel : nat).
Abbreviation big := (big_u64 ulw).
Abbreviation add := (op_add ulw).
Abbreviation sub := (op_sub ulw).
Abbreviation mul := (op_mul ulw).
Abbreviation div := (op_div ulw fuel).
Abbreviation modulo := (op_mod ulw fuel).

(** ** Random numbers *)

Definition next (rs : list Z) : res (Z * list Z) :=
  match rs with [] => Err OutOfFuel | r :: rs => Ok (r, rs) end.

(** [rand() << 16 | rand()] *)
Definition rand32 (rs : list Z) : res (Z * list Z) :=
  '(a, rs) ← next rs;
  '(b, rs) ← next rs;
  h ← shl a 16;
  mret (ul ulw (Z.lor h b), rs).

Definition rand_digits (n : Z) (a rs : list Z) : res (list Z * list Z) :=
  for_range 0 n (λ i '(a, rs), '(d, rs) ← rand32 rs; a ← store a i d; mret (a, rs)) (a, rs).

(** [Random(int a)]: [1 << 31] is negative and is sign-extended. *)
Definition Random (x : Big) (a : Z) (rs : list Z) : res (Big * list Z) :=
  '(arr, rs) ← rand_digits len2 (array x) rs;
  top ← load arr (len2 - 1);
  arr ← store arr (len2 - 1) (Z.lor top (ul ulw (- 2 ^ 31)));
  mret (mkBig len2 a arr, rs).

(** [Random(BigNum A)] *)
Definition Random_below (x A : Big) (rs : list Z) : res (Big * list Z) :=
  if 1 <? len A then
    '(arr, rs) ← rand_digits (len A - 1) (array x) rs;
    mret (mkBig (len A - 1) 0 arr, rs)
  else
    a0 ← load (array A) 0;
    '(d, rs) ← rand32 rs;
    arr ← store (array x) 0 d;
    iter (S (length rs)) (λ '(arr, rs),
      d ← load arr 0;
      if a0 <? d then '(d, rs) ← rand32 rs; arr ← store arr 0 d; mret (inl (arr, rs))
      else mret (inr (mkBig 1 0 arr, rs))) (arr, rs).

(** ** Powers *)

(** [A & (1 << j)]: for [j = 31] the mask is negative. *)
Definition bit_mask (j : Z) : Z := ul ulw (wrap_i32 (2 ^ j)).

Definition power_mod (x A B : Big) : res Big :=
  N ← modulo x B;
  '(X, _) ← for_range 0 (len A) (λ i s,
    a ← load (array A) i;
    for_range 0 32 (λ j '(X, N),
      X ← (if negb (Z.land a (bit_mask j) =? 0) then p ← mul X N; modulo p B else mret X);
      q ← mul N N;
      N ← modulo q B;
      mret (X, N)) s) (big 1, N);
  mret X.

(** ** The primality test *)

(** Trial division by the table: the result, if it decides. *)
Definition small_primes (X : Big) : res (option Z) :=
  for_ret 2800 0 (λ i,
    p ← load Primes i;
    let temp := big p in
    e ← op_eq X temp;
    if (e : bool) then mret (Some 1)
    else
      r ← modulo X temp;
      z ← op_eq r (big 0);
      mret (if (z : bool) then Some 0 else None)).

(** [m] and [r] with [X - 1 = 2^r m]. *)
Definition split_two (m : Big) : res (Z * Big) :=
  iter fuel (λ '(r, m),
    d ← load (array m) 0;
    if Z.land d 1 =? 0 then m ← div m (big 2); mret (inl (r + 1, m)) else mret (inr (r, m))) (0, m).

(** A random base that differs from the last one. *)
Definition new_base (A T X : Big) (rs : list Z) : res (Big * list Z) :=
  '(A, rs) ← Random_below A X rs;
  iter (S (length rs)) (λ '(A, rs),
    c ← Compare A T;
    if c =? 2 then '(A, rs) ← Random_below A X rs; mret (inl (A, rs)) else mret (inr (A, rs))) (A, rs).

(** [O.Compare(v % X) == 2] *)
Definition is_multiple (v X : Big) : res bool :=
  m ← modulo v X; c ← Compare (big 0) m; mret (c =? 2).

(** The squarings for one base: whether [X - 1] turned up. *)
Definition squarings (Y X : Big) (r : Z) : res bool :=
  iter (S (Z.to_nat r)) (λ '(j, Y),
    if j <? r then
      y2 ← mul Y Y;
      Y ← modulo y2 X;
      v ← add Y (big 1);
      e ← is_multiple v X;
      if (e : bool) then mret (inr true) else mret (inl (j + 1, Y))
    else mret (inr false)) (0, Y).

(** One round: whether the number passes it. *)
Definition round_passes (Y X : Big) (r : Z) : res bool :=
  v ← sub Y (big 1);
  e ← is_multiple v X;
  f ← (if (e : bool) then mret true else w ← add Y (big 1); is_multiple w X);
  if (f : bool) then mret true else squarings Y X r.

Definition Rabin_Miller (x : Big) (rs : list Z) : res (Z * list Z) :=
  s ← small_primes x;
  match s with
  | Some v => mret (v, rs)
  | None =>
      m ← sub x (big 1);
      '(r, m) ← split_two m;
      iter 6 (λ '(i, A, T, rs),
        if i <=? 5 then
          '(A, rs) ← new_base A T x rs;
          Y ← power_mod A m x;
          ok ← round_passes Y x r;
          if (ok : bool) then mret (inl (i + 1, A, A, rs)) else mret (inr (0, rs))
        else mret (inr (1, rs))) (1, big_zero, big_zero, rs)
  end.

(** [array[0] |= 1] *)
Definition make_odd (x : Big) : res Big :=
  d ← load (array x) 0; a ← store (array x) 0 (Z.lor d 1); mret (mkBig (len x) (signal x) a).

Definition GeneratePrime (x : Big) (rs : list Z) : res (Big * list Z * list output) :=
  '(x, rs) ← Random x 0 rs;
  x ← make_odd x;
  '(x, rs, out) ← iter fuel (λ '(x, rs, out),
    '(p, rs) ← Rabin_Miller x rs;
    if p =? 0 then
      '(x, rs) ← Random x 0 rs;
      x ← make_odd x;
      mret (inl (x, rs, out ++ [PutStr "775\n"]))
    else mret (inr (x, rs, out))) (x, rs, [PutStr "771\n"]);
  mret (x, rs, out ++ [PutStr "generate 777\n"]).

(** ** Euclid *)

Definition ex_euclid (a b : Big) : res Big :=
  '(X, _, _, _) ← iter fuel (λ '(X, U, A, B),
    n ← op_ne B (big 0);
    if (n : bool) then
      Q ← div A B;
      R ← modulo A B;
      t ← mul Q U;
      t ← sub X t;
      mret (inl (U, t, B, R))
    else mret (inr (X, U, A, B))) (big 1, big 0, a, b);
  if signal X =? 1 then add X b else mret X.

Definition Gcd (a b : Big) : res Big :=
  iter fuel (λ '(a, b),
    i ← modulo a b;
    n ← op_ne i (big 0);
    mret (if (n : bool) then inl (b, i) else inr b)) (a, b).

Definition Lcm (a b : Big) : res Big := i ← Gcd a b; p ← mul a b; div p i.

(** [n] is the global modulus. *)
Definition Lfunction (n a : Big) : res Big := t ← sub a (big 1); div t n.

(** ** Printing *)

(** [setw(8)] pads with spaces. *)
Definition setw8 (l : list Z) : list Z := replicate (8 - length l) 32 ++ l.

Definition print (x : Big) : res (list output) :=
  out ← for_range 1 (len x + 1) (λ i out,
    d ← load (array x) (len x - i);
    mret (out ++ (if Z.rem i 8 =? 1 then [PutStr "\n"] else []) ++
      [PutChars (setw8 (hex_digits 97 16 d)); PutStr " "])) [];
  mret (out ++ [PutStr "\n"]).

(** [printS]: four characters for every digit, and for one digit more. *)
Definition printS (x : Big) : res (list output) :=
  out ← for_range 0 (len x + 1) (λ i out,
    d ← load (array x) i;
    for_down 3 0 (λ j out,
      let chr := wrap_i8 (Z.shiftr d (j * 8)) in
      mret (if negb (chr =? 0) then out ++ [PutChars [chr]] else out)) out) [];
  mret (out ++ [PutStr "\n"]).

(** ** The program *)

(** [while (p == q) q.GeneratePrime();] *)
Definition other_prime (p q : Big) (rs : list Z) : res (Big * list Z * list output) :=
  iter fuel (λ '(q, rs, out),
    e ← op_eq p q;
    if (e : bool) then '(q, rs, o) ← GeneratePrime q rs; mret (inl (q, rs, out ++ o))
    else mret (inr (q, rs, out))) (q, rs, []).

(** [main] from the message [middle] on. *)
Definition paillier (middle : Big) (rs : list Z) : res (list output) :=
  out ← print middle;
  let out := [PutStr "生成明文："] ++ out ++ [PutStr "generate prime\n"] in
  '(p, rs, o1) ← GeneratePrime big_zero rs;
  '(q, rs, o2) ← GeneratePrime big_zero rs;
  '(q, rs, o3) ← other_prime p q rs;
  temp ← sub p (big 1);
  t ← sub q (big 1);
  _ ← mul t temp;
  sp ← print p;
  sq ← print q;
  n ← mul p q;
  N ← mul n n;
  sn ← print n;
  p1 ← sub p (big 1);
  q1 ← sub q (big 1);
  pri_key ← Lcm p1 q1;
  sk ← print pri_key;
  '(g, rs, o4) ← GeneratePrime big_zero rs;
  sg ← print g;
  '(r, rs, o5) ← GeneratePrime big_zero rs;
  temp1 ← power_mod g middle N;
  temp2 ← power_mod r n N;
  middle1 ← mul temp1 temp2;
  b ← power_mod middle1 (big 1) N;
  sb ← print b;
  gk ← power_mod g pri_key N;
  lg ← Lfunction n gk;
  u ← ex_euclid lg n;
  bk ← power_mod b pri_key N;
  lb ← Lfunction n bk;
  c ← mul lb u;
  c ← power_mod c (big 1) n;
  sc ← print c;
  ss ← printS c;
  mret (out ++ o1 ++ o2 ++ o3 ++ [PutStr "素数p为："] ++ sp ++ [PutStr "\n"; PutStr "素数q为："] ++ sq ++
    [PutStr "\n"; PutStr "公钥n为"] ++ sn ++ [PutStr "\n"; PutStr "私钥pri_key为:"] ++ sk ++ [PutStr "\n"] ++ o4 ++
    [PutStr "公钥g为"] ++ sg ++ [PutStr "\n"] ++ o5 ++ [PutStr "生成密文如下:"] ++ sb ++ [PutStr "\n"; PutStr "解密后的结果为:"] ++
    sc ++ ss ++ [PutStr "\n"]).

(** [main]: the line [s] becomes a number; an empty line leaves its digits
    and its sign uninitialised, and they are copied. *)
Definition paillier_main (s rs : list Z) : res (list output) :=
  '(n, a) ← big_str ulw s;
  digits ← values a;
  out ← paillier (mkBig n 0 digits) rs;
  mret ([PutStr "输入要加密的字符串\n"; PutStr "\n"] ++ out).
End paillier.
