(* ===== verification/PaillierSpec.v ===== *)
(** Modular powers and greatest common divisors for moduli of one digit, and
    the properties of [src/cpp/BigNum.cpp]. *)
From Stdlib Require Import Sorted Zdivisibility.
From S2P Require Import Prelude Primes PrimeTable BigCpp BigCppSpec Rsa Tetris Paillier.

(** ** Remainders of one digit *)

Lemma one_digit x : wf x → magnitude x < B → len x = 1.
Proof.
  intros Wx Hm. pose proof (wf_len _ Wx). destruct (decide (len x = 1)); [done|].
  pose proof (wf_lower x Wx ltac:(lia)). assert (B ^ 1 ≤ B ^ (len x - 1)) by (apply Z.pow_le_mono_r; [done|lia]). lia.
Qed.

Lemma one_digit_bound x : wf x → len x = 1 → 0 ≤ magnitude x < B.
Proof. intros Wx E. rewrite magnitude_one by done. apply wf_digits; [done|lia]. Qed.

Lemma op_mod_one fuel x A :
  wf x → wf A → len A = 1 → magnitude A ≠ 0 →
  ∃ y, op_mod 32 fuel x A = Ok y ∧ wf y ∧ len y = 1 ∧ magnitude y = magnitude x mod magnitude A ∧ signal y = 0.
Proof.
  intros Wx WA LA HA. unfold op_mod. rewrite LA. cbn [Z.ltb Z.compare Pos.compare Pos.compare_cont].
  destruct (mod_short_spec x A Wx WA LA HA) as (y & E & Wy & My & Sy). exists y. split; [exact E|]. split; [done|].
  split; [|done]. apply one_digit; [done|]. pose proof (one_digit_bound A WA LA).
  pose proof (Z.mod_pos_bound (magnitude x) (magnitude A) ltac:(lia)). lia.
Qed.

(** Multiply and reduce. *)
Lemma mul_mod_one fuel x y A :
  wf x → len x = 1 → wf y → len y = 1 → wf A → len A = 1 → magnitude A ≠ 0 →
  ∃ z, (p ← op_mul 32 x y; op_mod 32 fuel p A) = Ok z ∧ wf z ∧ len z = 1 ∧
    magnitude z = (magnitude x * magnitude y) mod magnitude A ∧ signal z = 0.
Proof.
  intros Wx Lx Wy Ly WA LA HA. destruct (op_mul_spec x y Wx Wy ltac:(lia)) as (p & -> & Wp & Mp & _).
  rewrite bind_ok, <- Mp. by apply op_mod_one.
Qed.

(** ** The modular power *)

Lemma bit_mask_spec j : 0 ≤ j < 32 → bit_mask 32 j = 2 ^ j.
Proof.
  intros Hj. assert (Hall : Forall (λ k, bit_mask 32 (Z.of_nat k) = 2 ^ Z.of_nat k) (seq 0 32)) by in_list.
  rewrite Forall_forall in Hall. specialize (Hall (Z.to_nat j)). rewrite Z2Nat.id in Hall by lia.
  apply Hall, elem_of_seq. lia.
Qed.

Lemma land_pow2 a j : 0 ≤ j → (Z.land a (2 ^ j) =? 0) = negb (Z.testbit a j).
Proof.
  intros Hj. assert (E : Z.land a (2 ^ j) = Z.b2z (Z.testbit a j) * 2 ^ j).
  { apply Z.bits_inj'. intros k Hk. rewrite Z.land_spec, Z.pow2_bits_eqb, Z.mul_pow2_bits by lia.
    destruct (Z.eqb_spec j k) as [->|]; [rewrite Z.sub_diag, Z.b2z_bit0, andb_true_r; done|].
    rewrite andb_false_r. destruct (Z.testbit a j); cbn [Z.b2z]; [|by rewrite Z.bits_0].
    destruct (decide (k < j)); [by rewrite Z.testbit_neg_r by lia|]. change 1 with (2 ^ 0). by rewrite Z.pow2_bits_false by lia. }
  rewrite E. destruct (Z.testbit a j); cbn [Z.b2z negb]; [|done]. apply Z.eqb_neq. lia.
Qed.

Lemma mod_mul_pow x u v m : 0 ≤ u → 0 ≤ v → m ≠ 0 → ((x ^ u mod m) * (x ^ v mod m)) mod m = x ^ (u + v) mod m.
Proof. intros Hu Hv Hm. rewrite <- Z.mul_mod by done. by rewrite <- Z.pow_add_r by done. Qed.

Section power.
Context (fuel : nat) (x M : Big) (WM : wf M) (LM : len M = 1) (HM : 1 < magnitude M).

(** A number of one digit that is [x^e] modulo [M]. *)
Definition is_power (y : Big) (e : Z) : Prop :=
  wf y ∧ len y = 1 ∧ 0 ≤ e ∧ magnitude y = magnitude x ^ e mod magnitude M.

Lemma is_power_mul y z u v :
  is_power y u → is_power z v → ∃ w, (p ← op_mul 32 y z; op_mod 32 fuel p M) = Ok w ∧ is_power w (u + v).
Proof.
  intros (Wy & Ly & Hu & My) (Wz & Lz & Hv & Mz).
  destruct (mul_mod_one fuel y z M Wy Ly Wz Lz WM LM ltac:(lia)) as (w & E & Ww & Lw & Mw & _).
  exists w. split; [done|]. split; [done|]. split; [done|]. split; [lia|].
  rewrite Mw, My, Mz. apply mod_mul_pow; lia.
Qed.

(** The 32 bits of the digit [a] of the exponent. *)
Lemma power_digit a e X N :
  0 ≤ a < B → is_power X e → ∀ w, is_power N w →
  ∃ X' N', for_range 0 32 (λ j '(X, N),
      X ← (if negb (Z.land a (bit_mask 32 j) =? 0) then p ← op_mul 32 X N; op_mod 32 fuel p M else mret X);
      q ← op_mul 32 N N;
      N ← op_mod 32 fuel q M;
      mret (X, N)) (X, N) = Ok (X', N') ∧ is_power X' (e + a * w) ∧ is_power N' (w * B).
Proof.
  intros Ha HX w HN. match goal with |- context [for_range 0 32 ?b _] => set (body := b) end.
  destruct (for_range_inv (λ j '(X, N), 0 ≤ j ∧ is_power X (e + (a mod 2 ^ j) * w) ∧ is_power N (w * 2 ^ j))
    body 0 32 (X, N)) as ([X' N'] & -> & _ & HX' & HN').
  - lia.
  - split; [done|]. rewrite Z.pow_0_r, Z.mod_1_r, Z.mul_0_l, Z.add_0_r, Z.mul_1_r. done.
  - intros j [Xj Nj] Hj (_ & HXj & HNj). unfold body. rewrite bit_mask_spec, land_pow2, negb_involutive by lia.
    destruct (is_power_mul Nj Nj _ _ HNj HNj) as (N2 & EN & HN2).
    assert (EX : ∃ X2, (if Z.testbit a j then p ← op_mul 32 Xj Nj; op_mod 32 fuel p M else mret Xj) = Ok X2 ∧
      is_power X2 (e + (a mod 2 ^ (j + 1)) * w)).
    { rewrite pow2_step by lia. destruct (Z.testbit a j); cbn [Z.b2z].
      - destruct (is_power_mul Xj Nj _ _ HXj HNj) as (X2 & E & HX2). exists X2. split; [done|].
        replace (e + (a mod 2 ^ j + 1 * 2 ^ j) * w) with (e + a mod 2 ^ j * w + w * 2 ^ j) by ring. done.
      - exists Xj. split; [done|]. by rewrite Z.mul_0_l, Z.add_0_r. }
    destruct EX as (X2 & -> & HX2). rewrite bind_ok. cbn beta iota. rewrite <- bind_assoc, EN, bind_ok.
    eexists. split; [reflexivity|]. split; [lia|]. split; [done|].
    replace (w * 2 ^ (j + 1)) with (w * 2 ^ j + w * 2 ^ j) by (rewrite Z.pow_add_r by lia; ring). done.
  - exists X', N'. split; [done|]. split; [|done]. rewrite Z.mod_small in HX' by (exact Ha). done.
Qed.

Lemma power_mod_spec A :
  wf x → wf A → ∃ y, power_mod 32 fuel x A M = Ok y ∧ is_power y (magnitude A).
Proof.
  intros Wx WA. unfold power_mod. pose proof (wf_len _ WA). pose proof (wf_array _ WA).
  destruct (op_mod_one fuel x M Wx WM LM ltac:(lia)) as (N & -> & WN & LN & MN & _). rewrite bind_ok.
  destruct (big_u64_spec 1 ltac:(done)) as (W1 & M1 & _).
  match goal with |- context [for_range 0 _ ?b _] => set (body := b) end.
  destruct (for_range_inv (λ i '(X, N), 0 ≤ i ∧ is_power X (val (array A) i) ∧ is_power N (B ^ i)) body 0 (len A) (big_u64 32 1, N))
    as ([X' N'] & -> & _ & HX' & _).
  - lia.
  - split; [done|]. split.
    + split; [done|]. split; [done|]. split; [done|]. by rewrite M1, val_0, Z.pow_0_r, Z.mod_1_l by lia.
    + split; [done|]. split; [done|]. split; [done|]. by rewrite MN, Z.pow_0_r, Z.pow_1_r.
  - intros i [X N0] Hi (_ & HX & HN). unfold body. rewrite (load_dig (array A)), bind_ok by lia.
    destruct (power_digit (dig (array A) i) (val (array A) i) X N0 (wf_digits _ WA i ltac:(lia)) HX (B ^ i) HN)
      as (X2 & N2 & E & HX2 & HN2).
    exists (X2, N2). split; [exact E|]. split; [lia|]. split; [by rewrite val_step by lia|].
    rewrite B_succ by lia. by rewrite Z.mul_comm.
  - exists X'. split; [done|exact HX'].
Qed.
End power.

(** ** The greatest common divisor *)

Lemma op_eq_spec x A :
  wf x → wf A → op_eq x A = Ok (bool_decide (signal x = signal A ∧ magnitude x = magnitude A)).
Proof.
  intros Wx WA. unfold op_eq. rewrite Compare_spec by done. unfold cmp_code.
  destruct (Z.eqb_spec (signal x) (signal A)) as [E|E]; [|by rewrite bool_decide_eq_false_2 by tauto].
  rewrite bind_ok. case_bool_decide as H; zcases; tauto || done.
Qed.

Lemma op_ne_spec x A :
  wf x → wf A → op_ne x A = Ok (bool_decide (signal x = signal A ∧ magnitude x ≠ magnitude A)).
Proof.
  intros Wx WA. unfold op_ne. rewrite Compare_spec by done. unfold cmp_code.
  destruct (Z.eqb_spec (signal x) (signal A)) as [E|E]; [|by rewrite bool_decide_eq_false_2 by tauto].
  rewrite bind_ok. case_bool_decide as H; zcases; tauto || done.
Qed.

Lemma Gcd_loop fuel : ∀ f a b,
  wf a → wf b → len b = 1 → magnitude b ≠ 0 → (Z.to_nat (magnitude b) ≤ f)%nat →
  ∃ y, iter f (λ '(a, b), i ← op_mod 32 fuel a b; n ← op_ne i (big_u64 32 0); mret (if (n : bool) then inl (b, i) else inr b)) (a, b)
    = Ok y ∧ wf y ∧ magnitude y = Z.gcd (magnitude a) (magnitude b).
Proof.
  induction f as [|f IH]; intros a b Wa Wb Lb Hb Hf; [pose proof (one_digit_bound b Wb Lb); lia|]. cbn [iter].
  destruct (op_mod_one fuel a b Wa Wb Lb Hb) as (i & -> & Wi & Li & Mi & Si). rewrite bind_ok.
  destruct (big_u64_spec 0 ltac:(done)) as (W0 & M0 & S0). pose proof (one_digit_bound b Wb Lb).
  rewrite op_ne_spec, bind_ok, Si, S0, M0 by done. rewrite bind_ok.
  pose proof (Z.mod_pos_bound (magnitude a) (magnitude b) ltac:(lia)) as Hm. rewrite <- Mi in Hm.
  case_bool_decide as Hd.
  - destruct (IH b i Wb Wi Li ltac:(tauto) ltac:(lia)) as (y & E & Wy & My). exists y. split; [exact E|]. split; [done|].
    rewrite My, Mi, Z.gcd_mod_r, Z.gcd_comm. done.
  - exists b. split; [done|]. split; [done|]. assert (E0 : magnitude i = 0) by (destruct (decide (magnitude i = 0)); tauto).
    rewrite E0 in Mi. symmetry. rewrite Z.gcd_comm. apply Z.divide_gcd_iff; [lia|]. by apply Z.mod_divide.
Qed.
