(* ===== verification/BigCppProps.v ===== *)
(** The properties of [src/cpp/BigNum.cpp]: the operators as operations on
    integers, where the lost borrows show, and the driver. *)
From Stdlib Require Import Sorted Zdivisibility.
From S2P Require Import Prelude Sort Primes PrimeTable BigCpp BigCppSpec Rsa Tetris Paillier PaillierSpec.

(** A number from its digits, for concrete inputs. *)
Definition of_digits (s : Z) (l : list Z) : Big :=
  mkBig (Z.of_nat (length l)) s (l ++ replicate (128 - length l) 0).

(** ** A decision procedure for the invariant *)

Definition wf_check (x : Big) : bool :=
  bool_decide (length (array x) = 128%nat) && (1 <=? len x) && (len x <=? 128) &&
  forallb (λ d, (0 <=? d) && (d <? B)) (array x) &&
  forallb (λ d, d =? 0) (drop (Z.to_nat (len x)) (array x)) &&
  ((len x =? 1) || negb (dig (array x) (len x - 1) =? 0)) && ((signal x =? 0) || (signal x =? 1)).

Lemma wf_check_ok x : wf_check x = true → wf x.
Proof.
  unfold wf_check. rewrite !andb_true_iff. intros ((((((La & L1) & L2) & Hd) & Hz) & Ht) & Hs).
  apply bool_decide_eq_true in La. rewrite forallb_forall in Hd, Hz. split; [done|lia| | | |].
  - intros k Hk. unfold dig. destruct (array x !! Z.to_nat k) eqn:E; [|done]. cbn.
    apply list_elem_of_lookup_2, list_elem_of_In, Hd in E. lia.
  - intros k Hk. unfold dig. destruct (array x !! Z.to_nat k) eqn:E; [|done]. cbn.
    assert (Hin : drop (Z.to_nat (len x)) (array x) !! (Z.to_nat k - Z.to_nat (len x))%nat = Some z).
    { rewrite lookup_drop. rewrite <- E. f_equal. lia. }
    apply list_elem_of_lookup_2, list_elem_of_In, Hz in Hin. lia.
  - apply orb_true_iff in Ht as [Ht|Ht]; [left; lia|right]. apply negb_true_iff, Z.eqb_neq in Ht. done.
  - apply orb_true_iff in Hs as [Hs|Hs]; [left|right]; lia.
Qed.

Ltac wf_compute := apply wf_check_ok; vm_compute; reflexivity.

(** ** The ring operations *)

(** C5: With digits of 32 bits, on well-formed numbers of at most 127 digits whose difference
    loses no borrow, the operators + and - refine the sum and difference of integers, *
    refines the product when it fits 128 digits, and unary - the negation. *)
Theorem big_operators_refine x A :
  wf x → wf A → len x ≤ 127 → len A ≤ 127 → exact x A →
  (∃ y, op_add 32 x A = Ok y ∧ wf y ∧ value y = value x + value A) ∧
  (∃ y, op_sub 32 x A = Ok y ∧ wf y ∧ value y = value x - value A) ∧
  (len x + len A ≤ 128 → ∃ y, op_mul 32 x A = Ok y ∧ wf y ∧ value y = value x * value A) ∧
  wf (op_neg x) ∧ value (op_neg x) = - value x.
Proof.
  intros Wx WA Lx LA He. split; [by apply op_add_value; auto|]. split; [by apply op_sub_value; auto|].
  split; [|split; [by apply wf_neg|by apply value_neg]]. intros Hl.
  destruct (op_mul_spec x A Wx WA Hl) as (y & E & Wy & My & Sy). exists y. split; [done|]. split; [done|].
  unfold value. rewrite Sy, My. destruct (wf_signal _ Wx) as [-> | ->], (wf_signal _ WA) as [-> | ->]; cbn [Z.eqb Pos.eqb]; lia.
Qed.

Lemma big_operators_witness :
  value (of_digits 0 [5; 7; 9]) = 5 + 7 * 2 ^ 32 + 9 * 2 ^ 64 ∧ value (of_digits 1 [3; 2]) = - (3 + 2 * 2 ^ 32) ∧
  ∃ y, op_add 32 (of_digits 0 [5; 7; 9]) (of_digits 1 [3; 2]) = Ok y ∧ wf y ∧ value y = 2 + 5 * 2 ^ 32 + 9 * 2 ^ 64.
Proof.
  split; [vm_compute; done|]. split; [vm_compute; done|].
  refine (proj1 (big_operators_refine (of_digits 0 [5; 7; 9]) (of_digits 1 [3; 2]) _ _ _ _ _)).
  - wf_compute.
  - wf_compute.
  - done.
  - done.
  - split; vm_compute; reflexivity.
Defined.

Lemma addsub_wf fuel minus x A :
  wf x → wf A → len x ≤ 127 → len A ≤ 127 → (2 ≤ fuel)%nat → ∃ y, addsub 32 fuel minus x A = Ok y ∧ wf y.
Proof.
  intros Wx WA Lx LA Hf. destruct fuel as [|[|fuel]]; [lia..|].
  assert (Hadd : ∀ u v, wf u → wf v → len u ≤ 127 → len v ≤ 127 → ∃ y, add_same 32 u v = Ok y ∧ wf y)
    by (intros u v Wu Wv Lu Lv; destruct (add_same_spec u v Wu Wv Lu Lv) as (y & E & Wy & _); eauto).
  assert (Hsub : ∀ u v, wf u → wf v → ∃ y, sub_same 32 u v = Ok y ∧ wf y)
    by (intros u v Wu Wv; destruct (sub_same_spec u v Wu Wv) as (y & E & Wy & _); eauto).
  destruct (wf_signal _ Wx) as [Sx|Sx], (wf_signal _ WA) as [SA|SA], minus; cbn [addsub]; unfold op_neg; cbn [signal];
    rewrite ?Sx, ?SA; cbn [Z.eqb Pos.eqb Z.sub Z.opp Z.add Pos.add Z.pos_sub]; rewrite ?Sx, ?SA; cbn [Z.eqb Pos.eqb Z.sub Z.opp Z.add Z.pos_sub];
    first [by apply Hsub | by apply Hadd
      | by apply (Hsub _ (op_neg A)); [|apply wf_neg]
      | by apply (Hadd _ (op_neg A)); [|apply wf_neg|..]
      | by apply (Hsub _ (op_neg x)); [|apply wf_neg]].
Qed.

(** Numbers of one or two digits. *)
Lemma big_u64_wf v : 0 ≤ v < 2 ^ 64 → wf (big_u64 32 v).
Proof.
  intros Hv. destruct (Z.leb_spec v MAX32) as [Hle|Hgt]; [apply big_u64_spec; unfold MAX32, B in *; lia|].
  unfold big_u64. rewrite (proj2 (Z.leb_gt v MAX32)) by done. set (z := replicate (Z.to_nat len1) 0).
  assert (Hul : ∀ y, 0 ≤ ul 32 y < B) by (intros y; by apply Z.mod_pos_bound).
  assert (Hz : ∀ k, 0 ≤ k → dig (<[0%nat := ul 32 v]> (<[1%nat := ul 32 (Z.shiftr v 32)]> z)) k =
    if decide (0 = k) then ul 32 v else if decide (1 = k) then ul 32 (Z.shiftr v 32) else 0).
  { intros k Hk. change 1%nat with (Z.to_nat 1). change 0%nat with (Z.to_nat 0).
    rewrite dig_insert by (done || lia). case_decide; [done|]. rewrite dig_insert by (done || lia). case_decide; [done|]. by apply dig_zero. }
  split; cbn [len array signal]; [done|lia| | | |by left].
  - intros k Hk. rewrite Hz by done. repeat case_decide; [apply Hul..|unfold B; lia].
  - intros k Hk. rewrite Hz by lia. by rewrite !decide_False by lia.
  - right. rewrite Hz by done. rewrite decide_False, decide_True by done. unfold ul.
    rewrite Z.shiftr_div_pow2 by done. unfold MAX32 in Hgt. pose proof (Z.div_le_lower_bound v (2 ^ 32) 1 ltac:(lia) ltac:(lia)).
    rewrite Z.mod_small; [lia|]. split; [lia|]. apply Z.div_lt_upper_bound; lia.
Qed.

(** The first character is shifted into a digit that was never set. *)
Lemma big_str_faults ulw c s : big_str ulw (c :: s) = Err Uninitialised.
Proof. unfold big_str. rewrite for_range_step by (cbn [length]; lia). done. Qed.

(** C6: With digits of 32 bits, + and - of well-formed numbers of at most 127 digits, * when the
    lengths add up to at most 128, unary -, the constructors BigNum(), BigNum(uint64_t) for
    every 64-bit value and the copy, and / and % by a non-zero divisor of one digit return a
    well-formed number (128 cells of 32 bits, zeros above the length, no leading zero digit,
    a sign of 0 or 1). BigNum(string) is the exception: on every non-empty string it reads a
    digit that was never set. *)
Theorem big_wf_preserved fuel x A :
  wf x → wf A → len x ≤ 127 → len A ≤ 127 →
  (∃ y, op_add 32 x A = Ok y ∧ wf y) ∧ (∃ y, op_sub 32 x A = Ok y ∧ wf y) ∧
  (len x + len A ≤ 128 → ∃ y, op_mul 32 x A = Ok y ∧ wf y) ∧ wf (op_neg x) ∧ wf big_zero ∧
  (∀ v, 0 ≤ v < 2 ^ 64 → wf (big_u64 32 v)) ∧ wf (big_copy x) ∧
  (∀ c s, big_str 32 (c :: s) = Err Uninitialised) ∧
  (len A = 1 → magnitude A ≠ 0 →
    (∃ y, op_div 32 fuel x A = Ok y ∧ wf y) ∧ (∃ y, op_mod 32 fuel x A = Ok y ∧ wf y)).
Proof.
  intros Wx WA Lx LA. split; [by apply addsub_wf; auto|]. split; [by apply addsub_wf; auto|]. split.
  { intros Hl. destruct (op_mul_spec x A Wx WA Hl) as (y & E & Wy & _). eauto. }
  split; [by apply wf_neg|]. split; [wf_compute|]. split; [apply big_u64_wf|]. split; [done|]. split; [apply big_str_faults|]. intros L1 H0.
  unfold op_div, op_mod. rewrite L1. change (1 <? 1) with false. cbn iota. split.
  - destruct (div_short_spec x A Wx WA L1 H0) as (y & E & Wy & _). eauto.
  - destruct (mod_short_spec x A Wx WA L1 H0) as (y & E & Wy & _). eauto.
Qed.

Lemma big_wf_witness : len (of_digits 1 [7]) = 1 ∧ ∃ y, op_sub 32 (of_digits 0 [0; 0; 1]) (of_digits 0 [7]) = Ok y ∧ wf y.
Proof.
  split; [done|]. refine (proj1 (proj2 (big_wf_preserved 0 (of_digits 0 [0; 0; 1]) (of_digits 0 [7]) _ _ _ _))).
  - wf_compute.
  - wf_compute.
  - done.
  - done.
Defined.

(** C20: The difference of two numbers of the same sign is too large by B^(k+1) for every zero
    digit k of the larger number that a borrow enters, and so exact when the larger number
    has no zero digit; its sign is flipped when the subtrahend is larger. *)
Theorem difference_excess x A :
  wf x → wf A → signal x = signal A →
  ∃ y, op_sub 32 x A = Ok y ∧ wf y ∧ magnitude y = Z.abs (magnitude x - magnitude A) + excess x A ∧
    signal y = (if magnitude x <? magnitude A then 1 - signal x else signal x) ∧
    ((∀ k, 0 ≤ k < Z.max (len x) (len A) →
        dig (array (if magnitude x <? magnitude A then A else x)) k ≠ 0) → excess x A = 0).
Proof.
  intros Wx WA Hs. destruct (sub_same_spec x A Wx WA) as (y & E & Wy & My & Sy). exists y.
  split. { unfold op_sub. cbn [addsub]. by rewrite Hs, Z.eqb_refl. }
  split; [done|]. split; [done|]. split; [done|]. intros Hnz. unfold excess. pose proof (wf_len _ Wx). pose proof (wf_len _ WA).
  assert (G : ∀ a b n, 0 ≤ n → (∀ k, 0 ≤ k < n → dig a k ≠ 0) → lost a b n = 0).
  { intros a b n Hn. revert n Hn. apply (digits_ind (λ n, (∀ k, 0 ≤ k < n → dig a k ≠ 0) → lost a b n = 0)); [done|].
    intros n Hn IH Hk. rewrite lost_step, IH by (done || (intros; apply Hk; lia)).
    destruct (Z.eqb_spec (dig a n) 0) as [E0|]; [by destruct (Hk n ltac:(lia))|]. by rewrite andb_false_r. }
  destruct (magnitude x <? magnitude A); apply G; try lia; intros k Hk; apply Hnz; lia.
Qed.

Lemma difference_excess_witness :
  magnitude (of_digits 0 [0; 0; 1]) = 2 ^ 64 ∧ excess (of_digits 0 [0; 0; 1]) (of_digits 0 [1]) = 2 ^ 64 ∧
  ∃ y, op_sub 32 (of_digits 0 [0; 0; 1]) (of_digits 0 [1]) = Ok y ∧ magnitude y = 2 ^ 65 - 1.
Proof.
  split; [vm_compute; done|]. split; [vm_compute; done|].
  destruct (difference_excess (of_digits 0 [0; 0; 1]) (of_digits 0 [1])) as (y & E & _ & M & _).
  - wf_compute.
  - wf_compute.
  - done.
  - exists y. split; [exact E|]. rewrite M. vm_compute. done.
Defined.

(** ** The comparisons *)

(** Compare returns 0, 1 or 2 as the magnitude is greater, smaller or equal; == decides equality
    of sign and magnitude, but != is false for numbers of different signs, as == is. *)
Theorem big_compare_correct x A :
  wf x → wf A →
  Compare x A = Ok (if magnitude A <? magnitude x then 0 else if magnitude x <? magnitude A then 1 else 2) ∧
  op_eq x A = Ok (bool_decide (signal x = signal A ∧ magnitude x = magnitude A)) ∧
  op_ne x A = Ok (bool_decide (signal x = signal A ∧ magnitude x ≠ magnitude A)) ∧
  (signal x ≠ signal A → op_eq x A = Ok false ∧ op_ne x A = Ok false).
Proof.
  intros Wx WA. split; [by apply Compare_spec|]. split; [by apply op_eq_spec|]. split; [by apply op_ne_spec|].
  intros Hs. rewrite op_eq_spec, op_ne_spec by done. rewrite !bool_decide_eq_false_2 by tauto. done.
Qed.

Lemma big_compare_witness :
  Compare (of_digits 0 [5; 1]) (of_digits 1 [6; 1]) = Ok 1 ∧ op_ne (of_digits 0 [5; 1]) (of_digits 1 [6; 1]) = Ok false.
Proof.
  destruct (big_compare_correct (of_digits 0 [5; 1]) (of_digits 1 [6; 1])) as (E & _ & _ & H).
  - wf_compute.
  - wf_compute.
  - split; [rewrite E; vm_compute; reflexivity|]. by apply H.
Defined.

(** ** Division and powers *)

(** C23: Division and remainder by a divisor of one digit are exact on the magnitudes; the
    quotient takes the dividend's sign whatever the divisor's, the remainder is never
    negative, and a zero divisor divides by zero. *)
Theorem big_div_mod_digit fuel x A :
  wf x → wf A → len A = 1 →
  (magnitude A ≠ 0 →
    (∃ q, op_div 32 fuel x A = Ok q ∧ wf q ∧ magnitude q = magnitude x / magnitude A ∧ signal q = signal x) ∧
    (∃ r, op_mod 32 fuel x A = Ok r ∧ wf r ∧ magnitude r = magnitude x mod magnitude A ∧ signal r = 0)) ∧
  (magnitude A = 0 → op_div 32 fuel x A = Err DivByZero ∧ op_mod 32 fuel x A = Err DivByZero).
Proof.
  intros Wx WA L1. unfold op_div, op_mod. rewrite L1. change (1 <? 1) with false. cbn iota. split.
  - intros H0. split; [by apply div_short_spec|by apply mod_short_spec].
  - intros H0. rewrite magnitude_one in H0 by done. pose proof (wf_array _ WA). pose proof (wf_array _ Wx). pose proof (wf_len _ Wx).
    unfold div_short, mod_short, div_digits. rewrite (load_dig (array A) 0), bind_ok, H0 by lia. cbn beta.
    destruct (Z.eqb_spec (len x) 1) as [E|E].
    + rewrite (load_dig (array x) 0), !bind_ok by lia. done.
    + unfold for_down. replace (Z.to_nat (len x - 1 - 0 + 1)) with (S (Z.to_nat (len x - 1))) by lia.
      cbn [for_dn]. rewrite (load_dig (array x)), !bind_ok by lia. done.
Qed.

Lemma big_div_mod_witness :
  ∃ q, op_div 32 0 (of_digits 1 [5; 7]) (of_digits 0 [10]) = Ok q ∧ wf q ∧
    magnitude q = (5 + 7 * 2 ^ 32) / 10 ∧ signal q = 1.
Proof.
  refine (proj1 (proj1 (big_div_mod_digit 0 (of_digits 1 [5; 7]) (of_digits 0 [10]) _ _ _) _)).
  - wf_compute.
  - wf_compute.
  - done.
  - vm_compute. done.
Defined.

(** C24: For well-formed numbers and a modulus M > 1 of one digit, power_mod ends with x^A mod M
    for every exponent, and Gcd ends within M turns with the greatest common divisor of the
    magnitudes. *)
Theorem power_gcd_digit fuel x A M :
  wf x → wf A → wf M → len M = 1 → 1 < magnitude M →
  (∃ y, power_mod 32 fuel x A M = Ok y ∧ wf y ∧ magnitude y = magnitude x ^ magnitude A mod magnitude M) ∧
  ((Z.to_nat (magnitude M) ≤ fuel)%nat →
    ∃ y, Gcd 32 fuel x M = Ok y ∧ wf y ∧ magnitude y = Z.gcd (magnitude x) (magnitude M)).
Proof.
  intros Wx WA WM LM HM. split.
  - destruct (power_mod_spec fuel x M WM LM HM A Wx WA) as (y & E & Wy & _ & _ & My). eauto.
  - intros Hf. apply (Gcd_loop fuel fuel); [done..|lia|done].
Qed.

Lemma power_gcd_witness :
  (∃ y, power_mod 32 100 (of_digits 0 [3; 1]) (of_digits 0 [5; 1]) (of_digits 0 [12]) = Ok y ∧ wf y ∧
    magnitude y = (3 + 2 ^ 32) ^ (5 + 2 ^ 32) mod 12) ∧
  ∃ y, Gcd 32 100 (of_digits 0 [2; 1]) (of_digits 0 [12]) = Ok y ∧ wf y ∧ magnitude y = 6.
Proof.
  split.
  - refine (proj1 (power_gcd_digit 100 (of_digits 0 [3; 1]) (of_digits 0 [5; 1]) (of_digits 0 [12]) _ _ _ _ _)).
    + wf_compute.
    + wf_compute.
    + wf_compute.
    + done.
    + done.
  - refine (proj2 (power_gcd_digit 100 (of_digits 0 [2; 1]) (of_digits 0 [1]) (of_digits 0 [12]) _ _ _ _ _) _).
    + wf_compute.
    + wf_compute.
    + wf_compute.
    + done.
    + done.
    + by apply Nat.ltb_lt.
Defined.

(** ** Where the arithmetic fails *)

(** With 64-bit unsigned longs the carry is added and also left in the digit; with 32-bit ones,
    2^96 modulo 2^32+1 and 2^64 divided by 2^32+1 come out wrong, because the long division
    subtracts with lost borrows. *)
Theorem big_defects :
  (∃ y, op_add 64 (of_digits 0 [2 ^ 32 - 1]) (of_digits 0 [1]) = Ok y ∧ magnitude y = 2 ^ 33) ∧
  (∃ y, op_mod 32 200 (of_digits 0 [0; 0; 0; 1]) (of_digits 0 [1; 1]) = Ok y ∧ magnitude y = 2 ^ 32 - 1) ∧
  (2 ^ 96) mod (2 ^ 32 + 1) = 2 ^ 32 ∧
  (∃ y, op_div 32 200 (of_digits 0 [0; 0; 1]) (of_digits 0 [1; 1]) = Ok y ∧ magnitude y = 2 ^ 33 - 2) ∧
  2 ^ 64 / (2 ^ 32 + 1) = 2 ^ 32 - 1.
Proof.
  repeat split.
  - eexists. split; [vm_compute; reflexivity|vm_compute; reflexivity].
  - eexists. split; [vm_compute; reflexivity|vm_compute; reflexivity].
  - eexists. split; [vm_compute; reflexivity|vm_compute; reflexivity].
Qed.

(** ** The driver *)

Lemma values_none n : values (replicate (S n) None) = Err Uninitialised.
Proof. induction n as [|n IH]; [done|]. unfold values in *. cbn [replicate foldr] in *. by rewrite IH. Qed.

(** For every input line, random numbers and width of unsigned long, main reads digits that
    BigNum(string) never initialised. *)
Theorem paillier_main_uninitialised ulw fuel s rs : paillier_main ulw fuel s rs = Err Uninitialised.
Proof.
  unfold paillier_main. destruct s as [|c s].
  - unfold big_str. rewrite for_range_empty, bind_ok by done. rewrite bind_ok. cbn beta iota. change (Z.to_nat len1) with 128%nat. by rewrite (values_none 127).
  - by rewrite (big_str_faults ulw c s).
Qed.

(** The table Primes holds exactly the 2800 primes from 3 to 25409, in ascending order. *)
Theorem prime_table_complete :
  length Primes = 2800%nat ∧ StronglySorted Z.lt Primes ∧ ∀ x, x ∈ Primes ↔ 3 ≤ x < 25410 ∧ Z.prime x.
Proof. rewrite Primes_below. split; [apply primes_2800|split; [apply primes_below_sorted|apply primes_below_elem]]. Qed.
