(* ===== verification/BigDiv.v ===== *)
(** The division of [src/cpp/BigNum.cpp] by divisors of several digits: exact
    quotients and remainders as long as no subtraction loses a borrow. *)
From S2P Require Import Prelude BigCpp BigCppSpec BigCppProps.

(** ** The shift of the trial quotient *)

Lemma shift_digits_spec q k :
  0 < q < B → 0 ≤ k ≤ 127 →
  ∃ z, shift_digits (big_u64 32 q) k = Ok z ∧ wf z ∧ magnitude z = q * B ^ k ∧ signal z = 0 ∧ len z = 1 + k.
Proof.
  intros Hq Hk. destruct (big_u64_spec q) as (Wq & Mq & Sq); [lia|].
  assert (Lq : len (big_u64 32 q) = 1) by (unfold big_u64; by rewrite (proj2 (Z.leb_le q MAX32)) by (unfold MAX32, B in *; lia)).
  unfold shift_digits. rewrite Lq, Sq. replace (1 + k - 1) with k by lia.
  set (a := array (big_u64 32 q)). assert (La : length a = 128%nat) by apply (wf_array _ Wq).
  assert (Ha0 : dig a 0 = q) by (pose proof (magnitude_one _ Lq); subst a; lia).
  assert (Haz : ∀ j, 1 ≤ j → dig a j = 0) by (intros j Hj; apply (wf_above _ Wq); lia).
  unfold for_down. replace (Z.to_nat (k - k + 1)) with 1%nat by lia. cbn [for_dn]. rewrite Z.sub_diag.
  rewrite (load_dig a 0), Ha0, bind_ok, store_ok, !bind_ok by lia.
  set (b := <[Z.to_nat k := q]> a).
  assert (Hb : ∀ j, 0 ≤ j → dig b j = if decide (k = j) then q else dig a j) by (intros j Hj; unfold b; rewrite dig_insert by lia; done).
  assert (Lb : length b = 128%nat) by (unfold b; by rewrite length_insert).
  destruct (for_range_inv (λ i c, 0 ≤ i ∧ length c = 128%nat ∧ ∀ j, 0 ≤ j → dig c j = if decide (j < i) then 0 else dig b j)
    (λ i c, store c i 0) 0 k b) as (c & -> & _ & Lc & Hc).
  - lia.
  - split; [done|]. split; [done|]. intros j Hj. by rewrite decide_False by lia.
  - intros i c Hi (_ & Lc & Hc). rewrite store_ok by lia. eexists. split; [reflexivity|].
    split; [lia|]. split; [by rewrite length_insert|]. intros j Hj. rewrite dig_insert, Hc by lia.
    repeat case_decide; done || lia.
  - rewrite bind_ok. assert (Hd : ∀ j, 0 ≤ j → dig c j = if decide (j = k) then q else 0).
    { intros j Hj. rewrite Hc, Hb by done. repeat case_decide; try done || lia. apply Haz. lia. }
    exists (mkBig (1 + k) 0 c). split; [done|]. split; [split; cbn; [done|lia| | | |]|split; [|done]].
    + intros j Hj. rewrite Hd by done. case_decide; lia.
    + intros j Hj. rewrite Hd, decide_False by lia. done.
    + right. rewrite Hd, decide_True by lia. lia.
    + by left.
    + unfold magnitude. cbn [array len]. rewrite Z.add_comm, val_step, Hd, decide_True by lia.
      rewrite (value_ext c (array big_zero)), (val_above _ 0 k), val_0; [lia|lia| |].
      * intros j Hj. by apply dig_zero.
      * intros j Hj. rewrite Hd, dig_zero, decide_False by lia. done.
Qed.

(** ** The trial quotient *)

(** The value of the top digits. *)
Lemma top_bounds x :
  wf x → let t := dig (array x) (len x - 1) in
  t * B ^ (len x - 1) ≤ magnitude x < (t + 1) * B ^ (len x - 1).
Proof.
  intros Wx t. pose proof (wf_len _ Wx). pose proof (val_split (array x) (len x) ltac:(lia)) as E. fold (magnitude x) t in E.
  pose proof (value_bound (array x) (len x - 1) ltac:(lia) (wf_digits _ Wx)). lia.
Qed.

Lemma top_two_bounds x :
  wf x → 2 ≤ len x → let t := dig (array x) (len x - 1) * B + dig (array x) (len x - 2) in
  t * B ^ (len x - 2) ≤ magnitude x < (t + 1) * B ^ (len x - 2).
Proof.
  intros Wx Hl t. pose proof (val_split (array x) (len x) ltac:(lia)) as E. fold (magnitude x) in E.
  pose proof (val_split (array x) (len x - 1) ltac:(lia)) as E2. replace (len x - 1 - 1) with (len x - 2) in E2 by lia.
  replace (len x - 1) with (len x - 2 + 1) in E at 2 by lia. rewrite B_succ in E by lia.
  pose proof (value_bound (array x) (len x - 2) ltac:(lia) (wf_digits _ Wx)). unfold t. nia.
Qed.

Lemma top_nonzero x : wf x → 2 ≤ len x → 0 < dig (array x) (len x - 1) < B.
Proof. intros Wx Hl. pose proof (wf_digits _ Wx (len x - 1) ltac:(lia)). destruct (wf_top _ Wx); lia. Qed.

Lemma len_le x A : wf x → wf A → magnitude A ≤ magnitude x → len A ≤ len x.
Proof. intros Wx WA Hm. destruct (Z.leb_spec (len A) (len x)); [done|]. pose proof (len_lt x A Wx WA). lia. Qed.

(** A quotient of leading digits: the product, shifted by [k], is at most the
    dividend and more than a quarter of it. *)
Lemma trial_below mA mX d t n m k :
  0 ≤ k → 0 ≤ n → n + k = m → 0 < d → d + 1 ≤ t →
  d * B ^ n ≤ mA < (d + 1) * B ^ n → t * B ^ m ≤ mX < (t + 1) * B ^ m →
  t / (d + 1) * mA * B ^ k ≤ mX < 4 * (t / (d + 1) * mA * B ^ k).
Proof.
  intros Hk Hn <- Hd Ht HA HX. pose proof (Z.mul_div_le t (d + 1) ltac:(lia)) as Hq.
  pose proof (Z.mul_succ_div_gt t (d + 1) ltac:(lia)) as Hq2. pose proof (Z.div_str_pos t (d + 1) ltac:(lia)) as Hq0.
  rewrite Z.pow_add_r in HX by lia. destruct (B_pos n) as [Bn|]; [|lia]. destruct (B_pos k) as [Bk|]; [|lia].
  set (q := t / (d + 1)) in *. split.
  - transitivity (t * B ^ n * B ^ k); [|lia]. apply Z.mul_le_mono_nonneg_r; [lia|].
    transitivity (q * ((d + 1) * B ^ n)); [apply Z.mul_le_mono_nonneg_l; lia|].
    rewrite Z.mul_assoc, (Z.mul_comm q). apply Z.mul_le_mono_nonneg_r; lia.
  - apply (Z.lt_le_trans _ ((t + 1) * B ^ n * B ^ k)); [lia|]. rewrite Z.mul_assoc. apply Z.mul_le_mono_nonneg_r; [lia|].
    transitivity (4 * (q * (d * B ^ n))); [|apply Z.mul_le_mono_nonneg_l; [lia|]; apply Z.mul_le_mono_nonneg_l; lia].
    rewrite !Z.mul_assoc. apply Z.mul_le_mono_nonneg_r; [lia|]. nia.
Qed.

(** What a trial quotient is: at least one, a digit, and not too large nor too
    small. *)
Definition fits (X A : Big) (q k : Z) : Prop :=
  0 < q < B ∧ 0 ≤ k ≤ len X - len A ∧ q * magnitude A * B ^ k ≤ magnitude X < 4 * (q * magnitude A * B ^ k).

Lemma fits_one X A :
  wf X → wf A → 2 ≤ len A → len A ≤ len X → dig (array A) (len A - 1) < dig (array X) (len X - 1) →
  fits X A (dig (array X) (len X - 1) / (dig (array A) (len A - 1) + 1)) (len X - len A).
Proof.
  intros WX WA HA Hl Ht. pose proof (top_nonzero A WA HA). pose proof (top_nonzero X WX ltac:(lia)).
  split; [|split; [lia|]].
  - split; [apply Z.div_str_pos; lia|]. apply Z.div_lt_upper_bound; [lia|]. unfold B in *. nia.
  - apply (trial_below _ _ _ _ (len A - 1) (len X - 1)); try lia; [apply (top_bounds A WA)|apply (top_bounds X WX)].
Qed.

Lemma fits_two X A :
  wf X → wf A → 2 ≤ len A → len A < len X → dig (array X) (len X - 1) ≤ dig (array A) (len A - 1) →
  fits X A ((dig (array X) (len X - 1) * B + dig (array X) (len X - 2)) / (dig (array A) (len A - 1) + 1)) (len X - len A - 1).
Proof.
  intros WX WA HA Hl Ht. pose proof (top_nonzero A WA HA). pose proof (top_nonzero X WX ltac:(lia)).
  pose proof (wf_digits _ WX (len X - 2) ltac:(lia)). split; [|split; [lia|]].
  - split; [apply Z.div_str_pos; nia|]. apply Z.div_lt_upper_bound; [lia|]. nia.
  - apply (trial_below _ _ _ _ (len A - 1) (len X - 2)); try lia; [nia|apply (top_bounds A WA)|apply (top_two_bounds X WX); lia].
Qed.

Lemma two_digits xt x2 : 0 ≤ xt < B → 0 ≤ x2 < B → wrap_u64 (wrap_u64 (Z.shiftl xt 32) + x2) = xt * B + x2.
Proof.
  intros H1 H2. rewrite Z.shiftl_mul_pow2 by lia. change (2 ^ 32) with B. unfold wrap_u64. change (2 ^ 64) with (B * B).
  rewrite (Z.mod_small (xt * B)), Z.mod_small by nia. done.
Qed.

(** Equal lengths and top digits: the quotient is one. *)
Definition same_top (X A : Big) : Prop := len X = len A ∧ dig (array X) (len X - 1) = dig (array A) (len A - 1).

Lemma div_trial_spec X A :
  wf X → wf A → 2 ≤ len A → magnitude A < magnitude X →
  (∃ q k, div_trial 32 X A = Ok (Some (q, k)) ∧ fits X A q k) ∨ (div_trial 32 X A = Ok None ∧ same_top X A).
Proof.
  intros WX WA HA Hm. pose proof (len_le X A WX WA ltac:(lia)) as Hl. pose proof (wf_len _ WX). pose proof (wf_array _ WX).
  pose proof (wf_len _ WA). pose proof (wf_array _ WA). unfold div_trial. rewrite !load_dig, !bind_ok by lia.
  pose proof (top_nonzero A WA HA) as HtA. pose proof (top_nonzero X WX ltac:(lia)) as HtX.
  destruct (Z.ltb_spec (dig (array A) (len A - 1)) (dig (array X) (len X - 1))) as [Ht|Ht].
  { left. unfold c_div. rewrite ul_id by lia. rewrite (proj2 (Z.eqb_neq _ 0)), bind_ok by lia.
    eexists _, _. split; [reflexivity|]. rewrite Z.quot_div_nonneg by lia. by apply fits_one. }
  destruct (Z.ltb_spec (len A) (len X)) as [Hlt|Hge].
  - left. pose proof (wf_digits _ WX (len X - 2) ltac:(lia)). rewrite two_digits by lia.
    assert (E : (if dig (array A) (len A - 1) =? MAX32 then mret (Z.shiftr (dig (array X) (len X - 1) * B + dig (array X) (len X - 2)) 32)
        else c_div (dig (array X) (len X - 1) * B + dig (array X) (len X - 2)) (ul 32 (dig (array A) (len A - 1) + 1))) =
      Ok ((dig (array X) (len X - 1) * B + dig (array X) (len X - 2)) / (dig (array A) (len A - 1) + 1))).
    { destruct (Z.eqb_spec (dig (array A) (len A - 1)) MAX32) as [->|Hne].
      - rewrite Z.shiftr_div_pow2 by lia. done.
      - rewrite ul_id by (unfold MAX32, B in *; lia). apply c_div_nonneg; nia. }
    rewrite E, bind_ok. eexists _, _. split; [reflexivity|]. by apply fits_two.
  - right. split; [done|]. split; [lia|]. assert (len X = len A) as El by lia. rewrite El in *.
    assert (¬ dig (array X) (len A - 1) < dig (array A) (len A - 1)); [|lia]. intros Hlt.
    pose proof (top_bounds X WX) as HX. pose proof (top_bounds A WA) as HA'. rewrite El in HX.
    assert ((dig (array X) (len A - 1) + 1) * B ^ (len A - 1) ≤ dig (array A) (len A - 1) * B ^ (len A - 1)); [|cbv zeta in *; lia].
    apply Z.mul_le_mono_nonneg_r; destruct (B_pos (len A - 1)); lia.
Qed.

(** ** One turn *)

Definition lengths (X A : Big) : Prop := 2 ≤ len A ∧ len X ≤ 127.

(** The product that a turn subtracts. *)
Definition subtrahend (A : Big) (q k : Z) : res Big := z ← shift_digits (big_u64 32 q) k; op_mul 32 A z.

Lemma subtrahend_spec X A q k :
  wf A → wf X → lengths X A → fits X A q k →
  ∃ z T, shift_digits (big_u64 32 q) k = Ok z ∧ wf z ∧ magnitude z = q * B ^ k ∧ signal z = 0 ∧ len z ≤ 127 ∧
    op_mul 32 A z = Ok T ∧ wf T ∧ magnitude T = q * magnitude A * B ^ k ∧ signal T = signal A.
Proof.
  intros WA WX [HA HX] (Hq & Hk & _). destruct (shift_digits_spec q k Hq ltac:(lia)) as (z & Ez & Wz & Mz & Sz & Lz).
  destruct (op_mul_spec A z WA Wz ltac:(lia)) as (T & ET & WT & MT & ST). exists z, T.
  rewrite MT, ST, Mz, Sz. split_and!; try done; [lia|lia|]. destruct (wf_signal _ WA) as [-> | ->]; done.
Qed.

Lemma sub_turn X T :
  wf X → wf T → signal X = signal T → magnitude T ≤ magnitude X → excess X T = 0 →
  ∃ Y, op_sub 32 X T = Ok Y ∧ wf Y ∧ magnitude Y = magnitude X - magnitude T ∧ signal Y = signal X.
Proof.
  intros WX WT Hs Hm He. destruct (sub_same_spec X T WX WT) as (Y & E & WY & MY & SY). exists Y.
  split; [unfold op_sub; cbn [addsub]; by rewrite Hs, Z.eqb_refl|]. split; [done|]. rewrite MY, SY, He.
  rewrite (proj2 (Z.ltb_ge _ _)) by lia. split; [lia|done].
Qed.

Lemma add_turn Y z :
  wf Y → wf z → signal Y = 0 → signal z = 0 → len Y ≤ 127 → len z ≤ 127 →
  ∃ Y', op_add 32 Y z = Ok Y' ∧ wf Y' ∧ magnitude Y' = magnitude Y + magnitude z ∧ signal Y' = 0.
Proof.
  intros WY Wz SY Sz LY Lz. destruct (add_same_spec Y z WY Wz LY Lz) as (Y' & E & WY' & MY & SY'). exists Y'.
  split; [unfold op_add; cbn [addsub]; by rewrite SY, Sz|]. split; [done|]. split; [done|]. congruence.
Qed.

(** A number below [B ^ n] has at most [n] digits. *)
Lemma len_below Y n : wf Y → 1 ≤ n → magnitude Y < B ^ n → len Y ≤ n.
Proof.
  intros WY Hn Hm. destruct (Z.leb_spec (len Y) n) as [|Hl]; [done|]. pose proof (wf_lower Y WY ltac:(lia)).
  pose proof (Z.pow_le_mono_r B n (len Y - 1) ltac:(done) ltac:(lia)). lia.
Qed.

(** A measure of the dividend that falls when it loses a quarter. *)
Definition turns_left (m : Z) : nat := if m =? 0 then O else S (Z.to_nat (Z.log2 (m ^ 3))).

Lemma turns_fall m m' : 0 ≤ m' → 4 * m' < 3 * m → (turns_left m' < turns_left m)%nat.
Proof.
  intros H0 H. unfold turns_left. rewrite (proj2 (Z.eqb_neq m 0)) by lia. destruct (Z.eqb_spec m' 0) as [->|Hn]; [lia|].
  assert (Hc : 2 * m' ^ 3 ≤ m ^ 3).
  { assert ((4 * m') ^ 3 ≤ (3 * m) ^ 3) as Hp by (apply Z.pow_le_mono_l; lia). rewrite !Z.pow_mul_l in Hp.
    change (4 ^ 3) with 64 in Hp. change (3 ^ 3) with 27 in Hp. assert (0 ≤ m' ^ 3) by (apply Z.pow_nonneg; lia). lia. }
  pose proof (Z.log2_le_mono _ _ Hc) as Hl. assert (0 < m' ^ 3) by (apply Z.pow_pos_nonneg; lia).
  rewrite Z.log2_double in Hl by lia. pose proof (Z.log2_nonneg (m' ^ 3)). lia.
Qed.

(** Numbers of at most 127 digits leave at most 12192 turns. *)
Definition long_fuel : nat := Z.to_nat 12193.

Lemma turns_bound X : wf X → len X ≤ 127 → (turns_left (magnitude X) < long_fuel)%nat.
Proof.
  intros WX HX. unfold turns_left, long_fuel. destruct (Z.eqb_spec (magnitude X) 0); [lia|]. pose proof (wf_len _ WX).
  pose proof (value_bound (array X) (len X) ltac:(lia) (wf_digits _ WX)) as Hb. fold (magnitude X) in Hb.
  assert (Hlt : magnitude X ^ 3 < (B ^ len X) ^ 3) by (apply Z.pow_lt_mono_l; lia).
  replace ((B ^ len X) ^ 3) with (2 ^ (32 * len X * 3)) in Hlt by (unfold B; by rewrite <- (Z.pow_mul_r 2 32 (len X)), <- (Z.pow_mul_r 2 (32 * len X) 3) by lia).
  apply Z.log2_lt_pow2 in Hlt; [|apply Z.pow_pos_nonneg; lia]. lia.
Qed.

(** No borrow is lost in the first [n] turns of the division. *)
Fixpoint div_lossless (n : nat) (X A : Big) : bool :=
  if magnitude A <? magnitude X then
    match n with
    | O => true
    | S n =>
        match div_trial 32 X A with
        | Ok (Some (q, k)) =>
            match subtrahend A q k with
            | Ok T => (excess X T =? 0) && match op_sub 32 X T with Ok X => div_lossless n X A | Err _ => false end
            | Err _ => false
            end
        | _ => true
        end
    end
  else true.

(** ** The division *)

Section division.
Context (x A : Big) (Wx : wf x) (WA : wf A) (HL : lengths x A) (Hs : signal x = signal A).

(** Dividend and quotient so far. *)
Record div_inv (s : Big * Big) : Prop := {
  di_X : wf s.1; di_Xs : signal s.1 = signal A; di_Y : wf s.2; di_Ys : signal s.2 = 0;
  di_value : magnitude x = magnitude s.2 * magnitude A + magnitude s.1;
  di_lossless : ∀ n, div_lossless n s.1 A = true
}.

Lemma divisor_pos : B ≤ magnitude A.
Proof. destruct HL as [H2 _]. pose proof (wf_lower A WA H2). pose proof (Z.pow_le_mono_r B 1 (len A - 1) ltac:(done) ltac:(lia)). lia. Qed.

Lemma magnitude_nonneg y : wf y → 0 ≤ magnitude y.
Proof. intros Wy. pose proof (wf_len _ Wy). apply (value_bound (array y) (len y)); [lia|by apply wf_digits]. Qed.

Lemma div_inv_lens s : div_inv s → len s.1 ≤ 127 ∧ len s.2 ≤ 126.
Proof.
  intros [WX _ WY _ HV _]. destruct HL as [H2 H127]. pose proof divisor_pos as HA. pose proof (magnitude_nonneg _ WX). pose proof (magnitude_nonneg _ WY).
  pose proof (value_bound (array x) (len x) ltac:(pose proof (wf_len _ Wx); lia) (wf_digits _ Wx)) as Hx. fold (magnitude x) in Hx.
  pose proof (Z.pow_le_mono_r B (len x) (126 + 1) ltac:(done) ltac:(lia)) as Hp. rewrite B_succ in Hp by lia.
  assert (B * magnitude s.2 ≤ magnitude s.2 * magnitude A) by (rewrite Z.mul_comm; apply Z.mul_le_mono_nonneg_l; lia).
  split; apply len_below; try done.
  - change 127 with (126 + 1). rewrite B_succ by lia. revert Hp. generalize (B * B ^ 126). unfold B in *. lia.
  - apply (Z.mul_lt_mono_pos_l B); [done|]. revert Hp. generalize (B * B ^ 126). lia.
Qed.

(** A turn that goes on. *)
Lemma div_turn X Y q k :
  div_inv (X, Y) → magnitude A < magnitude X → div_trial 32 X A = Ok (Some (q, k)) → fits X A q k →
  ∃ s', (z ← shift_digits (big_u64 32 q) k; Y ← op_add 32 Y z; z ← op_mul 32 A z; X ← op_sub 32 X z; mret (inl (X, Y))) =
      Ok (inl s' : Big * Big + Big * Big) ∧ div_inv s' ∧ 4 * magnitude s'.1 < 3 * magnitude X.
Proof.
  intros Hi Hm Et Hf. destruct (div_inv_lens _ Hi) as [LX LY]. destruct Hi as [WX SX WY SY HV Hl]. cbn [fst snd] in *.
  destruct HL as [H2 _]. destruct (subtrahend_spec X A q k WA WX ltac:(by split) Hf) as (z & T & Ez & Wz & Mz & Sz & Lz & ET & WT & MT & ST).
  pose proof (Hl 1%nat) as H1. cbn [div_lossless] in H1. rewrite (proj2 (Z.ltb_lt _ _)), Et in H1 by done.
  unfold subtrahend in H1. rewrite Ez, bind_ok, ET in H1. apply andb_true_iff in H1 as [H0 _]. apply Z.eqb_eq in H0.
  destruct Hf as (Hq & Hk & Hfit). destruct (sub_turn X T WX WT ltac:(congruence) ltac:(lia) H0) as (X' & EX & WX' & MX' & SX').
  destruct (add_turn Y z WY Wz SY Sz ltac:(lia) Lz) as (Y' & EY & WY' & MY' & SY').
  exists (X', Y'). rewrite Ez, bind_ok, EY, bind_ok, ET, bind_ok, EX, bind_ok. split; [done|]. split; [constructor; cbn; try done|].
  - congruence.
  - rewrite MY', MX', Mz, MT. nia.
  - intros n. specialize (Hl (S n)). cbn [div_lossless] in Hl. rewrite (proj2 (Z.ltb_lt _ _)), Et in Hl by done.
    unfold subtrahend in Hl. rewrite Ez, bind_ok, ET, EX in Hl. by apply andb_true_iff in Hl as [_ Hl].
  - cbn. rewrite MX', MT. lia.
Qed.

Lemma same_top_twice X : wf X → same_top X A → magnitude X < 2 * magnitude A.
Proof.
  intros WX [El Et]. destruct HL as [H2 _]. pose proof (top_bounds X WX) as HX. pose proof (top_bounds A WA) as HA.
  pose proof (top_nonzero A WA H2). cbv zeta in *. rewrite El in *. rewrite Et in HX.
  destruct (B_pos (len A - 1)); [|lia]. nia.
Qed.

Lemma one_number : wf (big_u64 32 1) ∧ magnitude (big_u64 32 1) = 1 ∧ signal (big_u64 32 1) = 0 ∧ len (big_u64 32 1) = 1.
Proof. destruct (big_u64_spec 1) as (W & M & S); [done|]. done. Qed.

(** Adding the last one to the quotient. *)
Lemma add_one Y : wf Y → signal Y = 0 → len Y ≤ 126 →
  ∃ Y', op_add 32 Y (big_u64 32 1) = Ok Y' ∧ wf Y' ∧ magnitude Y' = magnitude Y + 1 ∧ signal Y' = 0.
Proof.
  intros WY SY LY. destruct one_number as (W1 & M1 & S1 & L1).
  destruct (add_turn Y (big_u64 32 1) WY W1 SY S1 ltac:(lia) ltac:(lia)) as (Y' & E & W & M & S). exists Y'. rewrite M1 in M. done.
Qed.

(** How the loop ends. *)
Definition div_ended (s : Big * Big) : Prop :=
  (div_inv s ∧ magnitude s.1 ≤ magnitude A) ∨
  (wf s.1 ∧ wf s.2 ∧ signal s.2 = 0 ∧ magnitude A < magnitude s.1 ∧ magnitude s.2 = magnitude x / magnitude A).

Lemma div_long_spec fuel :
  (∀ n, div_lossless n x A = true) → (long_fuel ≤ fuel)%nat →
  ∃ y, div_long 32 fuel x A = Ok y ∧ wf y ∧ magnitude y = magnitude x / magnitude A ∧ signal y = 0.
Proof.
  intros Hl Hf. unfold div_long. match goal with |- context [iter fuel ?b _] => set (step := b) end.
  pose proof divisor_pos as HA. pose proof (magnitude_nonneg x Wx) as H0.
  destruct (iter_inv div_inv div_ended step (λ s, turns_left (magnitude s.1)) fuel (x, big_zero)) as ([X Y] & -> & Hend).
  - constructor; cbn; try done. by wf_compute.
  - pose proof (turns_bound x Wx (proj2 HL)). cbn [fst]. lia.
  - intros [X Y] Hi. pose proof (div_inv_lens _ Hi) as [LX LY]. pose proof Hi as [WX _ WY SY HV _]. cbn [fst snd] in *.
    unfold step. rewrite Compare_spec, bind_ok by done. unfold cmp_code.
    destruct (Z.ltb_spec (magnitude A) (magnitude X)) as [Hm|Hm]; cbn [Z.eqb].
    2: { right. destruct (_ <? _); eexists; (split; [reflexivity|]); by left. }
    destruct (div_trial_spec X A WX WA ltac:(apply HL) Hm) as [(q & k & Et & Hfit)|[Et Htop]]; rewrite Et, bind_ok.
    + left. destruct (div_turn X Y q k Hi Hm Et Hfit) as (s' & E & Hi' & Hd). exists s'. split; [exact E|]. split; [done|].
      apply turns_fall; [|done]. apply magnitude_nonneg, Hi'.
    + right. destruct (add_one Y WY SY LY) as (Y' & E & WY' & MY' & SY'). rewrite E, bind_ok. eexists. split; [reflexivity|].
      right. split; [done|]. split; [done|]. split; [done|]. split; [done|]. cbn [fst snd]. rewrite MY'.
      apply (Z.div_unique _ _ _ (magnitude X - magnitude A)); [|lia]. left. pose proof (same_top_twice X WX Htop). lia.
  - rewrite bind_ok. cbn beta iota. rewrite Hs, Z.eqb_refl. cbn [negb].
    destruct Hend as [[Hi Hm]|(WX & WY & SY & Hm & HY)]; cbn [fst snd] in *.
    + pose proof (div_inv_lens _ Hi) as [LX LY]. destruct Hi as [WX SX WY SY HV _]. cbn [fst snd] in *.
      rewrite Compare_spec, bind_ok by done. unfold cmp_code. rewrite (proj2 (Z.ltb_ge _ _)) by done.
      pose proof (magnitude_nonneg X WX). destruct (Z.ltb_spec (magnitude X) (magnitude A)) as [Hlt|Hge]; cbn [Z.eqb Pos.eqb].
      * rewrite bind_ok. exists Y. split; [done|]. split; [done|]. split; [|done].
        apply (Z.div_unique _ _ _ (magnitude X)); [left; lia|lia].
      * destruct (add_one Y WY SY LY) as (Y' & E & WY' & MY' & SY'). rewrite E, bind_ok. exists Y'. split; [done|]. split; [done|].
        split; [|done]. rewrite MY'. apply (Z.div_unique _ _ _ 0); [left; unfold B in *; lia|lia].
    + rewrite Compare_spec, bind_ok by done. unfold cmp_code. rewrite (proj2 (Z.ltb_lt _ _)) by done. cbn [Z.eqb]. rewrite bind_ok. eauto.
Qed.
End division.

(** ** The remainder *)

(** The trial quotient of the remainder's loop and its shift. *)
Definition mod_trial (Y A : Big) : Z * Z :=
  let d := dig (array Y) (len Y - 1) in
  let t := dig (array A) (len A - 1) in
  if d <=? t then ((d * B + dig (array Y) (len Y - 2)) / (t + 1), len Y - len A - 1) else (d / (t + 1), len Y - len A).

Definition mod_subtrahend (A : Big) (q k : Z) : res Big :=
  z ← (if negb (k =? 0) then shift_digits (big_u64 32 q) k else mret (big_u64 32 q)); op_mul 32 A z.

Definition same_topb (Y A : Big) : bool := (dig (array Y) (len Y - 1) =? dig (array A) (len A - 1)) && (len Y - len A =? 0).

Lemma same_topb_spec Y A : same_topb Y A = true ↔ same_top Y A.
Proof. unfold same_topb, same_top. rewrite andb_true_iff, !Z.eqb_eq. lia. Qed.

(** No borrow is lost in the first [n] turns. *)
Fixpoint mod_lossless (n : nat) (Y A : Big) : bool :=
  if magnitude A <=? magnitude Y then
    match n with
    | O => true
    | S n =>
        if same_topb Y A then excess Y A =? 0
        else
          match mod_subtrahend A (mod_trial Y A).1 (mod_trial Y A).2 with
          | Ok T => (excess Y T =? 0) && match op_sub 32 Y T with Ok Y => mod_lossless n Y A | Err _ => false end
          | Err _ => false
          end
    end
  else true.

Lemma mod_trial_fits Y A :
  wf Y → wf A → 2 ≤ len A → magnitude A ≤ magnitude Y → ¬ same_top Y A → fits Y A (mod_trial Y A).1 (mod_trial Y A).2.
Proof.
  intros WY WA HA Hm Hn. pose proof (len_le Y A WY WA Hm) as Hl. unfold mod_trial.
  destruct (Z.leb_spec (dig (array Y) (len Y - 1)) (dig (array A) (len A - 1))) as [Ht|Ht]; cbn [fst snd].
  - apply fits_two; try done. destruct (decide (len Y = len A)) as [El|]; [|lia]. destruct Hn. split; [done|].
    assert (¬ dig (array Y) (len Y - 1) < dig (array A) (len A - 1)); [|lia]. intros Hlt.
    pose proof (top_bounds Y WY) as HY. pose proof (top_bounds A WA) as HA'. cbv zeta in *. rewrite El in *.
    assert ((dig (array Y) (len A - 1) + 1) * B ^ (len A - 1) ≤ dig (array A) (len A - 1) * B ^ (len A - 1)); [|lia].
    apply Z.mul_le_mono_nonneg_r; destruct (B_pos (len A - 1)); lia.
  - by apply fits_one.
Qed.

Lemma mod_subtrahend_spec X A q k :
  wf A → wf X → lengths X A → fits X A q k →
  ∃ T, mod_subtrahend A q k = Ok T ∧ wf T ∧ magnitude T = q * magnitude A * B ^ k ∧ signal T = signal A.
Proof.
  intros WA WX HL Hf. unfold mod_subtrahend. destruct (Z.eqb_spec k 0) as [->|Hk]; cbn [negb].
  - rewrite bind_ok. destruct Hf as (Hq & Hk & _). destruct (big_u64_spec q) as (W & M & S); [lia|].
    assert (L : len (big_u64 32 q) = 1) by (unfold big_u64; by rewrite (proj2 (Z.leb_le q MAX32)) by (unfold MAX32, B in *; lia)).
    destruct HL as [H2 HX]. destruct (op_mul_spec A (big_u64 32 q) WA W ltac:(lia)) as (T & E & WT & MT & ST). exists T.
    split; [done|]. split; [done|]. rewrite MT, ST, M, S. split; [lia|]. destruct (wf_signal _ WA) as [-> | ->]; done.
  - destruct (subtrahend_spec X A q k WA WX HL Hf) as (z & T & Ez & _ & _ & _ & _ & ET & WT & MT & ST). exists T.
    rewrite Ez, bind_ok. done.
Qed.

(** The turn of the code in terms of the trial quotient. *)
Lemma mod_step_unfold x Y A :
  wf x → wf Y → wf A → 2 ≤ len A →
  mod_step 32 x A Y =
    if magnitude A <=? magnitude Y then
      if same_topb Y A then Y ← op_sub 32 Y A; mret (inr Y)
      else T ← mod_subtrahend A (mod_trial Y A).1 (mod_trial Y A).2; Y ← op_sub 32 Y T; mret (inl Y)
    else mret (inr Y).
Proof.
  intros Wx WY WA HA. unfold mod_step. rewrite Compare_spec, bind_ok by done. unfold cmp_code.
  pose proof (wf_len _ Wx). pose proof (wf_len _ WY). pose proof (wf_array _ WY). pose proof (wf_len _ WA). pose proof (wf_array _ WA).
  destruct (Z.leb_spec (magnitude A) (magnitude Y)) as [Hm|Hm].
  2: { rewrite (proj2 (Z.ltb_ge _ _)), (proj2 (Z.ltb_lt _ _)) by lia. done. }
  assert (E : (if magnitude A <? magnitude Y then 0 else if magnitude Y <? magnitude A then 1 else 2) = 0 ∨
    (if magnitude A <? magnitude Y then 0 else if magnitude Y <? magnitude A then 1 else 2) = 2).
  { destruct (Z.ltb_spec (magnitude A) (magnitude Y)); [by left|]. rewrite (proj2 (Z.ltb_ge _ _)) by lia. by right. }
  pose proof (len_le Y A WY WA Hm) as Hl. rewrite !load_dig, !bind_ok by lia.
  fold (same_topb Y A).
  assert (G : ∀ c, c = 0 ∨ c = 2 → (c =? 0) || (c =? 2) = true) by (intros c [-> | ->]; done). rewrite (G _ E).
  destruct (same_topb Y A); [done|]. unfold mod_trial, mod_subtrahend. rewrite (proj2 (Z.eqb_neq (len x) 0)) by lia. cbn [negb].
  rewrite andb_true_r. pose proof (top_nonzero A WA HA) as HtA. pose proof (wf_digits _ WY (len Y - 1) ltac:(lia)) as HdY.
  pose proof (wf_digits _ WY (len Y - 2) ltac:(lia)) as HdY2.
  assert (Ht : wrap_u64 (dig (array A) (len A - 1) + 1) = dig (array A) (len A - 1) + 1) by (apply Z.mod_small; unfold B in *; lia). rewrite Ht.
  destruct (dig (array Y) (len Y - 1) <=? dig (array A) (len A - 1)); cbn [fst snd].
  - rewrite two_digits, !bind_ok by done. cbn beta iota. rewrite c_div_nonneg, bind_ok by nia. by rewrite bind_assoc.
  - rewrite bind_ok. cbn beta iota. rewrite c_div_nonneg, bind_ok by lia. by rewrite bind_assoc.
Qed.

Section remainder.
Context (x A : Big) (Wx : wf x) (WA : wf A) (HL : lengths x A) (Hs : signal x = signal A).

Record mod_inv (Y : Big) : Prop := {
  mi_Y : wf Y; mi_s : signal Y = signal A; mi_le : magnitude Y ≤ magnitude x;
  mi_mod : magnitude Y mod magnitude A = magnitude x mod magnitude A;
  mi_lossless : ∀ n, mod_lossless n Y A = true
}.

Lemma mod_inv_len Y : mod_inv Y → len Y ≤ 127.
Proof.
  intros [WY _ Hle _ _]. destruct HL as [H2 H127]. pose proof (wf_len _ Wx). apply len_below; [done|lia|].
  pose proof (value_bound (array x) (len x) ltac:(lia) (wf_digits _ Wx)) as Hx. fold (magnitude x) in Hx.
  pose proof (Z.pow_le_mono_r B (len x) 127 ltac:(done) ltac:(lia)). revert H0. generalize (B ^ 127). lia.
Qed.

Lemma mod_turn Y :
  mod_inv Y →
  (∃ Y', mod_step 32 x A Y = Ok (inl Y') ∧ mod_inv Y' ∧ 4 * magnitude Y' < 3 * magnitude Y) ∨
  (∃ r, mod_step 32 x A Y = Ok (inr r) ∧ wf r ∧ magnitude r = magnitude x mod magnitude A ∧ signal r = signal A).
Proof.
  intros Hi. pose proof (mod_inv_len Y Hi) as LY. destruct Hi as [WY SY Hle Hmod Hl]. destruct HL as [H2 _].
  pose proof (divisor_pos x A WA HL) as HA. pose proof (magnitude_nonneg Y WY) as H0.
  rewrite mod_step_unfold by done. pose proof (Hl 1%nat) as H1. cbn [mod_lossless] in H1.
  destruct (Z.leb_spec (magnitude A) (magnitude Y)) as [Hm|Hm].
  2: { right. exists Y. split; [done|]. split; [done|]. split; [|done]. rewrite <- Hmod. by rewrite Z.mod_small. }
  destruct (same_topb Y A) eqn:Et.
  - right. apply Z.eqb_eq in H1. destruct (sub_turn Y A WY WA SY Hm H1) as (r & E & Wr & Mr & Sr). rewrite E, bind_ok.
    exists r. split; [done|]. split; [done|]. split; [|congruence]. rewrite Mr, <- Hmod.
    pose proof (same_top_twice x A WA HL Y WY (proj1 (same_topb_spec _ _) Et)). apply (Z.mod_unique _ _ 1); [left|]; lia.
  - left. assert (Hn : ¬ same_top Y A) by (rewrite <- same_topb_spec, Et; done).
    pose proof (mod_trial_fits Y A WY WA H2 Hm Hn) as Hfit. destruct (mod_trial Y A) as [q k] eqn:Eq. cbn [fst snd] in *.
    destruct (mod_subtrahend_spec Y A q k WA WY ltac:(by split) Hfit) as (T & ET & WT & MT & ST). rewrite ET, bind_ok in *.
    apply andb_true_iff in H1 as [H1 _]. apply Z.eqb_eq in H1. destruct Hfit as (Hq & Hk & Hfit).
    destruct (sub_turn Y T WY WT ltac:(congruence) ltac:(lia) H1) as (Y' & EY & WY' & MY' & SY'). rewrite EY, bind_ok. exists Y'.
    split; [done|]. split; [|lia]. constructor; [done|congruence|lia| |].
    + rewrite MY', MT, <- Hmod. replace (magnitude Y - q * magnitude A * B ^ k) with (magnitude Y + (- (q * B ^ k)) * magnitude A) by lia.
      apply Z.mod_add. unfold B in *. lia.
    + intros n. specialize (Hl (S n)). cbn [mod_lossless] in Hl. rewrite (proj2 (Z.leb_le _ _)), Et, Eq in Hl by done. cbn [fst snd] in Hl.
      rewrite ET, EY in Hl. by apply andb_true_iff in Hl as [_ Hl].
Qed.

Lemma mod_long_spec fuel :
  (∀ n, mod_lossless n x A = true) → (long_fuel ≤ fuel)%nat →
  ∃ r, iter fuel (mod_step 32 x A) x = Ok r ∧ wf r ∧ magnitude r = magnitude x mod magnitude A ∧ signal r = signal A.
Proof.
  intros Hl Hf. apply (iter_inv mod_inv _ (mod_step 32 x A) (λ Y, turns_left (magnitude Y)));
    [by constructor|pose proof (turns_bound x Wx (proj2 HL)); lia|].
  intros Y Hi. destruct (mod_turn Y Hi) as [(Y' & E & Hi' & Hlt)|H]; [left|by right].
  exists Y'. split; [done|]. split; [done|]. apply turns_fall; [|done]. apply magnitude_nonneg, Hi'.
Qed.
End remainder.

(** C21: For well-formed operands of the same sign, a dividend of at most 127 digits and a
    divisor of at least two, / and % end, within 12193 turns, with the exact quotient and
    remainder, provided that none of their subtractions loses a borrow. *)
Theorem big_div_mod_long fuel x A :
  wf x → wf A → 2 ≤ len A → len x ≤ 127 → signal x = signal A → (long_fuel ≤ fuel)%nat →
  ((∀ n, div_lossless n x A = true) →
     ∃ y, op_div 32 fuel x A = Ok y ∧ wf y ∧ magnitude y = magnitude x / magnitude A ∧ signal y = 0) ∧
  ((∀ n, mod_lossless n x A = true) →
     ∃ r, op_mod 32 fuel x A = Ok r ∧ wf r ∧ magnitude r = magnitude x mod magnitude A ∧ signal r = signal x).
Proof.
  intros Wx WA HA Hx Hs Hf. unfold op_div, op_mod. rewrite (proj2 (Z.ltb_lt 1 (len A))) by lia. split; intros Hl.
  - by apply div_long_spec.
  - rewrite Hs. by apply mod_long_spec.
Qed.

Lemma big_div_mod_long_witness :
  let v := 5 + 6 * 2 ^ 32 + 70000 * 2 ^ 64 in
  let w := 3 + 20000 * 2 ^ 32 in
  (∃ y, op_div 32 long_fuel (of_digits 0 [5; 6; 70000]) (of_digits 0 [3; 20000]) = Ok y ∧ magnitude y = v / w) ∧
  ∃ r, op_mod 32 long_fuel (of_digits 0 [5; 6; 70000]) (of_digits 0 [3; 20000]) = Ok r ∧ magnitude r = v mod w.
Proof.
  destruct (big_div_mod_long long_fuel (of_digits 0 [5; 6; 70000]) (of_digits 0 [3; 20000])) as [Hd Hm].
  - wf_compute.
  - wf_compute.
  - done.
  - done.
  - done.
  - lia.
  - split.
    + destruct Hd as (y & E & _ & M & _); [intros [|[|[|[|[|[|n]]]]]]; vm_compute; reflexivity|].
      exists y. split; [exact E|]. rewrite M. vm_compute. reflexivity.
    + destruct Hm as (y & E & _ & M & _); [intros [|[|[|[|[|[|n]]]]]]; vm_compute; reflexivity|].
      exists y. split; [exact E|]. rewrite M. vm_compute. reflexivity.
Defined.

(** With different signs the subtrahend adds to the dividend: no quotient in 500
    turns. *)
Example div_signs_run_away : op_div 32 500 (of_digits 1 [5; 6; 7]) (of_digits 0 [3; 2]) = Err OutOfFuel.
Proof. by vm_compute. Qed.
