(* ===== verification/TcpConcurrent.v ===== *)
(** [src/cpp/tcp_concurrent.cc]: wrappers of system calls and a server that
    forks a process for every connection.

    [rd] and [wr] are the kernel's answers to the calls of [read] and [write];
    every function returns the number of the next call. *)
From stdpp Require Import gmap.
From S2P Require Import Prelude CString Posix.

Definition perr_exit {A} (s : string) : run A := Exit s (-1).

(** ** Calls on sockets *)

(** [Accept]: the descriptor, and the answers left. *)
Fixpoint Accept (acc : list fdret) : res (run Z * list fdret) :=
  match acc with
  | [] => Err OutOfFuel
  | FdRet fd :: acc => mret (Ret fd, acc)
  | FdErr e :: acc =>
      if (e =? ECONNABORTED) || (e =? EINTR) then Accept acc else mret (perr_exit "accept error", acc)
  end.

Definition Bind (n : Z) : run Z := if n <? 0 then perr_exit "bind error" else Ret n.
Definition Connect (n : Z) : run Z := if n <? 0 then perr_exit "connect error" else Ret n.
Definition Listen (n : Z) : run Z := if n <? 0 then perr_exit "listen error" else Ret n.
Definition Socket (n : Z) : run Z := if n <? 0 then perr_exit "socket error" else Ret n.
Definition Close (n : Z) : run Z := if n =? -1 then perr_exit "close error" else Ret n.

Section kernel.
Context (fuel : nat) (rd : nat → Z → rret) (wr : nat → Z → wret).

(** ** Reading and writing *)

(** [Read]: what it returns, and the memory. *)
Definition Read (buf : list cell) (off nbytes : Z) (k : nat) : res (Z * list cell * nat) :=
  iter fuel (λ k,
    match rd k nbytes with
    | RErr e => mret (if e =? EINTR then inl (S k) else inr (-1, buf, S k))
    | RBytes l => buf ← fill_at buf off l; mret (inr (Z.of_nat (length l), buf, S k))
    end) k.

(** [Write]: what it returns, and the bytes that were sent. *)
Definition Write (buf : list cell) (off nbytes : Z) (k : nat) : res (Z * list Z * nat) :=
  l ← slice buf off nbytes;
  iter fuel (λ k,
    match wr k nbytes with
    | WErr e => mret (if e =? EINTR then inl (S k) else inr (-1, [], S k))
    | WCount n => mret (inr (n, take (Z.to_nat n) l, S k))
    end) k.

(** [Readn]: [errno=EINTR] is an assignment, and true. *)
Definition Readn (buf : list cell) (n : Z) (k : nat) : res (Z * list cell * nat) :=
  iter fuel (λ '(nleft, ptr, buf, k),
    if 0 <? nleft then
      match rd k nleft with
      | RErr _ => mret (inl (nleft, ptr, buf, S k))
      | RBytes l =>
          let nread := Z.of_nat (length l) in
          if nread =? 0 then mret (inr (n - nleft, buf, S k))
          else
            buf ← fill_at buf ptr l;
            mret (inl (nleft - nread, ptr + nread, buf, S k))
      end
    else mret (inr (n - nleft, buf, k))) (n, 0, buf, k).

Definition Writen (buf : list cell) (n : Z) (k : nat) : res (Z * list Z * nat) :=
  iter fuel (λ '(nleft, ptr, sent, k),
    if 0 <? nleft then
      l ← slice buf ptr nleft;
      match wr k nleft with
      | WErr e => mret (if e =? EINTR then inl (nleft, ptr, sent, S k) else inr (-1, sent, S k))
      | WCount c =>
          if c <=? 0 then mret (inr (-1, sent, S k))
          else mret (inl (nleft - c, ptr + c, sent ++ take (Z.to_nat c) l, S k))
      end
    else mret (inr (n, sent, k))) (n, 0, [], k).

(** ** Reading lines *)

(** The static variables of [my_read]. *)
Record RlState := mkRl { read_cnt : Z; read_ptr : Z; read_buf : list cell }.

Definition rl_init : RlState := mkRl 0 0 (replicate 100 (Some 0)).

(** [read] into the buffer of [my_read]: what [my_read] returns early, if it does. *)
Definition refill (st : RlState) (k : nat) : res (option Z * RlState * nat) :=
  iter fuel (λ '(st, k),
    match rd k 100 with
    | RErr e =>
        let st := mkRl (-1) (read_ptr st) (read_buf st) in
        mret (if e =? EINTR then inl (st, S k) else inr (Some (-1), st, S k))
    | RBytes l =>
        b ← fill_at (read_buf st) 0 l;
        mret (inr (if Z.of_nat (length l) =? 0 then (Some 0, mkRl 0 (read_ptr st) b, S k)
          else (None, mkRl (Z.of_nat (length l)) 0 b, S k)))
    end) (st, k).

(** [my_read]: the result, and the character if it is 1. *)
Definition my_read (st : RlState) (k : nat) : res (Z * Z * RlState * nat) :=
  '(early, st, k) ← (if read_cnt st <=? 0 then refill st k else mret (None, st, k));
  match early with
  | Some rc => mret (rc, 0, st, k)
  | None =>
      c ← load_init (read_buf st) (read_ptr st);
      mret (1, c, mkRl (read_cnt st - 1) (read_ptr st + 1) (read_buf st), k)
  end.

(** [Readline]: [newline] is the address of the literal that the character is
    compared with; [maxlen] is not negative. *)
Definition Readline (newline : Z) (buf : list cell) (maxlen : Z) (st : RlState) (k : nat)
  : res (Z * list cell * RlState * nat) :=
  iter (S (Z.to_nat maxlen)) (λ '(n, ptr, buf, st, k),
    if n <? maxlen then
      '(rc, c, st, k) ← my_read st k;
      if rc =? 1 then
        buf ← store_init buf ptr c;
        if c =? newline then
          buf ← store_init buf (ptr + 1) 0; mret (inr (n, buf, st, k))
        else mret (inl (n + 1, ptr + 1, buf, st, k))
      else if rc =? 0 then buf ← store_init buf ptr 0; mret (inr (n - 1, buf, st, k))
      else mret (inr (-1, buf, st, k))
    else buf ← store_init buf ptr 0; mret (inr (n, buf, st, k))) (1, 0, buf, st, k).

(** ** The process of a connection *)

(** [toupper] of the C locale: it is undefined on negative characters but EOF. *)
Definition toupper (c : Z) : res Z :=
  if c <? -1 then Err OutOfBounds
  else mret (if (97 <=? c) && (c <=? 122) then c - 32 else c).

(** The characters read are printed and changed in place. *)
Definition shout (ret : Z) (buf : list cell) (out : list output) : res (list cell * list output) :=
  for_range 0 ret (λ i '(buf, out),
    c ← load_init buf i;
    u ← toupper c;
    buf ← store_init buf i u;
    mret (buf, out ++ [PutChars [c]; PutStr "\n"])) (buf, out).

(** [char buf[BUFSIZ]] *)
Definition BUFSIZ : Z := 8192.

(** What the loop of the child carries: the buffer, the numbers of the next
    [read] and [write], the bytes sent to the peer and the standard output. *)
Definition child : Type := list cell * nat * nat * list Z * list output.

(** One turn: the bytes sent and printed at the exit. *)
Definition child_step (s : child) : res (child + list Z * list output) :=
  let '(buf, k, w, sent, out) := s in
  '(ret, buf) ← match rd k BUFSIZ with
    | RBytes l => buf ← fill_at buf 0 l; mret (Z.of_nat (length l), buf)
    | RErr _ => mret (-1, buf)
    end;
  if ret =? 0 then mret (inr (sent, out))
  else
    '(buf, out) ← shout ret buf out;
    request ← cell_chars buf;
    let out := out ++ [PutChars request; PutStr "\n"] in
    l ← slice buf 0 (wrap_u64 ret);
    let n := match wr w ret with WCount n => n | WErr _ => 0 end in
    let m := match wr (S w) ret with WCount n => n | WErr _ => 0 end in
    mret (inl (buf, S k, S (S w), sent ++ take (Z.to_nat n) l, out ++ [PutChars (take (Z.to_nat m) l)])).

(** The child ends by [exit(1)]. *)
Definition child_loop : res (list Z * list output) :=
  iter fuel child_step (replicate (Z.to_nat BUFSIZ) None, O, O, [], []).
End kernel.

(** ** The server *)

(** The open descriptors of the parent and of the children, the latest last. *)
Record Procs := mkProcs { parent : gset Z; children : list (gset Z) }.

(** One turn of the loop of the parent: the descriptor accepted, what [fork]
    returns to it and what [sigaction] returns. *)
Definition serve_turn (lfd cfd pid ret : Z) (s : Procs) : run Procs :=
  let opened := parent s ∪ {[cfd]} in
  if pid <? 0 then perr_exit "fork error"
  else
    let kids := children s ++ [opened ∖ {[lfd]}] in
    if negb (ret =? 0) then perr_exit "sigaction error"
    else Ret (mkProcs (opened ∖ {[cfd]}) kids).

(** The connections one after another: what [accept] answers for each, [fork]
    and [sigaction]. *)
Fixpoint serve (lfd : Z) (turns : list (list fdret * Z * Z)) (s : Procs) : res (run Procs) :=
  match turns with
  | [] => mret (Ret s)
  | (acc, pid, ret) :: turns =>
      '(r, _) ← Accept acc;
      match r with
      | Exit m c => mret (Exit m c)
      | Ret cfd =>
          match serve_turn lfd cfd pid ret s with
          | Exit m c => mret (Exit m c)
          | Ret s => serve lfd turns s
          end
      end
  end.

(** The parent's [main]: the results of [socket], [bind] and [listen]. *)
Definition tcp_main (lfd b l : Z) (turns : list (list fdret * Z * Z)) : res (run Procs) :=
  match Socket lfd, Bind b, Listen l with
  | Exit m c, _, _ => mret (Exit m c)
  | _, Exit m c, _ => mret (Exit m c)
  | _, _, Exit m c => mret (Exit m c)
  | Ret lfd, Ret _, Ret _ => serve lfd turns (mkProcs {[lfd]} [])
  end.
