(* ===== verification/TcpConcurrentSpec.v ===== *)
(** What the functions of [src/cpp/tcp_concurrent.cc] do with the answers of
    the kernel. *)
From stdpp Require Import gmap.
From S2P Require Import Prelude CString Posix TcpConcurrent.

(** ** Writing everything *)

Section writen.
Context (wr : nat → Z → wret) (l : list Z) (rest : list cell).

(** [write] takes some bytes or is interrupted, and is not interrupted for ever. *)
Context (Hsome : ∀ k n, 0 < n → wr k n = WErr EINTR ∨ ∃ c, wr k n = WCount c ∧ 1 ≤ c ≤ n).
Context (Hfair : ∀ k, ∃ j, (k ≤ j)%nat ∧ ∀ n, 0 < n → wr j n ≠ WErr EINTR).

Let n := Z.of_nat (length l).
Let buf := (Some <$> l) ++ rest.

Definition writen_step : Z * Z * list Z * nat → res (Z * Z * list Z * nat + Z * list Z * nat) :=
  λ '(nleft, ptr, sent, k),
    if 0 <? nleft then
      l ← slice buf ptr nleft;
      match wr k nleft with
      | WErr e => mret (if e =? EINTR then inl (nleft, ptr, sent, S k) else inr (-1, sent, S k))
      | WCount c =>
          if c <=? 0 then mret (inr (-1, sent, S k))
          else mret (inl (nleft - c, ptr + c, sent ++ take (Z.to_nat c) l, S k))
      end
    else mret (inr (n, sent, k)).

Lemma writen_turn nleft k :
  (0 < nleft ≤ length l)%nat →
  let p := (length l - nleft)%nat in
  (wr k (Z.of_nat nleft) = WErr EINTR ∧
    writen_step (Z.of_nat nleft, Z.of_nat p, take p l, k) = Ok (inl (Z.of_nat nleft, Z.of_nat p, take p l, S k))) ∨
  ∃ m, (m < nleft)%nat ∧
    let p' := (length l - m)%nat in
    writen_step (Z.of_nat nleft, Z.of_nat p, take p l, k) = Ok (inl (Z.of_nat m, Z.of_nat p', take p' l, S k)).
Proof.
  intros Hn p. unfold writen_step. rewrite (proj2 (Z.ltb_lt 0 _)) by lia. unfold buf.
  rewrite slice_app, bind_ok, !Nat2Z.id by lia.
  destruct (Hsome k (Z.of_nat nleft) ltac:(lia)) as [E|(c & E & Hc)]; rewrite E; [by left|right].
  rewrite (proj2 (Z.leb_gt c 0)) by lia. exists (nleft - Z.to_nat c)%nat. split; [lia|]. cbn zeta.
  replace (length l - (nleft - Z.to_nat c))%nat with (p + Z.to_nat c)%nat by lia.
  rewrite take_take, Nat.min_l by lia.
  replace (Z.of_nat nleft - c) with (Z.of_nat (nleft - Z.to_nat c)) by lia.
  replace (Z.of_nat p + c) with (Z.of_nat (p + Z.to_nat c)) by lia.
  do 4 f_equal. by rewrite <- take_take_drop.
Qed.

Lemma writen_from nleft : ∀ k, (nleft ≤ length l)%nat →
  let p := (length l - nleft)%nat in
  ∃ f k', iter f writen_step (Z.of_nat nleft, Z.of_nat p, take p l, k) = Ok (n, l, k').
Proof.
  induction (lt_wf nleft) as [nleft _ IH]. intros k Hn. destruct (decide (nleft = 0)%nat) as [->|].
  { exists 1%nat, k. apply iter_exit. unfold writen_step. cbn. rewrite Nat.sub_0_r. by rewrite firstn_all. }
  destruct (Hfair k) as (j & Hj & Hne). remember (j - k)%nat as d eqn:Hd. revert k Hj Hd.
  induction d as [|d IHd]; intros k Hj Hd; (destruct (writen_turn nleft k ltac:(lia)) as [[Ei Hs]|(m & Hm & Hs)];
    [|destruct (IH m Hm (S k) ltac:(lia)) as (f & k' & Hf); exists (S f), k'; by apply (iter_turn _ _ _ _ _ Hs)]).
  - replace j with k in Hne by lia. by destruct (Hne (Z.of_nat nleft) ltac:(lia) Ei).
  - destruct (IHd (S k)) as (f & k' & Hf).
    + lia.
    + lia.
    + exists (S f), k'. by apply (iter_turn _ _ _ _ _ Hs).
Qed.

Lemma writen_all k : ∃ f0 k', ∀ f, (f0 ≤ f)%nat → Writen f wr buf n k = Ok (n, l, k').
Proof.
  destruct (writen_from (length l) k ltac:(lia)) as (f & k' & Hf). exists f, k'. intros f' Hf'.
  cbn zeta in Hf. rewrite Nat.sub_diag in Hf. by apply (iter_mono _ f).
Qed.
End writen.

(** C7: When write takes at least one byte whenever it is not interrupted, and is not
    interrupted for ever, Writen returns the number of bytes it was given after it has sent
    all of them in order. *)
Theorem Writen_delivers wr l rest k :
  (∀ k n, 0 < n → wr k n = WErr EINTR ∨ ∃ c, wr k n = WCount c ∧ 1 ≤ c ≤ n) →
  (∀ k, ∃ j, (k ≤ j)%nat ∧ ∀ n, 0 < n → wr j n ≠ WErr EINTR) →
  let n := Z.of_nat (length l) in
  ∃ f0 k', ∀ f, (f0 ≤ f)%nat → Writen f wr ((Some <$> l) ++ rest) n k = Ok (n, l, k').
Proof. intros Hsome Hfair n. by apply writen_all. Qed.

(** A kernel that takes one byte at every other call. *)
Definition slow (k : nat) (n : Z) : wret := if Nat.even k then WErr EINTR else WCount 1.

Lemma Writen_witness :
  ∃ f0 k', ∀ f, (f0 ≤ f)%nat → Writen f slow ((Some <$> [7; 8; 9]) ++ [None]) 3 0 = Ok (3, [7; 8; 9], k').
Proof.
  apply (Writen_delivers slow [7; 8; 9] [None] 0).
  - intros k n Hn. unfold slow. destruct (Nat.even k); [by left|right]. exists 1. split; [done|lia].
  - intros k. unfold slow. destruct (Nat.even k) eqn:E.
    + exists (S k). split; [lia|]. intros n _. rewrite Nat.even_succ, <- Nat.negb_even, E. done.
    + exists k. split; [lia|]. intros n _. by rewrite E.
Defined.

(** ** Inputs *)

(** A kernel that answers the calls with [ls] in turn, and then with the end
    of the input. *)
Definition script (ls : list rret) (k : nat) (n : Z) : rret := default (RBytes []) (ls !! k).

Definition bytes (r : rret) : list Z := match r with RBytes l => l | RErr _ => [] end.
Definition data (ls : list rret) : list Z := ls ≫= bytes.

(** Chunks of one to [m] bytes, and errors that satisfy [P]. *)
Definition fine (m : nat) (P : Z → Prop) (r : rret) : Prop :=
  match r with RBytes l => (1 ≤ length l ≤ m)%nat | RErr e => P e end.

Lemma script_cons ls k r todo : drop k ls = r :: todo → ∀ n, script ls k n = r.
Proof. intros E n. unfold script. by rewrite <- (Nat.add_0_r k), <- lookup_drop, E. Qed.

Lemma script_end ls k : drop k ls = [] → ∀ n, script ls k n = RBytes [].
Proof. intros E n. unfold script. by rewrite <- (Nat.add_0_r k), <- lookup_drop, E. Qed.

Lemma drop_next {A} (ls : list A) k r todo : drop k ls = r :: todo → drop (S k) ls = todo.
Proof. intros E. rewrite <- Nat.add_1_r, <- drop_drop, E. done. Qed.

(** ** Reading everything *)

Lemma sub_back a b : a - (a - b) = b.
Proof. lia. Qed.

Lemma readn_from ls n : ∀ todo got rest k fuel,
  drop k ls = todo → Forall (fine n (λ _, True)) todo →
  (length got + length (data todo) ≤ n ≤ length got + length rest)%nat → (length todo < fuel)%nat →
  ∃ k', iter fuel (λ '(nleft, ptr, buf, k),
    if 0 <? nleft then
      match script ls k nleft with
      | RErr _ => mret (inl (nleft, ptr, buf, S k))
      | RBytes l =>
          let nread := Z.of_nat (length l) in
          if nread =? 0 then mret (inr (Z.of_nat n - nleft, buf, S k))
          else
            buf ← fill_at buf ptr l;
            mret (inl (nleft - nread, ptr + nread, buf, S k))
      end
    else mret (inr (Z.of_nat n - nleft, buf, k)))
    (Z.of_nat n - Z.of_nat (length got), Z.of_nat (length got), (Some <$> got) ++ rest, k)
  = Ok (Z.of_nat (length (got ++ data todo)), (Some <$> got ++ data todo) ++ drop (length (data todo)) rest, k').
Proof.
  induction todo as [|r todo IH]; intros got rest k fuel Ek Hl Hn Hf; (destruct fuel as [|fuel]; [cbn in Hf; lia|]).
  - cbn [data mbind list_bind length]. rewrite app_nil_r, drop_0. cbn [iter].
    destruct (Z.ltb_spec 0 (Z.of_nat n - Z.of_nat (length got))).
    + rewrite (script_end ls k Ek). cbn. exists (S k). by rewrite sub_back.
    + cbn. exists k. by rewrite sub_back.
  - change (data (r :: todo)) with (bytes r ++ data todo) in *. rewrite length_app in Hn. apply Forall_cons in Hl as [Hr Hl'].
    cbn [length] in Hf. pose proof (drop_next ls k r todo Ek) as Ek'. cbn [iter].
    destruct (Z.ltb_spec 0 (Z.of_nat n - Z.of_nat (length got))) as [Hpos|Hz].
    + rewrite (script_cons ls k r todo Ek). destruct r as [l|e]; cbn [bytes] in *.
      * destruct Hr as [Hr _]. rewrite (proj2 (Z.eqb_neq (Z.of_nat (length l)) 0)) by lia.
        rewrite fill_at_snoc, !bind_ok by lia.
        destruct (IH (got ++ l) (drop (length l) rest) (S k) fuel) as (k' & E); [done|done|rewrite length_app, length_drop; lia|lia|].
        exists k'. rewrite length_app in E. rewrite <- app_assoc in E. rewrite drop_drop in E.
        replace (Z.of_nat n - Z.of_nat (length got) - Z.of_nat (length l)) with (Z.of_nat n - Z.of_nat (length got + length l)) by lia.
        replace (Z.of_nat (length got) + Z.of_nat (length l)) with (Z.of_nat (length got + length l)) by lia.
        rewrite E, (length_app l). done.
      * rewrite bind_ok. destruct (IH got rest (S k) fuel) as (k' & E); [done|done|cbn in Hn; lia|lia|]. exists k'. rewrite E. done.
    + assert (Ed : bytes r ++ data todo = []) by (apply nil_length_inv; rewrite length_app; lia).
      rewrite Ed. cbn [length]. rewrite app_nil_r, drop_0. exists k. cbn. by rewrite sub_back.
Qed.

(** C36: Readn collects the bytes that arrive up to n, whatever errors come between; because
    errno=EINTR is an assignment, it never returns when every read fails. *)
Theorem Readn_collects n ls buf :
  Forall (fine n (λ _, True)) ls → (length (data ls) ≤ n ≤ length buf)%nat →
  (∃ k, Readn (S (length ls)) (script ls) buf (Z.of_nat n) 0 =
    Ok (Z.of_nat (length (data ls)), (Some <$> data ls) ++ drop (length (data ls)) buf, k)) ∧
  (∀ fuel rd, (0 < n)%nat → (∀ k m, ∃ e, rd k m = RErr e) → Readn fuel rd buf (Z.of_nat n) 0 = Err OutOfFuel).
Proof.
  intros Hl Hn. split.
  - destruct (readn_from ls n ls [] buf 0 (S (length ls))) as (k & E); [done|done|cbn; lia|lia|].
    exists k. unfold Readn. cbn [length app fmap list_fmap] in E. rewrite Z.sub_0_r in E. exact E.
  - intros fuel rd H0 He. unfold Readn. apply (iter_diverges (λ '(nleft, _, _, _), 0 < nleft)); [lia|].
    intros [[[nleft ptr] b] k] Hp. rewrite (proj2 (Z.ltb_lt 0 nleft)) by done. destruct (He k nleft) as (e & ->). eauto.
Qed.

Lemma Readn_witness :
  ∃ k, Readn 4 (script [RBytes [1; 2]; RErr 104; RBytes [3]]) [None; None; None; Some 9] 3 0
    = Ok (3, [Some 1; Some 2; Some 3; Some 9], k).
Proof.
  apply (Readn_collects 3 [RBytes [1; 2]; RErr 104; RBytes [3]] [None; None; None; Some 9]).
  - repeat constructor.
  - cbn. lia.
Defined.

(** ** Reading lines *)

(** The static variables hold [b]; [unread] are the bytes not handed out yet. *)
Definition holds (st : RlState) (b : list Z) : Prop :=
  read_buf st = Some <$> b ∧ length b = 100%nat ∧ 0 ≤ read_ptr st ∧ (0 < read_cnt st → read_ptr st + read_cnt st ≤ 100).

Definition unread (st : RlState) (b : list Z) : list Z := take (Z.to_nat (read_cnt st)) (drop (Z.to_nat (read_ptr st)) b).

(** What is still to come: from the buffer, then from the kernel. *)
Definition to_come (ls : list rret) (st : RlState) (k : nat) (u : list Z) : Prop :=
  ∃ b, holds st b ∧ Forall (fine 100 (λ e, e = EINTR)) (drop k ls) ∧ u = unread st b ++ data (drop k ls).

Lemma refill_spec ls : ∀ todo st b k fuel,
  drop k ls = todo → Forall (fine 100 (λ e, e = EINTR)) todo → holds st b → (length todo < fuel)%nat →
  (data todo = [] ∧ ∃ st' k', refill fuel (script ls) st k = Ok (Some 0, st', k') ∧ to_come ls st' k' []) ∨
  ∃ st' k', refill fuel (script ls) st k = Ok (None, st', k') ∧ to_come ls st' k' (data todo) ∧ 0 < read_cnt st'.
Proof.
  induction todo as [|r todo IH]; intros st b k fuel Ek Hl Hb Hf; (destruct fuel as [|fuel]; [cbn in Hf; lia|]);
    unfold refill; cbn [iter]; destruct Hb as (Eb & Lb & Hp & Hc).
  - left. split; [done|]. rewrite (script_end ls k Ek). rewrite Eb.
    change (fill_at (Some <$> b) 0 []) with (fill_at ((Some <$> []) ++ (Some <$> b)) (Z.of_nat (length (@nil Z))) []).
    rewrite fill_at_snoc by (cbn; lia). rewrite !bind_ok. eexists _, _. split; [reflexivity|]. exists b.
    split; [split; [done|]; split; [done|]; split; [exact Hp|cbn; lia]|].
    assert (E : drop (S k) ls = []) by (rewrite <- Nat.add_1_r, <- drop_drop, Ek; done). by rewrite E.
  - apply Forall_cons in Hl as [Hr Hl']. cbn [length] in Hf. pose proof (drop_next ls k r todo Ek) as Ek'.
    rewrite (script_cons ls k r todo Ek). destruct r as [l|e].
    + right. destruct Hr as [Hr1 Hr2]. rewrite Eb.
      change (fill_at (Some <$> b) 0 l) with (fill_at ((Some <$> []) ++ (Some <$> b)) (Z.of_nat (length (@nil Z))) l).
      rewrite fill_at_snoc by (rewrite length_fmap; lia). rewrite !bind_ok, (proj2 (Z.eqb_neq (Z.of_nat (length l)) 0)) by lia.
      eexists _, _. split; [reflexivity|]. split; [|cbn; lia]. exists (l ++ drop (length l) b). split; [split; [|split; [|split; cbn; lia]]|].
      * cbn. by rewrite fmap_app, fmap_drop.
      * rewrite length_app, length_drop. lia.
      * rewrite Ek'. split; [done|]. unfold unread. cbn [read_cnt read_ptr]. rewrite Nat2Z.id, drop_0, take_app_length. done.
    + cbn in Hr. subst e. rewrite Z.eqb_refl, bind_ok.
      destruct (IH (mkRl (-1) (read_ptr st) (read_buf st)) b (S k) fuel) as [(E & st' & k' & H)|(st' & k' & H)]; [done|done|split; [done|]; split; [done|]; split; [done|cbn; lia]|lia| |].
      * left. split; [done|]. by exists st', k'.
      * right. by exists st', k'.
Qed.

Lemma my_read_spec ls st k u fuel :
  to_come ls st k u → (length ls < fuel)%nat →
  match u with
  | [] => ∃ st' k', my_read fuel (script ls) st k = Ok (0, 0, st', k') ∧ to_come ls st' k' []
  | c :: u' => ∃ st' k', my_read fuel (script ls) st k = Ok (1, c, st', k') ∧ to_come ls st' k' u'
  end.
Proof.
  intros (b & Hb & Hl & ->) Hf. unfold my_read.
  assert (G : ∀ st k u, to_come ls st k u → 0 < read_cnt st → ∃ c u', u = c :: u' ∧ ∃ st',
    (c ← load_init (read_buf st) (read_ptr st); mret (1, c, mkRl (read_cnt st - 1) (read_ptr st + 1) (read_buf st), k))
      = Ok (1, c, st', k) ∧ to_come ls st' k u').
  { clear. intros st k u (b & (Eb & Lb & Hp & Hc) & Hl & ->) Hpos. unfold unread. specialize (Hc Hpos).
    destruct (lookup_lt_is_Some_2 b (Z.to_nat (read_ptr st))) as [c Hbc]; [lia|].
    rewrite (drop_S _ c) by done. replace (Z.to_nat (read_cnt st)) with (S (Z.to_nat (read_cnt st - 1))) by lia. cbn [take app].
    exists c. eexists. split; [reflexivity|]. eexists. split.
    { rewrite Eb, (load_init_ok _ _ c); [|lia|by rewrite list_lookup_fmap, Hbc]. reflexivity. }
    exists b. split; [split; [done|]; split; [done|]; split; cbn; lia|]. split; [done|]. unfold unread. cbn [read_cnt read_ptr].
    by replace (Z.to_nat (read_ptr st + 1)) with (S (Z.to_nat (read_ptr st))) by lia. }
  destruct (Z.leb_spec (read_cnt st) 0) as [Hc|Hc].
  - unfold unread. replace (Z.to_nat (read_cnt st)) with O by lia. cbn [take app].
    destruct (refill_spec ls _ st b k fuel eq_refl Hl Hb) as [(E & st' & k' & -> & H)|(st' & k' & -> & H & Hpos)].
    + rewrite length_drop. lia.
    + rewrite E, bind_ok. by exists st', k'.
    + rewrite bind_ok. cbn beta iota. destruct (G _ _ _ H Hpos) as (c & u' & -> & st2 & -> & H'). by exists st2, k'.
  - rewrite bind_ok. cbn beta iota. destruct (G st k (unread st b ++ data (drop k ls))) as (c & u' & -> & st2 & -> & H').
    + by exists b.
    + done.
    + by exists st2, k.
Qed.

Lemma readline_from ls fuel newline maxlen : ∀ f got rest st k u,
  to_come ls st k u → (length ls < fuel)%nat → Forall (λ c, c ≠ newline) u →
  (length got < maxlen)%nat → (maxlen ≤ length got + length rest)%nat → (maxlen - length got ≤ f)%nat →
  let took := take (maxlen - length got - 1) u in
  ∃ st' k', iter f (λ '(n, ptr, buf, st, k),
    if n <? Z.of_nat maxlen then
      '(rc, c, st, k) ← my_read fuel (script ls) st k;
      if rc =? 1 then
        buf ← store_init buf ptr c;
        if c =? newline then
          buf ← store_init buf (ptr + 1) 0; mret (inr (n, buf, st, k))
        else mret (inl (n + 1, ptr + 1, buf, st, k))
      else if rc =? 0 then buf ← store_init buf ptr 0; mret (inr (n - 1, buf, st, k))
      else mret (inr (-1, buf, st, k))
    else buf ← store_init buf ptr 0; mret (inr (n, buf, st, k)))
    (Z.of_nat (length got) + 1, Z.of_nat (length got), (Some <$> got) ++ rest, st, k) =
  Ok (if (maxlen - length got - 1 <=? length u)%nat then Z.of_nat maxlen else Z.of_nat (length got + length u),
    (Some <$> got ++ took ++ [0]) ++ drop (S (length took)) rest, st', k') ∧
  to_come ls st' k' (drop (maxlen - length got - 1) u).
Proof.
  induction f as [|f IH]; intros got rest st k u Hu Hf Hne Hm Hr Hff; [lia|]. cbn [iter].
  destruct (Z.ltb_spec (Z.of_nat (length got) + 1) (Z.of_nat maxlen)) as [Hlt|Hge].
  - pose proof (my_read_spec ls st k u fuel Hu Hf) as Hmy. destruct u as [|c u].
    + destruct Hmy as (st' & k' & -> & Hu'). rewrite bind_ok. cbn beta iota. cbn [Z.eqb Pos.eqb]. rewrite take_nil, drop_nil. cbn [length].
      rewrite store_next_cell, !bind_ok by lia. exists st', k'. split; [|done].
      rewrite (proj2 (Nat.leb_gt _ 0)) by lia. cbn [app]. rewrite Nat.add_0_r. repeat f_equal. lia.
    + destruct Hmy as (st' & k' & -> & Hu'). rewrite bind_ok. cbn beta iota. rewrite Z.eqb_refl. apply Forall_cons in Hne as [Hc Hne].
      rewrite store_next_cell, bind_ok, (proj2 (Z.eqb_neq c newline)) by (done || lia). rewrite bind_ok.
      destruct (IH (got ++ [c]) (drop 1 rest) st' k' u) as (st2 & k2 & E & H2); try done.
      * rewrite length_app. cbn. lia.
      * rewrite length_app, length_drop. cbn. lia.
      * rewrite length_app. cbn. lia.
      * exists st2, k2. rewrite length_app in E, H2. cbn [length] in E, H2.
        replace (Z.of_nat (length got + 1)) with (Z.of_nat (length got) + 1) in E by lia.
        replace (maxlen - length got - 1)%nat with (S (maxlen - (length got + 1) - 1)) by lia.
        split; [|exact H2]. rewrite E. cbn [take drop length]. rewrite <- !app_assoc, drop_drop. cbn [app].
        change (1 + S (length (take (maxlen - (length got + 1) - 1) u)))%nat with (S (S (length (take (maxlen - (length got + 1) - 1) u)))).
        do 4 f_equal. destruct (Nat.leb_spec (maxlen - (length got + 1) - 1) (length u)), (Nat.leb_spec (S (maxlen - (length got + 1) - 1)) (S (length u))); lia.
  - replace (maxlen - length got - 1)%nat with O by lia. cbn [take drop length app Nat.leb]. rewrite store_next_cell, !bind_ok by lia.
    exists st, k. split; [|done]. repeat f_equal. lia.
Qed.

(** C8: For every division of the input into chunks with interruptions, Readline behaves as an
    unbuffered read of the next maxlen-1 bytes and leaves exactly the rest unread: it does
    not stop at line feeds, because it compares with the address of a literal. *)
Theorem Readline_ignores_newlines ls newline buf maxlen fuel st k u :
  to_come ls st k u → (length ls < fuel)%nat → Forall (λ c, c ≠ newline) u →
  (1 ≤ maxlen ≤ length buf)%nat →
  let took := take (maxlen - 1) u in
  ∃ st' k',
    Readline fuel (script ls) newline buf (Z.of_nat maxlen) st k =
      Ok (if (maxlen - 1 <=? length u)%nat then Z.of_nat maxlen else Z.of_nat (length u),
        (Some <$> took ++ [0]) ++ drop (S (length took)) buf, st', k') ∧
    to_come ls st' k' (drop (maxlen - 1) u).
Proof.
  intros Hu Hf Hne Hm took. destruct (readline_from ls fuel newline maxlen (S maxlen) [] buf st k u) as (st' & k' & E & H'); try done.
  - cbn. lia.
  - cbn. lia.
  - cbn. lia.
  - exists st', k'. cbn [length] in E, H'. rewrite Nat.sub_0_r in E, H'. split; [|exact H']. unfold Readline. rewrite Nat2Z.id. exact E.
Qed.

(** Two lines arrive as one. *)
Lemma Readline_witness :
  ∃ st k, Readline 9 (script [RBytes [72; 10]; RErr EINTR; RBytes [87; 10]]) 4210692 (replicate 5 None) 5 rl_init 0 =
    Ok (5, [Some 72; Some 10; Some 87; Some 10; Some 0], st, k).
Proof.
  destruct (Readline_ignores_newlines [RBytes [72; 10]; RErr EINTR; RBytes [87; 10]] 4210692 (replicate 5 None) 5 9 rl_init 0 [72; 10; 87; 10])
    as (st & k & E & _).
  - exists (replicate 100 0). split; [repeat split; cbn; lia|]. split; [repeat constructor|done].
  - cbn. lia.
  - repeat constructor; done.
  - cbn. lia.
  - exists st, k. exact E.
Defined.

(** ** The process of a connection *)

Definition up (c : Z) : Z := if (97 <=? c) && (c <=? 122) then c - 32 else c.

Definition shouted (l : list Z) : list output := l ≫= λ c, [PutChars [c]; PutStr "\n"].

(** What the child prints for a chunk. *)
Definition printed_for (l : list Z) : list output :=
  shouted l ++ [PutChars (before_nul (up <$> l)); PutStr "\n"] ++ [PutChars (up <$> l)].

Definition ascii (l : list Z) : Prop := Forall (λ c, 0 ≤ c ≤ 127) l.

(** A kernel that takes everything it is given. *)
Definition taker (k : nat) (n : Z) : wret := WCount n.

Lemma toupper_up c : 0 ≤ c ≤ 127 → toupper c = Ok (up c).
Proof. intros H. unfold toupper. by rewrite (proj2 (Z.ltb_ge c (-1))) by lia. Qed.

Lemma shout_spec l rest out :
  ascii l → shout (Z.of_nat (length l)) ((Some <$> l) ++ rest) out = Ok ((Some <$> (up <$> l)) ++ rest, out ++ shouted l).
Proof.
  intros Ha. unfold shout. match goal with |- for_range _ _ ?b _ = _ => set (body := b) end.
  destruct (for_range_inv (λ i '(buf, o), 0 ≤ i ∧
      buf = (Some <$> (up <$> take (Z.to_nat i) l)) ++ (Some <$> drop (Z.to_nat i) l) ++ rest ∧
      o = out ++ shouted (take (Z.to_nat i) l)) body 0 (Z.of_nat (length l)) ((Some <$> l) ++ rest, out))
    as ([buf o] & -> & _ & -> & ->).
  - lia.
  - split; [done|]. split; [done|]. cbn. by rewrite app_nil_r.
  - intros i [buf o] Hi (_ & -> & ->). unfold body.
    destruct (lookup_lt_is_Some_2 l (Z.to_nat i)) as [c Hc]; [lia|].
    pose proof (proj1 (Forall_lookup _ _) Ha _ _ Hc) as Hc'. cbn in Hc'.
    rewrite (drop_S l c) by done. cbn [fmap list_fmap app].
    set (got := up <$> take (Z.to_nat i) l).
    assert (Lg : i = Z.of_nat (length got)) by (unfold got; rewrite length_fmap, length_take; lia).
    rewrite (load_init_ok _ _ c); [|lia|].
    2:{ rewrite lookup_app_r by (rewrite length_fmap; lia). rewrite length_fmap.
        by replace (Z.to_nat i - length got)%nat with O by lia. }
    rewrite bind_ok, toupper_up, bind_ok by done.
    pose proof (store_next_cell got (Some c :: (Some <$> drop (S (Z.to_nat i)) l) ++ rest) (up c) ltac:(cbn; lia)) as Es.
    rewrite <- Lg in Es. rewrite Es, bind_ok.
    eexists. split; [reflexivity|]. split; [lia|]. replace (Z.to_nat (i + 1)) with (S (Z.to_nat i)) by lia.
    rewrite (take_S_r _ _ c) by done. split.
    + rewrite (fmap_app up). done.
    + unfold shouted. by rewrite bind_app, <- app_assoc.
  - rewrite Nat2Z.id, firstn_all, drop_all. done.
Qed.

Lemma cell_chars_nul l rest : 0 ∈ l → cell_chars ((Some <$> l) ++ rest) = Ok (before_nul l).
Proof.
  induction l as [|c l IH]; intros H; [by apply not_elem_of_nil in H|]. cbn. destruct (Z.eqb_spec c 0) as [|Hc]; [done|].
  apply elem_of_cons in H as [<-|H]; [done|]. by rewrite IH.
Qed.

Lemma nul_up (l : list Z) : 0 ∈ l → 0 ∈ up <$> l.
Proof. intros H. apply list_elem_of_fmap. by exists 0. Qed.

Lemma nonul_up l : nonul l → nonul (up <$> l).
Proof.
  intros H. apply Forall_fmap. eapply Forall_impl; [exact H|]. intros c Hc. cbn in *. unfold up.
  destruct (Z.leb_spec 97 c), (Z.leb_spec c 122); cbn [andb]; lia.
Qed.

(** A chunk with a NUL that fits the buffer. *)
Definition packet (l : list Z) : Prop := (1 ≤ length l ≤ Z.to_nat BUFSIZ)%nat ∧ ascii l ∧ 0 ∈ l.

Lemma child_turn ls l buf k w sent out :
  script ls k BUFSIZ = RBytes l → packet l → length buf = Z.to_nat BUFSIZ →
  ∃ buf', child_step (script ls) taker (buf, k, w, sent, out) =
    Ok (inl (buf', S k, S (S w), sent ++ (up <$> l), out ++ printed_for l)) ∧ length buf' = Z.to_nat BUFSIZ.
Proof.
  intros Er (Hl & Ha & H0) Lb. unfold child_step. rewrite Er.
  pose proof (fill_at_snoc [] l buf ltac:(lia)) as Ef. cbn [fmap list_fmap app length] in Ef. change (Z.of_nat 0) with 0 in Ef.
  rewrite Ef, !bind_ok. cbn beta iota. rewrite (proj2 (Z.eqb_neq (Z.of_nat (length l)) 0)) by lia.
  rewrite shout_spec, bind_ok by done. cbn beta iota. rewrite cell_chars_nul, bind_ok by (by apply nul_up).
  assert (Ew : wrap_u64 (Z.of_nat (length l)) = Z.of_nat (length l)) by (apply Z.mod_small; unfold BUFSIZ in *; lia). rewrite Ew.
  rewrite slice_app by (rewrite ?length_fmap; lia). rewrite bind_ok, Nat2Z.id. cbn [taker]. rewrite drop_0, Nat2Z.id.
  assert (Et : take (length l) (up <$> l) = up <$> l) by (rewrite <- (length_fmap up l); apply firstn_all).
  rewrite !Et. eexists. split; [unfold printed_for; rewrite !app_assoc; reflexivity|].
  rewrite length_app, !length_fmap, length_drop. lia.
Qed.

Lemma child_from ls : ∀ todo buf k w sent out fuel,
  drop k (RBytes <$> ls) = RBytes <$> todo → Forall packet todo → length buf = Z.to_nat BUFSIZ → (length todo < fuel)%nat →
  iter fuel (child_step (script (RBytes <$> ls)) taker) (buf, k, w, sent, out) =
    Ok (sent ++ (todo ≫= λ l, up <$> l), out ++ (todo ≫= printed_for)).
Proof.
  induction todo as [|l todo IH]; intros buf k w sent out fuel Ek Hp Lb Hf; (destruct fuel as [|fuel]; [cbn in Hf; lia|]).
  - apply iter_exit. unfold child_step. rewrite (script_end _ k Ek).
    pose proof (fill_at_snoc [] [] buf ltac:(cbn; lia)) as Ef. cbn [fmap list_fmap app length] in Ef. change (Z.of_nat 0) with 0 in Ef.
    rewrite Ef, !bind_ok. cbn. by rewrite !app_nil_r.
  - apply Forall_cons in Hp as [Hl Hp]. cbn [length] in Hf.
    destruct (child_turn (RBytes <$> ls) l buf k w sent out (script_cons _ k _ _ Ek BUFSIZ) Hl Lb) as (buf' & E & Lb').
    eapply iter_turn; [exact E|]. rewrite (IH buf' (S k)); [|by eapply drop_next|done|done|lia].
    cbn [mbind list_bind]. by rewrite !app_assoc.
Qed.

(** When every chunk contains a NUL, the child sends each chunk back in upper case, prints it
    and ends with the input; a first chunk of text without a NUL makes it read the
    uninitialised rest of its buffer. *)
Theorem child_needs_nul ls :
  (Forall packet ls →
    child_loop (S (length ls)) (script (RBytes <$> ls)) taker = Ok (ls ≫= λ l, up <$> l, ls ≫= printed_for)) ∧
  (∀ fuel wr l todo, ls = l :: todo → nonul l → ascii l → (1 ≤ length l < Z.to_nat BUFSIZ)%nat →
    child_loop (S fuel) (script (RBytes <$> ls)) wr = Err Uninitialised).
Proof.
  split.
  - intros Hp. unfold child_loop. rewrite (child_from ls ls); [done|by rewrite drop_0|done|by rewrite length_replicate|lia].
  - intros fuel wr l todo -> Hn Ha Hl. unfold child_loop. cbn [iter]. unfold child_step at 2.
    rewrite (script_cons (RBytes <$> (l :: todo)) 0 (RBytes l) (fmap (M := list) RBytes todo) eq_refl).
    pose proof (fill_at_snoc [] l (replicate (Z.to_nat BUFSIZ) None) ltac:(rewrite length_replicate; lia)) as Ef.
    cbn [fmap list_fmap app length] in Ef. change (Z.of_nat 0) with 0 in Ef.
    rewrite Ef, !bind_ok. cbn beta iota. rewrite (proj2 (Z.eqb_neq (Z.of_nat (length l)) 0)) by lia.
    rewrite shout_spec, bind_ok by done. cbn beta iota. rewrite cell_chars_app by (by apply nonul_up).
    rewrite drop_replicate. by destruct (Z.to_nat BUFSIZ - length l)%nat eqn:E; [lia|].
Qed.

Lemma child_witness :
  child_loop 2 (script [RBytes [104; 105; 0]]) taker =
    Ok ([72; 73; 0], [PutChars [104]; PutStr "\n"; PutChars [105]; PutStr "\n"; PutChars [0]; PutStr "\n";
      PutChars [72; 73]; PutStr "\n"; PutChars [72; 73; 0]]).
Proof.
  refine (proj1 (child_needs_nul [[104; 105; 0]]) _).
  constructor; [|constructor]. split; [split; [by apply Nat.leb_le|unfold BUFSIZ; cbn [length]; lia]|].
  split; [repeat constructor; done|]. do 2 right. left.
Defined.

(** ** The server *)

(** After any number of connections the parent holds the listening socket only, and each of its
    children, one per connection, its own connection only. *)
Theorem serve_descriptors lfd turns s :
  0 ≤ lfd → Forall (λ '(acc, _, _), Forall (λ a, match a with FdRet fd => fd ≠ lfd | FdErr _ => True end) acc) turns →
  ∀ b l, tcp_main lfd b l turns = Ok (Ret s) →
  parent s = {[lfd]} ∧ length (children s) = length turns ∧
  Forall (λ c, ∃ cfd, cfd ≠ lfd ∧ c = {[cfd]}) (children s).
Proof.
  intros Hlfd Ht b l. unfold tcp_main, Socket, Bind, Listen. rewrite (proj2 (Z.ltb_ge lfd 0)) by done.
  destruct (b <? 0); [done|]. destruct (l <? 0); [done|].
  assert (HA : ∀ acc r acc', Forall (λ a, match a with FdRet fd => fd ≠ lfd | FdErr _ => True end) acc →
    Accept acc = Ok (Ret r, acc') → r ≠ lfd).
  { induction acc as [|[fd|e] acc IH]; intros r acc' Hn H; [done| |]; apply Forall_cons in Hn as [Hn1 Hn2]; cbn in H.
    - by injection H as -> ->.
    - destruct (_ || _); [by eapply IH|done]. }
  assert (G : ∀ s0 s, serve lfd turns s0 = Ok (Ret s) → parent s0 = {[lfd]} →
    Forall (λ c, ∃ cfd, cfd ≠ lfd ∧ c = {[cfd]}) (children s0) →
    parent s = {[lfd]} ∧ length (children s) = (length (children s0) + length turns)%nat ∧
    Forall (λ c, ∃ cfd, cfd ≠ lfd ∧ c = {[cfd]}) (children s)).
  { clear s. induction turns as [|[[acc pid] ret] turns IH]; intros s0 s H Hp Hc.
    - injection H as <-. rewrite Nat.add_0_r. done.
    - apply Forall_cons in Ht as [Ht1 Ht2]. cbn [serve] in H. destruct (Accept acc) as [[[cfd|] acc']|] eqn:EA; try done.
      rewrite bind_ok in H. cbn beta iota in H. pose proof (HA _ _ _ Ht1 EA) as Hcfd.
      unfold serve_turn in H. destruct (pid <? 0); [done|]. destruct (negb (ret =? 0)); [done|].
      destruct (IH Ht2 _ _ H) as (P & L & C).
      + cbn. rewrite Hp. set_solver.
      + cbn. apply Forall_app. split; [done|]. constructor; [|done]. exists cfd. split; [done|]. rewrite Hp. set_solver.
      + split; [done|]. split; [|done]. rewrite L. cbn [children length]. rewrite length_app. cbn. lia. }
  intros H. destruct (G _ _ H) as (P & L & C); [done|done|]. done.
Qed.

Lemma serve_witness :
  ∃ s, tcp_main 3 0 0 [([FdErr 4; FdRet 4], 100, 0); ([FdRet 4], 101, 0)] = Ok (Ret s) ∧ parent s = {[3]} ∧ length (children s) = 2%nat.
Proof.
  eexists. split; [reflexivity|].
  match goal with |- parent ?s = _ ∧ _ =>
    destruct (serve_descriptors 3 [([FdErr 4; FdRet 4], 100, 0); ([FdRet 4], 101, 0)] s ltac:(done)
      ltac:(repeat constructor; done) 0 0 eq_refl) as (P & L & _) end.
  split; [exact P|exact L].
Defined.
