(* ===== verification/Sockets.v ===== *)
(** Small programs that talk through descriptors: [src/cpp/tcp_server.c] and
    [tcp_client.c], [uni_sock_srv.c] and [uni_sock_cli.c], [ipc/pipe_test.c].

    What [read] delivers is a list of messages, the standard input a list of
    characters; what is printed and sent is part of the results. *)
From S2P Require Import Prelude CString Posix TcpConcurrent.

(** ** Lines from the standard input *)

(** The characters of the line: at most [n], up to and with a line feed. *)
Fixpoint line_of_input (n : nat) (input : list Z) : list Z * list Z :=
  match n, input with
  | S n', c :: input' =>
      if c =? 10 then ([c], input') else let '(l, r) := line_of_input n' input' in (c :: l, r)
  | _, _ => ([], input)
  end.

(** [fgets(buf, n, stdin)]: the line and what is left of the input; [None] at
    the end of the input. *)
Definition fgets (n : Z) (input : list Z) : option (list Z * list Z) :=
  match input with [] => None | _ => Some (line_of_input (Z.to_nat (n - 1)) input) end.

(** The bytes [l] over the start of a buffer. *)
Definition overwrite (buf l : list Z) : res (list Z) :=
  if (length l <=? length buf)%nat then mret (l ++ drop (length l) buf) else Err OutOfBounds.

(** [fgets] into a buffer, which is left alone at the end of the input. *)
Definition gets_into (buf input : list Z) : res (list Z * list Z) :=
  match fgets (Z.of_nat (length buf)) input with
  | None => mret (buf, input)
  | Some (l, rest) => buf ← overwrite buf (l ++ [0]); mret (buf, rest)
  end.

(** [buf[strlen(buf) - 1] = '\0'] *)
Definition chop (buf : list Z) : res (list Z) := n ← c_strlen buf; store buf (n - 1) 0.

(** ** tcp_server.c *)

(** One turn of the conversation: what the peer sent; the printed text and the
    message that is sent, and the rest of the input. *)
Definition server_turn (msg input : list Z) : res (list output * list Z * list Z) :=
  buf ← overwrite (replicate 1024 0) msg;
  s ← c_chars buf;
  '(buf, input) ← gets_into (replicate 1024 0) input;
  buf ← chop buf;
  reply ← c_chars buf;
  mret ([PutStr "client# : "; PutChars s; PutStr "\n"; PutStr "server# :"; PutStr "please wait ...\n"], reply ++ [0], input).

(** [n] turns; a peer that closed delivers empty messages. *)
Fixpoint server_session (n : nat) (msgs : list (list Z)) (input : list Z) : res (list output * list (list Z)) :=
  match n with
  | O => mret ([], [])
  | S n' =>
      '(out, reply, input) ← server_turn (hd [] msgs) input;
      '(outs, replies) ← server_session n' (tl msgs) input;
      mret (out ++ outs, reply :: replies)
  end.

(** [main]: the results of [socket], [bind], [listen] and [accept], and the
    session of the first connection, from which it never returns. *)
Definition tcp_server_main (bound listening : Z) (client : fdret) (n : nat) (msgs : list (list Z)) (input : list Z)
  : res (run (list output * list (list Z))) :=
  if bound <? 0 then mret (Exit "bind error" 1)
  else if listening <? 0 then mret (Exit "listen error" 2)
  else
    match client with
    | FdErr _ => mret (Exit "accept  error" 3)
    | FdRet _ => s ← server_session n msgs input; mret (Ret s)
    end.

(** ** tcp_client.c *)

(** [strncasecmp(buf, "quit", 4) == 0]: whether the first characters are quit
    in any case. *)
Definition lower (c : Z) : Z := if (65 <=? c) && (c <=? 90) then c + 32 else c.

Fixpoint is_quit (s w : list Z) {struct w} : res bool :=
  match w with
  | [] => mret true
  | x :: w =>
      match s with
      | [] => Err OutOfBounds
      | c :: s => if lower c =? x then is_quit s w else mret false
      end
  end.

(** The loop: the buffer, what is read and what is sent, to the end by quit.
    A conversation of [n] turns without it has not ended. *)
Fixpoint client_session (n : nat) (buf : list Z) (msgs : list (list Z)) (input : list Z) : res (list output * list (list Z)) :=
  match n with
  | O => Err OutOfFuel
  | S n' =>
      '(buf, input) ← gets_into buf input;
      buf ← chop buf;
      quit ← is_quit buf (codes "quit");
      if (quit : bool) then mret ([PutStr "client# :"; PutStr "quit !\n"], [buf])
      else
        let sent := buf in
        buf ← overwrite buf (hd [] msgs);
        s ← c_chars buf;
        '(out, msgs') ← client_session n' buf (tl msgs) input;
        mret ([PutStr "client# :"; PutStr "please wait\n"; PutStr "server #:"; PutChars s; PutStr "\n"] ++ out, sent :: msgs')
  end.

(** [main]: the number of arguments and the result of [connect]. *)
Definition tcp_client_main (argc connected : Z) (n : nat) (msgs : list (list Z)) (input : list Z)
  : res (run (list output * list (list Z))) :=
  if negb (argc =? 2) then mret (Exit "Usage : client IP" 1)
  else if connected <? 0 then mret (Exit "connect error" 1)
  else
    s ← client_session n (replicate 1024 0) msgs input; mret (Ret s).

(** ** uni_sock_srv.c *)

Definition MAXLINE : Z := 80.

(** The conversation with a client: [char buf[MAXLINE]] keeps its content from
    one connection to the next; printed text and messages sent. *)
Fixpoint uni_session (msgs : list rret) (buf : list cell) : res (list cell * list output * list (list Z)) :=
  match msgs with
  | [] => mret (buf, [PutStr "EOF\n"], [])
  | RErr _ :: _ => mret (buf, [], [])
  | RBytes l :: msgs =>
      if Z.of_nat (length l) =? 0 then mret (buf, [PutStr "EOF\n"], [])
      else
        buf ← fill_at buf 0 l;
        s ← cell_chars buf;
        buf ← for_range 0 (Z.of_nat (length l)) (λ i buf,
          c ← load_init buf i;
          u ← toupper c;
          store_init buf i u) buf;
        reply ← slice buf 0 (Z.of_nat (length l));
        '(buf, out, sent) ← uni_session msgs buf;
        mret (buf, [PutStr "received: "; PutChars s] ++ out, reply :: sent)
  end.

(** The accept loop: a connection that fails is reported and skipped. *)
Fixpoint uni_accept (conns : list (option (list rret))) (buf : list cell) : res (list output * list (list Z)) :=
  match conns with
  | [] => mret ([], [])
  | None :: conns => uni_accept conns buf
  | Some msgs :: conns =>
      '(buf, out, sent) ← uni_session msgs buf;
      '(outs, sents) ← uni_accept conns buf;
      mret (out ++ outs, sent ++ sents)
  end.

Definition uni_srv_main (listenfd bound listening : Z) (conns : list (option (list rret))) : res (run (list output * list (list Z))) :=
  if listenfd <? 0 then mret (Exit "socket error" 1)
  else if bound <? 0 then mret (Exit "bind error" 1)
  else if listening <? 0 then mret (Exit "listen error" 1)
  else
    '(out, sent) ← uni_accept conns (replicate (Z.to_nat MAXLINE) None);
    mret (Ret ([PutStr "UNIX domain socket bound\n"; PutStr "Accepting connections ...\n"] ++ out, sent)).

(** ** uni_sock_cli.c *)

(** The loop: every line of the input is sent, and the answer printed. *)
Fixpoint cli_session (n : nat) (buf : list cell) (msgs : list rret) (input : list Z) : res (list output * list (list Z)) :=
  match n with
  | O => Err OutOfFuel
  | S n' =>
      match fgets MAXLINE input with
      | None => mret ([], [])
      | Some (l, input) =>
          buf ← fill_at buf 0 (l ++ [0]);
          sent ← cell_chars buf;
          '(buf, out) ← match hd (RBytes []) msgs with
            | RErr _ => mret (buf, [PutStr "the other side has been closed.\n"])
            | RBytes m => buf ← fill_at buf 0 m; s ← slice buf 0 (Z.of_nat (length m)); mret (buf, [PutChars s])
            end;
          '(outs, msgs') ← cli_session n' buf (tl msgs) input;
          mret (out ++ outs, sent :: msgs')
      end
  end.

Definition uni_cli_main (sockfd bound connected : Z) (n : nat) (msgs : list rret) (input : list Z) : res (run (list output * list (list Z))) :=
  if sockfd <? 0 then mret (Exit "client socket error" 1)
  else if bound <? 0 then mret (Exit "bind error" 1)
  else if connected <? 0 then mret (Exit "connect error" 1)
  else s ← cli_session n (replicate 100 None) msgs input; mret (Ret s).

(** ** pipe_test.c *)

(** The message of the child. *)
Definition pipe_msg : list Z := codes "hello-linux!".

(** The parent's loop: what [read] of at most 64 bytes delivers. *)
Fixpoint pipe_parent (reads : list rret) (buffer : list Z) : res (list output) :=
  match reads with
  | [] => mret []
  | RErr _ :: _ => mret []
  | RBytes l :: reads =>
      if Z.of_nat (length l) =? 0 then mret []
      else
        buffer ← overwrite buffer l;
        buffer ← store buffer (Z.of_nat (length l)) 0;
        s ← c_chars buffer;
        out ← pipe_parent reads buffer;
        mret ([PutStr "child say to parent："; PutChars s; PutStr "\n"] ++ out)
  end.

(** A pipe whose reader looks after [k] messages were written: [read] takes at
    most 64 bytes of what has accumulated. *)
Fixpoint pipe_reads (pending : list Z) (ks : list nat) : list rret :=
  match ks with
  | [] => []
  | k :: ks =>
      let all := pending ++ mjoin (replicate k pipe_msg) in
      RBytes (take 64 all) :: pipe_reads (drop 64 all) ks
  end.

Definition pipe_main (pipe_ret r w : Z) (ks : list nat) : res (Z * list output) :=
  if negb (pipe_ret =? 0) then mret (1, [])
  else
    out ← pipe_parent (pipe_reads [] ks) (replicate 64 0); mret (0, [PutStr "pipefd[0]："; PutInt r; PutStr "\n"; PutStr "pipefd[1]："; PutInt w; PutStr "\n"] ++ out).
