(* ===== verification/SocketsSpec.v ===== *)
(** The conversations of the socket programs, and how they end. *)
From S2P Require Import Prelude CString Posix TcpConcurrent Sockets.

(** ** Lines *)

(** A line of text without its line feed. *)
Definition is_line (l : list Z) : Prop := Forall (λ c, c ≠ 0 ∧ c ≠ 10) l.

Lemma is_line_nonul l : is_line l → nonul l.
Proof. intros H. eapply Forall_impl; [exact H|]. cbn. tauto. Qed.

Lemma line_of_input_spec l input n :
  is_line l → (length l < n)%nat → line_of_input n (l ++ 10 :: input) = (l ++ [10], input).
Proof.
  revert n. induction l as [|c l IH]; intros [|n] Hl Hn; cbn [length] in *; try lia; [done|].
  apply Forall_cons in Hl as [[_ Hc] Hl]. cbn. rewrite (proj2 (Z.eqb_neq c 10)), IH by (done || lia). done.
Qed.

Lemma overwrite_ok buf l : (length l ≤ length buf)%nat → overwrite buf l = Ok (l ++ drop (length l) buf).
Proof. intros H. unfold overwrite. by rewrite (proj2 (Nat.leb_le _ _)) by done. Qed.

(** A buffer that holds a line. *)
Definition holding (buf l : list Z) : list Z := l ++ [0; 0] ++ drop (length l + 2) buf.

Lemma length_holding buf l : (length l + 2 ≤ length buf)%nat → length (holding buf l) = length buf.
Proof. intros H. unfold holding. rewrite !length_app, length_drop. cbn [length]. lia. Qed.

Lemma chars_holding buf l : nonul l → c_chars (holding buf l) = Ok l.
Proof. intros H. unfold holding. by apply c_chars_app. Qed.

Lemma gets_chop buf l input :
  is_line l → (length l + 2 ≤ length buf)%nat →
  ∃ b, gets_into buf (l ++ 10 :: input) = Ok (b, input) ∧ chop b = Ok (holding buf l).
Proof.
  intros Hl Hb. unfold gets_into. assert (E : fgets (Z.of_nat (length buf)) (l ++ 10 :: input) = Some (l ++ [10], input)).
  { unfold fgets. rewrite line_of_input_spec by (done || lia). by destruct l. }
  rewrite E. rewrite overwrite_ok by (rewrite !length_app; cbn [length]; lia). rewrite bind_ok. eexists. split; [reflexivity|].
  unfold chop. rewrite <- (app_assoc (l ++ [10])). cbn [app].
  rewrite c_strlen_app, bind_ok by (apply nonul_app; split; [by apply is_line_nonul|by repeat constructor]).
  rewrite store_ok by (rewrite !length_app; cbn [length]; lia). f_equal. rewrite <- app_assoc, length_app. cbn [length app].
  replace (Z.to_nat (Z.of_nat (length l + 1) - 1)) with (length l + 0)%nat by lia. rewrite insert_app_r. cbn. unfold holding. cbn [app].
  do 3 f_equal. rewrite !length_app. cbn [length]. f_equal. lia.
Qed.

(** ** The conversation over TCP *)

(** The client's check for quit. *)
Definition quits (l : list Z) : bool := bool_decide (take 4 (lower <$> l) = codes "quit").

Lemma is_quit_prefix w : ∀ l r, nonul l → Forall (λ c, c ≠ 0) w →
  is_quit (l ++ 0 :: r) w = Ok (bool_decide (take (length w) (lower <$> l) = w)).
Proof.
  induction w as [|x w IH]; intros l r Hl Hw; [cbn; by rewrite bool_decide_eq_true_2 by done|]. apply Forall_cons in Hw as [Hx Hw]. cbn [is_quit].
  destruct l as [|c l]; cbn [app].
  - change (lower 0) with 0. destruct (Z.eqb_spec 0 x); [congruence|]. by rewrite bool_decide_eq_false_2 by done.
  - apply Forall_cons in Hl as [Hc Hl]. cbn [fmap list_fmap length take]. destruct (Z.eqb_spec (lower c) x) as [->|Hne].
    + rewrite IH by done. f_equal. apply bool_decide_ext. split; [by intros ->|by intros [= ->]].
    + rewrite bool_decide_eq_false_2; [done|]. intros [= ? _]. congruence.
Qed.

Lemma is_quit_spec l r : nonul l → is_quit (l ++ 0 :: r) (codes "quit") = Ok (quits l).
Proof. intros Hl. apply (is_quit_prefix (codes "quit") l r Hl). by repeat constructor. Qed.

Lemma is_quit_holding buf l : nonul l → is_quit (holding buf l) (codes "quit") = Ok (quits l).
Proof. intros H. unfold holding. cbn [app]. by apply is_quit_spec. Qed.

(** A turn of the conversation: what the client's user types and what the
    server's user answers. *)
Definition turn_ok (t : list Z * list Z) : Prop :=
  is_line t.1 ∧ is_line t.2 ∧ (length t.1 ≤ 1022)%nat ∧ (length t.2 ≤ 1022)%nat ∧ quits t.1 = false.

(** The messages of the client: its whole buffer, whatever it held. *)
Fixpoint client_msgs (buf : list Z) (ts : list (list Z * list Z)) : list (list Z) :=
  match ts with
  | [] => []
  | (c, s) :: ts => let m := holding buf c in m :: client_msgs (s ++ [0] ++ drop (length s + 1) m) ts
  end.

Definition replies (ts : list (list Z * list Z)) : list (list Z) := (λ t, t.2 ++ [0]) <$> ts.

Definition server_prints (ts : list (list Z * list Z)) : list output :=
  ts ≫= λ t, [PutStr "client# : "; PutChars t.1; PutStr "\n"; PutStr "server# :"; PutStr "please wait ...\n"].
Definition client_prints (ts : list (list Z * list Z)) : list output :=
  ts ≫= λ t, [PutStr "client# :"; PutStr "please wait\n"; PutStr "server #:"; PutChars t.2; PutStr "\n"].

Lemma server_turn_ok buf c s input :
  length buf = 1024%nat → turn_ok (c, s) →
  server_turn (holding buf c) (s ++ 10 :: input) =
    Ok ([PutStr "client# : "; PutChars c; PutStr "\n"; PutStr "server# :"; PutStr "please wait ...\n"], s ++ [0], input).
Proof.
  intros Lb (Hc & Hs & Lc & Ls & _). cbn [fst snd] in *. pose proof (length_holding buf c ltac:(lia)) as Lh. unfold server_turn.
  rewrite overwrite_ok by (rewrite length_replicate; lia). rewrite drop_ge, app_nil_r by (rewrite length_replicate; lia).
  rewrite bind_ok, chars_holding, bind_ok by (by apply is_line_nonul).
  destruct (gets_chop (replicate 1024 0) s input Hs ltac:(rewrite length_replicate; lia)) as (b & -> & E).
  rewrite bind_ok. cbn beta iota. by rewrite E, bind_ok, chars_holding by (by apply is_line_nonul).
Qed.

Lemma server_session_ok ts : ∀ buf input,
  length buf = 1024%nat → Forall turn_ok ts →
  server_session (length ts) (client_msgs buf ts) ((ts ≫= λ t, t.2 ++ [10]) ++ input) = Ok (server_prints ts, replies ts).
Proof.
  induction ts as [|[c s] ts IH]; intros buf input Lb Ht; [done|]. apply Forall_cons in Ht as [H1 Ht].
  cbn [length server_session client_msgs hd tl mbind list_bind snd]. rewrite <- !app_assoc. cbn [app].
  rewrite server_turn_ok, bind_ok by done. cbn beta iota. pose proof H1 as (_ & _ & Lc & Ls & _). cbn [fst snd] in *.
  pose proof (length_holding buf c ltac:(lia)). rewrite IH; [done| |done].
  rewrite length_app. cbn [length app]. rewrite length_drop. lia.
Qed.

Lemma client_session_ok ts : ∀ buf q input,
  length buf = 1024%nat → Forall turn_ok ts → is_line q → (length q ≤ 1022)%nat → quits q = true →
  ∃ last, client_session (S (length ts)) buf (replies ts) ((ts ≫= λ t, t.1 ++ [10]) ++ q ++ 10 :: input) =
    Ok (client_prints ts ++ [PutStr "client# :"; PutStr "quit !\n"], client_msgs buf ts ++ [last]).
Proof.
  induction ts as [|[c s] ts IH]; intros buf q input Lb Ht Hq Lq Eq.
  - cbn [length mbind list_bind app client_session]. destruct (gets_chop buf q input Hq ltac:(lia)) as (b & -> & E).
    rewrite bind_ok. cbn beta iota. rewrite E, bind_ok.
    rewrite is_quit_holding, bind_ok, Eq by (by apply is_line_nonul). by eexists.
  - apply Forall_cons in Ht as [H1 Ht]. pose proof H1 as (Hc & Hs & Lc & Ls & Eqc). cbn [fst snd] in *.
    cbn [length mbind list_bind fst client_msgs]. rewrite <- !app_assoc. cbn [app].
    remember (S (length ts)) as n eqn:En. cbn [client_session].
    destruct (gets_chop buf c ((ts ≫= λ t, t.1 ++ [10]) ++ q ++ 10 :: input) Hc ltac:(lia)) as (b & E1 & E). rewrite E1, bind_ok. cbn beta iota.
    rewrite E, bind_ok, is_quit_holding, bind_ok, Eqc by (by apply is_line_nonul). pose proof (length_holding buf c ltac:(lia)) as Lh. change (hd [] (replies ((c, s) :: ts))) with (s ++ [0]).
    change (tl (replies ((c, s) :: ts))) with (replies ts).
    rewrite overwrite_ok by (rewrite length_app; cbn [length]; lia). rewrite bind_ok, length_app. cbn [length]. rewrite <- app_assoc.
    cbn [app]. rewrite c_chars_app, bind_ok by (by apply is_line_nonul). subst n.
    destruct (IH (s ++ 0 :: drop (length s + 1) (holding buf c)) q input) as (last & ->); try done.
    + rewrite length_app. cbn [length]. rewrite length_drop. lia.
    + rewrite bind_ok. by eexists.
Qed.

(** C17: The lines typed have at most 1022 characters, none of them NUL or newline (fgets and
    chop would cut a longer one), and no line of the client's but the last starts with quit,
    in any case. When each message is delivered whole, tcp_server and tcp_client converse in
    lockstep: the server prints the lines typed at the client, the client those typed at the
    server, in order and whatever residue the client's buffer carries, and the client ends
    at its last line; of the server, which never returns, these are the turns before that
    line. *)
Theorem chat_lockstep ts q rest_c rest_s :
  Forall turn_ok ts → is_line q → (length q ≤ 1022)%nat → quits q = true →
  ∃ msgs last,
    tcp_client_main 2 0 (S (length ts)) (replies ts) ((ts ≫= λ t, t.1 ++ [10]) ++ q ++ 10 :: rest_c) =
      Ok (Ret (client_prints ts ++ [PutStr "client# :"; PutStr "quit !\n"], msgs ++ [last])) ∧
    tcp_server_main 0 0 (FdRet 4) (length ts) msgs ((ts ≫= λ t, t.2 ++ [10]) ++ rest_s) =
      Ok (Ret (server_prints ts, replies ts)).
Proof.
  intros Ht Hq Lq Eq. destruct (client_session_ok ts (replicate 1024 0) q rest_c) as (last & E); [by rewrite length_replicate|done..|].
  exists (client_msgs (replicate 1024 0) ts), last. unfold tcp_client_main, tcp_server_main. cbn [Z.eqb Pos.eqb negb Z.ltb Z.compare].
  rewrite E, bind_ok. by rewrite server_session_ok, bind_ok by (by rewrite ?length_replicate).
Qed.

Lemma chat_witness :
  ∃ msgs last,
    tcp_client_main 2 0 2 [codes "yes" ++ [0]] (codes "hello?" ++ 10 :: codes "QUIT" ++ [10]) =
      Ok (Ret ([PutStr "client# :"; PutStr "please wait\n"; PutStr "server #:"; PutChars (codes "yes"); PutStr "\n";
        PutStr "client# :"; PutStr "quit !\n"], msgs ++ [last])) ∧
    tcp_server_main 0 0 (FdRet 4) 1 msgs (codes "yes" ++ [10]) =
      Ok (Ret ([PutStr "client# : "; PutChars (codes "hello?"); PutStr "\n"; PutStr "server# :"; PutStr "please wait ...\n"],
        [codes "yes" ++ [0]])).
Proof.
  refine (chat_lockstep [(codes "hello?", codes "yes")] (codes "QUIT") [] [] _ _ _ _).
  - constructor; [|constructor]. split; [repeat constructor; done|]. split; [repeat constructor; done|].
    split; [apply Nat.leb_le; vm_compute; reflexivity|]. split; [apply Nat.leb_le; vm_compute; reflexivity|vm_compute; reflexivity].
  - repeat constructor; done.
  - apply Nat.leb_le. vm_compute. reflexivity.
  - vm_compute. reflexivity.
Defined.

(** ** The end of the server *)

Definition oob {A} (r : res A) : Prop := ∀ e, r = Err e → e = OutOfBounds.

Lemma oob_bind {A B} (m : res A) (f : A → res B) : oob m → (∀ a, m = Ok a → oob (f a)) → oob (m ≫= f).
Proof. intros Hm Hf e. destruct m as [a|e']; cbn; [by apply Hf|]. intros [= <-]. by apply Hm. Qed.

Lemma oob_ok {A} (a : A) : oob (Ok a).
Proof. done. Qed.

Lemma oob_strlen s : oob (c_strlen s).
Proof.
  induction s as [|c s IH]; intros e; cbn [c_strlen]; [by intros [= <-]|]. destruct (c =? 0); [done|].
  revert e. apply oob_bind; [exact IH|]. intros n _. apply oob_ok.
Qed.

Lemma oob_chars s : oob (c_chars s).
Proof. apply oob_bind; [apply oob_strlen|]. intros n _. apply oob_ok. Qed.

Lemma oob_store {A} (m : list A) i x : oob (store m i x).
Proof. intros e. unfold store. destruct (_ && _); [done|]. by intros [= <-]. Qed.

Lemma oob_overwrite buf l : oob (overwrite buf l).
Proof. intros e. unfold overwrite. destruct (_ <=? _)%nat; [done|]. by intros [= <-]. Qed.

Lemma line_shorter n input : input ≠ [] → (0 < n)%nat → (length (line_of_input n input).2 < length input)%nat.
Proof.
  revert input. induction n as [|n IH]; intros [|c input] Hne Hn; try done; [lia|]. cbn. destruct (c =? 10); [cbn; lia|].
  destruct (line_of_input n input) as [l r] eqn:E. cbn. destruct (decide (input = [])) as [->|Hi].
  - destruct n; cbn in E; injection E as <- <-; cbn; lia.
  - destruct (decide (n = 0)%nat) as [->|]; [destruct input; cbn in E; injection E as <- <-; cbn; lia|].
    specialize (IH input Hi ltac:(lia)). rewrite E in IH. cbn in IH. lia.
Qed.

(** A turn uses up input, or leaves the bounds of an array. *)
Lemma server_turn_input msg input :
  server_turn msg input = Err OutOfBounds ∨
  ∃ out reply rest, server_turn msg input = Ok (out, reply, rest) ∧ (length rest < length input)%nat.
Proof.
  destruct (server_turn msg input) as [[[out reply] rest]|e] eqn:E.
  - right. exists out, reply, rest. split; [done|]. unfold server_turn in E.
    destruct (overwrite (replicate 1024 0) msg) as [b|]; [|done]. rewrite bind_ok in E. destruct (c_chars b); [|done]. rewrite bind_ok in E.
    unfold gets_into in E. destruct input as [|c input]; [by vm_compute in E|].
    change (fgets (Z.of_nat (length (replicate 1024 0))) (c :: input)) with (Some (line_of_input 1023 (c :: input))) in E.
    pose proof (line_shorter 1023 (c :: input) ltac:(done) ltac:(lia)) as Hs. destruct (line_of_input 1023 (c :: input)) as [l r].
    destruct (overwrite (replicate 1024 0) (l ++ [0])) as [b2|]; [|done]. rewrite !bind_ok in E. destruct (chop b2) as [b3|]; [|done].
    rewrite bind_ok in E. destruct (c_chars b3); [|done]. rewrite bind_ok in E. injection E as _ _ <-. exact Hs.
  - left. f_equal. revert E. generalize e. change (oob (server_turn msg input)). unfold server_turn.
    apply oob_bind; [apply oob_overwrite|]. intros b _. apply oob_bind; [apply oob_chars|]. intros s _. apply oob_bind.
    + unfold gets_into. destruct (fgets _ _) as [[l r]|]; [|apply oob_ok]. apply oob_bind; [apply oob_overwrite|]. intros ? _. apply oob_ok.
    + intros [b2 r] _. apply oob_bind.
      * unfold chop. apply oob_bind; [apply oob_strlen|]. intros ? _. apply oob_store.
      * intros b3 _. apply oob_bind; [apply oob_chars|]. intros ? _. apply oob_ok.
Qed.

(** Whatever the client sends, tcp_server never leaves the conversation before its own input is
    used up, and then writes before the start of its buffer. *)
Theorem server_runs_out client n msgs input :
  (length input < n)%nat → tcp_server_main 0 0 (FdRet client) n msgs input = Err OutOfBounds.
Proof.
  intros Hn. unfold tcp_server_main. cbn [Z.ltb Z.compare].
  enough (E : server_session n msgs input = Err OutOfBounds) by (by rewrite E).
  revert msgs input Hn. induction n as [|n IH]; intros msgs input Hn; [lia|]. cbn [server_session].
  destruct (server_turn_input (hd [] msgs) input) as [->|(out & reply & rest & -> & Hr)]; [done|].
  rewrite bind_ok. cbn beta iota. by rewrite IH by lia.
Qed.

Lemma server_runs_out_witness : tcp_server_main 0 0 (FdRet 4) 3 [[104; 105; 0]] [10; 10] = Err OutOfBounds.
Proof. apply (server_runs_out 4 3 [[104; 105; 0]] [10; 10]). cbn. lia. Defined.

(** ** The conversation over a UNIX socket *)

(** Whatever line is typed at uni_sock_cli, it is sent without a NUL, and uni_sock_srv prints
    the uninitialised rest of its buffer. *)
Theorem uni_line_faults l rest input n out sent :
  is_line l → (length l ≤ 78)%nat →
  uni_cli_main 3 0 0 n [] (l ++ 10 :: input) = Ok (Ret (out, sent)) →
  hd [] sent = l ++ [10] ∧ uni_srv_main 3 0 0 [Some (RBytes (hd [] sent) :: rest)] = Err Uninitialised.
Proof.
  intros Hl Ll Hc. assert (Nl : nonul (l ++ [10])) by (apply nonul_app; split; [by apply is_line_nonul|by repeat constructor]).
  assert (Ehd : hd [] sent = l ++ [10]).
  { unfold uni_cli_main in Hc. cbn [Z.ltb Z.compare] in Hc. destruct n as [|n]; [done|]. cbn [cli_session] in Hc.
    assert (E : fgets MAXLINE (l ++ 10 :: input) = Some (l ++ [10], input)).
    { unfold fgets. change (Z.to_nat (MAXLINE - 1)) with 79%nat. rewrite line_of_input_spec by (done || lia). by destruct l. }
    rewrite E in Hc. rewrite fill_at_0, bind_ok, cell_chars_str, bind_ok in Hc
      by (done || (rewrite !length_app, length_replicate; cbn [length]; lia)).
    cbn [hd] in Hc. rewrite fill_at_0, !bind_ok in Hc by (cbn [length]; lia).
    destruct (slice _ _ _) as [s|]; [|done]. rewrite !bind_ok in Hc. cbn [tl] in Hc.
    destruct (cli_session _ _ _ _) as [[o ms]|]; [|done]. rewrite !bind_ok in Hc. by injection Hc as _ <-. }
  split; [done|]. rewrite Ehd. unfold uni_srv_main. cbn [Z.ltb Z.compare uni_accept uni_session].
  rewrite (proj2 (Z.eqb_neq (Z.of_nat (length (l ++ [10]))) 0)) by (rewrite length_app; cbn [length]; lia).
  rewrite fill_at_0, bind_ok by (rewrite length_app, length_replicate; cbn [length]; unfold MAXLINE; lia).
  rewrite cell_chars_app, drop_replicate by done. rewrite length_app. cbn [length].
  destruct (Z.to_nat MAXLINE - (length l + 1))%nat eqn:E; [|done].
  cbn [length] in E. unfold MAXLINE in E. lia.
Qed.

Lemma uni_line_witness :
  uni_srv_main 3 0 0 [Some [RBytes (codes "hello" ++ [10])]] = Err Uninitialised.
Proof.
  assert (E : ∃ out, uni_cli_main 3 0 0 2 [] (codes "hello" ++ 10 :: []) = Ok (Ret (out, [codes "hello" ++ [10]])))
    by (eexists; vm_compute; reflexivity).
  destruct E as (out & E). refine (proj2 (uni_line_faults (codes "hello") [] [] 2 out [codes "hello" ++ [10]] _ _ E)).
  - repeat constructor; done.
  - apply Nat.leb_le. vm_compute. reflexivity.
Defined.

(** ** The pipe *)

Lemma pipe_copies k : nonul (mjoin (replicate k pipe_msg)) ∧ length (mjoin (replicate k pipe_msg)) = (12 * k)%nat.
Proof.
  induction k as [|k [IH1 IH2]]; [split; [constructor|done]|]. cbn [replicate]. change (mjoin (pipe_msg :: ?l)) with (pipe_msg ++ mjoin l). split.
  - apply nonul_app. split; [by repeat constructor|done].
  - rewrite length_app, IH2. change (length pipe_msg) with 12%nat. lia.
Qed.

(** The parent prints what the child wrote as long as at most five messages accumulate between
    two reads; with six it gets 64 bytes and stores the NUL past its buffer. *)
Theorem pipe_capacity r w ks :
  Forall (λ k, (1 ≤ k)%nat) ks →
  pipe_main 0 r w ks =
    if forallb (λ k, (k <=? 5)%nat) ks
    then Ok (0, [PutStr "pipefd[0]："; PutInt r; PutStr "\n"; PutStr "pipefd[1]："; PutInt w; PutStr "\n"] ++
      (ks ≫= λ k, [PutStr "child say to parent："; PutChars (mjoin (replicate k pipe_msg)); PutStr "\n"]))
    else Err OutOfBounds.
Proof.
  intros Hks. unfold pipe_main. cbn [Z.eqb negb].
  enough (G : ∀ buf, length buf = 64%nat → pipe_parent (pipe_reads [] ks) buf =
    if forallb (λ k, (k <=? 5)%nat) ks
    then Ok (ks ≫= λ k, [PutStr "child say to parent："; PutChars (mjoin (replicate k pipe_msg)); PutStr "\n"]) else Err OutOfBounds).
  { rewrite G by (by rewrite length_replicate). by destruct (forallb _ ks). }
  induction Hks as [|k ks Hk _ IH]; intros buf Lb; [done|]. cbn [pipe_reads forallb mbind list_bind app].
  destruct (pipe_copies k) as [Hn Hl]. set (t := mjoin (replicate k pipe_msg)) in *. cbn [pipe_parent].
  assert (Lt : length (take 64 t) = Nat.min 64 (12 * k)) by (rewrite length_take; lia).
  rewrite (proj2 (Z.eqb_neq (Z.of_nat (length (take 64 t))) 0)) by lia. rewrite overwrite_ok, bind_ok by lia.
  destruct (Nat.leb_spec k 5) as [H5|H5]; cbn [andb].
  - rewrite (firstn_all2 t), (skipn_all2 t) by lia. rewrite store_ok, bind_ok by (rewrite length_app, length_drop; lia).
    rewrite Nat2Z.id. replace (length t) with (length t + 0)%nat at 1 by lia. rewrite insert_app_r.
    destruct (drop (length t) buf) as [|x d] eqn:Ed; [apply (f_equal length) in Ed; rewrite length_drop in Ed; cbn in Ed; lia|].
    cbn [insert list_insert]. rewrite c_chars_app, bind_ok by done. rewrite IH.
    + by destruct (forallb _ ks).
    + rewrite length_insert, length_app. cbn [length]. apply (f_equal length) in Ed. rewrite length_drop in Ed. cbn [length] in Ed. lia.
  - assert (E : store (take 64 t ++ drop (length (take 64 t)) buf) (Z.of_nat (length (take 64 t))) 0 = Err OutOfBounds).
    { unfold store. rewrite length_app, length_drop, Lt, Lb. rewrite (proj2 (Z.ltb_ge _ _)) by lia. by rewrite andb_false_r. }
    by rewrite E.
Qed.

Lemma pipe_witness : pipe_main 0 3 4 [1; 6]%nat = Err OutOfBounds.
Proof. rewrite pipe_capacity by (repeat constructor). vm_compute. reflexivity. Defined.
