(* ===== verification/Numbers.v ===== *)
(** Programs on the representation of numbers: [src/cpp/double.c] takes bytes
    apart into bits and hexadecimal digits, [src/cpp/set_jump_exception.c]
    looks for overflow, [src/cpp/algorithm/get_root.c] computes roots. *)
From Stdlib Require Import SpecFloat.
From S2P Require Import Prelude CString Rsa Tetris.

(** ** double.c *)

(** [print_bin]: the bits of the byte [c], of type [char]; a negative value is
    shifted as gcc does. *)
Definition print_bin (c : Z) : list output :=
  (λ i, PutInt (Z.shiftr (Z.land (Z.shiftl c i) 128) 7)) <$> seqZ 0 8.

Definition hexcharToInt (c : Z) : Z :=
  if (48 <=? c) && (c <=? 57) then c - 48
  else if (65 <=? c) && (c <=? 70) then c - 65 + 10
  else if (97 <=? c) && (c <=? 102) then c - 97 + 10
  else 0.

(** [%02X] *)
Definition hex2 (c : Z) : list Z := hex_chars 65 2 c.

(** [hex2bin]: the array, and what is printed; [bin] has elements of type
    [unsigned char]. *)
Definition hex2bin (bin hex : list Z) : res (list Z * list output) :=
  n ← c_strlen hex;
  for_range 0 ((n + 1) / 2) (λ k '(bin, out),
    let i := 2 * k in
    a ← load hex i;
    b ← load hex (i + 1);
    let v := Z.lor (Z.shiftl (hexcharToInt a) 4) (hexcharToInt b) in
    bin ← store bin k (v mod 256);
    mret (bin, out ++ [PutStr "bin["; PutInt k; PutStr "]="; PutChars (hex2 (v mod 256)); PutStr "\n"])) (bin, []).

(** The bytes of a 64-bit word, least significant first. *)
Definition word_bytes (x : Z) : list Z := (λ i, Z.shiftr x (8 * i) mod 256) <$> seqZ 0 8.

(** [byte%d=], the bits and [%02X] of one byte. *)
Definition put_byte (i c : Z) : list output :=
  [PutStr "byte"; PutInt i; PutStr "="] ++ print_bin (wrap_i8 c) ++ [PutStr " 0X"; PutChars (hex2 c); PutStr "\n"].

(** [main]: [fmt] is [%f] of the double whose bytes, least significant first,
    are given. *)
Definition double_main (fmt : list Z → list Z) : res (list output) :=
  let x := 0x47BF716620000000 in
  let a := word_bytes x in
  out ← for_down 7 0 (λ i out, c ← load a i; mret (out ++ put_byte i c))
    [PutStr "unsigned long x="; PutChars (hex_digits 65 16 x); PutStr "\n"; PutStr "double a="; PutChars (fmt a); PutStr ", sizeof(a)="; PutInt 8; PutStr "\n"];
  let out := out ++ [PutStr "\n"; PutStr "unsigned char b = "; PutInt 255; PutStr ", 0X"; PutChars (hex_digits 65 2 255); PutStr ", 0B"] ++
    print_bin (wrap_i8 255) ++ [PutStr "\n"] in
  let y := codes "40E743CD1BF68000" in
  let out := out ++ [PutStr "literal hex str: char *y = "; PutChars y; PutStr ", strlen(y)="; PutInt 16; PutStr "\n"] in
  out ← for_range 0 16 (λ i out, c ← load y i; mret (out ++ [PutStr "byte"; PutInt i; PutStr "="; PutChars [c]; PutStr "\n"])) out;
  '(z, o) ← hex2bin (replicate 8 0) (y ++ [0]);
  n ← c_strlen z;
  let out := out ++ [PutStr "copcy hex str char *y to bin str char *z\n"] ++ o ++ [PutStr "strlen(z)="; PutInt n; PutStr "\n"; PutStr "bin char str: unsigned char *z="] ++
    ((λ c, PutChars (hex2 c)) <$> z) ++ [PutStr "\n"] in
  out ← for_range 0 8 (λ i out, c ← load z i; mret (out ++ put_byte i c)) out;
  let dz := reverse z in
  mret (out ++ [PutStr "double c="; PutChars (fmt z); PutStr "\n"; PutStr "bin char str in small end: unsigned char *dz=\n"] ++
    ((λ c, PutChars (hex2 c)) <$> reverse dz) ++ [PutStr "\ndouble value of *dz="; PutChars (fmt dz); PutStr "\n"]).

(** ** set_jump_exception.c *)

(** [check_overflow] on unsigned operands: [longjmp] comes back to [setjmp]
    with 1. [INT_MIN] is converted to unsigned for the comparison. *)
Definition check_overflow (a b : Z) : list output :=
  let result := wrap_u32 (a + b) in
  if (INT_MAX <? result) || (result <? wrap_u32 INT_MIN) then
    [PutStr "Overflow occurred, result = "; PutInt (wrap_i32 result); PutStr "\n"; PutStr "No overflow occurred.\n"]
  else [PutStr "Result: "; PutInt (wrap_i32 result); PutStr "\n"].

(** The calls of [main]; the limits and sizes are printed before. *)
Definition jump_main : list output := check_overflow (2 ^ 32 - 1) 1 ++ check_overflow (2 ^ 32 - 1) 1.

(** ** get_root.c *)

Definition fsub := SFsub 53 1024.
Definition fdiv := SFdiv 53 1024.

(** 0.000001 and its opposite. *)
Definition ACCURACY : spec_float := fnum false 4722366482869645 (-72).
Definition one : spec_float := int_to_double 1.
Definition two : spec_float := int_to_double 2.

Definition fpow (mid : spec_float) (pow : nat) : spec_float := Nat.iter pow (λ tmp, fmul tmp mid) one.

(** One turn of the bisection. *)
Definition root_step (n : spec_float) (pow : nat) (s : spec_float * spec_float) : res (spec_float * spec_float + spec_float) :=
  let '(low, high) := s in
  if SFleb low high then
    let mid := fdiv (fadd low high) two in
    let tmp := fpow mid pow in
    if SFleb (fsub tmp n) ACCURACY && SFleb (fmul ACCURACY (SFopp one)) (fsub tmp n) then mret (inr mid)
    else if SFltb n tmp then mret (inl (low, mid))
    else mret (inl (mid, high))
  else mret (inr (SFopp one)).

(** [get_root] *)
Definition get_root (fuel : nat) (n : spec_float) (pow : nat) : res spec_float :=
  iter fuel (root_step n pow) (if SFltb one n then (one, n) else (n, one)).

(** [main]: the roots of the numbers that [scanf] reads into [n], up to the end of
    the input. Where there is no number ([None]) [scanf] leaves [n] as it was and
    consumes nothing, so that every later turn is the same. *)
Fixpoint root_main (fuel : nat) (n : option spec_float) (ns : list (option spec_float)) : res (list spec_float) :=
  match ns with
  | [] => mret []
  | Some n :: ns => r ← get_root fuel n 12; l ← root_main fuel (Some n) ns; mret (r :: l)
  | None :: _ =>
      match n with
      | None => Err Uninitialised
      | Some n => _ ← get_root fuel n 12; Err OutOfFuel
      end
  end.
