(* ===== verification/NumbersSpec.v ===== *)
(** Round trips of bytes, the overflow check that always fires, and the
    bisection that need not end. *)
From Stdlib Require Import SpecFloat.
From S2P Require Import Prelude CString Rsa Tetris Numbers.

(** ** Bytes *)

(** The number that a list of bits denotes, most significant first. *)
Definition bits_number (l : list output) : Z := foldl (λ acc o, 2 * acc + match o with PutInt z => z | _ => 0 end) 0 l.

Lemma all_bytes (P : Z → Prop) : Forall P (seqZ 0 256) → ∀ c, 0 ≤ c < 256 → P c.
Proof. intros H c Hc. rewrite Forall_forall in H. apply H, elem_of_seqZ. lia. Qed.

Lemma hex2_back : ∀ c, 0 ≤ c < 256 →
  ∃ a b, hex2 c = [a; b] ∧ a ≠ 0 ∧ b ≠ 0 ∧ Z.lor (Z.shiftl (hexcharToInt a) 4) (hexcharToInt b) = c.
Proof.
  assert (H : ∀ c, 0 ≤ c < 256 → match hex2 c with
    | [a; b] => negb (a =? 0) && negb (b =? 0) && (Z.lor (Z.shiftl (hexcharToInt a) 4) (hexcharToInt b) =? c) | _ => false end = true).
  { apply all_bytes. apply (bool_decide_unpack _). vm_compute. done. }
  intros c Hc. specialize (H c Hc). destruct (hex2 c) as [|a [|b [|]]]; try done. apply andb_true_iff in H as [H Hv].
  apply andb_true_iff in H as [Ha Hb]. exists a, b. split; [done|]. apply negb_true_iff, Z.eqb_neq in Ha, Hb. apply Z.eqb_eq in Hv. done.
Qed.

Definition bytes (l : list Z) : Prop := Forall (λ c, 0 ≤ c < 256) l.

Lemma hex_text l : bytes l → nonul (l ≫= hex2) ∧ length (l ≫= hex2) = (2 * length l)%nat.
Proof.
  induction 1 as [|c l Hc _ [IH1 IH2]]; [split; [constructor|done]|]. cbn [mbind list_bind].
  destruct (hex2_back c Hc) as (a & b & -> & Ha & Hb & _). cbn [app length]. split; [by repeat constructor|]. unfold mbind in *. lia.
Qed.

(** The text of a byte in the middle. *)
Lemma hex_lookup l k c : bytes l → l !! k = Some c →
  ∃ a b r, (l ≫= hex2) ++ [0] = (take k l ≫= hex2) ++ a :: b :: r ∧ length (take k l ≫= hex2) = (2 * k)%nat ∧
    Z.lor (Z.shiftl (hexcharToInt a) 4) (hexcharToInt b) = c.
Proof.
  intros Hl Hk. pose proof (proj1 (Forall_lookup _ _) Hl _ _ Hk) as Hc. cbn in Hc. destruct (hex2_back c Hc) as (a & b & E & _ & _ & Hv).
  exists a, b, ((drop (S k) l ≫= hex2) ++ [0]). split; [|split; [|done]].
  - rewrite <- (take_drop_middle l k c Hk) at 1. rewrite bind_app. cbn [mbind list_bind]. rewrite E, <- !app_assoc. done.
  - pose proof (lookup_lt_Some _ _ _ Hk). destruct (hex_text (take k l)) as [_ ->]; [by apply Forall_take|]. rewrite length_take. lia.
Qed.

Lemma load_app_at {A} (u : list A) x r k : k = length u → load (u ++ x :: r) (Z.of_nat k) = Ok x.
Proof. intros ->. apply load_ok; [lia|]. by rewrite Nat2Z.id, list_lookup_middle. Qed.

Lemma hex2bin_spec l bin :
  bytes l → (length l ≤ length bin)%nat →
  ∃ out, hex2bin bin ((l ≫= hex2) ++ [0]) = Ok (l ++ drop (length l) bin, out).
Proof.
  intros Hl Hb. unfold hex2bin. destruct (hex_text l Hl) as [Hn HL]. rewrite c_strlen_app, bind_ok, HL by done.
  replace ((Z.of_nat (2 * length l) + 1) / 2) with (Z.of_nat (length l)) by (apply (Z.div_unique _ _ _ 1); lia).
  match goal with |- context [for_range _ _ ?b _] => set (body := b) end.
  destruct (for_range_inv (λ k '(b, _), 0 ≤ k ∧ b = take (Z.to_nat k) l ++ drop (Z.to_nat k) bin) body 0 (Z.of_nat (length l)) (bin, []))
    as ([b out] & -> & _ & ->).
  - lia.
  - done.
  - intros k [b out] Hk (_ & ->). unfold body. destruct (lookup_lt_Z l k ltac:(lia)) as [c Hc].
    destruct (hex_lookup l (Z.to_nat k) c Hl Hc) as (x & y & r & E & EL & Hv). rewrite E.
    assert (E1 : 2 * k = Z.of_nat (2 * Z.to_nat k)) by lia. rewrite E1, load_app_at, bind_ok by done.
    replace ((take (Z.to_nat k) l ≫= hex2) ++ x :: y :: r) with (((take (Z.to_nat k) l ≫= hex2) ++ [x]) ++ y :: r) by (by rewrite <- app_assoc).
    replace (Z.of_nat (2 * Z.to_nat k) + 1) with (Z.of_nat (2 * Z.to_nat k + 1)) by lia. rewrite load_app_at, bind_ok.
    2: { rewrite length_app, EL. done. }
    rewrite Hv. pose proof (proj1 (Forall_lookup _ _) Hl _ _ Hc) as Hcb. cbn in Hcb. rewrite (Z.mod_small c) by done.
    rewrite store_ok, bind_ok by (rewrite length_app, length_take, length_drop; lia). eexists. split; [reflexivity|]. split; [lia|].
    replace (Z.to_nat (k + 1)) with (S (Z.to_nat k)) by lia. rewrite (take_S_r _ _ c), <- app_assoc by done.
    assert (Lt : length (take (Z.to_nat k) l) = Z.to_nat k) by (rewrite length_take; lia).
    rewrite insert_app_r_alt, Lt, Nat.sub_diag by lia. destruct (lookup_lt_is_Some_2 bin (Z.to_nat k)) as [d Hd]; [lia|].
    rewrite (drop_S _ d) by done. done.
  - rewrite Nat2Z.id, firstn_all. by eexists.
Qed.

(** hex2bin turns the hexadecimal text of any bytes back into them, and the eight digits that
    print_bin prints are the binary digits of the byte. *)
Theorem bytes_roundtrip l bin :
  bytes l → (length l ≤ length bin)%nat →
  (∃ out, hex2bin bin ((l ≫= hex2) ++ [0]) = Ok (l ++ drop (length l) bin, out)) ∧
  Forall (λ c, bits_number (print_bin (wrap_i8 c)) = c ∧ length (print_bin (wrap_i8 c)) = 8%nat) l.
Proof.
  intros Hl Hb. split; [by apply hex2bin_spec|]. eapply Forall_impl; [exact Hl|].
  apply (all_bytes (λ c, bits_number (print_bin (wrap_i8 c)) = c ∧ length (print_bin (wrap_i8 c)) = 8%nat)).
  apply (bool_decide_unpack _). vm_compute. done.
Qed.

Lemma bytes_witness :
  ∃ out, hex2bin [0; 0; 0] (codes "40E7" ++ [0]) = Ok ([64; 231; 0], out).
Proof.
  refine (proj1 (bytes_roundtrip [64; 231] [0; 0; 0] _ _)).
  - repeat constructor; done.
  - cbn. lia.
Defined.

(** ** Overflow *)

(** For all unsigned operands check_overflow reports an overflow, and then, after longjmp, that
    there was none: a sum is always above INT_MAX or below INT_MIN converted to unsigned. *)
Theorem overflow_always a b :
  ∃ r, check_overflow a b =
    [PutStr "Overflow occurred, result = "; PutInt r; PutStr "\n"; PutStr "No overflow occurred.\n"].
Proof.
  unfold check_overflow. change (wrap_u32 INT_MIN) with (2 ^ 31). set (result := wrap_u32 (a + b)).
  assert (E : (INT_MAX <? result) || (result <? 2 ^ 31) = true).
  { apply orb_true_iff. rewrite !Z.ltb_lt. unfold INT_MAX. destruct (decide (result < 2 ^ 31)); [by right|left; lia]. }
  rewrite E. by eexists.
Qed.

(** ** Roots *)

(** [k] turns that all go on. *)
Fixpoint turns (k : nat) (n : spec_float) (pow : nat) (s : spec_float * spec_float) : option (spec_float * spec_float) :=
  match k with
  | O => Some s
  | S k => match root_step n pow s with Ok (inl s') => turns k n pow s' | _ => None end
  end.

Lemma turns_loop n pow fuel : ∀ k s s', turns k n pow s = Some s' → root_step n pow s' = Ok (inl s') → iter fuel (root_step n pow) s = Err OutOfFuel.
Proof.
  induction fuel as [|fuel IH]; intros k s s' Hk Hs; [done|]. cbn [iter]. destruct k as [|k].
  - injection Hk as ->. rewrite Hs, bind_ok. by apply (IH 0%nat s' s').
  - cbn [turns] in Hk. destruct (root_step n pow s) as [[s1|]|]; try done. rewrite bind_ok. by apply (IH k s1 s').
Qed.

(** What is returned passed the test, or is -1. *)
Definition root_test (n : spec_float) (pow : nat) (r : spec_float) : bool :=
  SFleb (fsub (fpow r pow) n) ACCURACY && SFleb (fmul ACCURACY (SFopp one)) (fsub (fpow r pow) n).

Lemma root_sound fuel n pow r : get_root fuel n pow = Ok r → root_test n pow r = true ∨ r = SFopp one.
Proof.
  unfold get_root. generalize (if SFltb one n then (one, n) else (n, one)). induction fuel as [|fuel IH]; intros [low high]; [done|].
  cbn [iter]. unfold root_step at 2. destruct (SFleb low high); [|rewrite bind_ok; intros [= <-]; by right].
  destruct (_ && _) eqn:E; [rewrite bind_ok; intros [= <-]; by left|]. destruct (SFltb n _); rewrite bind_ok; apply IH.
Qed.

(** Where the bisection of the twelfth root of 10^10 gets stuck. *)
Definition ten10 : spec_float := int_to_double (10 ^ 10).
Definition stuck : spec_float * spec_float := default (one, one) (turns 100 ten10 12 (one, ten10)).

(** C18: What get_root returns is within the accuracy in double arithmetic, or -1; the twelfth
    roots of 0 to 99 are found in at most 60 turns, but for 10^10 the bisection stops moving
    between two neighbouring doubles and never ends. *)
Theorem get_root_result :
  (∀ fuel n pow r, get_root fuel n pow = Ok r → root_test n pow r = true ∨ r = SFopp one) ∧
  Forall (λ k, ∃ r, get_root 60 (int_to_double k) 12 = Ok r ∧ root_test (int_to_double k) 12 r = true) (seqZ 0 100) ∧
  (∀ fuel, get_root fuel ten10 12 = Err OutOfFuel) ∧
  (∀ fuel n ns, root_main fuel n (Some ten10 :: ns) = Err OutOfFuel).
Proof.
  assert (E : ∀ fuel, get_root fuel ten10 12 = Err OutOfFuel).
  { intros fuel. apply (turns_loop ten10 12 fuel 100 _ stuck); vm_compute; reflexivity. }
  split; [exact root_sound|]. split; [|split; [exact E|]].
  - assert (H : Forall (λ k, match get_root 60 (int_to_double k) 12 with Ok r => root_test (int_to_double k) 12 r | _ => false end = true) (seqZ 0 100)).
    { apply (bool_decide_unpack _). vm_compute. done. }
    eapply Forall_impl; [exact H|]. intros k Hk. cbv beta in Hk. destruct (get_root 60 (int_to_double k) 12) as [r|]; [|done]. by exists r.
  - intros fuel n ns. cbn [root_main]. by rewrite E.
Qed.
