(* ===== verification/GetData.v ===== *)
(** [src/cpp/http.c]: a program that sends one request and polls for the answer
    with [select].

    The network is an argument: the results of [socket], [inet_pton] and
    [connect], the answer of [write], whether the descriptor is readable at each
    poll, and what [read] delivers. *)
From S2P Require Import Prelude CString Posix TcpConcurrent Sockets.

(** ** The request *)

(** [str1]; [str] is the block of 128 bytes that malloc returned. *)
Definition get_request (str : list Z) : res (list Z) :=
  str2 ← memset (replicate 4096 0) 0 4096;
  str2 ← strcat str2 (lit "a=1&b=2");
  len ← c_strlen str2;
  str ← sprintf str (dec_chars len);
  str1 ← memset (replicate 4096 0) 0 4096;
  str1 ← strcat str1 (codes "GET /data HTTP/1.1" ++ [10; 0]);
  str1 ← strcat str1 (codes "Host: www.test.cn" ++ [10; 0]);
  str1 ← strcat str1 (codes "Content-Type: application/x-www-form-urlencoded" ++ [10; 0]);
  str1 ← strcat str1 (lit "Content-Length: ");
  str1 ← strcat str1 str;
  str1 ← strcat str1 [10; 10; 0];
  str1 ← strcat str1 str2;
  strcat str1 [13; 10; 13; 10; 0].

(** ** The answer *)

(** [select] with a timeout of zero on a set that holds the descriptor or is
    empty: how many are ready, and the set that it leaves. It is ready with 1,
    not ready with 0, and fails with -1, the set being left alone. *)
Definition select (status : Z) (set : bool) : Z * bool :=
  if status <? 0 then (-1, set) else if set && (0 <? status) then (1, true) else (0, false).

(** A turn of [while(1)]: the number of polls so far and the set. *)
Definition poll_turn (status : nat → Z) (r : rret) (out : list output) (s : nat * bool) : res (nat * bool + Z * list output) :=
  let '(k, t_set1) := s in
  let '(h, t_set1) := select (status k) t_set1 in
  if h =? 0 then mret (inl (S k, t_set1))
  else if h <? 0 then mret (inr (-1, out ++ [PutStr "在读取数据报文时SELECT检测到异常，该异常导致线程终止！\n"]))
  else
    buf ← memset (replicate 4096 0) 0 4096;
    match r with
    | RBytes [] => mret (inr (-1, out ++ [PutStr "读取数据报文时发现远端关闭，该线程终止！\n"]))
    | RBytes l => buf ← overwrite buf l; s ← c_chars buf; mret (inr (0, out ++ [PutChars s; PutStr "\n"]))
    | RErr _ => s ← c_chars buf; mret (inr (0, out ++ [PutChars s; PutStr "\n"]))
    end.

(** [get_data]: what was sent, the value returned and the output; [fuel] bounds
    the polls.  The message of a failed [write] gives [errno]. *)
Definition get_data (fuel : nat) (sockfd pton connected : Z) (str : list Z) (wr : wret) (status : nat → Z) (r : rret)
  : res (run (list Z * (Z * list output))) :=
  if sockfd <? 0 then mret (Exit "create socket error!\n" 0)
  else if pton <=? 0 then mret (Exit "inet pton error!\n" 0)
  else if connected <? 0 then mret (Exit "connect error!\n" 0)
  else
    str1 ← get_request str;
    text ← c_chars str1;
    let out := [PutStr "connect success\n"; PutChars text; PutStr "\n"] in
    match wr with
    | WErr _ => mret (Exit "snd fail, err_code = %d，err_msg = '%s'\n" 0)
    | WCount n =>
        res ← iter fuel (poll_turn status r (out ++ [PutStr "snd success "; PutInt n; PutStr " byte！\n\n"])) (O, true);
        mret (Ret (text, res))
    end.

(** ** What it does *)

(** The request that is meant. *)
Definition the_request : list Z :=
  codes "GET /data HTTP/1.1" ++ [10] ++ codes "Host: www.test.cn" ++ [10] ++
  codes "Content-Type: application/x-www-form-urlencoded" ++ [10] ++ codes "Content-Length: 7" ++ [10; 10] ++
  codes "a=1&b=2" ++ [13; 10; 13; 10].

Lemma put_chars_text dst l : (length l < length dst)%nat → ∃ r, sprintf dst l = Ok (l ++ 0 :: r).
Proof.
  intros H. unfold sprintf, put_chars. rewrite (proj2 (Z.ltb_lt _ _)) by lia. eexists. cbn. reflexivity.
Qed.

Lemma strcat_text cap l s r :
  nonul s → nonul l → (length l + length s < cap)%nat → strcat (zbuf cap l) (s ++ 0 :: r) = Ok (zbuf cap (l ++ s)).
Proof.
  intros Hs Hl H. unfold strcat. rewrite c_chars_app, bind_ok, append_zbuf by (done || lia).
  by rewrite (proj2 (Nat.ltb_lt _ _)).
Qed.

Lemma get_request_ok str : length str = 128%nat → get_request str = Ok (zbuf 4096 the_request).
Proof.
  intros HL. unfold get_request. destruct (put_chars_text str (dec_chars 7)) as [r E]; [cbn; lia|].
  assert (E1 : (str2 ← memset (replicate 4096 0) 0 4096; strcat str2 (lit "a=1&b=2")) = Ok (zbuf 4096 (codes "a=1&b=2"))) by (vm_compute; reflexivity).
  rewrite <- bind_assoc, E1, bind_ok, c_strlen_zbuf, bind_ok by (cbn; lia || by repeat constructor).
  change (Z.of_nat (length (codes "a=1&b=2"))) with 7. rewrite E, bind_ok.
  vm_compute. reflexivity.
Qed.

(** Once the descriptor has left the set it never comes back. *)
Lemma poll_empty status r out fuel k :
  (∀ k, 0 ≤ status k) → iter fuel (poll_turn status r out) (k, false) = Err OutOfFuel.
Proof.
  intros Hs. apply (iter_diverges (λ s : nat * bool, s.2 = false)); [done|]. intros [k' b] Hb. cbn in Hb. subst b.
  unfold poll_turn, select. rewrite (proj2 (Z.ltb_ge (status k') 0)) by apply Hs. cbn [andb]. by eexists.
Qed.

Lemma before_nul_split l t : nonul (before_nul l) ∧ ∃ t', l ++ 0 :: t = before_nul l ++ 0 :: t'.
Proof.
  induction l as [|c l [IH1 [t' IH2]]]; cbn; [split; [constructor|by exists t]|]. destruct (Z.eqb_spec c 0) as [->|Hc].
  - split; [constructor|]. by exists (l ++ 0 :: t).
  - split; [by constructor|]. exists t'. cbn. by f_equal.
Qed.

Lemma answer_text l : (length l < 4096)%nat →
  (buf ← overwrite (zbuf 4096 []) l; c_chars buf) = Ok (before_nul l).
Proof.
  intros Hl. unfold overwrite. rewrite (proj2 (Nat.leb_le _ _)), bind_ok by (rewrite length_zbuf; cbn; lia).
  unfold zbuf. cbn [app]. rewrite drop_replicate. replace (4096 - length (@nil Z) - length l)%nat with (S (4095 - length l)) by (cbn; lia).
  cbn [replicate]. destruct (before_nul_split l (replicate (4095 - length l) 0)) as (Hn & t & ->). by apply c_chars_app.
Qed.

(** What the connected program sends is the request that is meant; an answer that is there at
    the first poll is printed up to its first NUL, a closed connection or an error ends with
    -1; but when nothing has arrived at the first poll the program polls an empty set from
    then on and never ends, whatever arrives. *)
Theorem get_data_polls sockfd pton connected str n status r :
  0 ≤ sockfd → 0 < pton → 0 ≤ connected → length str = 128%nat →
  let out := [PutStr "connect success\n"; PutChars the_request; PutStr "\n"; PutStr "snd success "; PutInt n; PutStr " byte！\n\n"] in
  let run fuel := get_data fuel sockfd pton connected str (WCount n) status r in
  (∀ f l, 0 < status O → r = RBytes l → l ≠ [] → (length l < 4096)%nat →
     run (S f) = Ok (Ret (the_request, (0, out ++ [PutChars (before_nul l); PutStr "\n"])))) ∧
  (∀ f, status O < 0 ∨ 0 < status O ∧ r = RBytes [] → ∃ o, run (S f) = Ok (Ret (the_request, (-1, o)))) ∧
  (status O = 0 → (∀ k, 0 ≤ status k) → ∀ f, run f = Err OutOfFuel).
Proof.
  intros Hs Hp Hc HL out run0.
  assert (E : ∀ f, run0 f = (res ← iter f (poll_turn status r out) (O, true); mret (Ret (the_request, res)))).
  { intros f. unfold run0, get_data. rewrite (proj2 (Z.ltb_ge _ _)), (proj2 (Z.leb_gt _ _)), (proj2 (Z.ltb_ge connected 0)) by done.
    rewrite get_request_ok, bind_ok by done. rewrite c_chars_zbuf, bind_ok; [done| |]; [repeat constructor; done|]. apply Nat.ltb_lt. vm_compute. done. }
  split; [|split].
  - intros f l H0 -> Hl Hlen. rewrite E, (iter_exit _ _ _ (0, out ++ [PutChars (before_nul l); PutStr "\n"])), bind_ok; [done|].
    unfold poll_turn, select. rewrite (proj2 (Z.ltb_ge (status O) 0)), (proj2 (Z.ltb_lt 0 (status O))) by lia.
    cbn [andb Z.eqb Z.ltb Z.compare]. rewrite (memset_zbuf _ 4096), bind_ok by apply length_replicate.
    destruct l as [|c l]; [done|]. pose proof (answer_text (c :: l) Hlen) as Ha.
    destruct (overwrite (zbuf 4096 []) (c :: l)) as [b|]; [|done]. rewrite bind_ok in Ha. by rewrite bind_ok, Ha, bind_ok.
  - intros f H0. assert (∃ o, poll_turn status r out (O, true) = Ok (inr (-1, o))) as [o Eo].
    { unfold poll_turn, select. destruct H0 as [H0|[H0 ->]].
      - rewrite (proj2 (Z.ltb_lt (status O) 0)) by done. cbn. by eexists.
      - rewrite (proj2 (Z.ltb_ge (status O) 0)), (proj2 (Z.ltb_lt 0 (status O))) by lia. cbn [andb Z.eqb Z.ltb Z.compare].
        rewrite (memset_zbuf _ 4096), bind_ok by apply length_replicate. by eexists. }
    exists o. by rewrite E, (iter_exit _ _ _ _ Eo), bind_ok.
  - intros H0 Hk f. rewrite E. destruct f as [|f]; [done|]. cbn [iter].
    assert (poll_turn status r out (O, true) = Ok (inl (1%nat, false))) as -> by (unfold poll_turn, select; by rewrite H0).
    by rewrite bind_ok, poll_empty.
Qed.

Lemma get_data_witness :
  (∃ o, get_data 1 3 1 0 (replicate 128 7) (WCount 130) (λ _, 1) (RBytes (codes "hello")) = Ok (Ret (the_request, (0, o)))) ∧
  ∀ f, get_data f 3 1 0 (replicate 128 7) (WCount 130) (λ k, if (k =? 0)%nat then 0 else 1) (RBytes (codes "hello")) = Err OutOfFuel.
Proof.
  split.
  - destruct (get_data_polls 3 1 0 (replicate 128 7) 130 (λ _, 1) (RBytes (codes "hello"))) as (H & _ & _); try (reflexivity || lia).
    eexists. apply (H 0%nat (codes "hello")); [lia|reflexivity|discriminate|cbn; lia].
  - apply (get_data_polls 3 1 0 (replicate 128 7) 130 (λ k, if (k =? 0)%nat then 0 else 1) (RBytes (codes "hello")));
      try (reflexivity || lia). intros [|k]; cbn; lia.
Defined.
