(* ===== verification/Services.v ===== *)
(** Clients of services: [src/cpp/mqtt/publish.c] and [subscribe.c],
    [redis_test.c] and [odbc/kwdb_demo.c].

    The libraries (Paho, hiredis, unixODBC) are parameters: the results of their
    calls are arguments, and what a program asks of them is part of its trace. *)
From S2P Require Import Prelude CString Posix.

(** ** mqtt *)

(** What a program prints, and the calls whose order matters. *)
Inductive mcall :=
| MPrint (o : list output)
| MSubscribe | MPublish (payload : list Z) | MWait
| MFree (token : Z)               (* a message and its topic *)
| MDisconnect | MDestroy.

(** A message as it arrives; [mq_id] names the two blocks. *)
Record mqmsg := mkMq { mq_topic : list Z; mq_payload : list Z; mq_payloadlen : Z; mq_id : Z }.

(** [delivered]: also the new value of [deliveredtoken]. *)
Definition delivered (dt : Z) : list mcall * Z :=
  ([MPrint [PutStr "message with token value "; PutInt dt; PutStr " delivery confirmed\n"]], dt).

(** [msgarrvd]: the bytes of the payload one by one. *)
Definition msgarrvd (m : mqmsg) : res (list mcall * Z) :=
  shown ← for_range 0 (mq_payloadlen m) (λ i o, c ← load (mq_payload m) i; mret (o ++ [PutChars [c]])) [];
  mret ([MPrint ([PutStr "message arrived\n"; PutStr "     topic: "; PutChars (mq_topic m); PutStr "\n"; PutStr "   message: "] ++
    shown ++ [PutStr "\n"]); MFree (mq_id m)], 1).

Definition connlost (cause : list Z) : list mcall :=
  [MPrint [PutStr "\nConnection lost\n"; PutStr "     cause: "; PutChars cause; PutStr "\n"]].

(** What happens while [main] waits for keys: a key ([getchar] returns -1 at the
    end of the input), or a callback of the library. *)
Inductive mevent := MKey (ch : Z) | MArrived (m : mqmsg) | MDelivered (dt : Z) | MLost (cause : list Z).

(** [do ch = getchar(); while (ch != 'Q' && ch != 'q')], with the callbacks of
    the library's thread between the keys; [token] is [deliveredtoken]. *)
Fixpoint wait_key (evs : list mevent) (token : Z) : res (list mcall * Z) :=
  match evs with
  | [] => Err OutOfFuel
  | MKey ch :: evs => if negb (ch =? 81) && negb (ch =? 113) then wait_key evs token else mret ([], token)
  | MArrived m :: evs => '(t, _) ← msgarrvd m; '(ts, token) ← wait_key evs token; mret (t ++ ts, token)
  | MDelivered dt :: evs => let '(t, token) := delivered dt in '(ts, token) ← wait_key evs token; mret (t ++ ts, token)
  | MLost cause :: evs => '(ts, token) ← wait_key evs token; mret (connlost cause ++ ts, token)
  end.

(** [main] of subscribe.c: the trace and what it returns. *)
Definition subscribe_main (connected : Z) (evs : list mevent) : res (list mcall * Z) :=
  if negb (connected =? 0) then
    mret ([MPrint [PutStr "Failed to connect, return code "; PutInt connected; PutStr "\n"]], 1)
  else
    '(ts, _) ← wait_key evs 0;
    mret ([MPrint [PutStr "Subscribing to topic MQTT Examples\nfor client ExampleClientSub using QoS"; PutInt 1;
        PutStr "\n\nPress Q<Enter> to quit\n\n"]; MSubscribe] ++ ts ++ [MDisconnect; MDestroy], connected).

(** [main] of publish.c; the result of [MQTTClient_publishMessage] is not looked
    at, [token] is what it left in its argument and [completed] what
    [MQTTClient_waitForCompletion] returned. *)
Definition publish_main (connected token completed : Z) : list mcall * Z :=
  if negb (connected =? 0) then
    ([MPrint [PutStr "failed to connect, return code "; PutInt connected; PutStr "\n"]], 1)
  else
    ([MPublish (codes "Hello World!");
      MPrint [PutStr "waiting for up to ["; PutInt (Z.quot 10000 1000); PutStr "]s for message publication of [Hello World!] on topic [MQTT Examples] for client with ClientID [ExampleClientPub]\n"];
      MWait; MPrint [PutStr "message with delivery token "; PutInt token; PutStr " delivered\n"]; MDisconnect; MDestroy], completed).

(** ** redis_test.c *)

(** [redisConnect]: NULL, a context with an error, or a connected one. *)
Inductive rconn := RNull | RFailed (errstr : list Z) | RConnected.

(** A reply: whether its type is an error, and [str], which is NULL for arrays. *)
Record reply := mkReply { is_error : bool; reply_str : option (list Z) }.

Inductive rcall := RPrint (o : list output) | RCommand (format : string) | RFreeReply | RFreeContext.

(** [printf] of [reply->str]. *)
Definition print_str (before : string) (r : reply) : res rcall :=
  match reply_str r with
  | None => Err NullPointer
  | Some s => mret (RPrint [PutStr before; PutChars s; PutStr "\n"])
  end.

(** [main]: [auth] and [keys] are the replies of the two commands, if any.  A
    command on a NULL context faults. *)
Definition redis_main (c : rconn) (auth keys : option reply) : res (list rcall * Z) :=
  match c with
  | RFailed e => mret ([RPrint [PutStr "err: "; PutChars e; PutStr "\n"]], -1)
  | RNull => Err NullPointer
  | RConnected =>
      match auth with
      | None => Err NullPointer
      | Some r =>
          if is_error r then
            p ← print_str "auth_failed, cause: " r;
            mret ([RCommand "AUTH %s"; p; RFreeReply; RFreeContext], -1)
          else
            match keys with
            | None => Err NullPointer
            | Some k =>
                p ← print_str "cmd result " k;
                mret ([RCommand "AUTH %s"; RFreeReply;
                  RPrint [PutStr "connected to "; PutStr "127.0.0.1"; PutStr ":"; PutInt 6379; PutStr ", auth "; PutStr "your_psword"; PutStr "\n"];
                  RCommand "keys *"; p; RFreeReply; RFreeContext], 0)
            end
      end
  end.

(** ** kwdb_demo.c *)

Inductive handle := HEnv | HDbc | HStmt3 | HStmt4 | HStmt9.

#[export] Instance handle_eq_dec : EqDecision handle.
Proof. solve_decision. Defined.

Inductive ocall :=
| OAlloc (h : handle) | OFree (h : handle) | ODisconnect
| OExec (h : handle) (sql : string)
| OPrint (o : list output).

Definition SQL_SUCCESS : Z := 0.
Definition SQL_NO_DATA : Z := 100.

Definition create3 : string := "CREATE TABLE if not exists b(a varchar); ".
Definition query4 : string := "INSERT INTO b VALUES ('中文读取'); ".
Definition query9 : string := "select * from b;".

(** [while ((ret = SQLFetch(hStmt9)) == SQL_SUCCESS)]: each call's result and the
    string that it left in [menuID]. *)
Fixpoint fetch_loop (fetches : list (Z * list Z)) (row : Z) : res (list ocall * Z) :=
  match fetches with
  | [] => Err OutOfFuel
  | (ret, menuID) :: fetches =>
      if ret =? SQL_SUCCESS then
        row' ← chk_int (row + 1);
        '(t, ret) ← fetch_loop fetches row';
        mret (OPrint [PutStr "row "; PutInt row; PutStr ", column a: "; PutChars menuID; PutStr "\n"] :: t, ret)
      else mret ([], ret)
  end.

(** A statement: its handle is allocated and the text executed. *)
Definition exec_stmt (h : handle) (sql : string) (ret : Z) (next : res (list ocall * Z)) : res (list ocall * Z) :=
  if negb (ret =? SQL_SUCCESS) then
    mret ([OAlloc h; OExec h sql; OPrint [PutStr "execute failed, "; PutStr sql; PutStr "\n"]], -1)
  else
    '(t, v) ← next;
    mret ([OAlloc h; OExec h sql; OPrint [PutStr "execute success, "; PutStr sql; PutStr "\n"]] ++ t, v).

(** [main]: the results of [SQLConnect] and of the three statements. *)
Definition kwdb_main (ret ret3 ret4 ret9 : Z) (fetches : list (Z * list Z)) : res (list ocall * Z) :=
  '(t, v) ←
    (if negb (ret =? SQL_SUCCESS) then
      mret ([OPrint [PutStr "Failed to connect the database, error code "; PutInt ret; PutStr "\n\n"]], -1)
    else
      '(t, v) ← exec_stmt HStmt3 create3 ret3 (exec_stmt HStmt4 query4 ret4 (exec_stmt HStmt9 query9 ret9 (
        '(rows, ret) ← fetch_loop fetches 0;
        mret (rows ++ [OPrint [PutStr (if ret =? SQL_NO_DATA then "No more data\n" else "Failed to fetch data\n")];
          OFree HStmt4; OFree HStmt9; ODisconnect; OFree HDbc; OFree HEnv], 0))));
      mret (OPrint [PutStr "Connected to the database\n\n"] :: t, v));
  mret ([OAlloc HEnv; OAlloc HDbc] ++ t, v).
