(* ===== verification/ServicesSpec.v ===== *)
(** The clients of services: what the subscriber shows, what the redis client
    does with its replies, and which handles of the database are released. *)
From S2P Require Import Prelude CString Posix Services.

(** ** mqtt *)

Definition is_quit_key (e : mevent) : bool := match e with MKey ch => (ch =? 81) || (ch =? 113) | _ => false end.

(** What a callback leaves in the trace. *)
Definition shown (e : mevent) : list mcall :=
  match e with
  | MKey _ => []
  | MArrived m =>
      [MPrint ([PutStr "message arrived\n"; PutStr "     topic: "; PutChars (mq_topic m); PutStr "\n"; PutStr "   message: "] ++
         ((λ c, PutChars [c]) <$> mq_payload m) ++ [PutStr "\n"]); MFree (mq_id m)]
  | MDelivered dt => (delivered dt).1
  | MLost cause => connlost cause
  end.

Definition whole (e : mevent) : Prop :=
  match e with MArrived m => mq_payloadlen m = Z.of_nat (length (mq_payload m)) | _ => True end.

Lemma msgarrvd_spec m : whole (MArrived m) → msgarrvd m = Ok (shown (MArrived m), 1).
Proof.
  intros Hm. cbn in Hm. unfold msgarrvd. rewrite Hm. cbn [shown].
  destruct (for_range_inv (λ i o, 0 ≤ i ∧ o = (λ c, PutChars [c]) <$> take (Z.to_nat i) (mq_payload m))
    (λ i o, c ← load (mq_payload m) i; mret (o ++ [PutChars [c]])) 0 (Z.of_nat (length (mq_payload m))) []) as (o & -> & _ & ->).
  - lia.
  - done.
  - intros i o Hi [_ ->]. destruct (lookup_lt_Z (mq_payload m) i ltac:(lia)) as [c Hc].
    rewrite (load_ok _ i c), bind_ok by (done || lia). eexists. split; [reflexivity|]. split; [lia|].
    replace (Z.to_nat (i + 1)) with (S (Z.to_nat i)) by lia. by rewrite (take_S_r _ _ c), fmap_app.
  - by rewrite bind_ok, Nat2Z.id, firstn_all.
Qed.

Lemma wait_key_spec pre ch post : ∀ token,
  Forall (λ e, is_quit_key e = false) pre → Forall whole pre → is_quit_key (MKey ch) = true →
  ∃ t', wait_key (pre ++ MKey ch :: post) token = Ok (pre ≫= shown, t').
Proof.
  intros token Hp Hw Hq. revert token. induction Hp as [|e pre He _ IH]; intros token; cbn [app wait_key mbind list_bind].
  - cbn in Hq. exists token. by rewrite <- negb_orb, Hq.
  - apply Forall_cons in Hw as [He' Hw]. specialize (IH Hw). destruct e as [c|m|dt|cause].
    + cbn in He. rewrite <- negb_orb, He. cbn [negb shown app]. apply IH.
    + rewrite msgarrvd_spec, bind_ok by done. destruct (IH token) as [t' ->]. rewrite bind_ok. by exists t'.
    + cbn [delivered]. destruct (IH dt) as [t' ->]. rewrite bind_ok. by exists t'.
    + destruct (IH token) as [t' ->]. rewrite bind_ok. by exists t'.
Qed.

Lemma wait_key_waits evs : ∀ token, Forall (λ e, is_quit_key e = false) evs → Forall whole evs → wait_key evs token = Err OutOfFuel.
Proof.
  intros token Hp. revert token. induction Hp as [|e evs He _ IH]; intros token Hw; [done|]. cbn [wait_key].
  apply Forall_cons in Hw as [He' Hw]. destruct e as [c|m|dt|cause].
  - cbn in He. rewrite <- negb_orb, He. by apply IH.
  - by rewrite msgarrvd_spec, bind_ok, IH.
  - cbn [delivered]. by rewrite IH.
  - by rewrite IH.
Qed.

(** A connected subscriber shows every message that arrives before the first Q or q, byte by
    byte and in order, frees it once, and then disconnects and destroys the client; without
    such a key it never ends, also when the input has ended. *)
Theorem subscriber_session evs :
  Forall whole evs →
  (∀ pre ch post, evs = pre ++ MKey ch :: post → Forall (λ e, is_quit_key e = false) pre → is_quit_key (MKey ch) = true →
     ∃ banner, subscribe_main 0 evs = Ok (MPrint banner :: MSubscribe :: (pre ≫= shown) ++ [MDisconnect; MDestroy], 0)) ∧
  (Forall (λ e, is_quit_key e = false) evs → ∀ n, subscribe_main 0 (evs ++ replicate n (MKey (-1))) = Err OutOfFuel).
Proof.
  intros Hw. split.
  - intros pre ch post -> Hp Hq. apply Forall_app in Hw as [Hw _]. unfold subscribe_main. cbn [Z.eqb negb].
    destruct (wait_key_spec pre ch post 0 Hp Hw Hq) as [t ->]. rewrite bind_ok. by eexists.
  - intros Hp n. unfold subscribe_main. cbn [Z.eqb negb]. rewrite wait_key_waits; [done|..]; apply Forall_app; (split; [done|]); by apply Forall_replicate.
Qed.

Lemma subscriber_witness :
  ∃ banner, subscribe_main 0 [MArrived (mkMq (codes "t") (codes "hi") 2 7); MKey 120; MKey 113] =
    Ok (MPrint banner :: MSubscribe :: [MPrint [PutStr "message arrived\n"; PutStr "     topic: "; PutChars (codes "t"); PutStr "\n";
      PutStr "   message: "; PutChars [104]; PutChars [105]; PutStr "\n"]; MFree 7] ++ [MDisconnect; MDestroy], 0).
Proof.
  apply (proj1 (subscriber_session [MArrived (mkMq (codes "t") (codes "hi") 2 7); MKey 120; MKey 113] ltac:(repeat constructor))
    [MArrived (mkMq (codes "t") (codes "hi") 2 7); MKey 120] 113 []); repeat constructor.
Defined.

(** ** redis *)

(** The client ends in order only when the connection fails, when AUTH is refused with a text,
    or when the answer of the second command has a text; otherwise it reads through NULL. *)
Theorem redis_outcomes c auth keys :
  match redis_main c auth keys with
  | Ok (t, v) => (v = 0 → c = RConnected ∧ ∃ k s, keys = Some k ∧ reply_str k = Some s) ∧
      (c = RConnected → ∃ u, t = u ++ [RFreeReply; RFreeContext])
  | Err e => e = NullPointer ∧ (c = RNull ∨ c = RConnected ∧
      (auth = None ∨ ∃ a, auth = Some a ∧
        (if is_error a then reply_str a = None else keys = None ∨ ∃ k, keys = Some k ∧ reply_str k = None)))
  end.
Proof.
  destruct c as [|e|]; cbn; [by auto|split; [lia|done]|]. destruct auth as [[er s]|]; cbn; [|by auto].
  destruct er; cbn.
  - unfold print_str. cbn. destruct s as [s|]; cbn.
    + split; [lia|]. intros _. by eexists [_; _].
    + split; [done|]. right. split; [done|]. right. by eexists.
  - destruct keys as [[ke ks]|]; cbn; unfold print_str; cbn; [destruct ks as [ks|]; cbn|].
    + split; [intros _; by eauto|]. intros _. by eexists [_; _; _; _; _].
    + split; [done|]. right. split; [done|]. right. eexists. split; [done|]. right. by eexists.
    + split; [done|]. right. split; [done|]. right. eexists. split; [done|]. by left.
Qed.

(** ** odbc *)

Definition allocs (t : list ocall) : list handle := omap (λ c, match c with OAlloc h => Some h | _ => None end) t.
Definition frees (t : list ocall) : list handle := omap (λ c, match c with OFree h => Some h | _ => None end) t.
Definition disconnects (t : list ocall) : bool := existsb (λ c, match c with ODisconnect => true | _ => false end) t.

Definition row_line (i : nat) (v : list Z) : ocall :=
  OPrint [PutStr "row "; PutInt (Z.of_nat i); PutStr ", column a: "; PutChars v; PutStr "\n"].

Lemma fetch_loop_spec vs ret rest : ∀ k,
  ret ≠ SQL_SUCCESS → Z.of_nat (k + length vs) ≤ INT_MAX →
  fetch_loop (((λ v, (SQL_SUCCESS, v)) <$> vs) ++ (ret, []) :: rest) (Z.of_nat k) = Ok (zip_with row_line (seq k (length vs)) vs, ret).
Proof.
  intros k Hr. revert k. induction vs as [|v vs IH]; intros k Hk; cbn [fmap list_fmap app fetch_loop length seq zip_with].
  - by rewrite (proj2 (Z.eqb_neq _ _)).
  - cbn [length] in Hk. rewrite Z.eqb_refl, chk_int_ok, bind_ok by (unfold INT_MIN; lia).
    replace (Z.of_nat k + 1) with (Z.of_nat (S k)) by lia. rewrite IH, bind_ok by lia. done.
Qed.

Lemma omap_rows {A} (f : ocall → option A) k vs :
  (∀ o, f (OPrint o) = None) → omap f (zip_with row_line k vs) = [].
Proof. intros Hf. revert vs. induction k as [|i k IH]; intros [|v vs]; cbn; [done..|]. unfold row_line. by rewrite Hf. Qed.

Lemma no_disconnect k vs : disconnects (zip_with row_line k vs) = false.
Proof. revert vs. induction k as [|i k IH]; intros [|v vs]; cbn; auto. Qed.

(** When every statement succeeds the rows are printed once each and numbered in order until the
    fetch that does not succeed, and every handle but that of the first statement is freed
    once; when the connection or a statement fails nothing that was allocated is freed and
    the connection is not closed. *)
Theorem kwdb_handles ret ret3 ret4 ret9 vs retf rest :
  retf ≠ SQL_SUCCESS → Z.of_nat (length vs) ≤ INT_MAX →
  ∃ t v, kwdb_main ret ret3 ret4 ret9 (((λ v, (SQL_SUCCESS, v)) <$> vs) ++ (retf, []) :: rest) = Ok (t, v) ∧
    if decide (ret = 0 ∧ ret3 = 0 ∧ ret4 = 0 ∧ ret9 = 0)
    then v = 0 ∧ (∃ a b, t = a ++ zip_with row_line (seq 0 (length vs)) vs ++ b) ∧ disconnects t = true ∧
      allocs t ≡ₚ HStmt3 :: frees t ∧ NoDup (frees t)
    else v = -1 ∧ frees t = [] ∧ disconnects t = false ∧ HEnv ∈ allocs t ∧ HDbc ∈ allocs t.
Proof.
  intros Hr Hl. unfold kwdb_main, exec_stmt. destruct (Z.eqb_spec ret SQL_SUCCESS) as [->|H0]; cbn [negb].
  2: { mstep. eexists _, _. split; [reflexivity|]. rewrite decide_False by (by intros (? & _)). repeat split; by in_list. }
  destruct (Z.eqb_spec ret3 SQL_SUCCESS) as [->|H3]; cbn [negb]; [destruct (Z.eqb_spec ret4 SQL_SUCCESS) as [->|H4]; cbn [negb]; [destruct (Z.eqb_spec ret9 SQL_SUCCESS) as [->|H9]; cbn [negb]|]|].
  - pose proof (fetch_loop_spec vs retf rest 0 Hr Hl) as E. change (Z.of_nat 0) with 0 in E. rewrite E.
    mstep. eexists _, _. split; [reflexivity|]. rewrite decide_True by done. split; [done|]. split; [by eexists [_; _; _; _; _; _; _; _; _; _; _; _], _|].
    unfold disconnects, allocs, frees. rewrite ?existsb_app, ?omap_app.
    cbn [app omap list_omap existsb orb]. rewrite ?existsb_app, ?omap_app, !omap_rows by done. cbn [app omap list_omap existsb orb].
    split; [by rewrite orb_true_r|]. split; [|apply (bool_decide_unpack _); vm_compute; done]. apply (bool_decide_unpack _). vm_compute. done.
  - mstep. eexists _, _. split; [reflexivity|]. rewrite decide_False by (by intros (_ & _ & _ & ?)). repeat split; by in_list.
  - mstep. eexists _, _. split; [reflexivity|]. rewrite decide_False by (by intros (_ & _ & ? & _)). repeat split; by in_list.
  - mstep. eexists _, _. split; [reflexivity|]. rewrite decide_False by (by intros (_ & ? & _)). repeat split; by in_list.
Qed.

Lemma kwdb_witness :
  ∃ t v, kwdb_main 0 0 0 0 [(SQL_SUCCESS, codes "a"); (SQL_SUCCESS, codes "b"); (SQL_NO_DATA, [])] = Ok (t, v) ∧ v = 0 ∧
    (∃ a b, t = a ++ [row_line 0 (codes "a"); row_line 1 (codes "b")] ++ b) ∧ allocs t ≡ₚ HStmt3 :: frees t.
Proof.
  destruct (kwdb_handles 0 0 0 0 [codes "a"; codes "b"] SQL_NO_DATA []) as (t & v & E & H); [done|cbn; unfold INT_MAX; lia|].
  rewrite decide_True in H by done. destruct H as (Hv & Hr & _ & Ha & _). exists t, v. split; [exact E|]. split; [exact Hv|]. split; [exact Hr|exact Ha].
Defined.
