(* ===== verification/Widgets.v ===== *)
(** Two programs with windows: [src/cpp/gtk/gtk_calendar.c] and
    [gtk_progress_bar.c].

    The widgets of GTK are parameters: a class states the operations that the
    callbacks use and the laws they rely on, that a property reads as it was
    last set. *)
From Stdlib Require Import SpecFloat.
From S2P Require Import Prelude CString Tetris Numbers.

(** ** gtk_calendar.c *)

(** The calendar widget: the date, which the user sets, the array of the marks
    on the 31 days and the display options. *)
Class CalendarOps (W : Type) := {
  get_date : W → Z * Z * Z;                  (* year, month from 0, day *)
  user_date : Z * Z * Z → W → W;
  marked_date : W → list Z;
  mark_day : Z → W → W;
  unmark_day : Z → W → W;
  options_of : W → Z;
  display_options : Z → W → W
}.

(** Marking and unmarking are promised for days from 1 to 31 only. *)
Class CalendarLaws (W : Type) `{CalendarOps W} := {
  date_user w d : get_date (user_date d w) = d;
  date_display w o : get_date (display_options o w) = get_date w;
  marked_length w : length (marked_date w) = 31%nat;
  marked_mark w d : 1 ≤ d ≤ 31 → marked_date (mark_day d w) = <[Z.to_nat (d - 1) := 1]> (marked_date w);
  marked_unmark w d : 1 ≤ d ≤ 31 → marked_date (unmark_day d w) = <[Z.to_nat (d - 1) := 0]> (marked_date w);
  marked_display w o : marked_date (display_options o w) = marked_date w;
  marked_user w d : marked_date (user_date d w) = marked_date w;
  options_display w o : options_of (display_options o w) = o;
  options_mark w d : options_of (mark_day d w) = options_of w;
  options_unmark w d : options_of (unmark_day d w) = options_of w;
  options_user w d : options_of (user_date d w) = options_of w
}.

Section calendar.
Context {W : Type} `{CalendarOps W}.

(** The dates of GLib: whether a day, a month from 1 and a year are a valid date,
    and the characters that [g_date_strftime] writes before the NUL, with the
    format of the locale's date, into a buffer of the size. *)
Context (valid_dmy : Z → Z → Z → bool) (date_strftime : Z → Z → Z → Z → list Z).

(** A [GDate] on the stack, which is not initialised by its declaration;
    [g_date_set_dmy] takes the arguments at the widths of [GDateDay] and
    [GDateYear] and leaves the date as it is when they are not valid. *)
Abbreviation GDate := (option (Z * Z * Z)).

Definition g_date_set_dmy (date : GDate) (day month year : Z) : GDate :=
  let '(day, year) := (wrap_u8 day, wrap_u16 year) in
  if valid_dmy day month year then Some (day, month, year) else date.

Definition g_date_strftime (size : Z) (date : GDate) : res (list Z) :=
  match date with
  | Some (day, month, year) => mret (date_strftime size year month day)
  | None => Err Uninitialised
  end.

(** [CalendarData]: the flags, the checkboxes' identities, the three labels and
    the calendar. *)
Record CalendarData := mkCal {
  flag_checkboxes : list Z; settings : list Z; cal : W;
  prev2_sig : list Z; prev_sig : list Z; last_sig : list Z
}.

(** [calendar_date_to_string]: the size passed on is one less. *)
Definition calendar_date_to_string (data : CalendarData) (buff_len : Z) : res (list Z) :=
  let date : GDate := None in
  let '(year, month, day) := get_date (cal data) in
  let date := g_date_set_dmy date day (wrap_u32 (month + 1)) year in
  g_date_strftime (buff_len - 1) date.

Definition calendar_set_signal_strings (sig_str : list Z) (data : CalendarData) : CalendarData :=
  mkCal (flag_checkboxes data) (settings data) (cal data) (prev_sig data) (last_sig data) sig_str.

(** The callbacks build their text behind a prefix in a buffer of 256. *)
Definition signal_text (prefix : string) (data : CalendarData) : res (list Z) :=
  s ← calendar_date_to_string data (256 - Z.of_nat (length (codes prefix))); mret (codes prefix ++ s).

Definition calendar_month_changed (data : CalendarData) : res CalendarData :=
  buffer ← signal_text "month_changed: " data; mret (calendar_set_signal_strings buffer data).
Definition calendar_day_selected (data : CalendarData) : res CalendarData :=
  buffer ← signal_text "day_selected: " data; mret (calendar_set_signal_strings buffer data).

(** The mark is read at [day - 1] of the array of the widget. *)
Definition calendar_day_selected_double_click (data : CalendarData) : res CalendarData :=
  buffer ← signal_text "day_selected_double_click: " data;
  let data := calendar_set_signal_strings buffer data in
  let '(_, _, day) := get_date (cal data) in
  marked ← load (marked_date (cal data)) (day - 1);
  let w := if marked =? 0 then mark_day day (cal data) else unmark_day day (cal data) in
  mret (mkCal (flag_checkboxes data) (settings data) w (prev2_sig data) (prev_sig data) (last_sig data)).

Definition calendar_prev_month (data : CalendarData) : res CalendarData :=
  buffer ← signal_text "prev_month: " data; mret (calendar_set_signal_strings buffer data).
Definition calendar_next_month (data : CalendarData) : res CalendarData :=
  buffer ← signal_text "next_month: " data; mret (calendar_set_signal_strings buffer data).
Definition calendar_prev_year (data : CalendarData) : res CalendarData :=
  buffer ← signal_text "prev_year: " data; mret (calendar_set_signal_strings buffer data).
Definition calendar_next_year (data : CalendarData) : res CalendarData :=
  buffer ← signal_text "next_year: " data; mret (calendar_set_signal_strings buffer data).

(** The calendar exists whenever this is called. *)
Definition calendar_set_flags (data : CalendarData) : res CalendarData :=
  options ← for_range 0 5 (λ i options,
    s ← load (settings data) i;
    if negb (s =? 0) then chk_int (options + Z.shiftl 1 i) else mret options) 0;
  mret (mkCal (flag_checkboxes data) (settings data) (display_options options (cal data))
    (prev2_sig data) (prev_sig data) (last_sig data)).

(** [toggle] is the checkbox: an unknown one counts as the first. *)
Definition calendar_toggle_flag (toggle : Z) (data : CalendarData) : res CalendarData :=
  j ← for_range 0 5 (λ i j, c ← load (flag_checkboxes data) i; mret (if c =? toggle then i else j)) 0;
  s ← load (settings data) j;
  st ← store (settings data) j (if s =? 0 then 1 else 0);
  calendar_set_flags (mkCal (flag_checkboxes data) st (cal data) (prev2_sig data) (prev_sig data) (last_sig data)).

(** [create_calendar]: a new calendar [w] whose flags are cleared and whose
    19th is marked, and the checkboxes. *)
Definition create_calendar (w : W) (boxes : list Z) : res CalendarData :=
  data ← calendar_set_flags (mkCal boxes (replicate 5 0) w [] [] []);
  mret (mkCal boxes (settings data) (mark_day 19 (cal data)) [] [] []).

(** The signals that are connected. *)
Inductive signal :=
| MonthChanged | DaySelected | DoubleClick | PrevMonth | NextMonth | PrevYear | NextYear
| Toggled (box : Z).

(** The callback that is connected to a signal. *)
Definition callback (s : signal) (data : CalendarData) : res CalendarData :=
  match s with
  | MonthChanged => calendar_month_changed data
  | DaySelected => calendar_day_selected data
  | DoubleClick => calendar_day_selected_double_click data
  | PrevMonth => calendar_prev_month data
  | NextMonth => calendar_next_month data
  | PrevYear => calendar_prev_year data
  | NextYear => calendar_next_year data
  | Toggled box => calendar_toggle_flag box data
  end.

(** The main loop: for each signal the date that the user has set by then. *)
Fixpoint callbacks (es : list (Z * Z * Z * signal)) (data : CalendarData) : res CalendarData :=
  match es with
  | [] => mret data
  | (date, s) :: es =>
      data ← callback s (mkCal (flag_checkboxes data) (settings data) (user_date date (cal data))
        (prev2_sig data) (prev_sig data) (last_sig data));
      callbacks es data
  end.
End calendar.
Arguments CalendarData W : clear implicits.

(** ** gtk_progress_bar.c *)

Inductive orientation := LEFT_TO_RIGHT | RIGHT_TO_LEFT | OTHER_ORIENTATION.

Class BarOps (W : Type) := {
  get_fraction : W → spec_float;
  set_fraction : spec_float → W → W;
  pulse : W → W;
  get_text : W → option string;
  set_text : string → W → W;
  get_orientation : W → orientation;
  set_orientation : orientation → W → W
}.

(** A fraction is promised to be kept between 0 and 1. *)
Class BarLaws (W : Type) `{BarOps W} := {
  fraction_set w f : SFleb (S754_zero false) f = true → SFleb f one = true → get_fraction (set_fraction f w) = f;
  fraction_text w s : get_fraction (set_text s w) = get_fraction w;
  fraction_orientation w o : get_fraction (set_orientation o w) = get_fraction w;
  text_set w s : get_text (set_text s w) = Some s;
  text_fraction w f : get_text (set_fraction f w) = get_text w;
  text_orientation w o : get_text (set_orientation o w) = get_text w;
  text_pulse w : get_text (pulse w) = get_text w;
  orientation_set w o : get_orientation (set_orientation o w) = o;
  orientation_fraction w f : get_orientation (set_fraction f w) = get_orientation w;
  orientation_text w s : get_orientation (set_text s w) = get_orientation w;
  orientation_pulse w : get_orientation (pulse w) = get_orientation w
}.

Section progress.
Context {W : Type} `{BarOps W}.

(** [ProgressData]: [timer] is 0 once the source was removed. *)
Record ProgressData := mkProg { pbar : W; timer : Z; activity_mode : bool }.

(** 0.01 *)
Definition step_size : spec_float := fnum false 5764607523034235 (-59).

Definition progress_timeout (p : ProgressData) : ProgressData :=
  if activity_mode p then mkProg (pulse (pbar p)) (timer p) (activity_mode p)
  else
    let new_val := fadd (get_fraction (pbar p)) step_size in
    let new_val := if SFltb one new_val then S754_zero false else new_val in
    mkProg (set_fraction new_val (pbar p)) (timer p) (activity_mode p).

Definition toggle_show_text (p : ProgressData) : ProgressData :=
  let shown := match get_text (pbar p) with Some s => negb (String.eqb s "") | None => false end in
  mkProg (set_text (if shown then "" else "some text") (pbar p)) (timer p) (activity_mode p).

Definition toggle_activity_mode (p : ProgressData) : ProgressData :=
  if negb (activity_mode p) then mkProg (pulse (pbar p)) (timer p) true
  else mkProg (set_fraction (S754_zero false) (pbar p)) (timer p) false.

Definition toggle_orientation (p : ProgressData) : ProgressData :=
  mkProg (match get_orientation (pbar p) with
    | LEFT_TO_RIGHT => set_orientation RIGHT_TO_LEFT (pbar p)
    | RIGHT_TO_LEFT => set_orientation LEFT_TO_RIGHT (pbar p)
    | OTHER_ORIENTATION => pbar p
    end) (timer p) (activity_mode p).

(** The timer is removed and the block freed: no state is left. *)
Definition destroy_progress (p : ProgressData) : option ProgressData := None.

Inductive bar_event := Timeout | ShowText | ActivityMode | RightToLeft | Destroy.

Definition bar_callback (e : bar_event) (p : ProgressData) : option ProgressData :=
  match e with
  | Timeout => Some (progress_timeout p)
  | ShowText => Some (toggle_show_text p)
  | ActivityMode => Some (toggle_activity_mode p)
  | RightToLeft => Some (toggle_orientation p)
  | Destroy => destroy_progress p
  end.

(** [main]: the state when the main loop starts, and the events until the
    window is destroyed. *)
Definition progress_start (bar : W) (t : Z) : ProgressData := mkProg bar t false.

Fixpoint bar_events (es : list bar_event) (p : ProgressData) : option ProgressData :=
  match es with [] => Some p | e :: es => match bar_callback e p with Some p => bar_events es p | None => None end end.
End progress.
Arguments ProgressData W : clear implicits.
