(* ===== verification/WidgetsSpec.v ===== *)
(** The calendar and the progress bar over any sequence of signals. *)
From stdpp Require Import fin vector.
From Stdlib Require Import SpecFloat.
From S2P Require Import Prelude CString Tetris Numbers Widgets.

(** ** How often *)

(** Whether an odd number of events satisfies [P]. *)
Definition odd_times {E} (P : E → bool) (h : list E) : bool := Nat.odd (length (List.filter P h)).

Lemma odd_times_snoc {E} (P : E → bool) h e : odd_times P (h ++ [e]) = xorb (odd_times P h) (P e).
Proof.
  unfold odd_times. rewrite List.filter_app, length_app. cbn. destruct (P e); cbn.
  - rewrite Nat.add_1_r, Nat.odd_succ, <- Nat.negb_odd. by destruct (Nat.odd _).
  - rewrite Nat.add_0_r. by destruct (Nat.odd _).
Qed.

(** ** The calendar *)

Section calendar.
Context {W : Type} `{CalendarLaws W} (valid_dmy : Z → Z → Z → bool) (strftime : Z → Z → Z → Z → list Z).
Abbreviation event := (Z * Z * Z * signal)%type.

(** What is left of a session: the texts of the signals, the checkboxes that
    were toggled and the days that were double-clicked. *)
Definition text_of (e : event) : option (list Z) :=
  let '(y, m, d, s) := e in
  let text p := Some (codes p ++ strftime (256 - Z.of_nat (length (codes p)) - 1) (wrap_u16 y) (wrap_u32 (m + 1)) (wrap_u8 d)) in
  match s with
  | MonthChanged => text "month_changed: "%string | DaySelected => text "day_selected: "%string
  | DoubleClick => text "day_selected_double_click: "%string
  | PrevMonth => text "prev_month: "%string | NextMonth => text "next_month: "%string
  | PrevYear => text "prev_year: "%string | NextYear => text "next_year: "%string
  | Toggled _ => None
  end.

(** The date that a signal prints is valid. *)
Definition dated (e : event) : bool :=
  let '(y, m, d, s) := e in
  match s with Toggled _ => true | _ => valid_dmy (wrap_u8 d) (wrap_u32 (m + 1)) (wrap_u16 y) end.

Lemma signal_text_spec prefix y m d boxes st w a b c :
  signal_text valid_dmy strftime prefix (mkCal boxes st (user_date (y, m, d) w) a b c) =
  if valid_dmy (wrap_u8 d) (wrap_u32 (m + 1)) (wrap_u16 y)
  then Ok (codes prefix ++ strftime (256 - Z.of_nat (length (codes prefix)) - 1) (wrap_u16 y) (wrap_u32 (m + 1)) (wrap_u8 d))
  else Err Uninitialised.
Proof.
  unfold signal_text, calendar_date_to_string, g_date_set_dmy, g_date_strftime. cbn [cal]. rewrite date_user.
  by destruct (valid_dmy _ _ _).
Qed.

Definition toggles (boxes : list Z) (i : nat) (e : event) : bool :=
  match e.2 with
  | Toggled b => match boxes !! i with Some c => c =? b | None => false end || (Nat.eqb i 0 && forallb (λ c, negb (c =? b)) boxes)
  | _ => false
  end.

Definition clicks (day : Z) (e : event) : bool :=
  match e with (_, _, d, DoubleClick) => d =? day | _ => false end.

Definition labels (data : CalendarData W) : list (list Z) := [prev2_sig data; prev_sig data; last_sig data].

(** The state after the events [h]. *)
Record reached (boxes : list Z) (h : list event) (data : CalendarData W) : Prop := {
  reached_boxes : flag_checkboxes data = boxes;
  reached_labels : labels data = drop (length (omap text_of h)) ([[]; []; []] ++ omap text_of h);
  reached_settings : settings data = (λ i, Z.b2z (odd_times (toggles boxes i) h)) <$> seq 0 5;
  reached_options : ∀ i, (i < 5)%nat → Z.testbit (options_of (cal data)) (Z.of_nat i) = odd_times (toggles boxes i) h;
  reached_marks : ∀ d, 1 ≤ d ≤ 31 →
    marked_date (cal data) !! Z.to_nat (d - 1) = Some (Z.b2z (xorb (d =? 19) (odd_times (clicks d) h)))
}.

Lemma set_flags_spec data (f : nat → bool) :
  settings data = (λ i, Z.b2z (f i)) <$> seq 0 5 →
  ∃ o, calendar_set_flags data = Ok (mkCal (flag_checkboxes data) (settings data) (display_options o (cal data))
      (prev2_sig data) (prev_sig data) (last_sig data)) ∧ ∀ i, (i < 5)%nat → Z.testbit o (Z.of_nat i) = f i.
Proof.
  intros E. unfold calendar_set_flags. rewrite E. cbn [fmap list_fmap seq].
  assert (Hi : ∀ (g : nat → bool) o, (∀ i, In i [0; 1; 2; 3; 4]%nat → Z.testbit o (Z.of_nat i) = g i) → ∀ i, (i < 5)%nat → Z.testbit o (Z.of_nat i) = g i).
  { intros g o Hg i Hi. apply Hg. cbn. lia. }
  destruct (f 0%nat) eqn:E0, (f 1%nat) eqn:E1, (f 2%nat) eqn:E2, (f 3%nat) eqn:E3, (f 4%nat) eqn:E4;
    (eexists; split; [reflexivity|]; apply Hi; cbn; intros i Hin; repeat (destruct Hin as [<-|Hin]; [by rewrite ?E0, ?E1, ?E2, ?E3, ?E4|]); done).
Qed.

(** The search for the checkbox. *)
Lemma find_box boxes t date :
  length boxes = 5%nat → NoDup boxes →
  ∃ j, for_range 0 5 (λ i j, c ← load boxes i; mret (if c =? t then i else j)) 0 = Ok (Z.of_nat j) ∧ (j < 5)%nat ∧
    ∀ i, (i < 5)%nat → toggles boxes i (date, Toggled t) = Nat.eqb i j.
Proof.
  intros HL Hn.
  destruct (for_range_inv (λ k z, 0 ≤ k ∧ ∃ j, z = Z.of_nat j ∧ (j < 5)%nat ∧
      (boxes !! j = Some t ∨ j = 0%nat ∧ ∀ i, Z.of_nat i < k → boxes !! i ≠ Some t))
    (λ i j, c ← load boxes i; mret (if c =? t then i else j)) 0 5 0) as (z & E & _ & j & -> & Hj & Hb).
  - lia.
  - split; [done|]. exists 0%nat. split; [done|]. split; [lia|]. right. split; [done|]. intros; lia.
  - intros k z Hk (_ & j & -> & Hj & Hb). destruct (lookup_lt_is_Some_2 boxes (Z.to_nat k) ltac:(lia)) as [c Hc].
    rewrite (load_ok _ k c), bind_ok by (done || lia). eexists. split; [reflexivity|]. split; [lia|].
    destruct (Z.eqb_spec c t) as [->|Hne].
    + exists (Z.to_nat k). split; [lia|]. split; [lia|]. by left.
    + exists j. split; [done|]. split; [done|]. destruct Hb as [Hb|[-> Hb]]; [by left|right]. split; [done|].
      intros i Hi Hit. destruct (decide (i = Z.to_nat k)) as [->|]; [congruence|]. apply (Hb i); [lia|done].
  - exists j. split; [done|]. split; [done|]. intros i Hi. unfold toggles. cbn [snd].
    destruct (lookup_lt_is_Some_2 boxes i ltac:(lia)) as [c Hc]. rewrite Hc.
    assert (Hall : forallb (λ c, negb (c =? t)) boxes = true ↔ t ∉ boxes).
    { rewrite forallb_forall. setoid_rewrite <- list_elem_of_In. setoid_rewrite negb_true_iff. setoid_rewrite Z.eqb_neq.
      split; [intros Ha Hin; by apply (Ha t)|]. intros Ha x Hx ->. done. }
    destruct Hb as [Hb|[-> Hb]].
    + assert (forallb (λ c, negb (c =? t)) boxes = false) as ->.
      { apply not_true_is_false. rewrite Hall. intros Hnot. apply Hnot. by eapply list_elem_of_lookup_2. }
      rewrite andb_false_r, orb_false_r. destruct (Nat.eqb_spec i j) as [->|Hij]; [apply Z.eqb_eq; congruence|].
      apply Z.eqb_neq. intros ->. apply Hij. by eapply NoDup_lookup.
    + assert (t ∉ boxes) as Hnot by (intros (n & Hlt)%list_elem_of_lookup; pose proof (lookup_lt_Some _ _ _ Hlt); apply (Hb n); [lia|done]).
      rewrite (proj2 Hall Hnot), andb_true_r. destruct (Z.eqb_spec c t) as [->|]; [|done].
      destruct Hnot. by eapply list_elem_of_lookup_2.
Qed.

Lemma drop_snoc_labels (T : list (list Z)) (a b c x : list Z) :
  [a; b; c] = drop (length T) ([[]; []; []] ++ T) → [b; c; x] = drop (length (T ++ [x])) ([[]; []; []] ++ T ++ [x]).
Proof.
  intros E. rewrite length_app, app_assoc, drop_app_le by (rewrite length_app; cbn; lia). cbn [length].
  rewrite <- drop_drop, <- E. done.
Qed.

(** A signal that only changes the labels. *)
Lemma reached_signal boxes h data date s x :
  reached boxes h data → text_of (date, s) = Some x → (∀ b, s ≠ Toggled b) → s ≠ DoubleClick →
  reached boxes (h ++ [(date, s)]) (mkCal (flag_checkboxes data) (settings data) (user_date date (cal data)) (prev_sig data) (last_sig data) x).
Proof.
  intros [Hb Hl Hs Ho Hm] Hx Ht Hd. constructor; cbn [cal flag_checkboxes settings prev2_sig prev_sig last_sig].
  - done.
  - unfold labels in *. cbn. rewrite omap_app. cbn [omap list_omap]. rewrite Hx. by apply (drop_snoc_labels _ (prev2_sig data)).
  - rewrite Hs. apply list_fmap_ext. intros _ i _. rewrite odd_times_snoc. destruct s; try by rewrite xorb_false_r. by edestruct Ht.
  - intros i Hi. rewrite options_user, Ho, odd_times_snoc by done. destruct s; try by rewrite xorb_false_r. by edestruct Ht.
  - intros d Hr. rewrite marked_user, Hm, odd_times_snoc by done. destruct date as [[y m] d'], s; try by rewrite xorb_false_r. done.
Qed.

Lemma reached_double boxes h data y m d :
  reached boxes h data → 1 ≤ d ≤ 31 → dated (y, m, d, DoubleClick) = true →
  ∃ data', calendar_day_selected_double_click valid_dmy strftime
      (mkCal (flag_checkboxes data) (settings data) (user_date (y, m, d) (cal data)) (prev2_sig data) (prev_sig data) (last_sig data)) = Ok data' ∧
    reached boxes (h ++ [(y, m, d, DoubleClick)]) data'.
Proof.
  intros [Hb Hl Hs Ho Hm] Hd Hv. cbn in Hv. unfold calendar_day_selected_double_click, calendar_set_signal_strings.
  rewrite signal_text_spec, Hv, bind_ok.
  cbn [cal flag_checkboxes settings prev2_sig prev_sig last_sig]. rewrite date_user.
  erewrite load_ok, bind_ok; [|lia|rewrite marked_user; by apply Hm]. eexists. split; [reflexivity|].
  assert (Hlen := marked_length (cal data)). constructor; cbn [cal flag_checkboxes settings prev2_sig prev_sig last_sig].
  - done.
  - unfold labels in *. cbn. rewrite omap_app. by apply (drop_snoc_labels _ (prev2_sig data)).
  - rewrite Hs. apply list_fmap_ext. intros _ i _. by rewrite odd_times_snoc, xorb_false_r.
  - intros i Hi. rewrite odd_times_snoc. cbn. rewrite xorb_false_r, <- Ho by done.
    case_match; by rewrite ?options_mark, ?options_unmark, options_user.
  - intros e He. rewrite odd_times_snoc. cbn [clicks]. specialize (Hm d Hd) as Hmd.
    assert (∀ v, <[Z.to_nat (d - 1) := v]> (marked_date (cal data)) !! Z.to_nat (e - 1) =
      if d =? e then Some v else marked_date (cal data) !! Z.to_nat (e - 1)) as Hu.
    { intros v. destruct (Z.eqb_spec d e) as [->|]; [|by rewrite list_lookup_insert_ne by lia].
      rewrite list_lookup_insert_eq; [done|]. rewrite Hlen. lia. }
    destruct (xorb (d =? 19) _) eqn:Ex; cbn; rewrite ?marked_mark, ?marked_unmark, marked_user, Hu by done;
      (destruct (Z.eqb_spec d e) as [->|]; [|by rewrite xorb_false_r, Hm]); by rewrite <- xorb_assoc, Ex.
Qed.

Lemma reached_toggle boxes h data date t :
  length boxes = 5%nat → NoDup boxes → reached boxes h data →
  ∃ data', calendar_toggle_flag t
      (mkCal (flag_checkboxes data) (settings data) (user_date date (cal data)) (prev2_sig data) (prev_sig data) (last_sig data)) = Ok data' ∧
    reached boxes (h ++ [(date, Toggled t)]) data'.
Proof.
  intros HL Hn [Hb Hl Hs Ho Hm]. unfold calendar_toggle_flag. cbn [cal flag_checkboxes settings prev2_sig prev_sig last_sig].
  destruct (find_box boxes t date HL Hn) as (j & E & Hj & Ht). rewrite Hb, E, bind_ok, Hs.
  set (f i := odd_times (toggles boxes i) h). fold f.
  erewrite load_ok, bind_ok; [|lia|]. 2: { rewrite list_lookup_fmap, Nat2Z.id, lookup_seq_lt by done. reflexivity. }
  rewrite store_ok, bind_ok, Nat2Z.id by (rewrite length_fmap, length_seq; lia).
  set (f' i := odd_times (toggles boxes i) (h ++ [(date, Toggled t)])).
  assert (Hf : ∀ i, (i < 5)%nat → f' i = xorb (f i) (Nat.eqb i j)) by (intros i Hi; unfold f'; by rewrite odd_times_snoc, Ht).
  assert (Hst : <[j := (if Z.b2z (f (0 + j)%nat) =? 0 then 1 else 0)]> ((λ i, Z.b2z (f i)) <$> seq 0 5) = (λ i, Z.b2z (f' i)) <$> seq 0 5).
  { apply list_eq. intros i. destruct (decide (i < 5)%nat) as [Hi|]; [|rewrite !lookup_ge_None_2; [done|..]; rewrite ?length_insert, length_fmap, length_seq; lia].
    rewrite (list_lookup_fmap _ (seq 0 5)), lookup_seq_lt, list_lookup_insert, (list_lookup_fmap _ (seq 0 5)), lookup_seq_lt by done. cbn [fmap option_fmap option_map Nat.add].
    rewrite Hf, length_fmap, length_seq by done.
    destruct (decide _) as [[<- _]|Hne]; [rewrite Nat.eqb_refl; by destruct (f j)|].
    destruct (Nat.eqb_spec i j) as [->|]; [by destruct Hne|]. by rewrite xorb_false_r. }
  unfold f in Hst at 1 2. rewrite Hst. match goal with |- context [calendar_set_flags ?d] => destruct (set_flags_spec d f') as (o & -> & Ho') end; [done|].
  eexists. split; [reflexivity|]. constructor; cbn [cal flag_checkboxes settings prev2_sig prev_sig last_sig].
  - done.
  - unfold labels in *. destruct date as [[]]. rewrite omap_app. cbn [omap list_omap text_of prev2_sig prev_sig last_sig]. by rewrite app_nil_r.
  - done.
  - intros i Hi. by rewrite options_display, Ho'.
  - intros d Hd. rewrite marked_display, marked_user, Hm, odd_times_snoc by done. destruct date as [[]]; cbn. by rewrite xorb_false_r.
Qed.

Lemma reached_step boxes h data date s :
  length boxes = 5%nat → NoDup boxes → reached boxes h data → (s = DoubleClick → 1 ≤ date.2 ≤ 31) → dated (date, s) = true →
  ∃ data', callback valid_dmy strftime s
      (mkCal (flag_checkboxes data) (settings data) (user_date date (cal data)) (prev2_sig data) (prev_sig data) (last_sig data)) = Ok data' ∧
    reached boxes (h ++ [(date, s)]) data'.
Proof.
  intros HL Hn Hr Hd Hv. destruct s as [| | | | | | |t]. 8: by apply reached_toggle.
  3: { destruct date as [[y m] d]. apply reached_double; [done|by apply Hd|done]. }
  all: destruct date as [[y m] d]; cbn in Hv; unfold callback, calendar_month_changed, calendar_day_selected, calendar_prev_month,
    calendar_next_month, calendar_prev_year, calendar_next_year, calendar_set_signal_strings; rewrite signal_text_spec, Hv, bind_ok;
    (eexists; split; [reflexivity|]); cbn [cal flag_checkboxes settings prev2_sig prev_sig last_sig]; by apply reached_signal.
Qed.

(** A date that is not valid is printed without having been set. *)
Lemma callback_undated date s boxes st w a b c : dated (date, s) = false →
  callback valid_dmy strftime s (mkCal boxes st (user_date date w) a b c) = Err Uninitialised.
Proof.
  destruct date as [[y m] d]. cbn. intros Hv. destruct s; try done;
    unfold callback, calendar_month_changed, calendar_day_selected, calendar_day_selected_double_click, calendar_prev_month,
      calendar_next_month, calendar_prev_year, calendar_next_year; by rewrite signal_text_spec, Hv, bind_err.
Qed.

Lemma reached_all boxes es : ∀ h data,
  length boxes = 5%nat → NoDup boxes → reached boxes h data → Forall (λ e : event, e.2 = DoubleClick → 1 ≤ e.1.2 ≤ 31) es →
  if forallb dated es then ∃ data', callbacks valid_dmy strftime es data = Ok data' ∧ reached boxes (h ++ es) data'
  else callbacks valid_dmy strftime es data = Err Uninitialised.
Proof.
  induction es as [|[date s] es IH]; intros h data HL Hn Hr Hf.
  - exists data. by rewrite app_nil_r.
  - apply Forall_cons_1 in Hf as [Hd Hf]. cbn [callbacks forallb]. destruct (dated (date, s)) eqn:Hv; cbn [andb].
    2: { by rewrite callback_undated. }
    destruct (reached_step boxes h data date s HL Hn Hr Hd Hv) as (d1 & -> & H1). rewrite bind_ok.
    pose proof (IH _ _ HL Hn H1 Hf) as H2. by rewrite <- app_assoc in H2.
Qed.

Lemma reached_start boxes w :
  marked_date w = replicate 31 0 → ∃ data, create_calendar w boxes = Ok data ∧ reached boxes [] data.
Proof.
  intros Hw. unfold create_calendar. destruct (set_flags_spec (mkCal boxes (replicate 5 0) w [] [] []) (λ _, false)) as (o & -> & Ho); [done|].
  rewrite bind_ok. eexists. split; [reflexivity|]. constructor; cbn [cal flag_checkboxes settings prev2_sig prev_sig last_sig]; try done.
  - intros i Hi. rewrite options_mark, options_display. by apply Ho.
  - intros d Hd. rewrite marked_mark, marked_display, Hw by lia. change (odd_times _ []) with false. rewrite xorb_false_r.
    rewrite list_lookup_insert. rewrite length_replicate. destruct (decide _) as [[E _]|E].
    + rewrite (proj2 (Z.eqb_eq d 19)) by lia. done.
    + rewrite (proj2 (Z.eqb_neq d 19)) by lia. rewrite lookup_replicate_2 by lia. done.
Qed.

(** C10: For five distinct checkboxes, a new calendar without marks and double clicks on days 1
    to 31 only: over any session whose printed dates are all valid the three labels show the
    last three signals, each display option is the parity of its checkbox's toggles and each
    day's mark the parity of its double clicks (the 19th starts marked). A session with a
    signal at an invalid date (no day selected, or the 31st carried into a shorter month)
    ends in the use of a GDate that was never set. *)
Theorem calendar_session boxes w es :
  length boxes = 5%nat → NoDup boxes → marked_date w = replicate 31 0 →
  Forall (λ e : event, e.2 = DoubleClick → 1 ≤ e.1.2 ≤ 31) es →
  ∃ data0, create_calendar w boxes = Ok data0 ∧
  if forallb dated es then
    ∃ data, callbacks valid_dmy strftime es data0 = Ok data ∧
    labels data = drop (length (omap text_of es)) ([[]; []; []] ++ omap text_of es) ∧
    (∀ i, (i < 5)%nat → Z.testbit (options_of (cal data)) (Z.of_nat i) = odd_times (toggles boxes i) es) ∧
    (∀ d, 1 ≤ d ≤ 31 → marked_date (cal data) !! Z.to_nat (d - 1) = Some (Z.b2z (xorb (d =? 19) (odd_times (clicks d) es))))
  else callbacks valid_dmy strftime es data0 = Err Uninitialised.
Proof.
  intros HL Hn Hw Hf. destruct (reached_start boxes w Hw) as (data0 & E0 & Hr0). exists data0. split; [done|].
  pose proof (reached_all boxes es [] data0 HL Hn Hr0 Hf) as Hall. destruct (forallb dated es); [|done].
  destruct Hall as (data & E & Hr). exists data. destruct Hr. done.
Qed.
End calendar.

(** A widget that satisfies the laws. *)
Record toy_calendar := mkToy { toy_date : Z * Z * Z; toy_marks : vec Z 31; toy_options : Z }.

Definition toy_mark (v d : Z) (w : toy_calendar) : toy_calendar :=
  mkToy (toy_date w)
    (if decide (Z.to_nat (d - 1) < 31)%nat is left H then vinsert (nat_to_fin H) v (toy_marks w) else toy_marks w) (toy_options w).

#[export] Instance toy_ops : CalendarOps toy_calendar := {
  get_date := toy_date;
  user_date d w := mkToy d (toy_marks w) (toy_options w);
  marked_date w := vec_to_list (toy_marks w);
  mark_day := toy_mark 1;
  unmark_day := toy_mark 0;
  options_of := toy_options;
  display_options o w := mkToy (toy_date w) (toy_marks w) o
}.

Lemma toy_mark_spec v d w :
  1 ≤ d ≤ 31 → vec_to_list (toy_marks (toy_mark v d w)) = <[Z.to_nat (d - 1) := v]> (vec_to_list (toy_marks w)).
Proof.
  intros Hd. unfold toy_mark. cbn. destruct (decide _) as [Hlt|]; [|lia].
  by rewrite vec_to_list_insert, fin_to_nat_to_fin.
Qed.

#[export] Instance toy_laws : CalendarLaws toy_calendar.
Proof. split; intros; try done; [apply length_vec_to_list|by apply toy_mark_spec..]. Qed.

(** The dates of the proleptic Gregorian calendar that GLib accepts. *)
Definition gregorian (d m y : Z) : bool :=
  let leap := (y mod 4 =? 0) && (negb (y mod 100 =? 0) || (y mod 400 =? 0)) in
  let last := if m =? 2 then (if leap then 29 else 28) else if existsb (Z.eqb m) [4; 6; 9; 11] then 30 else 31 in
  (1 <=? y) && (1 <=? m) && (m <=? 12) && (1 <=? d) && (d <=? last).

Lemma calendar_witness :
  let w := mkToy (2024, 4, 1) (vreplicate 31 0) 0 in
  let text _ y m d := dec_chars d ++ [47] ++ dec_chars m ++ [47] ++ dec_chars y in
  (∃ data0 data, create_calendar w [11; 12; 13; 14; 15] = Ok data0 ∧
    callbacks gregorian text [(2024, 4, 3, DaySelected); (2024, 4, 3, DoubleClick); (2024, 4, 3, Toggled 14)] data0 = Ok data ∧
    labels data = [[]; codes "day_selected: 3/5/2024"; codes "day_selected_double_click: 3/5/2024"] ∧
    Z.testbit (options_of (cal data)) 3 = true ∧ marked_date (cal data) !! 2%nat = Some 1) ∧
  ∃ data0, create_calendar w [11; 12; 13; 14; 15] = Ok data0 ∧
    callbacks gregorian text [(2023, 0, 31, DaySelected); (2023, 1, 31, NextMonth)] data0 = Err Uninitialised.
Proof.
  intros w text. split.
  - destruct (calendar_session gregorian text [11; 12; 13; 14; 15] w
      [(2024, 4, 3, DaySelected); (2024, 4, 3, DoubleClick); (2024, 4, 3, Toggled 14)]) as (d0 & E0 & d & E & Hl & Ho & Hm).
    + done.
    + apply (bool_decide_unpack _). vm_compute. done.
    + done.
    + repeat constructor; cbn; intros; lia.
    + exists d0, d. split; [exact E0|]. split; [exact E|]. split; [exact Hl|]. split; [apply (Ho 3%nat); lia|apply (Hm 3); lia].
  - apply (calendar_session gregorian text [11; 12; 13; 14; 15] w [(2023, 0, 31, DaySelected); (2023, 1, 31, NextMonth)]).
    + done.
    + apply (bool_decide_unpack _). vm_compute. done.
    + done.
    + repeat constructor; cbn; intros; done.
Defined.

(** ** The progress bar *)

Section progress.
Context {W : Type} `{BarLaws W}.

(** The fraction after [k] steps from 0. *)
Fixpoint ticked (k : nat) : spec_float :=
  match k with O => S754_zero false | S k => fadd (ticked k) step_size end.

Definition is_event (e e' : bar_event) : bool :=
  match e, e' with
  | Timeout, Timeout | ShowText, ShowText | ActivityMode, ActivityMode | RightToLeft, RightToLeft | Destroy, Destroy => true
  | _, _ => false
  end.

(** The timeouts since the activity mode last changed. *)
Definition since (es : list bar_event) : nat :=
  foldl (λ n e, match e with Timeout => S n | ActivityMode => O | _ => n end) O es.

Definition shown_text (t : option string) (es : list bar_event) : option string :=
  foldl (λ t e, match e with
    | ShowText => Some (if decide (t = None ∨ t = Some ""%string) then "some text"%string else ""%string)
    | _ => t end) t es.

Definition turned (o : orientation) (es : list bar_event) : orientation :=
  match o, odd_times (is_event RightToLeft) es with
  | LEFT_TO_RIGHT, true => RIGHT_TO_LEFT | RIGHT_TO_LEFT, true => LEFT_TO_RIGHT | o, _ => o
  end.

(** A hundred steps of 0.01 pass 1, and none before. *)
Lemma ticked_below k : (k < 99)%nat → SFltb one (ticked (S k)) = false.
Proof.
  intros Hk. assert (Hall : Forall (λ k, SFltb one (ticked (S k)) = false) (seq 0 99)).
  { apply (bool_decide_unpack _). vm_compute. done. }
  rewrite Forall_forall in Hall. apply Hall, elem_of_seq. lia.
Qed.

Lemma ticked_full : SFltb one (ticked 100) = true.
Proof. vm_compute. done. Qed.

Lemma tick_mod n :
  (if SFltb one (ticked (S (n mod 100))) then S754_zero false else ticked (S (n mod 100))) = ticked (S n mod 100).
Proof.
  pose proof (Nat.mod_upper_bound n 100 ltac:(lia)) as Hn. pose proof (Nat.div_mod_eq n 100) as En.
  destruct (decide (n mod 100 = 99)%nat) as [E|E].
  - rewrite E, ticked_full, <- (Nat.mod_unique (S n) 100 (n / 100 + 1) 0) by lia. done.
  - rewrite ticked_below, <- (Nat.mod_unique (S n) 100 (n / 100) (S (n mod 100))) by lia. done.
Qed.

(** The fractions that are set are between 0 and 1. *)
Lemma ticked_range n : SFleb (S754_zero false) (ticked (n mod 100)) = true ∧ SFleb (ticked (n mod 100)) one = true.
Proof.
  pose proof (Nat.mod_upper_bound n 100 ltac:(lia)) as Hk.
  assert (Hr : Forall (λ k, SFleb (S754_zero false) (ticked k) = true ∧ SFleb (ticked k) one = true) (seq 0 100))
    by (apply (bool_decide_unpack _); vm_compute; done).
  rewrite Forall_forall in Hr. apply Hr, elem_of_seq. lia.
Qed.

Record follows (bar : W) (es : list bar_event) (p : ProgressData W) : Prop := {
  follows_mode : activity_mode p = odd_times (is_event ActivityMode) es;
  follows_fraction : activity_mode p = false → get_fraction (pbar p) = ticked (since es mod 100);
  follows_text : get_text (pbar p) = shown_text (get_text bar) es;
  follows_orientation : get_orientation (pbar p) = turned (get_orientation bar) es
}.

Definition turn (o : orientation) : orientation :=
  match o with LEFT_TO_RIGHT => RIGHT_TO_LEFT | RIGHT_TO_LEFT => LEFT_TO_RIGHT | o => o end.

Lemma turned_snoc o es e : turned o (es ++ [e]) = if is_event RightToLeft e then turn (turned o es) else turned o es.
Proof. unfold turned. rewrite odd_times_snoc. destruct (odd_times _ es), e, o; done. Qed.

Lemma toggle_orientation_spec (p : ProgressData W) :
  get_fraction (pbar (toggle_orientation p)) = get_fraction (pbar p) ∧ get_text (pbar (toggle_orientation p)) = get_text (pbar p) ∧
  get_orientation (pbar (toggle_orientation p)) = turn (get_orientation (pbar p)).
Proof. unfold toggle_orientation. cbn. destruct (get_orientation (pbar p)) eqn:E; by rewrite ?fraction_orientation, ?text_orientation, ?orientation_set, ?E. Qed.

Lemma toggle_show_text_spec (p : ProgressData W) :
  get_text (pbar (toggle_show_text p)) = Some (if decide (get_text (pbar p) = None ∨ get_text (pbar p) = Some ""%string) then "some text"%string else ""%string).
Proof.
  unfold toggle_show_text. cbn. rewrite text_set. f_equal. destruct (get_text (pbar p)) as [t|]; [|by rewrite decide_True by auto].
  destruct (String.eqb_spec t ""%string) as [->|Hne]; cbn; [by rewrite decide_True by auto|]. rewrite decide_False; [done|]. intros [[=]|[=]]; done.
Qed.

Lemma follows_step bar es p e p' :
  follows bar es p → bar_callback e p = Some p' → follows bar (es ++ [e]) p'.
Proof.
  intros [Hm Hf Ht Ho] E.
  assert (Hs : since (es ++ [e]) = match e with Timeout => S (since es) | ActivityMode => O | _ => since es end) by (unfold since; by rewrite foldl_app).
  assert (Hx : shown_text (get_text bar) (es ++ [e]) = match e with
    | ShowText => Some (if decide (get_text (pbar p) = None ∨ get_text (pbar p) = Some ""%string) then "some text"%string else ""%string)
    | _ => get_text (pbar p) end) by (rewrite Ht; unfold shown_text; by rewrite foldl_app).
  destruct e; cbn [bar_callback destroy_progress] in E; try discriminate E; injection E as <-;
    (constructor; [rewrite odd_times_snoc, ?xorb_false_r|rewrite Hs|rewrite Hx|rewrite turned_snoc, <- Ho; cbn [is_event]]).
  - unfold progress_timeout. by destruct (activity_mode p).
  - unfold progress_timeout. destruct (activity_mode p); [done|]. intros _. cbn [pbar].
    rewrite Hf by done. change (fadd (ticked (since es mod 100)) step_size) with (ticked (S (since es mod 100))); cbv zeta. rewrite tick_mod. apply fraction_set; apply ticked_range.
  - unfold progress_timeout. destruct (activity_mode p); cbn [pbar]; by rewrite ?text_pulse, ?text_fraction.
  - unfold progress_timeout. destruct (activity_mode p); cbn [pbar]; by rewrite ?orientation_pulse, ?orientation_fraction.
  - done.
  - unfold toggle_show_text. cbn [pbar activity_mode]. by rewrite fraction_text.
  - apply toggle_show_text_spec.
  - unfold toggle_show_text. cbn [pbar]. by rewrite orientation_text.
  - unfold toggle_activity_mode. rewrite <- Hm. by destruct (activity_mode p).
  - unfold toggle_activity_mode. destruct (activity_mode p); [|done]. intros _. cbn [negb pbar]. by apply fraction_set.
  - unfold toggle_activity_mode. destruct (activity_mode p); cbn [negb pbar]; by rewrite ?text_pulse, ?text_fraction.
  - unfold toggle_activity_mode. destruct (activity_mode p); cbn [negb pbar]; by rewrite ?orientation_pulse, ?orientation_fraction.
  - done.
  - destruct (toggle_orientation_spec p) as (-> & _). exact Hf.
  - by destruct (toggle_orientation_spec p) as (_ & -> & _).
  - by destruct (toggle_orientation_spec p) as (_ & _ & ->).
Qed.

Lemma follows_all bar es : ∀ h p,
  follows bar h p →
  match bar_events es p with Some p' => (Destroy ∉ es) ∧ follows bar (h ++ es) p' | None => Destroy ∈ es end.
Proof.
  induction es as [|e es IH]; intros h p Hp.
  - split; [by apply not_elem_of_nil|by rewrite app_nil_r].
  - cbn [bar_events]. destruct (bar_callback e p) as [p1|] eqn:E.
    + specialize (IH (h ++ [e]) p1 (follows_step _ _ _ _ _ Hp E)). rewrite <- app_assoc in IH.
      destruct (bar_events es p1); [|by right]. destruct IH as [Hn Hf]. split; [|done].
      apply not_elem_of_cons. split; [|done]. intros <-. discriminate E.
    + destruct e; try discriminate E. by left.
Qed.

(** C28: For a bar whose fraction is 0 at the start: over any events before the window is
    destroyed the fraction, outside of the activity mode, is the timeouts since the mode
    last changed modulo 100, summed in doubles, and below 1, and text, orientation and mode
    are those of the clicks; the widget is only trusted to keep a fraction between 0 and 1,
    and no other is set. *)
Theorem progress_session (bar : W) t es :
  get_fraction bar = S754_zero false →
  match bar_events es (progress_start bar t) with
  | Some p => (Destroy ∉ es) ∧ activity_mode p = odd_times (is_event ActivityMode) es ∧
      (activity_mode p = false → get_fraction (pbar p) = ticked (since es mod 100) ∧ SFltb (get_fraction (pbar p)) one = true) ∧
      get_text (pbar p) = shown_text (get_text bar) es ∧ get_orientation (pbar p) = turned (get_orientation bar) es
  | None => Destroy ∈ es
  end.
Proof.
  intros Hz. assert (Hp : follows bar [] (progress_start bar t)) by (constructor; cbn; [done|by intros _|done|by destruct (get_orientation bar)]).
  pose proof (follows_all bar es [] _ Hp) as Hall. destruct (bar_events _ _) as [p|]; [|done].
  destruct Hall as [Hd [Hm Hf Ht Ho]]. split; [done|]. split; [done|]. split; [|done]. intros Ha. specialize (Hf Ha). split; [exact Hf|].
  rewrite Hf. pose proof (Nat.mod_upper_bound (since ([] ++ es)) 100 ltac:(lia)) as Hk.
  assert (Hlt : Forall (λ k, SFltb (ticked k) one = true) (seq 0 100)) by (apply (bool_decide_unpack _); vm_compute; done).
  rewrite Forall_forall in Hlt. apply Hlt, elem_of_seq. lia.
Qed.
End progress.

(** A bar that satisfies the laws. *)
#[export] Instance toy_bar_ops : BarOps (spec_float * option string * orientation) := {
  get_fraction w := w.1.1; set_fraction f w := (f, w.1.2, w.2); pulse w := w;
  get_text w := w.1.2; set_text s w := (w.1.1, Some s, w.2);
  get_orientation w := w.2; set_orientation o w := (w.1, o)
}.

#[export] Instance toy_bar_laws : BarLaws (spec_float * option string * orientation).
Proof. split; intros; done. Qed.

Lemma progress_witness :
  ∃ p, bar_events (replicate 100 Timeout ++ [ShowText; RightToLeft]) (progress_start (S754_zero false, None, LEFT_TO_RIGHT) 7) = Some p ∧
    get_fraction (pbar p) = S754_zero false ∧ get_text (pbar p) = Some "some text"%string ∧ get_orientation (pbar p) = RIGHT_TO_LEFT.
Proof.
  pose proof (progress_session (S754_zero false, None, LEFT_TO_RIGHT) 7 (replicate 100 Timeout ++ [ShowText; RightToLeft]) eq_refl) as H.
  destruct (bar_events _ _) as [p|] eqn:E; [|vm_compute in E; discriminate E].
  destruct H as (_ & Hm & Hf & Ht & Ho). exists p. split; [reflexivity|]. split; [by apply Hf|]. split; [exact Ht|exact Ho].
Defined.
