(* ===== verification/Kafka.v ===== *)
(** The clients of Kafka: [src/cpp/kfk/consumer.c], of which [kfk_test.c] is a
    copy, and [producer.c].  The library librdkafka is a parameter: the results
    of its calls are arguments. *)
From S2P Require Import Prelude CString Posix TcpConcurrent Sockets.

(** ** consumer.c *)

(** A message as the library hands it out. *)
Record kmsg := mkKmsg {
  m_err : Z; m_rkt : bool; m_partition : Z; m_offset : Z; m_key : list Z; m_payload : list Z;
  m_topic : list Z; m_errstr : list Z
}.

(** Standard output and standard error. *)
Record kout := mkKout { stdout : list output; stderr : list output }.

Definition put_out (l : list output) (o : kout) : kout := mkKout (stdout o ++ l) (stderr o).
Definition put_err (l : list output) (o : kout) : kout := mkKout (stdout o) (stderr o ++ l).

Section kafka.
(** The error codes, and [rd_kafka_err2str]. *)
Context (PARTITION_EOF UNKNOWN_PARTITION UNKNOWN_TOPIC QUEUE_FULL : Z) (err2str : Z → list Z).

(** [%s [%d]]: topic and partition, and the place in it. *)
Definition place (m : kmsg) (quote : list output) (next : string) : list output :=
  quote ++ [PutChars (m_topic m)] ++ quote ++ [PutStr " ["; PutInt (m_partition m); PutStr "]"; PutStr next; PutInt (m_offset m)].

(** [msg_consume]: the new value of [run]. *)
Definition msg_consume (m : kmsg) (run : Z) (o : kout) : Z * kout :=
  if negb (m_err m =? 0) then
    if m_err m =? PARTITION_EOF then
      (run, put_err ([PutStr "% Consumer reached end of "] ++ place m [] " message queue at offset " ++ [PutStr "\n"]) o)
    else
      let o := if m_rkt m
        then put_err ([PutStr "% Consume error for topic "] ++ place m [PutChars [34]] " offset " ++
          [PutStr ": "; PutChars (m_errstr m); PutStr "\n"]) o
        else put_err [PutStr "% Consumer error: "; PutChars (err2str (m_err m)); PutStr ": "; PutChars (m_errstr m); PutStr "\n"] o in
      (if (m_err m =? UNKNOWN_PARTITION) || (m_err m =? UNKNOWN_TOPIC) then 0 else run, o)
  else
    let o := put_out ([PutStr "% Message (topic "] ++ place m [] ", offset " ++
      [PutStr ", "; PutInt (Z.of_nat (length (m_payload m))); PutStr " bytes):\n"]) o in
    let o := if (length (m_key m) =? 0)%nat then o else put_out [PutStr "Key: "; PutChars (before_nul (m_key m)); PutStr "\n"] o in
    (run, put_out [PutChars (before_nul (m_payload m)); PutStr "\n"] o).

(** The answers of the library's calls in [initKafka]: for the group, for the
    offset store, the new handle, the brokers that were added, and the error of
    the subscription to a topic. *)
Record setup := mkSetup {
  group_ok : list Z → bool; store_ok : bool; new_rk : bool; brokers_added : list Z → Z;
  subscribe_err : list Z → Z; setup_errstr : list Z
}.

(** The options of the command line. *)
Record opts := mkOpts { brokers : list Z; group : option (list Z); topic : option (list Z) }.

(** [initKafka]: what it returns, and which of [rk] and [topics] it has set. A
    topic that is NULL is passed to the library as a string. *)
Definition initKafka (s : setup) (p : opts) (o : kout) : res (Z * bool * bool * kout) :=
  let group := default (codes "rdkafka_consumer_example") (group p) in
  if negb (group_ok s group) then mret (-1, false, false, put_err [PutStr "% "; PutChars (setup_errstr s); PutStr "\n"] o)
  else if negb (store_ok s) then mret (-1, false, false, put_err [PutStr "% "; PutChars (setup_errstr s); PutStr "\n"] o)
  else if negb (new_rk s) then mret (-1, false, false, put_err [PutStr "% Failed to create new consumer:"; PutChars (setup_errstr s); PutStr "\n"] o)
  else if brokers_added s (brokers p) =? 0 then mret (-1, true, false, put_err [PutStr "% No valid brokers specified\n"] o)
  else
    match topic p with
    | None => Err NullPointer
    | Some topic =>
        let err := subscribe_err s topic in
        if negb (err =? 0) then
          mret (-1, true, true, put_err [PutStr "% Failed to start consuming topics: "; PutChars (err2str err); PutStr "\n"] o)
        else mret (1, true, true, o)
    end.

Definition set_opt (s : opts) (x : Z * list Z) : opts :=
  let '(opt, arg) := x in
  if opt =? 98 then mkOpts arg (group s) (topic s)
  else if opt =? 103 then mkOpts (brokers s) (Some arg) (topic s)
  else if opt =? 116 then mkOpts (brokers s) (group s) (Some arg)
  else s.

Definition parse_opts : list (Z * list Z) → opts :=
  foldl set_opt (mkOpts (codes "localhost:9092") None None).

(** What happens while the consumer polls: a message, a poll without one, or
    the signal that [stop] handles. *)
Inductive kevent := Polled (m : option kmsg) | Interrupted.

Definition kstop (run : Z) : Posix.run Z := if run =? 0 then Exit "" 1 else Ret 0.

(** [while (run)]: the events after the end of the loop are not consumed. *)
Fixpoint poll_loop (evs : list kevent) (run : Z) (o : kout) : res (Posix.run kout) :=
  if run =? 0 then mret (Ret o)
  else
    match evs with
    | [] => Err OutOfFuel
    | Interrupted :: evs =>
        match kstop run with
        | Exit m c => mret (Exit m c)
        | Ret run => poll_loop evs run o
        end
    | Polled None :: evs => poll_loop evs run o
    | Polled (Some m) :: evs => let '(run, o) := msg_consume m run o in poll_loop evs run o
    end.

(** [while (run-- > 0 && rd_kafka_wait_destroyed(1000) == -1)]: the final value
    of [run], and how often it waited. *)
Fixpoint wait_loop (fuel : nat) (run : Z) (waits : nat → Z) (k : nat) : res (Z * nat) :=
  match fuel with
  | O => Err OutOfFuel
  | S fuel =>
      if (0 <? run) && (waits k =? -1) then wait_loop fuel (run - 1) waits (S k) else mret (run - 1, k)
  end.

(** The end of [main]: the handle has been destroyed when it is dumped. *)
Definition shutdown (close_err : Z) (waits : nat → Z) (o : kout) : res (kout * Z * bool) :=
  let o := if negb (close_err =? 0)
    then put_err [PutStr "% Failed to close consumer: "; PutChars (err2str close_err); PutStr "\n"] o
    else put_err [PutStr "% Consumer closed\n"] o in
  '(run, k) ← wait_loop 6 5 waits O;
  let o := put_out (mjoin (replicate k [PutStr "Waiting for librdkafka to decommission\n"])) o in
  mret (o, run, run <=? 0).

(** [main]: a NULL handle that is polled faults; the result tells whether the
    destroyed handle was dumped. *)
Definition consumer_main (args : list (Z * list Z)) (s : setup) (evs : list kevent) (close_err : Z) (waits : nat → Z)
  : res (opts * Posix.run (kout * Z * bool)) :=
  let op := parse_opts args in
  '(ret, rk, topics, o) ← initKafka s op (mkKout [] []);
  r ← (if ret =? 0 then mret (Ret (put_err [PutStr "kafka server initialize error\n"] o))
    else if negb rk then Err NullPointer
    else poll_loop evs 1 o);
  match r with
  | Exit m c => mret (op, Exit m c)
  | Ret o =>
      if negb rk then Err NullPointer
      else if negb topics then Err NullPointer
      else d ← shutdown close_err waits o; mret (op, Ret d)
  end.

(** ** producer.c *)

(** The delivery report. *)
Definition dr_msg_cb (m : kmsg) (o : kout) : kout :=
  if negb (m_err m =? 0) then put_err [PutStr "% Message delivery failed: "; PutChars (err2str (m_err m)); PutStr "\n"] o
  else put_err [PutStr "% Message delivered ("; PutInt (Z.of_nat (length (m_payload m))); PutStr " bytes, partition ";
    PutInt (m_partition m); PutStr ")\n"] o.

(** [if (buf[len-1] == '\n') buf[--len] = '\0';] on what [fgets] read. *)
Definition strip_newline (buf : list Z) : res (list Z) :=
  s ← c_chars buf;
  c ← load buf (Z.of_nat (length s) - 1);
  mret (if c =? 10 then take (length s - 1) s else s).

(** [retry]: the number of the next call of [rd_kafka_produce], whose error the
    library reports, and whether the message was enqueued. *)
Definition produce (fuel : nat) (topic_name : list Z) (answer : nat → Z) (msg : list Z) (k : nat) (o : kout) : res (bool * nat * kout) :=
  iter fuel (λ '(k, o),
    let e := answer k in
    if e =? 0 then
      mret (inr (true, S k, put_err [PutStr "% Enqueued message ("; PutInt (Z.of_nat (length msg)); PutStr " bytes) for topic ";
        PutChars topic_name; PutStr "\n"] o))
    else
      let o := put_err [PutStr "% Failed to produce to topic "; PutChars topic_name; PutStr ": "; PutChars (err2str e); PutStr "\n"] o in
      mret (if e =? QUEUE_FULL then inl (S k, o) else inr (false, S k, o))) (k, o).

(** [while (run && fgets(...))], [n] lines at most, from turn [i] on: the messages
    enqueued. Before turn [i] is tested SIGINT has cleared [run] if [intr i]. *)
Fixpoint produce_loop (n fuel : nat) (topic_name : list Z) (answer : nat → Z) (intr : nat → bool) (i : nat) (input : list Z)
    (k : nat) (o : kout) : res (list (list Z) * kout) :=
  if intr i then mret ([], o)
  else
    match fgets 512 input with
    | None => mret ([], o)
    | Some (l, input) =>
        match n with
        | O => Err OutOfFuel
        | S n =>
            msg ← strip_newline (l ++ [0]);
            if (length msg =? 0)%nat then produce_loop n fuel topic_name answer intr (S i) input k o
            else
              '(enq, k, o) ← produce fuel topic_name answer msg k o;
              '(ms, o) ← produce_loop n fuel topic_name answer intr (S i) input k o;
              mret (if (enq : bool) then msg :: ms else ms, o)
        end
    end.

(** [main]: the results of the set-up calls. *)
Definition producer_main (argc : Z) (conf_ok rk rkt : bool) (n fuel : nat) (topic_name : list Z) (answer : nat → Z) (intr : nat → bool)
    (input : list Z) : res (run (list (list Z) * kout)) :=
  if negb (argc =? 3) then mret (Exit "% Usage: <broker> <topic>" 1)
  else if negb conf_ok then mret (Exit "conf" 1)
  else if negb rk then mret (Exit "% Failed to create new producer" 1)
  else if negb rkt then mret (Exit "% Failed to create topic object" 1)
  else
    '(ms, o) ← produce_loop n fuel topic_name answer intr O input O (mkKout [] [PutStr
      "% Type some text and hit enter to produce message\n% Or just hit enter to only serve delivery reports\n% Press Ctrl-C or Ctrl-D to exit\n"]);
    mret (Ret (ms, put_err [PutStr "% Flushing final message.. \n"] o)).
End kafka.
