(* ===== verification/KafkaSpec.v ===== *)
(** The Kafka clients: how the consumer starts and ends, and what the producer
    enqueues. *)
From S2P Require Import Prelude CString Posix TcpConcurrent Sockets SocketsSpec Kafka.

Section spec.
Context (PARTITION_EOF UNKNOWN_PARTITION UNKNOWN_TOPIC QUEUE_FULL : Z) (err2str : Z → list Z).

(** ** The consumer *)

(** The consumer stops for a message that reports an unknown topic or partition. *)
Definition stops (m : kmsg) : bool :=
  negb (m_err m =? 0) && negb (m_err m =? PARTITION_EOF) &&
  ((m_err m =? UNKNOWN_PARTITION) || (m_err m =? UNKNOWN_TOPIC)).

Definition ends (e : kevent) : bool :=
  match e with Interrupted => true | Polled (Some m) => stops m | Polled None => false end.

Lemma msg_consume_run m run o :
  (msg_consume PARTITION_EOF UNKNOWN_PARTITION UNKNOWN_TOPIC err2str m run o).1 = if stops m then 0 else run.
Proof.
  unfold msg_consume, stops. destruct (m_err m =? 0); cbn [negb andb]; [by destruct (_ =? 0)%nat|].
  destruct (m_err m =? PARTITION_EOF); [done|]. cbn [negb andb fst]. done.
Qed.

(** What is printed for the events: each message in turn. *)
Definition heard (evs : list kevent) (o : kout) : kout :=
  foldl (λ o e, match e with
    | Polled (Some m) => (msg_consume PARTITION_EOF UNKNOWN_PARTITION UNKNOWN_TOPIC err2str m 1 o).2 | _ => o end) o evs.

Lemma poll_loop_ends pre e post o :
  Forall (λ e, ends e = false) pre → ends e = true →
  poll_loop PARTITION_EOF UNKNOWN_PARTITION UNKNOWN_TOPIC err2str (pre ++ e :: post) 1 o = Ok (Ret (heard (pre ++ [e]) o)).
Proof.
  intros Hp He. revert o. induction Hp as [|x pre Hx _ IH]; intros o; cbn [app poll_loop Z.eqb heard foldl].
  - destruct e as [[m|]|]; [|done|by destruct post]. cbn in He. pose proof (msg_consume_run m 1 o) as Hr.
    destruct (msg_consume _ _ _ _ m 1 o) as [run o']. cbn in Hr. rewrite He in Hr. subst run. by destruct post.
  - destruct x as [[m|]|]; [|by apply IH|done]. cbn in Hx. pose proof (msg_consume_run m 1 o) as Hr.
    destruct (msg_consume _ _ _ _ m 1 o) as [run o']. cbn in Hr. rewrite Hx in Hr. subst run. apply IH.
Qed.

Lemma poll_loop_waits evs o :
  Forall (λ e, ends e = false) evs → poll_loop PARTITION_EOF UNKNOWN_PARTITION UNKNOWN_TOPIC err2str evs 1 o = Err OutOfFuel.
Proof.
  intros He. revert o. induction He as [|x evs Hx _ IH]; intros o; [done|]. cbn [poll_loop Z.eqb].
  destruct x as [[m|]|]; [|by apply IH|done]. cbn in Hx. pose proof (msg_consume_run m 1 o) as Hr.
  destruct (msg_consume _ _ _ _ m 1 o) as [run o']. cbn in Hr. rewrite Hx in Hr. subst run. apply IH.
Qed.

(** ** The end *)

(** The attempts that fail before the first that does not, at most five. *)
Fixpoint failures (n : nat) (waits : nat → Z) (k : nat) : nat :=
  match n with O => O | S n => if waits k =? -1 then S (failures n waits (S k)) else O end.

Lemma wait_loop_spec waits : ∀ n k,
  (n ≤ 5)%nat → wait_loop (S n) (Z.of_nat n) waits k = Ok (Z.of_nat n - 1 - Z.of_nat (failures n waits k), (k + failures n waits k)%nat).
Proof.
  induction n as [|n IH]; intros k Hn; [cbn; do 2 f_equal; lia|]. remember (S n) as m. cbn [wait_loop failures]. subst m. cbn [failures].
  rewrite (proj2 (Z.ltb_lt 0 (Z.of_nat (S n)))) by lia. cbn [andb]. destruct (waits k =? -1).
  - replace (Z.of_nat (S n) - 1) with (Z.of_nat n) by lia. rewrite IH by lia. do 2 f_equal; lia.
  - do 2 f_equal; lia.
Qed.

(** What [initKafka] prints when a subscription may have failed. *)
Definition started (s : setup) (topic : list Z) : kout :=
  let err := subscribe_err s topic in
  if err =? 0 then mkKout [] []
  else mkKout [] [PutStr "% Failed to start consuming topics: "; PutChars (err2str err); PutStr "\n"].

(** What the end prints, after [k] waits that timed out. *)
Definition ended (close_err : Z) (k : nat) (o : kout) : kout :=
  mkKout (stdout o ++ mjoin (replicate k [PutStr "Waiting for librdkafka to decommission\n"]))
    (stderr o ++ if close_err =? 0 then [PutStr "% Consumer closed\n"]
                 else [PutStr "% Failed to close consumer: "; PutChars (err2str close_err); PutStr "\n"]).

Lemma shutdown_spec close_err waits o :
  let k := failures 5 waits 0 in
  shutdown err2str close_err waits o = Ok (ended close_err k o, 4 - Z.of_nat k, (4 <=? k)%nat).
Proof.
  intros k. unfold shutdown. pose proof (wait_loop_spec waits 5 0 ltac:(lia)) as E. change (Z.of_nat 5) with 5 in E.
  fold k in E. change (0 + k)%nat with k in E. rewrite E, bind_ok. cbn beta iota. unfold ended, put_out, put_err.
  replace (5 - 1 - Z.of_nat k) with (4 - Z.of_nat k) by lia.
  replace (4 - Z.of_nat k <=? 0) with (4 <=? k)%nat by (destruct (Nat.leb_spec 4 k); symmetry; [apply Z.leb_le|apply Z.leb_gt]; lia).
  by destruct (close_err =? 0).
Qed.

(** C39: initKafka returns -1 on a failure, which main does not take for one: without a handle
    NULL is polled; when no broker could be added the loop runs until an event ends it, and
    then the list of topics that was never made is destroyed; without -t a NULL topic is
    added. In every other run, and no signal after the loop, the consumer prints exactly
    what the messages up to the first ending event ask for (the first signal, or report of
    an unknown topic or partition), waits as often as the waits time out, and dumps the
    destroyed handle exactly when four or five of them do, although the fifth may have
    succeeded; before such an event it does not end. *)
Theorem consumer_start_end args s pre e post close_err waits :
  Forall (λ e, ends e = false) pre → ends e = true →
  let main evs := consumer_main PARTITION_EOF UNKNOWN_PARTITION UNKNOWN_TOPIC err2str args s evs close_err waits in
  let op := parse_opts args in
  let handle := group_ok s (default (codes "rdkafka_consumer_example") (group op)) && store_ok s && new_rk s in
  let k := failures 5 waits 0 in
  (handle = false → ∀ evs, main evs = Err NullPointer) ∧
  (handle = true → brokers_added s (brokers op) = 0 → main (pre ++ e :: post) = Err NullPointer ∧ main pre = Err OutOfFuel) ∧
  (handle = true → brokers_added s (brokers op) ≠ 0 → topic op = None → ∀ evs, main evs = Err NullPointer) ∧
  (∀ t, handle = true → brokers_added s (brokers op) ≠ 0 → topic op = Some t →
    main (pre ++ e :: post) =
      Ok (op, Ret (ended close_err k (heard (pre ++ [e]) (started s t)), 4 - Z.of_nat k, (4 <=? k)%nat)) ∧
    main pre = Err OutOfFuel).
Proof.
  intros Hp He main op handle k. subst main. unfold consumer_main, initKafka. fold op. subst handle.
  destruct (group_ok s _), (store_ok s), (new_rk s); cbn [andb negb]; (split; [try done|]); try (split_and!; done).
  destruct (Z.eqb_spec (brokers_added s (brokers op)) 0) as [Hb|Hb].
  { split; [|by split_and!]. intros _ _. rewrite !bind_ok. cbn [Z.eqb negb]. by rewrite (poll_loop_ends pre e post _ Hp He), (poll_loop_waits pre _ Hp). }
  split; [done|]. split; [by intros _ _ ->|]. intros t _ _ ->.
  assert (G : ∀ ret, ret ≠ 0 →
    ∀ evs, (r ← (if ret =? 0 then mret (Ret (put_err [PutStr "kafka server initialize error\n"] (started s t)))
          else if negb true then Err NullPointer
          else poll_loop PARTITION_EOF UNKNOWN_PARTITION UNKNOWN_TOPIC err2str evs 1 (started s t));
       match r with
       | Exit m c => mret (op, Exit m c)
       | Ret o => if negb true then Err NullPointer else if negb true then Err NullPointer
         else d ← shutdown err2str close_err waits o; mret (op, Ret d)
       end) = (r ← poll_loop PARTITION_EOF UNKNOWN_PARTITION UNKNOWN_TOPIC err2str evs 1 (started s t);
               match r with Exit m c => mret (op, Exit m c) | Ret o => mret (op, Ret (ended close_err k o, 4 - Z.of_nat k, (4 <=? k)%nat)) end)).
  { intros ret Hr evs. rewrite (proj2 (Z.eqb_neq ret 0)) by done. cbn [negb]. apply bind_ext. intros [o|m c] _; [|done].
    by rewrite shutdown_spec, bind_ok. }
  pose proof (poll_loop_ends pre e post (started s t) Hp He) as E1. pose proof (poll_loop_waits pre (started s t) Hp) as E2.
  unfold started in *. destruct (subscribe_err s t =? 0); cbn [negb]; rewrite !bind_ok; cbn beta iota.
  - rewrite !(G 1) by done. by rewrite E1, E2.
  - rewrite !(G (-1)) by done. by rewrite E1, E2.
Qed.

(** ** The producer *)

(** The lines that are not empty. *)
Definition texts (ls : list (list Z)) : list (list Z) := filter (λ l, l ≠ []) ls.

Lemma strip_newline_spec l : is_line l → strip_newline ((l ++ [10]) ++ [0]) = Ok l.
Proof.
  intros Hl. unfold strip_newline. rewrite c_chars_app, bind_ok.
  2: { apply nonul_app. split; [by apply is_line_nonul|by repeat constructor]. }
  rewrite (load_ok _ _ 10), bind_ok.
  - rewrite Z.eqb_refl, length_app. cbn [length]. by replace (length l + 1 - 1)%nat with (length l + 0)%nat by lia; rewrite take_app_add, take_0, app_nil_r.
  - rewrite length_app. cbn [length]. lia.
  - rewrite length_app. cbn [length]. rewrite <- app_assoc, lookup_app_r by lia. by replace (_ - _)%nat with 0%nat by lia.
Qed.

(** The queue is full now and then, but not for ever, and nothing else fails. *)
Lemma produce_spec topic answer msg o : ∀ d k j, (k ≤ j)%nat → answer j = 0 → (j - k ≤ d)%nat →
  (∀ k, answer k = 0 ∨ answer k = QUEUE_FULL) → QUEUE_FULL ≠ 0 →
  ∃ k' o', produce QUEUE_FULL err2str (S d) topic answer msg k o = Ok (true, k', o').
Proof.
  intros d k j Hk Hj Hd Ha Hq. revert k o Hk Hd. induction d as [|d IH]; intros k o Hk Hd.
  - replace k with j by lia. unfold produce. cbn [iter]. rewrite Hj. cbn [Z.eqb]. rewrite bind_ok. by eexists _, _.
  - unfold produce. cbn [iter]. destruct (Ha k) as [E|E]; rewrite E.
    + cbn [Z.eqb]. rewrite bind_ok. by eexists _, _.
    + rewrite (proj2 (Z.eqb_neq QUEUE_FULL 0)), Z.eqb_refl, bind_ok by done. apply IH; [|lia].
      assert (k ≠ j) by (intros ->; congruence). lia.
Qed.

Lemma produce_loop_spec topic answer (intr : nat → bool) (gap : nat) :
  (∀ k, answer k = 0 ∨ answer k = QUEUE_FULL) → QUEUE_FULL ≠ 0 →
  (∀ k, ∃ j, (k ≤ j ≤ k + gap)%nat ∧ answer j = 0) →
  ∀ ls n i stop k o, Forall (λ l, is_line l ∧ (length l ≤ 510)%nat) ls → (length ls ≤ n)%nat →
  (∀ j, (j < stop)%nat → intr (i + j)%nat = false) → intr (i + stop)%nat = true ∨ (length ls ≤ stop)%nat →
  ∃ o', produce_loop QUEUE_FULL err2str n (S gap) topic answer intr i (ls ≫= λ l, l ++ [10]) k o = Ok (texts (take stop ls), o').
Proof.
  intros Ha Hq Hgap ls. induction ls as [|l ls IH]; intros n i stop k o Hls Hn Hrun Hstop.
  { rewrite take_nil. destruct n; cbn [produce_loop]; destruct (intr i); by exists o. }
  destruct stop as [|stop].
  { exists o. destruct Hstop as [Hstop|]; [|cbn in *; lia]. rewrite Nat.add_0_r in Hstop. destruct n; cbn [produce_loop]; by rewrite Hstop. }
  pose proof (Hrun 0%nat ltac:(lia)) as H0. rewrite Nat.add_0_r in H0.
  assert (Hrun' : ∀ j, (j < stop)%nat → intr (S i + j)%nat = false).
  { intros j Hj. replace (S i + j)%nat with (i + S j)%nat by lia. apply Hrun. lia. }
  assert (Hstop' : intr (S i + stop)%nat = true ∨ (length ls ≤ stop)%nat).
  { replace (S i + stop)%nat with (i + S stop)%nat by lia. cbn [length] in Hstop. destruct Hstop; [by left|right; lia]. }
  destruct n as [|n]; [cbn in Hn; lia|]. apply Forall_cons in Hls as [[Hl Ll] Hls]. cbn [mbind list_bind produce_loop length take] in *.
  rewrite H0, <- app_assoc. cbn [app]. assert (E : fgets 512 (l ++ 10 :: (ls ≫= λ l, l ++ [10])) = Some (l ++ [10], ls ≫= λ l, l ++ [10])).
  { unfold fgets. change (Z.to_nat (512 - 1)) with 511%nat. rewrite line_of_input_spec by (done || lia). by destruct l. }
  rewrite E, strip_newline_spec, bind_ok by done. unfold texts. rewrite filter_cons. destruct l as [|c l].
  - cbn [length Nat.eqb]. rewrite decide_False by (intros H; by apply H). apply (IH n (S i) stop k o Hls ltac:(lia) Hrun' Hstop').
  - cbn [length Nat.eqb]. rewrite decide_True by done. destruct (Hgap k) as (j & Hj & Ej).
    destruct (produce_spec topic answer (c :: l) o gap k j) as (k' & o' & ->); [lia|done|lia|done|done|].
    rewrite bind_ok. cbn beta iota. destruct (IH n (S i) stop k' o' Hls ltac:(lia) Hrun' Hstop') as (o2 & ->). rewrite bind_ok. by eexists.
Qed.

(** C9: With two arguments and set-up calls that succeed: the input is lines of at most 510
    characters other than NUL and newline, each ended by a newline (a longer one would be
    split); the library refuses messages only because its queue is full, and never more than
    a fixed number of times in a row; SIGINT comes before turn number stop, or not before
    the input is used up. Then the producer ends and has enqueued every non-empty line among
    the first stop lines once and in order. *)
Theorem producer_delivers topic answer intr gap stop ls :
  (∀ k, answer k = 0 ∨ answer k = QUEUE_FULL) → QUEUE_FULL ≠ 0 →
  (∀ k, ∃ j, (k ≤ j ≤ k + gap)%nat ∧ answer j = 0) →
  Forall (λ l, is_line l ∧ (length l ≤ 510)%nat) ls →
  (∀ i, (i < stop)%nat → intr i = false) → intr stop = true ∨ (length ls ≤ stop)%nat →
  ∃ o, producer_main QUEUE_FULL err2str 3 true true true (length ls) (S gap) topic answer intr (ls ≫= λ l, l ++ [10]) =
    Ok (Ret (texts (take stop ls), o)).
Proof.
  intros Ha Hq Hgap Hls Hrun Hstop. unfold producer_main. cbn [Z.eqb Pos.eqb negb].
  match goal with |- context [produce_loop _ _ _ _ _ _ _ _ _ ?k ?o] =>
    destruct (produce_loop_spec topic answer intr gap Ha Hq Hgap ls (length ls) 0 stop k o Hls) as (o' & ->) end;
    [lia|done|done|]. rewrite bind_ok. by eexists.
Qed.
End spec.

Lemma consumer_witness :
  let s b := mkSetup (λ _, true) true b (λ _, 1) (λ _, 0) [] in
  consumer_main (-191) (-190) (-188) (λ _, []) [] (s false) [Interrupted] 0 (λ _, 0) = Err NullPointer ∧
  consumer_main (-191) (-190) (-188) (λ _, []) [] (s true) [Interrupted] 0 (λ _, 0) = Err NullPointer ∧
  consumer_main (-191) (-190) (-188) (λ _, []) [(116, [116])] (s true) [Polled None; Interrupted] 0 (λ k, if (k <? 4)%nat then -1 else 0) =
    Ok (mkOpts (codes "localhost:9092") None (Some [116]), Ret (ended (λ _, []) 0 4 (mkKout [] []), 0, true)).
Proof.
  intros s. split_and!.
  - refine (proj1 (consumer_start_end (-191) (-190) (-188) (λ _, []) [] (s false) [] Interrupted [] 0 (λ _, 0) _ _) _ _); [by constructor|done|done].
  - refine (proj1 (proj2 (proj2 (consumer_start_end (-191) (-190) (-188) (λ _, []) [] (s true) [] Interrupted [] 0 (λ _, 0) _ _))) _ _ _ _);
      [by constructor|done..].
  - refine (proj1 (proj2 (proj2 (proj2 (consumer_start_end (-191) (-190) (-188) (λ _, []) [(116, [116])] (s true) [Polled None] Interrupted [] 0
      (λ k, if (k <? 4)%nat then -1 else 0) _ _))) [116] _ _ _)); [by repeat constructor|done..].
Defined.

Lemma producer_witness :
  ∃ o, producer_main (-184) (λ _, []) 3 true true true 3 3 [116] (λ k, if (k mod 3 =? 2)%nat then 0 else -184) (λ i, (3 <=? i)%nat)
    (codes "one" ++ [10] ++ [10] ++ codes "two" ++ [10]) = Ok (Ret ([codes "one"; codes "two"], o)).
Proof.
  apply (producer_delivers (-184) (λ _, []) [116] (λ k, if (k mod 3 =? 2)%nat then 0 else -184) (λ i, (3 <=? i)%nat) 2 3 [codes "one"; []; codes "two"]).
  - intros k. destruct (k mod 3 =? 2)%nat; auto.
  - done.
  - intros k. exists (k + (2 - k mod 3))%nat. pose proof (Nat.mod_upper_bound k 3 ltac:(lia)). split; [lia|].
    assert (E : ((k + (2 - k mod 3)) mod 3 = 2)%nat).
    { rewrite (Nat.div_mod_eq k 3) at 1. replace (3 * (k / 3) + k mod 3 + (2 - k mod 3))%nat with (2 + (k / 3) * 3)%nat by lia.
      by rewrite Nat.Div0.mod_add. }
    by rewrite E.
  - repeat constructor; try done; apply Nat.leb_le; vm_compute; reflexivity.
  - intros i Hi. by apply Nat.leb_gt.
  - by left.
Defined.
