(* ===== verification/Mysql.v ===== *)
(** [src/cpp/mysql]: the connection pool of dbpool.c and the statements of
    crud.c.  The client library of MySQL is a parameter: pointers are integers,
    zero is NULL, and its calls' results are arguments. *)
From S2P Require Import Prelude CString Posix Rsa.

(** ** dbpool.c *)

Definition MAX_CONNECTIONS : Z := 10.

Record conpool := mkPool { size : Z; busy : Z; flag : list Z; cons : list cell }.

(** [init_con]: [mysql_init] returned [my], and [mysql_real_connect] [ret];
    the output of a failure goes with the exit. *)
Definition init_con (my ret : Z) : run Z := if ret =? 0 then Exit "mysql con init failed" (-1) else Ret my.

Definition createConPool : conpool :=
  mkPool MAX_CONNECTIONS 0 (replicate (Z.to_nat MAX_CONNECTIONS) 0) (replicate (Z.to_nat MAX_CONNECTIONS) None).

(** [init_pool]: the library's answers to the connection attempts. *)
Definition init_pool (db : Z → Z * Z) : res (run (conpool * list output)) :=
  let p := createConPool in
  r ← iter (S (Z.to_nat (size p))) (λ '(i, p),
    if i <? size p then
      match init_con (db i).1 (db i).2 with
      | Exit m c => mret (inr (Exit m c))
      | Ret my =>
          cs ← store_init (cons p) i my;
          mret (inl (i + 1, mkPool (size p) (busy p) (flag p) cs))
      end
    else mret (inr (Ret p))) (0, p);
  match r with
  | Exit m c => mret (Exit m c)
  | Ret p => mret (Ret (p, [PutStr "init "; PutInt (size p); PutStr " cons in pool\n"]))
  end.

(** [get_con]: NULL when every connection is busy. *)
Definition get_con (p : conpool) : res (conpool * Z) :=
  r ← for_ret (Z.to_nat (size p)) 0 (λ i,
    f ← load (flag p) i;
    if f =? 0 then
      pcon ← load_init (cons p) i;
      fl ← store (flag p) i 1;
      b ← chk_int (busy p + 1);
      mret (Some (mkPool (size p) b fl (cons p), pcon))
    else mret None);
  mret (match r with Some x => x | None => (p, 0) end).

Definition release_con (p : conpool) (pcon : Z) : res conpool :=
  r ← for_ret (Z.to_nat (size p)) 0 (λ i,
    c ← load_init (cons p) i;
    if pcon =? c then
      fl ← store (flag p) i 0;
      b ← chk_int (busy p - 1);
      mret (Some (mkPool (size p) b fl (cons p)))
    else mret None);
  mret (match r with Some p => p | None => p end).

(** [destroy_pool]: the connections that are closed. *)
Definition destroy_pool (pool : option conpool) : res (list Z) :=
  match pool with
  | Some p => for_range 0 (size p) (λ i l, c ← load_init (cons p) i; mret (l ++ [c])) []
  | None => mret []
  end.

(** [%p] *)
Definition put_ptr (p : Z) : output :=
  if p =? 0 then PutStr "(nil)" else PutChars (codes "0x" ++ hex_digits 97 16 p).

(** [main]: what it prints before [getchar], and the connections closed. *)
Definition dbpool_main (db : Z → Z * Z) : res (run (list output * list Z)) :=
  r ← init_pool db;
  match r with
  | Exit m c => mret (Exit m c)
  | Ret (p, out) =>
      let out := out ++ [PutStr "ppool init ,size "; PutInt (size p); PutStr "\n"] in
      '(p, con1) ← get_con p;
      '(p, con2) ← get_con p;
      '(p, con3) ← get_con p;
      let out := out ++ [PutStr "get con con1 "; put_ptr con1; PutStr "\n"; PutStr "get con con2 "; put_ptr con2; PutStr "\n";
        PutStr "get con con3 "; put_ptr con3; PutStr "\n"] in
      p ← release_con p con3;
      closed ← destroy_pool (Some p);
      mret (Ret (out ++ [PutStr "release con3 "; put_ptr con3; PutStr "\n"; PutStr "destroy pool\n"], closed))
  end.

(** ** crud.c *)

(** The session: the connections opened and closed, and the output. *)
Record session := mkSession { opened : list Z; closed : list Z; out : list output }.

Definition session0 : session := mkSession [] [] [].
Definition say (o : list output) (s : session) : session := mkSession (opened s) (closed s) (out s ++ o).
Definition mysql_close (my : Z) (s : session) : session := mkSession (opened s) (closed s ++ [my]) (out s).

Section crud.
(** [mysql_get_client_info], [mysql_init], the result of [mysql_real_connect],
    [mysql_get_server_info] and [mysql_query]. *)
Context (client server : list Z) (my ret : Z) (query : string → Z).

(** The exit goes with what was printed. *)
Definition get_connection (s : session) : session * run Z :=
  let s := say [PutStr "mysql client version, "; PutChars client; PutStr "\n"] s in
  if ret =? 0 then (say [PutStr "mysql conenct failed!\n"] s, Exit "" (-1))
  else
    (say [PutStr "mysql server version, "; PutChars server; PutStr "\n"] (mkSession (opened s ++ [my]) (closed s) (out s)), Ret my).

(** [insert_dt], [update_dt] and [delete_dt] differ in the statement and a word. *)
Definition exec_dt (sql word : string) (s : session) : session * run Z :=
  let '(s, r) := get_connection s in
  match r with
  | Exit m c => (s, Exit m c)
  | Ret my =>
      let s := say [PutStr "mysql connected!\n"] s in
      let result := query sql in
      if negb (result =? 0) then (say [PutStr "execute failed, "; PutStr sql; PutStr "\n"] s, Ret 2)
      else
        let s := say [PutStr "execute success, "; PutStr sql; PutStr ", "; PutInt result; PutStr "\n";
          PutStr word; PutStr " data finish\n"] s in
        (say [PutStr "connection closed\n"] (mysql_close my s), Ret 0)
  end.

Definition insert_sql : string := "insert into test.a(a,b) values ('testa', 'testb')".
Definition update_sql : string := "update test.a set a='testa1' where a='testa' limit 1;".
Definition delete_sql : string := "delete from test.a where a='testa1' limit 1;".
Definition select_sql : string := "select id, a, b from a limit 5".

Definition insert_dt : session → session * run Z := exec_dt insert_sql "insert".
Definition update_dt : session → session * run Z := exec_dt update_sql "update".
Definition delete_dt : session → session * run Z := exec_dt delete_sql "delete".

(** A row printed: NULL for a row that is not there, or a column without a value. *)
Definition print_row (cols : Z) (row : option (list (option (list Z)))) (o : list output) : res (list output) :=
  o ← for_range 0 cols (λ j o,
    match row with
    | None => Err NullPointer
    | Some r =>
        v ← load r j;
        match v with None => Err NullPointer | Some v => mret (o ++ [PutChars v; PutStr "\t"]) end
    end) o;
  mret (o ++ [PutStr "\n"]).

(** [select_dt]: the column names and the rows of the result. *)
Definition select_dt (fields : list (list Z)) (rows : list (list (option (list Z)))) (s : session) : res (session * run Z) :=
  let '(s, r) := get_connection s in
  match r with
  | Exit m c => mret (s, Exit m c)
  | Ret my =>
      let s := say [PutStr "mysql connected!\n"] s in
      if negb (query select_sql =? 0) then
        mret (say [PutStr "execute failed, "; PutStr select_sql; PutStr "\n"] s, Ret (-2))
      else
        let s := say [PutStr "execute success, "; PutStr select_sql; PutStr "\n"] s in
        let cols := Z.of_nat (length fields) in
        o ← for_range 0 cols (λ i o, f ← load fields i; mret (o ++ [PutChars f; PutStr "\t"])) [];
        o ← for_range 0 3 (λ i o, print_row cols (rows !! Z.to_nat i) o) (o ++ [PutStr "\n"]);
        let s := say (o ++ [PutStr "select data finish\n"]) s in
        mret (say [PutStr "connection closed\n"] (mysql_close my s), Ret 0)
  end.

(** [main] of crud.c. *)
Definition crud_main (fields : list (list Z)) (rows : list (list (option (list Z)))) : res (session * run Z) :=
  '(s, r) ← select_dt fields rows session0;
  mret (s, match r with Exit m c => Exit m c | Ret _ => Ret 0 end).
End crud.
