(* ===== verification/MysqlSpec.v ===== *)
(** The connection pool: what clients that release only what they hold see,
    and what happens to the others; the statements. *)
From stdpp Require Import relations.
From S2P Require Import Prelude CString Posix Rsa Mysql.

(** ** The pool *)

(** The connections whose flag is set. *)
Definition taken (cs fl : list Z) : list Z := omap (λ '(c, f), if f =? 0 then None else Some c) (zip cs fl).

(** The invariant, for the connections [cs] and those that clients [held]. *)
Record pool_inv (cs : list Z) (p : conpool) (held : list Z) : Prop := {
  pool_size : size p = MAX_CONNECTIONS;
  pool_cons : cons p = Some <$> cs;
  pool_length : length cs = 10%nat;
  pool_flags : length (flag p) = 10%nat;
  pool_held : held ≡ₚ taken cs (flag p);
  pool_busy : busy p = Z.of_nat (length held)
}.

Lemma taken_length cs fl : (length (taken cs fl) ≤ length fl)%nat.
Proof.
  unfold taken. revert fl. induction cs as [|c cs IH]; intros [|f fl]; cbn; [lia..|]. specialize (IH fl).
  destruct (f =? 0); cbn; lia.
Qed.

Lemma taken_set cs fl i c :
  length cs = length fl → cs !! i = Some c → fl !! i = Some 0 → taken cs (<[i := 1]> fl) ≡ₚ c :: taken cs fl.
Proof.
  revert fl i. induction cs as [|d cs IH]; intros [|f fl] [|i] Hl Hc Hf; try done; cbn in *.
  - injection Hc as ->. injection Hf as ->. done.
  - unfold taken in *. cbn. specialize (IH fl i ltac:(lia) Hc Hf). destruct (f =? 0); [done|]. rewrite IH. constructor.
Qed.

Lemma taken_full cs fl : length cs = length fl → (∀ i f, fl !! i = Some f → f ≠ 0) → taken cs fl = cs.
Proof.
  revert fl. induction cs as [|c cs IH]; intros [|f fl] Hl Hf; try done. unfold taken in *. cbn.
  destruct (Z.eqb_spec f 0) as [->|]; [by destruct (Hf 0%nat 0)|]. f_equal. apply IH; [cbn in Hl; lia|].
  intros i g Hg. by apply (Hf (S i)).
Qed.

(** A flag that is cleared was set. *)
Lemma taken_clear cs fl i c :
  length cs = length fl → NoDup cs → cs !! i = Some c → c ∈ taken cs fl → taken cs fl ≡ₚ c :: taken cs (<[i := 0]> fl).
Proof.
  revert fl i. induction cs as [|d cs IH]; intros [|f fl] [|i] Hl Hn Hc Hin; try done; apply NoDup_cons in Hn as [Hd Hn];
    unfold taken in *; cbn in *.
  - injection Hc as ->. destruct (f =? 0); [|done]. exfalso. apply list_elem_of_omap in Hin as ([x g] & Hx & Hg).
    apply elem_of_zip_l in Hx. destruct (g =? 0); [done|]. by injection Hg as ->.
  - assert (d ≠ c) by (intros ->; apply Hd; by apply list_elem_of_lookup_2 in Hc).
    destruct (f =? 0); [by apply IH; [lia|..]|]. apply elem_of_cons in Hin as [->|Hin]; [done|].
    rewrite (IH fl i) by (done || lia). constructor.
Qed.

(** The first idle connection. *)
Lemma get_con_spec cs p held :
  pool_inv cs p held →
  (∃ i c fl, flag p !! i = Some 0 ∧ (∀ j f, (j < i)%nat → flag p !! j = Some f → f ≠ 0) ∧ cs !! i = Some c ∧
    fl = <[i := 1]> (flag p) ∧ get_con p = Ok (mkPool (size p) (busy p + 1) fl (cons p), c) ∧ pool_inv cs (mkPool (size p) (busy p + 1) fl (cons p)) (c :: held)) ∨
  (get_con p = Ok (p, 0) ∧ held ≡ₚ cs).
Proof.
  intros [Hs Hc Lc Lf Hh Hb]. pose proof (taken_length cs (flag p)) as Ht. rewrite <- Hh, Lf in Ht. unfold get_con. rewrite Hs.
  destruct (list_find (λ f, f = 0) (flag p)) as [[i f]|] eqn:E.
  - apply list_find_Some in E as (Ei & -> & Hlt). pose proof (lookup_lt_Some _ _ _ Ei) as Hi.
    destruct (lookup_lt_is_Some_2 cs i) as [c Hci]; [lia|]. left. exists i, c, (<[i := 1]> (flag p)).
    split; [done|]. split; [intros j f Hj Hf; by apply (Hlt j)|]. split; [done|]. split; [done|]. split.
    + rewrite (for_ret_stop _ 0 (Z.of_nat i) (mkPool MAX_CONNECTIONS (busy p + 1) (<[i := 1]> (flag p)) (cons p), c)).
      * done.
      * unfold MAX_CONNECTIONS. lia.
      * intros j Hj. destruct (lookup_lt_is_Some_2 (flag p) (Z.to_nat j)) as [f Hf]; [lia|].
        rewrite (load_ok _ _ f), bind_ok by (done || lia). pose proof (Hlt _ _ Hf ltac:(lia)). by destruct (Z.eqb_spec f 0).
      * rewrite (load_ok _ _ 0), bind_ok by (lia || by rewrite Nat2Z.id). cbn [Z.eqb].
        rewrite Hc, (load_init_ok _ _ c), bind_ok by (lia || by rewrite Nat2Z.id, list_lookup_fmap, Hci).
        rewrite store_ok, bind_ok, Nat2Z.id, chk_int_ok, bind_ok by (unfold INT_MIN, INT_MAX; lia). done.
    + rewrite <- Hs. split; cbn; try done; [by rewrite length_insert| |lia]. by rewrite taken_set, Hh by (congruence || done).
  - right. apply list_find_None in E. split.
    + rewrite for_ret_end; [done|]. intros j Hj. unfold MAX_CONNECTIONS in Hj.
      destruct (lookup_lt_is_Some_2 (flag p) (Z.to_nat j)) as [f Hf]; [lia|].
      rewrite (load_ok _ _ f), bind_ok by (done || lia). pose proof (proj1 (Forall_lookup _ _) E _ _ Hf). by destruct (Z.eqb_spec f 0).
    + rewrite Hh, taken_full; [done|congruence|]. intros i f Hf. by apply (proj1 (Forall_lookup _ _) E _ _ Hf).
Qed.

Lemma release_found cs p i c :
  size p = MAX_CONNECTIONS → cons p = Some <$> cs → length cs = 10%nat → length (flag p) = 10%nat → NoDup cs → cs !! i = Some c →
  -10 ≤ busy p ≤ 10 → release_con p c = Ok (mkPool (size p) (busy p - 1) (<[i := 0]> (flag p)) (cons p)).
Proof.
  intros Hs Hc Lc Lf Hn Hi Hb. unfold release_con. rewrite Hs. pose proof (lookup_lt_Some _ _ _ Hi).
  rewrite (for_ret_stop _ 0 (Z.of_nat i) (mkPool MAX_CONNECTIONS (busy p - 1) (<[i := 0]> (flag p)) (cons p))); [done|unfold MAX_CONNECTIONS; lia| |].
  - intros j Hj. destruct (lookup_lt_is_Some_2 cs (Z.to_nat j)) as [d Hd]; [lia|].
    rewrite Hc, (load_init_ok _ _ d), bind_ok by (lia || by rewrite list_lookup_fmap, Hd).
    destruct (Z.eqb_spec c d) as [->|]; [|done]. pose proof (NoDup_lookup _ _ _ _ Hn Hd Hi). lia.
  - rewrite Hc, (load_init_ok _ _ c), bind_ok, Z.eqb_refl by (lia || by rewrite Nat2Z.id, list_lookup_fmap, Hi).
    rewrite store_ok, bind_ok, Nat2Z.id, chk_int_ok, bind_ok by (unfold INT_MIN, INT_MAX; lia). done.
Qed.

Lemma release_other cs p c :
  size p = MAX_CONNECTIONS → cons p = Some <$> cs → length cs = 10%nat → c ∉ cs → release_con p c = Ok p.
Proof.
  intros Hs Hc Lc Hn. unfold release_con. rewrite Hs, for_ret_end; [done|]. intros j Hj. unfold MAX_CONNECTIONS in Hj.
  destruct (lookup_lt_is_Some_2 cs (Z.to_nat j)) as [d Hd]; [lia|].
  rewrite Hc, (load_init_ok _ _ d), bind_ok by (lia || by rewrite list_lookup_fmap, Hd).
  destruct (Z.eqb_spec c d) as [->|]; [|done]. by apply list_elem_of_lookup_2 in Hd.
Qed.

(** Clients that take connections and release those that they hold. *)
Inductive pool_step : conpool * list Z → conpool * list Z → Prop :=
| get_step p p' c held : get_con p = Ok (p', c) → c ≠ 0 → pool_step (p, held) (p', c :: held)
| none_step p p' held : get_con p = Ok (p', 0) → pool_step (p, held) (p', held)
| release_step p p' c l1 l2 : release_con p c = Ok p' → pool_step (p, l1 ++ c :: l2) (p', l1 ++ l2).

Lemma pool_step_inv cs s s' :
  NoDup cs → (0 : Z) ∉ cs → pool_inv cs s.1 s.2 → pool_step s s' → pool_inv cs s'.1 s'.2.
Proof.
  intros Hn H0 Hi Hstep. destruct Hstep as [p p' c held E Hc|p p' held E|p p' c l1 l2 E]; cbn in *.
  - destruct (get_con_spec cs p held Hi) as [(i & c' & fl & _ & _ & _ & _ & E' & Hi')|[E' _]]; rewrite E in E'; [|by simplify_eq].
    by simplify_eq.
  - destruct (get_con_spec cs p held Hi) as [(i & c' & fl & _ & _ & Hc & _ & E' & Hi')|[E' _]]; rewrite E in E'; simplify_eq; [|done].
    by apply list_elem_of_lookup_2 in Hc.
  - pose proof Hi as [Hs Hcs Lc Lf Hh Hb]. assert (Hin : c ∈ taken cs (flag p)) by (rewrite <- Hh; set_solver).
    assert (Hin' : c ∈ cs).
    { unfold taken in Hin. apply list_elem_of_omap in Hin as ([x g] & Hx & Hg). apply elem_of_zip_l in Hx.
      destruct (g =? 0); [done|]. by injection Hg as ->. }
    apply list_elem_of_lookup in Hin' as [i Hi']. pose proof (taken_length cs (flag p)) as Ht. rewrite <- Hh, length_app in Ht. cbn [length] in Ht.
    rewrite length_app in Hb. cbn [length] in Hb.
    rewrite (release_found cs p i c) in E by (done || lia). injection E as <-.
    split; cbn; try done; [by rewrite length_insert| |rewrite length_app; lia].
    rewrite (taken_clear cs (flag p) i c) in Hh by (congruence || done). rewrite <- Permutation_middle in Hh. by apply Permutation_cons_inv in Hh.
Qed.

(** A library that makes the connections [cs]. *)
Definition serves (db : Z → Z * Z) (cs : list Z) : Prop :=
  length cs = 10%nat ∧ NoDup cs ∧ ((0 : Z) ∉ cs) ∧ ∀ i c, cs !! i = Some c → ∃ ret, ret ≠ 0 ∧ db (Z.of_nat i) = (c, ret).

Lemma init_pool_spec db cs :
  serves db cs → ∃ p out, init_pool db = Ok (Ret (p, out)) ∧ pool_inv cs p [].
Proof.
  intros (Lc & Hn & H0 & Hdb). unfold init_pool. match goal with |- context [iter _ ?s _] => set (step := s) end.
  set (fl := replicate 10 0).
  destruct (iter_inv (λ '(i, p), 0 ≤ i ≤ 10 ∧ p = mkPool 10 0 fl ((Some <$> take (Z.to_nat i) cs) ++ replicate (10 - Z.to_nat i) None))
    (λ r, r = Ret (mkPool 10 0 fl (Some <$> cs))) step (λ '(i, _), Z.to_nat (10 - i)) (S (Z.to_nat (size createConPool))) (0, createConPool))
    as (r & -> & ->).
  - done.
  - by apply Nat.ltb_lt.
  - intros [i p] (Hi & ->). unfold step. cbn [size busy flag cons]. destruct (Z.ltb_spec i 10) as [H|H].
    + left. destruct (lookup_lt_is_Some_2 cs (Z.to_nat i)) as [c Hc]; [lia|].
      destruct (Hdb _ _ Hc) as (ret & Hr & E). rewrite Z2Nat.id in E by lia. rewrite E. cbn [fst snd]. unfold init_con.
      rewrite (proj2 (Z.eqb_neq ret 0)) by done. unfold store_init. rewrite store_ok, bind_ok.
      2:{ rewrite length_app, length_fmap, length_take, length_replicate. lia. }
      eexists. split; [reflexivity|]. split; [|lia]. split; [lia|]. f_equal.
      replace (Z.to_nat (i + 1)) with (S (Z.to_nat i)) by lia. rewrite (take_S_r _ _ c), fmap_app, <- app_assoc by done.
      rewrite insert_app_r_alt by (rewrite length_fmap, length_take; lia). rewrite length_fmap, length_take.
      replace (Z.to_nat i - Z.to_nat i `min` length cs)%nat with O by lia.
      by replace (10 - Z.to_nat i)%nat with (S (10 - S (Z.to_nat i))) by lia.
    + right. eexists. split; [reflexivity|]. replace (Z.to_nat i) with 10%nat by lia. rewrite firstn_all2 by lia.
      by rewrite Nat.sub_diag, app_nil_r.
  - rewrite bind_ok. eexists _, _. split; [reflexivity|]. split; cbn; try done.
    do 10 (destruct cs as [|? cs]; [done|]). by destruct cs.
Qed.

(** C12: Whatever sequence of get_con and release_con clients perform that release only what
    they hold, no connection is held twice, busy counts the connections held and is between
    0 and 10, and get_con returns a connection that nobody holds, or NULL exactly when all
    ten are held. *)
Theorem pool_exclusive db cs p0 out p held :
  serves db cs → init_pool db = Ok (Ret (p0, out)) → rtc pool_step (p0, []) (p, held) →
  NoDup held ∧ held ⊆ cs ∧ busy p = Z.of_nat (length held) ∧ 0 ≤ busy p ≤ 10 ∧
  ((busy p = 10 ∧ get_con p = Ok (p, 0)) ∨
   ∃ p' c, get_con p = Ok (p', c) ∧ c ∈ cs ∧ (c ∉ held) ∧ busy p' = busy p + 1).
Proof.
  intros Hs E0 Hr. destruct (init_pool_spec db cs Hs) as (p1 & o1 & E1 & Hi). rewrite E1 in E0. injection E0 as -> ->.
  destruct Hs as (Lc & Hn & H0 & Hdb).
  assert (Hi' : pool_inv cs p held).
  { refine (rtc_ind_r (λ s, pool_inv cs s.1 s.2) (p0, []) Hi _ (p, held) Hr). intros s s' _ Hstep Hinv. by apply (pool_step_inv cs s s'). }
  pose proof Hi' as [Hsz Hcs _ Lf Hh Hb]. pose proof (taken_length cs (flag p)) as Ht. rewrite <- Hh, Lf in Ht.
  assert (Hsub : ∀ fl, taken cs fl ⊆ cs ∧ NoDup (taken cs fl)).
  { clear -Hn. intros fl. unfold taken. revert fl. induction cs as [|c cs IH]; intros fl; [split; [done|constructor]|].
    apply NoDup_cons in Hn as [Hc Hn]. destruct fl as [|f fl]; [split; [set_solver|constructor]|]. destruct (IH Hn fl) as [Hs Hd]. cbn.
    destruct (f =? 0); [split; [set_solver|done]|]. split; [set_solver|]. constructor; [set_solver|done]. }
  destruct (Hsub (flag p)) as [S1 S2]. split; [by rewrite Hh|]. split; [by rewrite Hh|]. split; [done|]. split; [lia|].
  destruct (get_con_spec cs p held Hi') as [(i & c & fl & _ & _ & Hc & _ & E & Hi2)|[E Hfull]].
  - right. exists (mkPool (size p) (busy p + 1) fl (cons p)), c. split; [done|]. split; [by apply list_elem_of_lookup_2 in Hc|].
    assert (N : NoDup (c :: held)) by (rewrite (pool_held _ _ _ Hi2); apply Hsub). by apply NoDup_cons in N as [N _].
  - left. split; [|done]. rewrite Hb, Hfull, Lc. done.
Qed.

Definition db_example (i : Z) : Z * Z := (4096 + i, 1).

Lemma pool_witness :
  ∃ p0 out p c, init_pool db_example = Ok (Ret (p0, out)) ∧ get_con p0 = Ok (p, c) ∧ c = 4096 ∧ busy p = 1.
Proof.
  eexists _, _, _, _. split; [vm_compute; reflexivity|]. split; [vm_compute; reflexivity|]. split; [reflexivity|].
  match goal with |- busy ?p = _ =>
    refine (proj1 (proj2 (proj2 (pool_exclusive db_example (seqZ 4096 10) _ _ p [4096] _ ltac:(vm_compute; reflexivity) _)))) end.
  - split; [reflexivity|]. split; [apply NoDup_seqZ|]. split; [intros H; apply elem_of_seqZ in H; lia|].
    intros i c Hi. exists 1. split; [done|]. apply lookup_seqZ in Hi as [-> _]. done.
  - apply rtc_once. apply get_step; [vm_compute; reflexivity|done].
Defined.

(** Releasing a connection that is idle makes busy negative, and a connection that is released
    twice is handed to two clients while busy counts one. *)
Theorem release_twice cs p c :
  pool_inv cs p [] → NoDup cs → c ∈ cs →
  (∃ p', release_con p c = Ok p' ∧ busy p' = -1) ∧
  ∃ p1 p2 p3 p4 p5 d, get_con p = Ok (p1, d) ∧ release_con p1 d = Ok p2 ∧ get_con p2 = Ok (p3, d) ∧
    release_con p3 d = Ok p4 ∧ get_con p4 = Ok (p5, d) ∧ busy p5 = 1.
Proof.
  intros Hi Hn Hc. pose proof Hi as [Hs Hcs Lc Lf Hh Hb]. apply list_elem_of_lookup in Hc as [i Hci]. split.
  { eexists. split; [apply (release_found cs p i c); try done; cbn in Hb; lia|]. cbn. rewrite Hb. done. }
  (* a turn of taking and releasing brings the pool back *)
  assert (G : ∃ p1 d j, get_con p = Ok (p1, d) ∧ cs !! j = Some d ∧ flag p !! j = Some 0 ∧ pool_inv cs p1 [d] ∧ p1 = mkPool (size p) (busy p + 1) (<[j := 1]> (flag p)) (cons p)).
  { destruct (get_con_spec cs p [] Hi) as [(j & d & fl & Hj & _ & Hd & -> & E & Hi')|[_ Hf]].
    - eexists _, d, j. split; [exact E|]. done.
    - apply Permutation_nil_l in Hf. by subst cs. }
  destruct G as (p1 & d & j & E1 & Hd & Hj & Hi1 & Ep1).
  assert (E2 : release_con p1 d = Ok p).
  { pose proof Hi1 as [Hs1 Hcs1 _ Lf1 _ Hb1]. rewrite (release_found cs p1 j d) by (done || (cbn in Hb1; lia)). subst p1. cbn.
    rewrite list_insert_insert_eq, list_insert_id by done. replace (busy p + 1 - 1) with (busy p) by lia. by destruct p. }
  exists p1, p, p1, p, p1, d. split; [done|]. split; [done|]. split; [done|]. split; [done|]. split; [done|].
  subst p1. cbn. rewrite Hb. done.
Qed.

Lemma release_twice_witness :
  ∃ p out p', init_pool db_example = Ok (Ret (p, out)) ∧ release_con p 4099 = Ok p' ∧ busy p' = -1.
Proof.
  destruct (init_pool_spec db_example (seqZ 4096 10)) as (p & out & E & Hi).
  - split; [reflexivity|]. split; [apply NoDup_seqZ|]. split; [intros H; apply elem_of_seqZ in H; lia|].
    intros i c Hi. exists 1. split; [done|]. apply lookup_seqZ in Hi as [-> _]. done.
  - destruct (release_twice (seqZ 4096 10) p 4099 Hi (NoDup_seqZ _ _) ltac:(apply elem_of_seqZ; lia)) as [(p' & E' & B) _].
    by exists p, out, p'.
Defined.

(** ** The statements *)

Lemma print_row_null cols o : 0 < cols → print_row cols None o = Err NullPointer.
Proof. intros H. unfold print_row. by rewrite for_range_step. Qed.

(** A statement that fails leaves its connection open, one that succeeds closes it; select_dt
    prints three rows always, and dereferences NULL when the result has fewer. *)
Theorem crud_sessions client server my ret query :
  ret ≠ 0 →
  (∀ sql word, ∃ o, exec_dt client server my ret query sql word session0 =
    (mkSession [my] (if query sql =? 0 then [my] else []) o, Ret (if query sql =? 0 then 0 else 2))) ∧
  (∀ fields rows, query select_sql ≠ 0 → ∃ o,
    select_dt client server my ret query fields rows session0 = Ok (mkSession [my] [] o, Ret (-2))) ∧
  (∀ fields rows, query select_sql = 0 → fields ≠ [] → (length rows < 3)%nat →
    Forall (λ r, length r = length fields ∧ Forall (λ v, v ≠ None) r) rows →
    select_dt client server my ret query fields rows session0 = Err NullPointer).
Proof.
  intros Hr. unfold exec_dt, select_dt, get_connection. rewrite (proj2 (Z.eqb_neq ret 0)) by done. split; [|split].
  - intros sql word. destruct (Z.eqb_spec (query sql) 0) as [E|E]; cbn [negb]; eexists; reflexivity.
  - intros fields rows Hq. rewrite (proj2 (Z.eqb_neq (query select_sql) 0)) by done. cbn [negb]. eexists. reflexivity.
  - intros fields rows Hq Hf Hl Hrows. rewrite Hq. cbn [negb Z.eqb].
    assert (Hn : 0 < Z.of_nat (length fields)) by (destruct fields; [done|cbn [length]; lia]).
    destruct (for_range_inv (λ _ _, True) (λ i o, f ← load fields i; mret (o ++ [PutChars f; PutStr "\t"])) 0 (Z.of_nat (length fields)) [])
      as (o & -> & _); [lia|done| |].
    { intros i s Hi _. destruct (lookup_lt_Z fields i Hi) as [f Hf']. rewrite (load_ok _ _ f), bind_ok by (done || lia). eauto. }
    rewrite bind_ok. assert (Hrow : ∀ k o, (k < length rows)%nat → ∃ o', print_row (Z.of_nat (length fields)) (rows !! k) o = Ok o').
    { intros k o' Hk. destruct (lookup_lt_is_Some_2 rows k Hk) as [r Hk']. rewrite Hk'. unfold print_row.
      destruct (proj1 (Forall_lookup _ _) Hrows _ _ Hk') as [Lr Hv].
      destruct (for_range_inv (λ _ _, True) (λ j o, v ← load r j; match v with None => Err NullPointer | Some v => mret (o ++ [PutChars v; PutStr "\t"]) end)
        0 (Z.of_nat (length fields)) o') as (o2 & -> & _); [lia|done| |by eauto].
      intros j s Hj _. destruct (lookup_lt_Z r j ltac:(lia)) as [v Hv']. rewrite (load_ok _ _ v), bind_ok by (done || lia).
      destruct v as [v|]; [by eauto|]. by destruct (proj1 (Forall_lookup _ _) Hv _ _ Hv'). }
    generalize (o ++ [PutStr "\n"]). clear o. intros o. rewrite for_range_step by lia.
    destruct (decide (0 < length rows)%nat) as [H0|H0].
    + destruct (Hrow 0%nat o H0) as (o1 & E1). change (Z.to_nat 0) with 0%nat. rewrite E1, bind_ok, for_range_step by lia.
      destruct (decide (1 < length rows)%nat) as [H1|H1].
      * destruct (Hrow 1%nat o1 H1) as (o2 & E2). change (Z.to_nat (0 + 1)) with 1%nat. rewrite E2, bind_ok, for_range_step by lia.
        change (Z.to_nat (0 + 1 + 1)) with 2%nat. rewrite lookup_ge_None_2 by lia. by rewrite print_row_null.
      * change (Z.to_nat (0 + 1)) with 1%nat. rewrite (lookup_ge_None_2 rows 1) by lia. by rewrite print_row_null.
    + change (Z.to_nat 0) with 0%nat. rewrite lookup_ge_None_2 by lia. by rewrite print_row_null.
Qed.

Lemma crud_witness :
  select_dt [56] [56] 4096 1 (λ _, 0) [[105; 100]] [[Some [49]]] session0 = Err NullPointer.
Proof.
  refine (proj2 (proj2 (crud_sessions [56] [56] 4096 1 (λ _, 0) _)) [[105; 100]] [[Some [49]]] _ _ _ _).
  - done.
  - done.
  - done.
  - cbn. lia.
  - repeat constructor; done.
Defined.
