(* ===== verification/WebClient.v ===== *)
(** [src/cpp/httpClient.c]: a program that downloads the page of a URL.

    The network and the file system are arguments: whether the host is known,
    the results of [socket] and [connect], the answers of [write], whether the
    file opens, and the bytes that [read] delivers one by one. *)
From S2P Require Import Prelude CString Posix.

(** ** Strings *)

(** [strchr]: the place of the character, if it occurs. *)
Fixpoint strchr (s : list Z) (x : Z) : res (option Z) :=
  match s with
  | [] => Err OutOfBounds
  | c :: s =>
      if c =? x then mret (Some 0)
      else if c =? 0 then mret None
      else r ← strchr s x; mret (option_map (Z.add 1) r)
  end.

(** [Rstrchr]: the offset of the last [x]. *)
Definition Rstrchr (s : list Z) (x : Z) : res (option Z) :=
  i ← c_strlen s;
  c0 ← load s 0;
  if c0 =? 0 then mret None
  else
    iter (S (Z.to_nat i)) (λ i,
      c ← load s (i - 1);
      if c =? 0 then mret (inr None)
      else
        t ← ptr s (i - 1);
        r ← strchr t x;
        mret (match r with Some _ => inr (Some (i - 1)) | None => inl (i - 1) end)) i.

(** [tolower] of the C locale: it is undefined on negative characters but EOF. *)
Definition tolower (c : Z) : res Z :=
  if c <? -1 then Err OutOfBounds
  else mret (if (65 <=? c) && (c <=? 90) then c + 32 else c).

Fixpoint ToLowerCase (s : list Z) : res (list Z) :=
  match s with
  | [] => Err OutOfBounds
  | c :: s => if c =? 0 then mret (c :: s) else d ← tolower c; s ← ToLowerCase s; mret (d :: s)
  end.

(** [atoi]: blanks, a sign, digits. *)
Fixpoint skip_blanks (l : list Z) : list Z :=
  match l with
  | c :: l' => if (c =? 32) || ((9 <=? c) && (c <=? 13)) then skip_blanks l' else l
  | [] => []
  end.

Fixpoint digits_value (acc : Z) (l : list Z) : Z :=
  match l with
  | c :: l' => if (48 <=? c) && (c <=? 57) then digits_value (10 * acc + (c - 48)) l' else acc
  | [] => acc
  end.

Definition atoi (s : list Z) : res Z :=
  match skip_blanks s with
  | 45 :: l => chk_int (- digits_value 0 l)
  | 43 :: l => chk_int (digits_value 0 l)
  | l => chk_int (digits_value 0 l)
  end.

(** ** GetHost *)

(** Where the host begins: after the scheme. *)
Definition after_scheme (src : list Z) : res (list Z) :=
  r ← strncmp src (lit "http://") 7;
  if r =? 0 then ptr src 7
  else
    r ← strncmp src (lit "https://") 8;
    if r =? 0 then ptr src 8 else mret src.

(** The port after the colon of the host, or 80. *)
Definition port_of (web : list cell) : res Z :=
  w ← cell_chars web;
  c ← strchr (w ++ [0]) 58;
  match c with
  | Some k => p ← ptr (w ++ [0]) (k + 1); l ← c_chars p; atoi l
  | None => mret 80
  end.

(** The buffers of host and file, and the port; [memset(web, 0, sizeof(web))]
    clears the size of a pointer. *)
Definition GetHost (src : list Z) (web file : list cell) : res (list cell * list cell * Z) :=
  web ← fill_at web 0 (replicate 8 0);
  file ← fill_at file 0 (replicate 8 0);
  c0 ← load src 0;
  if c0 =? 0 then mret (web, file, 0)
  else
    pA ← after_scheme src;
    pB ← strchr pA 47;
    n ← c_strlen pA;
    '(web, file) ← match pB with
      | Some k =>
          b ← ptr pA k;
          m ← c_strlen b;
          web ← fill_at web 0 (take (Z.to_nat (n - m)) pA);
          b1 ← ptr b 1;
          file ← fill_at file 0 (take (Z.to_nat (m - 1)) b1);
          file ← store_init file (m - 1) 0;
          web ← store_init web (n - m) 0;
          mret (web, file)
      | None =>
          web ← fill_at web 0 (take (Z.to_nat n) pA);
          web ← store_init web n 0;
          mret (web, file)
      end;
    port ← port_of web;
    mret (web, file, port).

(** ** The program *)

Definition crlf : list Z := [13; 10].

Definition request_text (file web : list Z) (port : Z) : list Z :=
  codes "GET /" ++ file ++ codes " HTTP/1.1" ++ crlf ++ codes "Accept: */*" ++ crlf ++ codes "Accept-Language: zh-cn" ++ crlf ++
  codes "User-Agent: Mozilla/4.0 (compatible; MSIE 5.01; Windows NT 5.0)" ++ crlf ++
  codes "Host: " ++ web ++ codes ":" ++ dec_chars port ++ crlf ++ codes "Connection: Close" ++ crlf ++ crlf.

(** The name of the local file, for the string at [host_file]. *)
Definition local_name (host_file : list Z) : res (list Z) :=
  let local_file := replicate 256 0 in
  c0 ← load host_file 0;
  pt ← (if negb (c0 =? 0) then Rstrchr host_file 47 else mret None);
  let rest := if negb (c0 =? 0) then l ← c_chars host_file; sprintf local_file l else sprintf local_file (codes "index.html") in
  f ← match pt with
    | Some k =>
        c ← load host_file k;
        if negb (c =? 0) then
          c1 ← load host_file (k + 1);
          if negb (c1 =? 0) then s ← ptr host_file (k + 1); l ← c_chars s; sprintf local_file l
          else
            n ← c_strlen host_file;
            if n - 1 <=? 256 then
              mret (take (Z.to_nat (n - 1)) host_file ++ drop (Z.to_nat (n - 1)) local_file)
            else Err OutOfBounds
        else rest
    | None => rest
    end;
  c_chars f.

(** The request is sent: the bytes that the peer got, and the output; [inr]
    for the exit after an error. *)
Definition send_all (fuel : nat) (wr : nat → Z → wret) (request : list Z) (out : list output)
  : res (run (list Z) * list output) :=
  let nbytes := Z.of_nat (length request) in
  iter fuel (λ '(k, totalsend, sent, out),
    if totalsend <? nbytes then
      match wr k (nbytes - totalsend) with
      | WErr _ => mret (inr (Exit "send error!" 0, out))
      | WCount send =>
          let total := totalsend + send in
          mret (inl (S k, total, sent ++ take (Z.to_nat send) (drop (Z.to_nat totalsend) request),
            out ++ [PutInt total; PutStr " bytes send OK!\n"]))
      end
    else mret (inr (Ret sent, out))) (O, 0, [], out).

(** One byte of the response: the counter [i], the header printed, the body
    written to the file, and after how many bytes it was flushed. *)
Record Recv := mkRecv { count : Z; header : list Z; body : list Z; flushed : list Z }.

Definition recv_byte (s : Recv) (c : Z) : res Recv :=
  if count s <? 4 then
    mret (mkRecv (if (c =? 13) || (c =? 10) then count s + 1 else 0) (header s ++ [c]) (body s) (flushed s))
  else
    i ← chk_int (count s + 1);
    let b := body s ++ [c] in
    mret (mkRecv i (header s) b (if Z.rem i 1024 =? 0 then flushed s ++ [Z.of_nat (length b)] else flushed s)).

Fixpoint recv_all (s : Recv) (bytes : list Z) : res Recv :=
  match bytes with [] => mret s | c :: bytes => s ← recv_byte s c; recv_all s bytes end.

(** What the program leaves: the output, the request sent, the file's name and
    what was appended to it. *)
Record Download := mkDownload { printed : list output; sent : list Z; saved : option (list Z * list Z) }.

Section main.
Context (fuel : nat) (known : list Z → bool) (sockfd connected : Z) (wr : nat → Z → wret)
  (opens : list Z → bool) (response : list Z).

(** [main] from the end of [GetHost] on: the strings in the buffers. *)
Definition download (web file : list Z) (port : Z) (out : list output) : res (run Download) :=
  if negb (known web) then mret (Exit "Gethostname error" 1)
  else if sockfd =? -1 then mret (Exit "Socket Error" 1)
  else if connected =? -1 then mret (Exit "Connect Error" 1)
  else
    req ← sprintf (replicate 1024 0) (request_text file web port);
    request ← c_chars req;
    let out := out ++ [PutChars request] in
    local_file ← local_name (file ++ [0]);
    let out := out ++ [PutStr "local filename to write:"; PutChars local_file; PutStr "\n\n"] in
    '(r, out) ← send_all fuel wr request out;
    match r with
    | Exit m c => mret (Exit m c)
    | Ret sent =>
        if negb (opens local_file) then mret (Ret (mkDownload (out ++ [PutStr "create file error! "]) sent None))
        else
          s ← recv_all (mkRecv 0 [] [] []) response;
          mret (Ret (mkDownload (out ++ [PutStr "\nThe following is the response header:\n"; PutChars (header s)])
            sent (Some (local_file, body s))))
    end.

(** [main]; the argument is the string of the URL, if there is exactly one. *)
Definition web_main (argv : option (list Z)) : res (run Download) :=
  match argv with
  | None => mret (Exit "Usage" 1)
  | Some url =>
      low ← ToLowerCase (url ++ [0]);
      '(host_addr, host_file, port) ← GetHost low (replicate 256 None) (replicate 1024 None);
      web ← cell_chars host_addr;
      file ← cell_chars host_file;
      low ← c_chars low;
      download web file port
        [PutStr "parameter.1 is: "; PutChars url; PutStr "\n"; PutStr "lowercase parameter.1 is: "; PutChars low; PutStr "\n";
         PutStr "webhost:"; PutChars web; PutStr "\n"; PutStr "hostfile:"; PutChars file; PutStr "\n";
         PutStr "portnumber:"; PutInt port; PutStr "\n\n"]
  end.
End main.
