(* ===== verification/WebClientSpec.v ===== *)
(** The download program: how the URL is taken apart, which file is written,
    and what it gets. *)
From S2P Require Import Prelude CString Posix WebClient.

(** ** Strings *)

Definition down (c : Z) : Z := if (65 <=? c) && (c <=? 90) then c + 32 else c.
Definition plain (l : list Z) : Prop := Forall (λ c, 1 ≤ c ≤ 127) l.

Lemma plain_nonul l : plain l → nonul l.
Proof. intros H. eapply Forall_impl; [exact H|]. intros c Hc. cbn in *. lia. Qed.

Lemma ToLowerCase_spec url : plain url → ToLowerCase (url ++ [0]) = Ok ((down <$> url) ++ [0]).
Proof.
  induction url as [|c url IH]; intros H; [done|]. apply Forall_cons in H as [Hc H]. cbn.
  rewrite (proj2 (Z.eqb_neq c 0)) by lia. unfold tolower. rewrite (proj2 (Z.ltb_ge c (-1))), bind_ok by lia. by rewrite IH.
Qed.

Lemma strchr_found l x r : nonul l → x ∉ l → strchr (l ++ x :: r) x = Ok (Some (Z.of_nat (length l))).
Proof.
  induction l as [|c l IH]; intros Hn Hx; cbn; [by rewrite Z.eqb_refl|]. apply Forall_cons in Hn as [Hc Hn].
  apply not_elem_of_cons in Hx as [Hxc Hx]. rewrite (proj2 (Z.eqb_neq c x)), (proj2 (Z.eqb_neq c 0)), IH by (done || congruence).
  rewrite bind_ok. cbn [option_map]. do 2 f_equal. lia.
Qed.

Lemma strchr_none l x r : nonul l → x ∉ l → x ≠ 0 → strchr (l ++ 0 :: r) x = Ok None.
Proof.
  intros Hn Hx H0. induction l as [|c l IH]; cbn [app strchr].
  { destruct (Z.eqb_spec 0 x); [congruence|done]. }
  apply Forall_cons in Hn as [Hc Hn]. apply not_elem_of_cons in Hx as [Hxc Hx].
  by rewrite (proj2 (Z.eqb_neq c x)), (proj2 (Z.eqb_neq c 0)), IH by (done || congruence).
Qed.

Lemma drop_app_mid {A} (a b : list A) k : (k ≤ length a)%nat → drop k (a ++ b) = drop k a ++ b.
Proof. intros H. by rewrite drop_app_le. Qed.

Lemma notin_drop (l : list Z) x k : x ∉ l → x ∉ drop k l.
Proof. intros H Hx. apply H. apply list_elem_of_lookup in Hx as [i Hi]. rewrite lookup_drop in Hi. by eapply list_elem_of_lookup_2. Qed.

(** The step of the loop of [Rstrchr] on a character that is not the one. *)
Lemma rstrchr_turn l tail x i :
  x ≠ 0 → nonul tail → x ∉ tail → 0 < i ≤ Z.of_nat (length tail) →
  let s := l ++ tail ++ [0] in
  let j := Z.of_nat (length l) + i in
  (c ← load s (j - 1);
   if c =? 0 then mret (inr None)
   else t ← ptr s (j - 1); r ← strchr t x; mret (match r with Some _ => inr (Some (j - 1)) | None => inl (j - 1) end))
  = Ok (inl (j - 1) : Z + option Z).
Proof.
  intros H0 Ht Hxt Hi s j. destruct (lookup_lt_Z tail (i - 1) ltac:(lia)) as [c Hc].
  assert (Ec : s !! Z.to_nat (j - 1) = Some c).
  { unfold s. rewrite lookup_app_r by lia. rewrite lookup_app_l by lia. rewrite <- Hc. f_equal. lia. }
  rewrite (load_ok _ _ c), bind_ok by (done || lia). pose proof (proj1 (Forall_lookup _ _) Ht _ _ Hc) as Hc0. cbn in Hc0.
  rewrite (proj2 (Z.eqb_neq c 0)) by done. rewrite ptr_ok, bind_ok.
  2:{ unfold s. rewrite !length_app. cbn. lia. }
  unfold s. rewrite drop_app_ge by lia. rewrite drop_app_mid by lia.
  rewrite strchr_none by (by apply nonul_drop || by apply notin_drop || done). done.
Qed.

Lemma Rstrchr_spec dir name :
  nonul dir → nonul name → 47 ∉ name → Rstrchr (dir ++ 47 :: name ++ [0]) 47 = Ok (Some (Z.of_nat (length dir))).
Proof.
  intros Hd Hn Hx. unfold Rstrchr. set (s := dir ++ 47 :: name ++ [0]).
  assert (Es : s = (dir ++ 47 :: name) ++ 0 :: []) by (unfold s; by rewrite <- app_assoc).
  assert (Hs : nonul (dir ++ 47 :: name)) by (apply nonul_app; split; [done|constructor; done]).
  rewrite Es at 1. rewrite c_strlen_app, bind_ok by done.
  assert (H0 : ∃ c, load s 0 = Ok c ∧ c ≠ 0).
  { destruct dir as [|c dir]; [by exists 47|]. exists c. apply Forall_cons in Hd as [Hc _]. done. }
  destruct H0 as (c0 & -> & Hc0). rewrite bind_ok, (proj2 (Z.eqb_neq c0 0)) by done.
  match goal with |- iter _ ?st _ = _ => set (step := st) end.
  destruct (iter_inv (λ i, Z.of_nat (length dir) + 1 ≤ i ≤ Z.of_nat (length dir) + 1 + Z.of_nat (length name))
    (λ r, r = Some (Z.of_nat (length dir))) step Z.to_nat (S (Z.to_nat (Z.of_nat (length (dir ++ 47 :: name)))))
    (Z.of_nat (length (dir ++ 47 :: name)))) as (r & -> & ->); [rewrite length_app; cbn [length]; lia|lia| |done].
  intros i Hi. destruct (decide (i = Z.of_nat (length dir) + 1)) as [->|Hne].
  - right. exists (Some (Z.of_nat (length dir))). split; [|done]. unfold step. rewrite Z.add_simpl_r.
    rewrite (load_ok _ _ 47), bind_ok by (lia || by unfold s; rewrite Nat2Z.id, list_lookup_middle). cbn [Z.eqb].
    rewrite ptr_ok, bind_ok by (unfold s; rewrite length_app; lia). unfold s. rewrite Nat2Z.id, drop_app_length. done.
  - left. exists (i - 1). split; [|lia]. unfold step.
    replace i with (Z.of_nat (length (dir ++ [47])) + (i - Z.of_nat (length dir) - 1)) by (rewrite length_app; cbn [length]; lia).
    replace s with ((dir ++ [47]) ++ name ++ [0]) by (unfold s; by rewrite <- app_assoc).
    rewrite rstrchr_turn by (done || lia). done.
Qed.

(** Without the character the loop runs past the start of the string. *)
Lemma Rstrchr_runs_out l x :
  nonul l → l ≠ [] → x ∉ l → x ≠ 0 → Rstrchr (l ++ [0]) x = Err OutOfBounds.
Proof.
  intros Hl Hne Hx H0. unfold Rstrchr. rewrite c_strlen_app, bind_ok by done.
  destruct l as [|c l]; [done|]. pose proof (proj1 (Forall_cons _ _ _) Hl) as [Hc _]. cbn [app]. rewrite load_0, bind_ok.
  rewrite (proj2 (Z.eqb_neq c 0)) by done. match goal with |- iter _ ?st _ = _ => set (step := st) end.
  enough (G : ∀ f i, 0 ≤ i ≤ Z.of_nat (length (c :: l)) → (Z.to_nat i < f)%nat → iter f step i = Err OutOfBounds) by (apply G; lia).
  induction f as [|f IH]; intros i Hi Hf; [lia|]. cbn [iter]. destruct (decide (i = 0)) as [->|Hi0]; [done|].
  unfold step at 2. pose proof (rstrchr_turn [] (c :: l) x i H0 Hl Hx ltac:(lia)) as E. cbn zeta in E. cbn [length app] in E.
  change (Z.of_nat 0) with 0 in E. rewrite Z.add_0_l in E. rewrite E, bind_ok. apply IH; lia.
Qed.

(** ** The URL *)

(** A URL without its scheme: [host/path]. *)
Lemma GetHost_spec scheme host path port :
  scheme = "http://"%string ∨ scheme = "https://"%string →
  nonul host → 47 ∉ host → nonul path → (length host < 256)%nat → (length path < 1024)%nat →
  port_of (Some <$> host ++ [0]) = Ok port →
  ∃ web file, GetHost (codes scheme ++ host ++ 47 :: path ++ [0]) (replicate 256 None) (replicate 1024 None) = Ok (web, file, port) ∧
    cell_chars web = Ok host ∧ cell_chars file = Ok path.
Proof.
  intros Hs Hh Hx Hp Lh Lp Hport. unfold GetHost. set (src := codes scheme ++ host ++ 47 :: path ++ [0]).
  set (pA := host ++ 47 :: path ++ [0]).
  rewrite !fill_at_0 by (rewrite !length_replicate; lia). rewrite !bind_ok, !drop_replicate, !length_replicate.
  assert (E0 : load src 0 = Ok 104) by (by destruct Hs as [-> | ->]).
  assert (EA : after_scheme src = Ok pA).
  { unfold src. fold pA. generalize pA. clear -Hs. intros pA. unfold after_scheme. destruct Hs as [-> | ->].
    - change (codes "http://" ++ pA) with (104 :: 116 :: 116 :: 112 :: 58 :: 47 :: 47 :: pA).
      assert (E : strncmp (104 :: 116 :: 116 :: 112 :: 58 :: 47 :: 47 :: pA) (lit "http://") 7 = Ok 0) by reflexivity.
      rewrite E, bind_ok, ptr_ok by (cbn [length]; lia). done.
    - change (codes "https://" ++ pA) with (104 :: 116 :: 116 :: 112 :: 115 :: 58 :: 47 :: 47 :: pA).
      assert (E : strncmp (104 :: 116 :: 116 :: 112 :: 115 :: 58 :: 47 :: 47 :: pA) (lit "http://") 7 = Ok 57) by reflexivity.
      assert (E' : strncmp (104 :: 116 :: 116 :: 112 :: 115 :: 58 :: 47 :: 47 :: pA) (lit "https://") 8 = Ok 0) by reflexivity.
      rewrite E, bind_ok. cbn [Z.eqb Pos.eqb]. rewrite E', bind_ok, ptr_ok by (cbn [length]; lia). done. }
  rewrite E0, bind_ok. cbn [Z.eqb Pos.eqb]. assert (Ec : strchr pA 47 = Ok (Some (Z.of_nat (length host)))) by (by apply strchr_found).
  rewrite EA, bind_ok, Ec, bind_ok.
  assert (En : c_strlen pA = Ok (Z.of_nat (length host + 1 + length path))).
  { unfold pA. replace (host ++ 47 :: path ++ [0]) with ((host ++ 47 :: path) ++ 0 :: []) by (by rewrite <- app_assoc).
    rewrite c_strlen_app; [|apply nonul_app; split; [done|by constructor]]. f_equal. rewrite length_app. cbn [length]. lia. }
  rewrite En, bind_ok. rewrite ptr_ok, bind_ok by (unfold pA; rewrite length_app; lia). unfold pA. rewrite Nat2Z.id, drop_app_length.
  change (47 :: path ++ [0]) with ((47 :: path) ++ 0 :: []). rewrite c_strlen_app, bind_ok by (by constructor).
  replace (Z.of_nat (length host + 1 + length path) - Z.of_nat (length (47 :: path))) with (Z.of_nat (length host)) by (cbn [length]; lia).
  rewrite Nat2Z.id, take_app_length. rewrite fill_at_0, bind_ok by (rewrite length_app, length_fmap, !length_replicate; lia).
  rewrite ptr_ok, bind_ok by (cbn [length app]; lia). change (drop (Z.to_nat 1) ((47 :: path) ++ [0])) with (path ++ [0]).
  replace (Z.of_nat (length (47 :: path)) - 1) with (Z.of_nat (length path)) by (cbn [length]; lia).
  rewrite Nat2Z.id, take_app_length. rewrite fill_at_0, bind_ok by (rewrite length_app, length_fmap, !length_replicate; lia).
  rewrite !store_next_cell, !bind_ok by (rewrite length_drop, length_app, length_fmap, !length_replicate; lia). cbn beta iota.
  match goal with |- context [port_of (_ ++ ?r)] => assert (Ep : port_of ((Some <$> host ++ [0]) ++ r) = Ok port) end.
  { unfold port_of in *. rewrite cell_chars_str, bind_ok by done. rewrite <- (app_nil_r (Some <$> host ++ [0])), cell_chars_str, bind_ok in Hport by done.
    exact Hport. }
  rewrite Ep, bind_ok. eexists _, _. split; [reflexivity|]. by rewrite !cell_chars_str.
Qed.

(** ** The local file *)

Lemma local_name_path dir name :
  nonul dir → nonul name → 47 ∉ name → name ≠ [] → (length name < 256)%nat →
  local_name (dir ++ 47 :: name ++ [0]) = Ok name.
Proof.
  intros Hd Hn Hx Hne Ln. unfold local_name.
  assert (E0 : ∃ c, load (dir ++ 47 :: name ++ [0]) 0 = Ok c ∧ c ≠ 0).
  { destruct dir as [|c dir]; [by exists 47|]. exists c. by apply Forall_cons in Hd as [Hc _]. }
  destruct E0 as (c0 & -> & Hc0). rewrite bind_ok, (proj2 (Z.eqb_neq c0 0)) by done. cbn [negb].
  rewrite Rstrchr_spec, bind_ok by done. destruct name as [|c name]; [done|]. apply Forall_cons in Hn as [Hc Hn].
  rewrite (load_ok _ (Z.of_nat (length dir)) 47), bind_ok by (lia || by rewrite Nat2Z.id, list_lookup_middle). cbn [Z.eqb negb].
  rewrite (load_ok _ _ c), bind_ok.
  2: lia.
  2: { rewrite lookup_app_r by lia. by replace (Z.to_nat (Z.of_nat (length dir) + 1) - length dir)%nat with 1%nat by lia. }
  rewrite (proj2 (Z.eqb_neq c 0)) by done. cbn [negb]. rewrite ptr_ok, bind_ok by (rewrite length_app; cbn [length]; lia).
  rewrite drop_app_ge by lia. replace (Z.to_nat (Z.of_nat (length dir) + 1) - length dir)%nat with 1%nat by lia. cbn [drop].
  rewrite drop_0, (c_chars_app (c :: name) []), bind_ok by (by constructor). change (replicate 256 0) with (zbuf 256 []).
  rewrite sprintf_zbuf, (proj2 (Nat.ltb_lt _ _)), bind_ok by done. apply c_chars_zbuf; [by constructor|done].
Qed.

Lemma local_name_bare name :
  nonul name → 47 ∉ name → name ≠ [] → local_name (name ++ [0]) = Err OutOfBounds.
Proof.
  intros Hn Hx Hne. unfold local_name. destruct name as [|c name]; [done|]. cbn [app]. rewrite load_0, bind_ok.
  pose proof (proj1 (Forall_cons _ _ _) Hn) as [Hc _]. rewrite (proj2 (Z.eqb_neq c 0)) by done. cbn [negb].
  pose proof (Rstrchr_runs_out (c :: name) 47 Hn Hne Hx ltac:(done)) as E. cbn [app] in E. by rewrite E.
Qed.

(** ** The request *)

Lemma send_all_spec fuel wr request out :
  (∀ k n, 0 < n → ∃ c, wr k n = WCount c ∧ 1 ≤ c ≤ n) → (length request < fuel)%nat →
  ∃ out', send_all fuel wr request out = Ok (Ret request, out').
Proof.
  intros Hw Hf. unfold send_all. set (nb := Z.of_nat (length request)).
  match goal with |- context [iter _ ?s _] => set (step := s) end.
  destruct (iter_inv (λ '(k, total, sent, o), 0 ≤ total ≤ nb ∧ sent = take (Z.to_nat total) request)
    (λ r, r.1 = Ret request) step (λ '(_, total, _, _), Z.to_nat (nb - total)) fuel (O, 0, [], out)) as ([r o] & -> & Hr).
  - split; [lia|done].
  - lia.
  - intros [[[k total] snt] o] (Ht & ->). unfold step. destruct (Z.ltb_spec total nb) as [H|H].
    + destruct (Hw k (nb - total) ltac:(lia)) as (c & -> & Hc). left. eexists. split; [reflexivity|]. split; [|lia]. split; [lia|].
      replace (Z.to_nat (total + c)) with (Z.to_nat total + Z.to_nat c)%nat by lia. by rewrite take_take_drop.
    + right. eexists. split; [reflexivity|]. cbn. f_equal. replace total with nb by lia. unfold nb. by rewrite Nat2Z.id, firstn_all.
  - cbn in Hr. subst r. by exists o.
Qed.

(** ** The response *)

Definition line_end (c : Z) : bool := (c =? 13) || (c =? 10).

(** Never four line ends in a row, [n] having been seen, and none at the end. *)
Fixpoint quiet (n : Z) (l : list Z) : bool :=
  match l with
  | [] => n =? 0
  | c :: l => let m := if line_end c then n + 1 else 0 in (m <? 4) && quiet m l
  end.

Lemma recv_all_app s a b : recv_all s (a ++ b) = (s ← recv_all s a; recv_all s b).
Proof. revert s. induction a as [|c a IH]; intros s; [done|]. cbn [app recv_all]. destruct (recv_byte s c) as [s'|]; [|done]. rewrite !bind_ok. apply IH. Qed.

Lemma recv_quiet h : ∀ n hd,
  0 ≤ n < 4 → quiet n h = true → recv_all (mkRecv n hd [] []) h = Ok (mkRecv 0 (hd ++ h) [] []).
Proof.
  induction h as [|c h IH]; intros n hd Hn Hq; cbn [quiet recv_all] in *.
  - apply Z.eqb_eq in Hq as ->. by rewrite app_nil_r.
  - apply andb_true_iff in Hq as [Hm Hq]. unfold recv_byte. cbn [count header body flushed].
    rewrite (proj2 (Z.ltb_lt n 4)) by lia. rewrite bind_ok. unfold line_end in *.
    rewrite (IH (if (c =? 13) || (c =? 10) then n + 1 else 0)); [by rewrite <- app_assoc| |done].
    destruct (_ || _); lia.
Qed.

Lemma recv_body b : ∀ i hd bd fl,
  4 ≤ i → i + Z.of_nat (length b) ≤ INT_MAX →
  ∃ fl', recv_all (mkRecv i hd bd fl) b = Ok (mkRecv (i + Z.of_nat (length b)) hd (bd ++ b) fl').
Proof.
  induction b as [|c b IH]; intros i hd bd fl Hi Hb; cbn [recv_all].
  - exists fl. rewrite app_nil_r. cbn. by rewrite Z.add_0_r.
  - unfold recv_byte. cbn [count header body flushed length] in *. rewrite (proj2 (Z.ltb_ge i 4)) by lia.
    rewrite chk_int_ok, bind_ok by (unfold INT_MIN; lia). rewrite bind_ok.
    match goal with |- ∃ fl', recv_all (mkRecv _ _ _ ?f) b = _ => destruct (IH (i + 1) hd (bd ++ [c]) f) as (fl' & ->); [lia|lia|] end.
    exists fl'. rewrite <- app_assoc. by replace (i + 1 + Z.of_nat (length b)) with (i + Z.of_nat (S (length b))) by lia.
Qed.

Lemma recv_spec h b :
  quiet 0 h = true → 4 + Z.of_nat (length b) ≤ INT_MAX →
  ∃ fl, recv_all (mkRecv 0 [] [] []) (h ++ crlf ++ crlf ++ b) =
    Ok (mkRecv (4 + Z.of_nat (length b)) (h ++ crlf ++ crlf) b fl).
Proof.
  intros Hq Hb. rewrite recv_all_app, recv_quiet, bind_ok by done.
  change (crlf ++ crlf ++ b) with ((crlf ++ crlf) ++ b). rewrite recv_all_app.
  assert (E : recv_all (mkRecv 0 h [] []) (crlf ++ crlf) = Ok (mkRecv 4 ((((h ++ [13]) ++ [10]) ++ [13]) ++ [10]) [] [])) by reflexivity.
  rewrite app_nil_l, E, bind_ok, <- !app_assoc. apply recv_body; [done|lia].
Qed.

(** ** The program *)

(** A network that knows every host and takes what it is given bit by bit. *)
Definition taking (wr : nat → Z → wret) : Prop := ∀ k n, 0 < n → ∃ c, wr k n = WCount c ∧ 1 ≤ c ≤ n.

Lemma plain_fmap_down url l : plain url → down <$> url = l → nonul l.
Proof.
  intros H <-. apply Forall_fmap. eapply Forall_impl; [exact H|]. intros c Hc. cbn in *. unfold down.
  destruct (Z.leb_spec 65 c), (Z.leb_spec c 90); cbn [andb]; lia.
Qed.

Lemma request_nonul file web port : nonul file → nonul web → nonul (request_text file web port).
Proof.
  intros Hf Hw. unfold request_text. pose proof (dec_chars_nonul port).
  repeat (apply nonul_app; split); try done; by apply (bool_decide_unpack _); vm_compute.
Qed.

Lemma download_spec fuel known sfd conn wr opens h b host dir name port out :
  nonul host → nonul dir → nonul name → 47 ∉ name → name ≠ [] → (length name < 256)%nat →
  let request := request_text (dir ++ 47 :: name) host port in
  (length request < 1024)%nat → (length request < fuel)%nat →
  known host = true → sfd ≠ -1 → conn ≠ -1 → taking wr → opens name = true →
  quiet 0 h = true → 4 + Z.of_nat (length b) ≤ INT_MAX →
  ∃ out', download fuel known sfd conn wr opens (h ++ crlf ++ crlf ++ b) host (dir ++ 47 :: name) port out =
    Ok (Ret (mkDownload out' request (Some (name, b)))).
Proof.
  intros Hh Hd Hn Hxn Hne Ln request Lr Hf Hk Hsfd Hconn Hw Ho Hq Hb. unfold download. rewrite Hk. cbn [negb].
  rewrite (proj2 (Z.eqb_neq sfd (-1))), (proj2 (Z.eqb_neq conn (-1))) by done. fold request.
  assert (Nr : nonul request) by (apply request_nonul; [apply nonul_app; split; [|constructor]|]; done).
  change (replicate 1024 0) with (zbuf 1024 []).
  rewrite sprintf_zbuf, (proj2 (Nat.ltb_lt _ _)), bind_ok, c_chars_zbuf, bind_ok by done.
  replace ((dir ++ 47 :: name) ++ [0]) with (dir ++ 47 :: name ++ [0]) by (by rewrite <- app_assoc).
  rewrite local_name_path, bind_ok by done.
  match goal with |- context [send_all _ _ _ ?o] => destruct (send_all_spec fuel wr request o Hw Hf) as (out' & ->) end.
  rewrite bind_ok. cbn beta iota. rewrite Ho. cbn [negb]. destruct (recv_spec h b Hq Hb) as (fl & ->). rewrite bind_ok. by eexists.
Qed.

(** C19: For a URL http://host/dir/name or https://... that fits the buffers, on a network that
    takes what it is given bit by bit, the program asks host (with its port, if it has one)
    for dir/name in lower case, and saves in a file called name exactly the bytes that
    follow the first blank line of the response. *)
Theorem download_saves fuel known sfd conn wr opens (url host dir name h b : list Z) scheme port :
  plain url → scheme = "http://"%string ∨ scheme = "https://"%string →
  down <$> url = codes scheme ++ host ++ 47 :: dir ++ 47 :: name →
  47 ∉ host → 47 ∉ name → name ≠ [] → (length name < 256)%nat → (length host < 256)%nat →
  (length dir + 1 + length name < 1024)%nat → port_of (Some <$> host ++ [0]) = Ok port →
  let request := request_text (dir ++ 47 :: name) host port in
  (length request < 1024)%nat → (length request < fuel)%nat →
  known host = true → sfd ≠ -1 → conn ≠ -1 → taking wr → opens name = true →
  quiet 0 h = true → 4 + Z.of_nat (length b) ≤ INT_MAX →
  ∃ out, web_main fuel known sfd conn wr opens (h ++ crlf ++ crlf ++ b) (Some url) =
    Ok (Ret (mkDownload out request (Some (name, b)))).
Proof.
  intros Hurl Hs Hlow Hx Hxn Hne Ln Lh Lp Hport request Lr Hf Hk Hsfd Hconn Hw Ho Hq Hb.
  pose proof (plain_fmap_down url _ Hurl eq_refl) as Hlw. pose proof Hlw as Hnu. rewrite Hlow in Hnu.
  apply nonul_app in Hnu as [_ Hnu]. apply nonul_app in Hnu as [Hh Hnu].
  apply Forall_cons in Hnu as [_ Hp]. pose proof (proj1 (nonul_app _ _) Hp) as [Hd Hn']. apply Forall_cons in Hn' as [_ Hn].
  destruct (GetHost_spec scheme host (dir ++ 47 :: name) port) as (web & file & E & Ew & Ef); [done..|rewrite length_app; cbn [length]; lia|done|].
  replace (codes scheme ++ host ++ 47 :: (dir ++ 47 :: name) ++ [0]) with ((down <$> url) ++ [0]) in E
    by (rewrite Hlow, <- !app_assoc; cbn [app]; by rewrite <- !app_assoc).
  unfold web_main. rewrite ToLowerCase_spec, bind_ok, E, bind_ok by done. cbn beta iota.
  rewrite Ew, bind_ok, Ef, bind_ok, (c_chars_app _ []), bind_ok by done. by apply download_spec.
Qed.

Lemma download_witness :
  ∃ out, web_main 1000 (λ _, true) 3 0 (λ _ n, WCount (Z.min n 50)) (λ _, true)
      (codes "HTTP/1.1 200 OK" ++ crlf ++ crlf ++ codes "hello") (Some (codes "http://A.com:81/docs/x.html")) =
    Ok (Ret (mkDownload out (request_text (codes "docs/x.html") (codes "a.com:81") 81) (Some (codes "x.html", codes "hello")))).
Proof.
  apply (download_saves 1000 (λ _, true) 3 0 (λ _ n, WCount (Z.min n 50)) (λ _, true) (codes "http://A.com:81/docs/x.html")
    (codes "a.com:81") (codes "docs") (codes "x.html") (codes "HTTP/1.1 200 OK") (codes "hello") "http://" 81).
  - apply (bool_decide_unpack _). vm_compute. done.
  - by left.
  - vm_compute. reflexivity.
  - apply (bool_decide_unpack _). vm_compute. done.
  - apply (bool_decide_unpack _). vm_compute. done.
  - done.
  - apply Nat.ltb_lt. vm_compute. reflexivity.
  - apply Nat.ltb_lt. vm_compute. reflexivity.
  - apply Nat.ltb_lt. vm_compute. reflexivity.
  - vm_compute. reflexivity.
  - apply Nat.ltb_lt. vm_compute. reflexivity.
  - apply Nat.ltb_lt. vm_compute. reflexivity.
  - done.
  - done.
  - done.
  - intros k n Hn. exists (Z.min n 50). split; [done|lia].
  - done.
  - vm_compute. reflexivity.
  - vm_compute. done.
Defined.

(** For a URL http://host/name without a directory, Rstrchr looks for a slash that is not there
    and reads before the start of the array. *)
Theorem download_bare_faults fuel known sfd conn wr opens (response url host name : list Z) scheme port :
  plain url → scheme = "http://"%string ∨ scheme = "https://"%string →
  down <$> url = codes scheme ++ host ++ 47 :: name →
  47 ∉ host → 47 ∉ name → name ≠ [] → (length host < 256)%nat → (length name < 1024)%nat →
  port_of (Some <$> host ++ [0]) = Ok port → known host = true → sfd ≠ -1 → conn ≠ -1 →
  web_main fuel known sfd conn wr opens response (Some url) = Err OutOfBounds.
Proof.
  intros Hurl Hs Hlow Hx Hxn Hne Lh Lp Hport Hk Hsfd Hconn.
  pose proof (plain_fmap_down url _ Hurl eq_refl) as Hlw. pose proof Hlw as Hnu. rewrite Hlow in Hnu.
  apply nonul_app in Hnu as [_ Hnu]. apply nonul_app in Hnu as [Hh Hnu]. apply Forall_cons in Hnu as [_ Hn].
  destruct (GetHost_spec scheme host name port) as (web & file & E & Ew & Ef); [done..|].
  replace (codes scheme ++ host ++ 47 :: name ++ [0]) with ((down <$> url) ++ [0]) in E
    by (by rewrite Hlow, <- !app_assoc).
  unfold web_main. rewrite ToLowerCase_spec, bind_ok, E, bind_ok by done. cbn beta iota.
  rewrite Ew, bind_ok, Ef, bind_ok, (c_chars_app _ []), bind_ok by done. unfold download. rewrite Hk. cbn [negb].
  rewrite (proj2 (Z.eqb_neq sfd (-1))), (proj2 (Z.eqb_neq conn (-1))) by done.
  change (replicate 1024 0) with (zbuf 1024 []). rewrite sprintf_zbuf. destruct (Nat.ltb_spec (length (request_text name host port)) 1024); [|done].
  rewrite bind_ok, c_chars_zbuf, bind_ok by (by try apply request_nonul). by rewrite local_name_bare.
Qed.

Lemma download_bare_witness :
  web_main 1000 (λ _, true) 3 0 (λ _ n, WCount n) (λ _, true) [] (Some (codes "http://a.com/index.html")) = Err OutOfBounds.
Proof.
  apply (download_bare_faults 1000 (λ _, true) 3 0 (λ _ n, WCount n) (λ _, true) [] (codes "http://a.com/index.html")
    (codes "a.com") (codes "index.html") "http://" 80).
  - apply (bool_decide_unpack _). vm_compute. done.
  - by left.
  - vm_compute. reflexivity.
  - apply (bool_decide_unpack _). vm_compute. done.
  - apply (bool_decide_unpack _). vm_compute. done.
  - done.
  - apply Nat.ltb_lt. vm_compute. reflexivity.
  - apply Nat.ltb_lt. vm_compute. reflexivity.
  - vm_compute. reflexivity.
  - done.
  - done.
  - done.
Defined.
