(* ===== verification/Gtk.v ===== *)
(** The programs of [src/cpp/gtk] as sequences of calls of GTK.

    GTK is not defined here: a program is what it asks of the library.  Its
    calls are recorded in order; an object is named by the place of the call that
    created it, and what the library answers to a question is an argument, a
    function of the place of the question.  This file has the values, the calls
    and the protocol that the sequences must keep. *)
From stdpp Require Import relations.
From S2P Require Import Prelude CString.

(** ** Values *)

(** An argument: an object or a value that the library gave, a field of an
    object or an element of an array as it is at the time of the call, NULL, an integer, a literal of type
    double, a string, text that was formatted, a constant of the library, a
    function, the address of a variable, the value of a variable that the library or
    another function set, a number converted to another type. *)
Inductive arg :=
| Obj (w : nat)
| Field (a : arg) (f : string)
| Elem (a : arg) (i : Z)
| NULL
| Int (z : Z)
| Dbl (s : string)
| Str (s : string)
| Txt (l : list Z)
| Const (c : string)
| Fun (f : string)
| Addr (v : string)
| Var (v : string)
| Cast (ty : string) (a : arg).

#[export] Instance arg_eq_dec : EqDecision arg.
Proof. solve_decision. Defined.

(** A call, and whether the program keeps its result. *)
Record call_ := mkCall { fn : string; args : list arg; fresh : bool }.

#[export] Instance call_eq_dec : EqDecision call_.
Proof. solve_decision. Defined.

(** ** Programs *)

Definition Gtk (A : Type) : Type := (nat → Z) → list call_ → A * list call_.

#[export] Instance gtk_ret : MRet Gtk := λ A a env t, (a, t).
#[export] Instance gtk_bind : MBind Gtk := λ A B f m env t, let '(a, t) := m env t in f a env t.

(** A call whose result is kept, one whose result is not, and one that answers
    with an integer on which the program branches. *)
Definition create (f : string) (l : list arg) : Gtk arg := λ env t, (Obj (length t), t ++ [mkCall f l true]).
Definition call (f : string) (l : list arg) : Gtk () := λ env t, ((), t ++ [mkCall f l false]).
Definition ask (f : string) (l : list arg) : Gtk Z := λ env t, (env (length t), t ++ [mkCall f l false]).

(** A comparison of what the library holds, on which the program branches, is a
    question too. *)
Definition holds (op : string) (a b : arg) : Gtk bool := z ← ask op [a; b]; mret (negb (z =? 0)).
Definition truth (a : arg) : Gtk bool := holds "!=" a (Int 0).

(** An assignment to a field of an object, or to a variable whose address is
    passed on, has its place in the sequence too. *)
Definition assign (x v : arg) : Gtk () := call "=" [x; v].

(** [for (i = a; i < a + n; i++)] *)
Fixpoint gtk_for (n : nat) (i : Z) (body : Z → Gtk ()) : Gtk () :=
  match n with O => mret () | S n => body i;; gtk_for n (i + 1) body end.

Definition result_of {A} (p : Gtk A) (env : nat → Z) : A := (p env []).1.
Definition trace_of {A} (p : Gtk A) (env : nat → Z) : list call_ := (p env []).2.

(** Running a program after [t], a step at a time. *)
Lemma create_after f l {A} (k : arg → Gtk A) env t pre :
  (create f l ≫= k) env (t ++ pre) = k (Obj (length t + length pre)) env (t ++ pre ++ [mkCall f l true]).
Proof. unfold mbind, gtk_bind, create. by rewrite length_app, <- app_assoc. Qed.

Lemma call_after f l {A} (k : () → Gtk A) env t pre : (call f l ≫= k) env (t ++ pre) = k () env (t ++ pre ++ [mkCall f l false]).
Proof. unfold mbind, gtk_bind, call. by rewrite <- app_assoc. Qed.

Ltac run_gtk := repeat (first [rewrite create_after | rewrite call_after]; cbn [app length]).

(** Text from [sprintf]. *)
Inductive piece := Lit (s : string) | Dec (z : Z) | Chr (c : Z).
Definition fmt (l : list piece) : arg :=
  Txt (l ≫= λ p, match p with Lit s => codes s | Dec z => dec_chars z | Chr c => [c] end).

(** A program: its file, its [main], and what its own functions do that handle
    the closing of the window. *)
Record program := mkProgram { source : string; run_main : Gtk arg; on_close : string → option (Gtk arg) }.

Definition no_handler : string → option (Gtk arg) := λ _, None.
Definition handler (f : string) (m : Gtk arg) : string → option (Gtk arg) := λ g, if String.eqb g f then Some m else None.
Definition handlers (a b : string → option (Gtk arg)) : string → option (Gtk arg) := λ f, match a f with Some m => Some m | None => b f end.
Definition void (m : Gtk ()) : Gtk arg := m;; mret NULL.

(** ** The tree of widgets *)

(** The object that an argument belongs to. *)
Fixpoint owner (a : arg) : option nat :=
  match a with Obj w => Some w | Field a _ | Elem a _ | Cast _ a => owner a | _ => None end.

Definition link (p q : arg) : list (nat * nat) :=
  match owner p, q with Some p, Obj q => [(p, q)] | _, _ => [] end.

Definition named (l : list string) (c : call_) : bool := existsb (String.eqb (fn c)) l.

(** The pair of a container and the widget that a call puts in it. *)
Definition packs (c : call_) : list (nat * nat) :=
  match args c with
  | p :: q :: _ =>
      if named ["gtk_container_add"; "gtk_box_pack_start"; "gtk_box_pack_end"; "gtk_box_pack_start_defaults"; "gtk_table_attach";
          "gtk_table_attach_defaults"; "gtk_fixed_put"; "gtk_paned_add1"; "gtk_paned_add2"; "gtk_menu_shell_append";
          "gtk_scrolled_window_add_with_viewport"; "gtk_notebook_append_page"; "gtk_notebook_prepend_page";
          "gtk_notebook_insert_page"]%string c then link p q else []
  | _ => []
  end.

(** The pair of a widget and one that it shows itself: a menu, the label of a
    page. *)
Definition attaches (c : call_) : list (nat * nat) :=
  match args c with
  | p :: q :: rest =>
      if named ["gtk_menu_item_set_submenu"; "gtk_option_menu_set_menu"]%string c then link p q
      else if named ["gtk_notebook_append_page"; "gtk_notebook_prepend_page"; "gtk_notebook_insert_page"]%string c then
        match rest with l :: _ => link p l | [] => [] end
      else []
  | _ => []
  end.

Definition packed (t : list call_) : list (nat * nat) := t ≫= packs.
Definition tree_links (t : list call_) : list (nat * nat) := t ≫= λ c, packs c ++ attaches c.

Definition parent (t : list call_) (p q : nat) : Prop := (p, q) ∈ tree_links t.

(** Every argument is an object that an earlier call gave. *)
Definition scoped (t : list call_) : Prop :=
  ∀ i c w, t !! i = Some c → w ∈ omap owner (args c) → (w < i)%nat ∧ ∃ d, t !! w = Some d ∧ fresh d = true.

(** A widget is shown by a call of its own, or with all that is in one of its
    ancestors at that time. *)
Definition shown (t : list call_) (w : nat) : Prop :=
  ∃ i c a, t !! i = Some c ∧ args c = [Obj a] ∧
    ((fn c = "gtk_widget_show"%string ∧ a = w) ∨ (fn c = "gtk_widget_show_all"%string ∧ rtc (parent (take i t)) a w)).

(** What a sequence of calls must keep: nothing is used before it is there; no
    widget is put in two places or in itself; all that is put in the window
    [top], directly or in its descendants, is shown, with the window, and
    nothing is put elsewhere. *)
Record tree (t : list call_) (top : nat) : Prop := {
  tree_scoped : scoped t;
  tree_single : NoDup (tree_links t).*2;
  tree_acyclic : ∀ w, ¬ tc (parent t) w w;
  tree_rooted : ∀ p q, (p, q) ∈ tree_links t → rtc (parent t) top p;
  tree_shown : ∀ p q, (p, q) ∈ packed t → shown t q;
  tree_top : shown t top
}.

(** ** A decision procedure *)

Definition scopedb (t : list call_) : bool :=
  forallb (λ ic : nat * call_, forallb (λ w, Nat.ltb w ic.1 && match t !! w with Some d => fresh d | None => false end)
    (omap owner (args ic.2))) (imap pair t).

Definition parent_of (l : list (nat * nat)) (q : nat) : option nat :=
  option_map fst (find (λ pq : nat * nat, Nat.eqb pq.2 q) l).

(** How many links lead from an object to its root, if at most [n]. *)
Fixpoint height (n : nat) (l : list (nat * nat)) (q : nat) : option nat :=
  match parent_of l q with
  | None => Some O
  | Some p => match n with O => None | S n => option_map S (height n l p) end
  end.

(** Whether [p] is among the first [n] ancestors of [q], or [q] itself. *)
Fixpoint climb (n : nat) (l : list (nat * nat)) (p q : nat) : bool :=
  Nat.eqb p q || match n, parent_of l q with S n, Some q' => climb n l p q' | _, _ => false end.

Definition shownb (t : list call_) (w : nat) : bool :=
  existsb (λ ic : nat * call_,
    match args ic.2 with
    | [Obj a] =>
        if String.eqb (fn ic.2) "gtk_widget_show" then Nat.eqb a w
        else if String.eqb (fn ic.2) "gtk_widget_show_all" then climb (length t) (tree_links (take ic.1 t)) a w else false
    | _ => false
    end) (imap pair t).

Definition treeb (t : list call_) (top : nat) : bool :=
  let l := tree_links t in
  scopedb t && bool_decide (NoDup l.*2)
  && forallb (λ pq : nat * nat, match height (length l) l pq.2 with Some _ => true | None => false end) l
  && forallb (λ pq : nat * nat, climb (length l) l top pq.1) l
  && forallb (λ pq : nat * nat, shownb t pq.2) (packed t) && shownb t top.

Lemma scopedb_ok t : scopedb t = true → scoped t.
Proof.
  unfold scopedb. rewrite forallb_forall. intros H i c w Hi Hw.
  specialize (H (i, c)). rewrite <- list_elem_of_In, elem_of_lookup_imap in H. specialize (H ltac:(by exists i, c)).
  rewrite forallb_forall in H. specialize (H w). rewrite <- list_elem_of_In in H. specialize (H Hw). cbn in H.
  apply andb_true_iff in H as [H1 H2]. apply Nat.ltb_lt in H1. destruct (t !! w) as [d|]; [|done]. eauto.
Qed.

Lemma parent_of_spec l p q : NoDup l.*2 → (p, q) ∈ l → parent_of l q = Some p.
Proof.
  unfold parent_of. induction l as [|[p' q'] l IH]; [by intros _ ?%not_elem_of_nil|]. cbn. rewrite NoDup_cons. intros [Hn Hd].
  rewrite elem_of_cons. intros [[= -> ->]|Hin]; [by rewrite Nat.eqb_refl|].
  destruct (Nat.eqb_spec q' q) as [->|Hne]; [|by apply IH]. destruct Hn. apply list_elem_of_fmap. by exists (p, q).
Qed.

Lemma height_mono n l q h : height n l q = Some h → (h ≤ n)%nat.
Proof.
  revert q h. induction n as [|n IH]; intros q h; cbn; destruct (parent_of l q) as [p|]; [done|intros [= <-]; lia| |intros [= <-]; lia].
  destruct (height n l p) as [k|] eqn:E; [|done]. cbn. intros [= <-]. specialize (IH p k E). lia.
Qed.

Lemma height_more n l q h : height n l q = Some h → height (S n) l q = Some h.
Proof.
  revert q h. induction n as [|n IH]; intros q h; cbn [height]; destruct (parent_of l q) as [p|]; try done.
  destruct (height n l p) as [k|] eqn:E; [|done]. specialize (IH p k E). cbn [height] in IH. by rewrite IH.
Qed.

Lemma height_parent n l p q h : NoDup l.*2 → (p, q) ∈ l → height n l q = Some h → ∃ k, height n l p = Some k ∧ (k < h)%nat.
Proof.
  intros Hd Hin. destruct n as [|n]; cbn [height]; rewrite (parent_of_spec l p q Hd Hin); [done|].
  destruct (height n l p) as [k|] eqn:E; [|done]. intros [= <-]. exists k. split; [|lia]. apply (height_more n l p k E).
Qed.

Lemma parent_of_link l p q : parent_of l q = Some p → (p, q) ∈ l.
Proof.
  unfold parent_of. destruct (find _ l) as [[p' q']|] eqn:E; [|done]. intros [= ->].
  apply find_some in E as [Hin Hq]. apply list_elem_of_In. apply Nat.eqb_eq in Hq. cbn in Hq. by rewrite <- Hq.
Qed.

Lemma climb_ok t n p q : climb n (tree_links t) p q = true → rtc (parent t) p q.
Proof.
  revert q. induction n as [|n IH]; intros q; cbn; rewrite orb_true_iff, Nat.eqb_eq; intros [->|H]; try done; try apply rtc_refl.
  destruct (parent_of (tree_links t) q) as [q'|] eqn:E; [|done].
  apply rtc_r with q'; [by apply IH|by apply parent_of_link].
Qed.

Lemma shownb_ok t w : shownb t w = true → shown t w.
Proof.
  unfold shownb. rewrite existsb_exists. intros ([i c] & Hin & H). rewrite <- list_elem_of_In, elem_of_lookup_imap in Hin.
  destruct Hin as (j & d & [= -> ->] & Hj). cbn in H. destruct (args d) as [|[a| | | | | | | | | | | |] [|? ?]] eqn:Ea; try done.
  exists j, d, a. split_and!; [done|done|].
  destruct (String.eqb_spec (fn d) "gtk_widget_show"); [left; by apply Nat.eqb_eq in H|].
  destruct (String.eqb_spec (fn d) "gtk_widget_show_all"); [|done]. right. split; [done|by apply climb_ok in H].
Qed.

Lemma treeb_ok t top : treeb t top = true → tree t top.
Proof.
  unfold treeb. rewrite !andb_true_iff, bool_decide_eq_true, !forallb_forall. intros [[[[[Hs Hd] Hh] Hr] Hv] Ht].
  set (l := tree_links t) in *. set (n := length l) in *.
  assert (Hup : ∀ a b, tc (parent t) a b → (∃ p, (p, b) ∈ l) ∧ (∀ h, height n l b = Some h → ∃ k, height n l a = Some k ∧ (k < h)%nat)).
  { induction 1 as [a b H|a b c H _ [Hl IH]]; [split; [by exists a|intros h; by apply height_parent]|]. split; [done|].
    intros h Hc. destruct (IH h Hc) as (k & Hk & Hlt). destruct (height_parent n l a b k Hd H Hk) as (j & Hj & Hjk).
    exists j. split; [done|lia]. }
  constructor; [by apply scopedb_ok|done| | | |by apply shownb_ok].
  - intros w Hw. destruct (Hup w w Hw) as [[p Hp] H].
    specialize (Hh (p, w)). rewrite <- list_elem_of_In in Hh. specialize (Hh Hp). cbn in Hh.
    destruct (height n l w) as [h|]; [|done]. destruct (H h eq_refl) as (k & [= ->] & Hlt). lia.
  - intros p q Hin. apply list_elem_of_In, Hr, climb_ok in Hin. done.
  - intros p q Hin. apply list_elem_of_In, Hv, shownb_ok in Hin. done.
Qed.
