(* ===== verification/GtkButtons.v ===== *)
(** The programs of [src/cpp/gtk] about windows and buttons: gtk_window, gtk_box,
    gtk_table, gtk_check_button, gtk_toggle_button, gtk_pic_button,
    gtk_radio_button, gtk_arrow, gtk_fixed_button, gtk_fixed_container,
    gtk_tooltips, gtk_dialog and gtk_event_box. *)
From S2P Require Import Prelude CString Gtk.

(** ** gtk_window.c *)

Definition window_print_hello (widget data : arg) : Gtk () :=
  call "g_print" [Str "button clicked\n"].

Definition window_callback (widget data : arg) : Gtk () :=
  call "g_print" [Str "Hello again - %s was pressed\n"; data].

Definition window_delete_event (widget event data : arg) : Gtk arg :=
  call "gtk_main_quit" [];;
  mret (Int 0).

Definition window_destroy (widget data : arg) : Gtk () :=
  call "gtk_main_quit" [].

Definition window_main : Gtk arg :=
  call "gtk_init" [Addr "argc"; Addr "argv"];;
  window ← create "gtk_window_new" [Const "GTK_WINDOW_TOPLEVEL"];
  call "g_signal_connect" [window; Str "destroy"; Fun "destroy"; NULL];;
  call "g_signal_connect" [window; Str "delete-event"; Fun "delete_event"; NULL];;
  call "gtk_window_set_title" [window; Str "Hello windows"];;
  call "gtk_window_set_default_size" [window; Int 200; Int 100];;
  call "gtk_container_set_border_width" [window; Int 5];;
  box1 ← create "gtk_hbox_new" [Int 0; Int 0];
  call "gtk_container_add" [window; box1];;
  button ← create "gtk_button_new_with_label" [Str "button1"];
  call "g_signal_connect" [button; Str "clicked"; Fun "callback"; Str "button 1"];;
  call "gtk_box_pack_start" [box1; button; Int 1; Int 1; Int 0];;
  call "gtk_widget_show_all" [window];;
  call "gtk_main" [];;
  mret (Int 0).

Definition gtk_window : program :=
  mkProgram "gtk_window.c" window_main 
    (handlers (handler "delete_event" (window_delete_event NULL NULL NULL)) (handler "destroy" (void (window_destroy NULL NULL)))).

(** ** gtk_box.c *)

Definition box_print_hello (widget data : arg) : Gtk () :=
  call "g_print" [Str "button clicked\n"].

Definition box_callback (widget data : arg) : Gtk () :=
  call "g_print" [Str "Hello again - %s was pressed\n"; data].

Definition box_delete_event (widget event data : arg) : Gtk arg :=
  call "gtk_main_quit" [];;
  mret (Int 0).

Definition box_destroy (widget data : arg) : Gtk () :=
  call "gtk_main_quit" [].

Definition box_main : Gtk arg :=
  call "gtk_init" [Addr "argc"; Addr "argv"];;
  window ← create "gtk_window_new" [Const "GTK_WINDOW_TOPLEVEL"];
  call "gtk_window_set_title" [window; Str "Hello box!"];;
  call "g_signal_connect" [window; Str "delete-event"; Fun "delete_event"; NULL];;
  call "gtk_container_set_border_width" [window; Int 20];;
  box1 ← create "gtk_hbox_new" [Int 0; Int 0];
  call "gtk_container_add" [window; box1];;
  button ← create "gtk_button_new_with_label" [Str "Button 1"];
  call "g_signal_connect" [button; Str "clicked"; Fun "callback"; Str "button 1"];;
  call "gtk_box_pack_start" [box1; button; Int 0; Int 1; Int 1];;
  call "gtk_widget_show" [button];;
  button ← create "gtk_button_new_with_label" [Str "Button 2"];
  call "g_signal_connect" [button; Str "clicked"; Fun "callback"; Str "button 2"];;
  call "gtk_box_pack_start" [box1; button; Int 0; Int 1; Int 1];;
  call "gtk_widget_show" [button];;
  call "gtk_widget_show" [box1];;
  call "gtk_widget_show" [window];;
  call "gtk_main" [];;
  mret (Int 0).

Definition gtk_box : program :=
  mkProgram "gtk_box.c" box_main 
    (handlers (handler "delete_event" (box_delete_event NULL NULL NULL)) (handler "destroy" (void (box_destroy NULL NULL)))).

(** ** gtk_table.c *)

Definition table_callback (widget data : arg) : Gtk () :=
  call "g_print" [Str "Hello again - %s was pressed\n"; data].

Definition table_delete_event (widget event data : arg) : Gtk arg :=
  call "gtk_main_quit" [];;
  mret (Int 0).

Definition table_main : Gtk arg :=
  call "gtk_init" [Addr "argc"; Addr "argv"];;
  window ← create "gtk_window_new" [Const "GTK_WINDOW_TOPLEVEL"];
  call "gtk_window_set_title" [window; Str "Table"];;
  call "g_signal_connect" [window; Str "delete-event"; Fun "delete_event"; NULL];;
  call "gtk_container_set_border_width" [window; Int 20];;
  table ← create "gtk_table_new" [Int 2; Int 2; Int 1];
  call "gtk_container_add" [window; table];;
  button ← create "gtk_button_new_with_label" [Str "button 1"];
  call "g_signal_connect" [button; Str "clicked"; Fun "callback"; Str "button 1"];;
  call "gtk_table_attach_defaults" [table; button; Int 0; Int 1; Int 0; Int 1];;
  call "gtk_widget_show" [button];;
  button ← create "gtk_button_new_with_label" [Str "button 2"];
  call "g_signal_connect" [button; Str "clicked"; Fun "callback"; Str "button 2"];;
  call "gtk_table_attach_defaults" [table; button; Int 1; Int 2; Int 0; Int 1];;
  call "gtk_widget_show" [button];;
  button ← create "gtk_button_new_with_label" [Str "Quit"];
  call "g_signal_connect" [button; Str "clicked"; Fun "delete_event"; NULL];;
  call "gtk_table_attach_defaults" [table; button; Int 0; Int 2; Int 1; Int 2];;
  call "gtk_widget_show" [button];;
  call "gtk_widget_show" [table];;
  call "gtk_widget_show" [window];;
  call "gtk_main" [];;
  mret (Int 0).

Definition gtk_table : program :=
  mkProgram "gtk_table.c" table_main (handler "delete_event" (table_delete_event NULL NULL NULL)).

(** ** gtk_check_button.c *)

Definition check_xpm_label_box (xpm_filename label_text : arg) : Gtk arg :=
  box ← create "gtk_hbox_new" [Int 0; Int 0];
  call "gtk_container_set_border_width" [box; Int 2];;
  image ← create "gtk_image_new_from_file" [xpm_filename];
  label ← create "gtk_label_new" [label_text];
  call "gtk_box_pack_start" [box; image; Int 0; Int 0; Int 3];;
  call "gtk_box_pack_start" [box; label; Int 0; Int 0; Int 3];;
  call "gtk_widget_show" [image];;
  call "gtk_widget_show" [label];;
  mret box.

Definition check_button_callback (widget data : arg) : Gtk () :=
  active ← ask "gtk_toggle_button_get_active" [widget];
  if negb (active =? 0) then call "g_print" [Str "%s was pressed, i am active\n"; data]
  else call "g_print" [Str "%s was pressed, i am deactive\n"; data].

Definition check_main : Gtk arg :=
  call "gtk_init" [Addr "argc"; Addr "argv"];;
  window ← create "gtk_window_new" [Const "GTK_WINDOW_TOPLEVEL"];
  call "gtk_window_set_title" [window; Str "Check Buttons!"];;
  call "g_signal_connect" [window; Str "destroy"; Fun "gtk_main_quit"; NULL];;
  call "g_signal_connect" [window; Str "delete-event"; Fun "gtk_main_quit"; NULL];;
  call "gtk_container_set_border_width" [window; Int 10];;
  button ← create "gtk_check_button_new_with_label" [Str "Check it with label"];
  call "g_signal_connect" [button; Str "clicked"; Fun "check_button_callback"; Str "check button"];;
  call "gtk_widget_show" [button];;
  call "gtk_container_add" [window; button];;
  call "gtk_widget_show" [window];;
  call "gtk_main" [];;
  mret (Int 0).

Definition gtk_check_button : program := mkProgram "gtk_check_button.c" check_main no_handler.

(** ** gtk_toggle_button.c *)

Definition toggle_xpm_label_box (xpm_filename label_text : arg) : Gtk arg :=
  box ← create "gtk_hbox_new" [Int 0; Int 0];
  call "gtk_container_set_border_width" [box; Int 2];;
  image ← create "gtk_image_new_from_file" [xpm_filename];
  label ← create "gtk_label_new" [label_text];
  call "gtk_box_pack_start" [box; image; Int 0; Int 0; Int 3];;
  call "gtk_box_pack_start" [box; label; Int 0; Int 0; Int 3];;
  call "gtk_widget_show" [image];;
  call "gtk_widget_show" [label];;
  mret box.

Definition toggle_button_callback (widget data : arg) : Gtk () :=
  active ← ask "gtk_toggle_button_get_active" [widget];
  if negb (active =? 0) then call "g_print" [Str "%s was pressed, i am active\n"; data]
  else call "g_print" [Str "%s was pressed, i am deactive\n"; data].

Definition toggle_main : Gtk arg :=
  call "gtk_init" [Addr "argc"; Addr "argv"];;
  window ← create "gtk_window_new" [Const "GTK_WINDOW_TOPLEVEL"];
  call "gtk_window_set_title" [window; Str "Toggle Buttons!"];;
  call "g_signal_connect" [window; Str "destroy"; Fun "gtk_main_quit"; NULL];;
  call "g_signal_connect" [window; Str "delete-event"; Fun "gtk_main_quit"; NULL];;
  call "gtk_container_set_border_width" [window; Int 10];;
  button ← create "gtk_toggle_button_new_with_mnemonic" [Str "Check it with mnemonic"];
  call "g_signal_connect" [button; Str "clicked"; Fun "toggle_button_callback"; Str "toggle button"];;
  call "gtk_widget_show" [button];;
  call "gtk_container_add" [window; button];;
  call "gtk_widget_show" [window];;
  call "gtk_main" [];;
  mret (Int 0).

Definition gtk_toggle_button : program := mkProgram "gtk_toggle_button.c" toggle_main no_handler.

(** ** gtk_pic_button.c *)

Definition pic_xpm_label_box (xpm_filename label_text : arg) : Gtk arg :=
  box ← create "gtk_hbox_new" [Int 0; Int 0];
  call "gtk_container_set_border_width" [box; Int 2];;
  image ← create "gtk_image_new_from_file" [xpm_filename];
  label ← create "gtk_label_new" [label_text];
  call "gtk_box_pack_start" [box; image; Int 0; Int 0; Int 3];;
  call "gtk_box_pack_start" [box; label; Int 0; Int 0; Int 3];;
  call "gtk_widget_show" [image];;
  call "gtk_widget_show" [label];;
  mret box.

Definition pic_callback (widget data : arg) : Gtk () :=
  call "g_print" [Str "Hello again - %s was pressed\n"; data].

Definition pic_main : Gtk arg :=
  call "gtk_init" [Addr "argc"; Addr "argv"];;
  window ← create "gtk_window_new" [Const "GTK_WINDOW_TOPLEVEL"];
  call "gtk_window_set_title" [window; Str "Pixmap'd Buttons!"];;
  call "g_signal_connect" [window; Str "destroy"; Fun "gtk_main_quit"; NULL];;
  call "g_signal_connect" [window; Str "delete-event"; Fun "gtk_main_quit"; NULL];;
  call "gtk_container_set_border_width" [window; Int 10];;
  button ← create "gtk_button_new" [];
  call "g_signal_connect" [button; Str "clicked"; Fun "callback"; Str "cool button"];;
  box ← pic_xpm_label_box (Str "pic1.png") (Str "cool button");
  call "gtk_widget_show" [box];;
  call "gtk_container_add" [button; box];;
  call "gtk_widget_show" [button];;
  call "gtk_container_add" [window; button];;
  call "gtk_widget_show" [window];;
  call "gtk_main" [];;
  mret (Int 0).

Definition gtk_pic_button : program := mkProgram "gtk_pic_button.c" pic_main no_handler.

(** ** gtk_radio_button.c *)

Definition radio_close_application (widget event data : arg) : Gtk arg :=
  call "gtk_main_quit" [];;
  mret (Int 0).

Definition radio_main : Gtk arg :=
  call "gtk_init" [Addr "argc"; Addr "argv"];;
  window ← create "gtk_window_new" [Const "GTK_WINDOW_TOPLEVEL"];
  call "g_signal_connect" [window; Str "delete-event"; Fun "close_application"; NULL];;
  call "gtk_window_set_title" [window; Str "radio buttons"];;
  call "gtk_container_set_border_width" [window; Int 0];;
  box1 ← create "gtk_vbox_new" [Int 0; Int 0];
  call "gtk_container_add" [window; box1];;
  call "gtk_widget_show" [box1];;
  box2 ← create "gtk_vbox_new" [Int 0; Int 10];
  call "gtk_container_set_border_width" [box2; Int 10];;
  call "gtk_box_pack_start" [box1; box2; Int 1; Int 1; Int 0];;
  call "gtk_widget_show" [box2];;
  button ← create "gtk_radio_button_new_with_label" [NULL; Str "button1"];
  call "gtk_box_pack_start" [box2; button; Int 1; Int 1; Int 0];;
  call "gtk_widget_show" [button];;
  group ← create "gtk_radio_button_get_group" [button];
  button ← create "gtk_radio_button_new_with_label" [group; Str "button2"];
  call "gtk_toggle_button_set_active" [button; Int 1];;
  call "gtk_box_pack_start" [box2; button; Int 1; Int 1; Int 0];;
  call "gtk_widget_show" [button];;
  button ← create "gtk_radio_button_new_with_label_from_widget" [button; Str "button3"];
  call "gtk_box_pack_start" [box2; button; Int 1; Int 1; Int 0];;
  call "gtk_widget_show" [button];;
  separator ← create "gtk_hseparator_new" [];
  call "gtk_box_pack_start" [box1; separator; Int 0; Int 1; Int 0];;
  call "gtk_widget_show" [separator];;
  box2 ← create "gtk_vbox_new" [Int 0; Int 10];
  call "gtk_container_set_border_width" [box2; Int 10];;
  call "gtk_box_pack_start" [box1; box2; Int 0; Int 1; Int 0];;
  call "gtk_widget_show" [box2];;
  button ← create "gtk_button_new_with_label" [Str "close"];
  call "g_signal_connect_swapped" [button; Str "clicked"; Fun "close_application"; window];;
  call "gtk_box_pack_start" [box2; button; Int 1; Int 1; Int 0];;
  call "gtk_widget_set_can_default" [button; Int 1];;
  call "gtk_widget_grab_default" [button];;
  call "gtk_widget_show" [button];;
  call "gtk_widget_show" [window];;
  call "gtk_main" [];;
  mret (Int 0).

Definition gtk_radio_button : program :=
  mkProgram "gtk_radio_button.c" radio_main (handler "close_application" (radio_close_application NULL NULL NULL)).

(** ** gtk_arrow.c *)

Definition create_arrow_button (arrow_type shadow_type : arg) : Gtk arg :=
  button ← create "gtk_button_new" [];
  arrow ← create "gtk_arrow_new" [arrow_type; shadow_type];
  call "gtk_container_add" [button; arrow];;
  call "gtk_widget_show" [button];;
  call "gtk_widget_show" [arrow];;
  mret button.

Definition arrow_main : Gtk arg :=
  call "gtk_init" [Addr "argc"; Addr "argv"];;
  window ← create "gtk_window_new" [Const "GTK_WINDOW_TOPLEVEL"];
  call "gtk_window_set_title" [window; Str "Arrow Buttons"];;
  call "g_signal_connect" [window; Str "destroy"; Fun "gtk_main_quit"; NULL];;
  call "gtk_container_set_border_width" [window; Int 10];;
  box ← create "gtk_hbox_new" [Int 0; Int 0];
  call "gtk_container_set_border_width" [box; Int 2];;
  call "gtk_container_add" [window; box];;
  call "gtk_widget_show" [box];;
  button ← create_arrow_button (Const "GTK_ARROW_UP") (Const "GTK_SHADOW_IN");
  call "gtk_box_pack_start" [box; button; Int 1; Int 0; Int 10];;
  button ← create_arrow_button (Const "GTK_ARROW_DOWN") (Const "GTK_SHADOW_OUT");
  call "gtk_box_pack_start" [box; button; Int 1; Int 0; Int 10];;
  button ← create_arrow_button (Const "GTK_ARROW_LEFT") (Const "GTK_SHADOW_ETCHED_IN");
  call "gtk_box_pack_start" [box; button; Int 1; Int 0; Int 10];;
  button ← create_arrow_button (Const "GTK_ARROW_RIGHT") (Const "GTK_SHADOW_ETCHED_OUT");
  call "gtk_box_pack_start" [box; button; Int 1; Int 0; Int 10];;
  call "gtk_widget_show" [window];;
  call "gtk_main" [];;
  mret (Int 0).

Definition gtk_arrow : program := mkProgram "gtk_arrow.c" arrow_main no_handler.

(** ** gtk_fixed_button.c *)

Definition fixed_on_button_clicked (button user_data : arg) : Gtk () :=
  call "g_print" [Str "%s clicked, I am here, can u see me?\n"; user_data].

Definition fixed_main : Gtk arg :=
  call "gtk_init" [Addr "argc"; Addr "argv"];;
  window ← create "gtk_window_new" [Const "GTK_WINDOW_TOPLEVEL"];
  call "gtk_window_set_default_size" [window; Int 800; Int 600];;
  fixed ← create "gtk_fixed_new" [];
  button1 ← create "gtk_button_new_with_label" [Str "Tom"];
  button2 ← create "gtk_button_new_with_label" [Str "Jerry"];
  call "g_signal_connect" [window; Str "destroy"; Fun "gtk_main_quit"; NULL];;
  call "g_signal_connect" [button1; Str "clicked"; Fun "on_button_clicked"; Str "Tom"];;
  call "g_signal_connect" [button2; Str "clicked"; Fun "on_button_clicked"; Str "Jerry"];;
  call "gtk_container_add" [window; fixed];;
  call "gtk_fixed_put" [fixed; button1; Int 0; Int 300];;
  call "gtk_fixed_put" [fixed; button2; Int 400; Int 300];;
  call "gtk_widget_show_all" [window];;
  call "gtk_main" [];;
  mret (Int 0).

Definition gtk_fixed_button : program := mkProgram "gtk_fixed_button.c" fixed_main no_handler.

(** ** gtk_fixed_container.c *)

(** The globals [x] and [y]. *)
Definition container_xy : Z * Z := (50, 50).

Definition move_button (xy : Z * Z) (widget fixed : arg) : Gtk (Z * Z) :=
  let x := Z.rem (xy.1 + 30) 300 in
  let y := Z.rem (xy.2 + 50) 300 in
  call "gtk_fixed_move" [fixed; widget; Int x; Int y];;
  mret (x, y).

Definition container_main : Gtk arg :=
  call "gtk_init" [Addr "argc"; Addr "argv"];;
  window ← create "gtk_window_new" [Const "GTK_WINDOW_TOPLEVEL"];
  call "gtk_window_set_title" [window; Str "Fixed Container"];;
  call "gtk_window_set_default_size" [window; Int 800; Int 600];;
  call "g_signal_connect" [window; Str "destroy"; Fun "gtk_main_quit"; NULL];;
  call "gtk_container_set_border_width" [window; Int 10];;
  fixed ← create "gtk_fixed_new" [];
  call "gtk_container_add" [window; fixed];;
  call "gtk_widget_show" [fixed];;
  gtk_for 3 1 (λ i,
    button ← create "gtk_button_new_with_label" [Str "Press me"];
    call "g_signal_connect" [button; Str "clicked"; Fun "move_button"; fixed];;
    call "gtk_fixed_put" [fixed; button; Int (i * 50); Int (i * 50)];;
    call "gtk_widget_show" [button]);;
  call "gtk_widget_show" [window];;
  call "gtk_main" [];;
  mret (Int 0).

Definition gtk_fixed_container : program := mkProgram "gtk_fixed_container.c" container_main no_handler.

(** ** gtk_tooltips.c *)

Definition tips_main : Gtk arg :=
  call "gtk_init" [Addr "argc"; Addr "argv"];;
  window ← create "gtk_window_new" [Const "GTK_WINDOW_TOPLEVEL"];
  call "gtk_window_set_title" [window; Str "Arrow Buttons"];;
  call "g_signal_connect" [window; Str "destroy"; Fun "gtk_main_quit"; NULL];;
  call "gtk_container_set_border_width" [window; Int 10];;
  tooltips ← create "gtk_tooltips_new" [];
  button ← create "gtk_button_new_with_label" [Str "button 1"];
  call "gtk_tooltips_set_tip" [tooltips; button; Str "This is button 1, You can click it"; NULL];;
  call "gtk_container_add" [window; button];;
  call "gtk_widget_show_all" [window];;
  call "gtk_main" [];;
  mret (Int 0).

Definition gtk_tooltips : program := mkProgram "gtk_tooltips.c" tips_main no_handler.

(** ** gtk_dialog.c *)

(** With [SCHEMALESS_WINDOW] defined, as the file has it. *)
Definition dialog_button_click (widget parent : arg) : Gtk () :=
  dialog ← create "gtk_dialog_new_with_buttons"
    [Str "我的第一个对话框"; parent; Const "GTK_DIALOG_DESTROY_WITH_PARENT"; Const "GTK_STOCK_OK"; Const "GTK_RESPONSE_OK"; NULL];
  call "gtk_dialog_set_has_separator" [dialog; Int 0];;
  label ← create "gtk_label_new" [Str "the button was clicked!"];
  image ← create "gtk_image_new_from_stock" [Const "GTK_STOCK_DIALOG_INFO"; Const "GTK_ICON_SIZE_DIALOG"];
  hbox ← create "gtk_hbox_new" [Int 0; Int 5];
  call "gtk_container_set_border_width" [hbox; Int 10];;
  call "gtk_box_pack_start_defaults" [hbox; image];;
  call "gtk_box_pack_start_defaults" [hbox; label];;
  call "gtk_box_pack_start_defaults" [Field dialog "vbox"; hbox];;
  call "gtk_widget_show_all" [dialog];;
  call "g_signal_connect" [dialog; Str "response"; Fun "gtk_widget_destroy"; NULL].

Definition dialog_main : Gtk arg :=
  call "gtk_init" [Addr "argc"; Addr "argv"];;
  window ← create "gtk_window_new" [Const "GTK_WINDOW_TOPLEVEL"];
  call "g_signal_connect" [window; Str "delete_event"; Fun "gtk_main_quit"; NULL];;
  call "gtk_window_set_title" [window; Str "对话框练习"];;
  call "gtk_window_set_position" [window; Const "GTK_WIN_POS_CENTER"];;
  call "gtk_container_set_border_width" [window; Int 20];;
  button ← create "gtk_button_new_with_mnemonic" [Str "clicked me"];
  call "gtk_container_add" [window; button];;
  call "g_signal_connect" [button; Str "clicked"; Fun "button_click"; window];;
  call "gtk_widget_show" [button];;
  call "gtk_widget_show_all" [window];;
  call "gtk_main" [];;
  mret (Int 0).

Definition gtk_dialog : program := mkProgram "gtk_dialog.c" dialog_main no_handler.

(** ** gtk_event_box.c *)

Definition event_main : Gtk arg :=
  call "gtk_init" [Addr "argc"; Addr "argv"];;
  window ← create "gtk_window_new" [Const "GTK_WINDOW_TOPLEVEL"];
  call "gtk_window_set_title" [window; Str "Event Box"];;
  call "g_signal_connect" [window; Str "destroy"; Fun "exit"; NULL];;
  call "gtk_container_set_border_width" [window; Int 10];;
  event_box ← create "gtk_event_box_new" [];
  call "gtk_container_add" [window; event_box];;
  call "gtk_widget_show" [event_box];;
  label ← create "gtk_label_new" [Str "Click here to quit, quit, quit, quit, quit"];
  call "gtk_container_add" [event_box; label];;
  call "gtk_widget_show" [label];;
  call "gtk_widget_set_size_request" [label; Int 200; Int 50];;
  call "gtk_widget_set_events" [event_box; Const "GDK_BUTTON_PRESS_MASK"];;
  call "g_signal_connect" [event_box; Str "button_press_event"; Fun "exit"; NULL];;
  call "gtk_widget_realize" [event_box];;
  t0 ← create "gdk_cursor_new" [Const "GDK_HAND1"];
  call "gdk_window_set_cursor" [Field event_box "window"; t0];;
  call "gtk_widget_show" [window];;
  call "gtk_main" [];;
  mret (Int 0).

Definition gtk_event_box : program := mkProgram "gtk_event_box.c" event_main no_handler.
