(* ===== verification/GtkLayout.v ===== *)
(** The programs of [src/cpp/gtk] about layout: gtk_alignment, gtk_frame,
    gtk_aspect_frame, gtk_label, gtk_button_box, gtk_packbox, gtk_paned_window,
    gtk_scrolled_window, gtk_ruler and gtk_notebook. *)
From S2P Require Import Prelude CString Gtk.

(** ** gtk_alignment.c *)

Definition alignment_print_hello (widget data : arg) : Gtk () :=
  call "g_print" [Str "button clicked\n"].

Definition alignment_callback (widget data : arg) : Gtk () :=
  call "g_print" [Str "Hello again - %s was pressed\n"; data].

Definition alignment_delete_event (widget event data : arg) : Gtk arg :=
  call "gtk_main_quit" [];;
  mret (Int 0).

Definition alignment_destroy (widget data : arg) : Gtk () :=
  call "gtk_main_quit" [].

Definition alignment_main : Gtk arg :=
  call "gtk_init" [Addr "argc"; Addr "argv"];;
  window ← create "gtk_window_new" [Const "GTK_WINDOW_TOPLEVEL"];
  call "g_signal_connect" [window; Str "destroy"; Fun "destroy"; NULL];;
  call "g_signal_connect" [window; Str "delete-event"; Fun "delete_event"; NULL];;
  call "gtk_window_set_title" [window; Str "Hello windows"];;
  call "gtk_container_set_border_width" [window; Int 5];;
  box1 ← create "gtk_hbox_new" [Int 0; Int 0];
  call "gtk_container_add" [window; box1];;
  button ← create "gtk_button_new_with_label" [Str "button1"];
  call "gtk_widget_set_size_request" [button; Int 200; Int 30];;
  align ← create "gtk_alignment_new" [Dbl "0.5"; Dbl "0.5"; Dbl "0.5"; Dbl "0.5"];
  call "g_signal_connect" [button; Str "clicked"; Fun "callback"; Str "button 1"];;
  call "gtk_box_pack_start" [box1; button; Int 1; Int 1; Int 0];;
  call "gtk_widget_show_all" [window];;
  call "gtk_main" [];;
  mret (Int 0).

Definition gtk_alignment : program :=
  mkProgram "gtk_alignment.c" alignment_main 
    (handlers (handler "delete_event" (alignment_delete_event NULL NULL NULL)) (handler "destroy" (void (alignment_destroy NULL NULL)))).

(** ** gtk_frame.c *)

Definition frame_main : Gtk arg :=
  call "gtk_init" [Addr "argc"; Addr "argv"];;
  window ← create "gtk_window_new" [Const "GTK_WINDOW_TOPLEVEL"];
  call "gtk_window_set_title" [window; Str "My Frame"];;
  call "g_signal_connect" [window; Str "destroy"; Fun "gtk_main_quit"; NULL];;
  call "gtk_widget_set_size_request" [window; Int 400; Int 300];;
  call "gtk_container_set_border_width" [window; Int 5];;
  frame ← create "gtk_frame_new" [NULL];
  call "gtk_container_add" [window; frame];;
  call "gtk_frame_set_label" [frame; Str "GTK Frame Widget"];;
  call "gtk_frame_set_label_align" [frame; Dbl "1.0"; Dbl "0.0"];;
  call "gtk_frame_set_shadow_type" [frame; Const "GTK_SHADOW_ETCHED_OUT"];;
  call "gtk_widget_show" [frame];;
  call "gtk_widget_show" [window];;
  call "gtk_main" [];;
  mret (Int 0).

Definition gtk_frame : program := mkProgram "gtk_frame.c" frame_main no_handler.

(** ** gtk_aspect_frame.c *)

Definition aspect_main : Gtk arg :=
  call "gtk_init" [Addr "argc"; Addr "argv"];;
  window ← create "gtk_window_new" [Const "GTK_WINDOW_TOPLEVEL"];
  call "gtk_window_set_title" [window; Str "Aspect Frame"];;
  call "g_signal_connect" [window; Str "destroy"; Fun "gtk_main_quit"; NULL];;
  call "gtk_container_set_border_width" [window; Int 10];;
  aspect_frame ← create "gtk_aspect_frame_new" [Str "2x1"; Dbl "0.5"; Dbl "1.5"; Int 2; Int 0];
  call "gtk_container_add" [window; aspect_frame];;
  call "gtk_widget_show" [aspect_frame];;
  drawing_area ← create "gtk_drawing_area_new" [];
  call "gtk_widget_set_size_request" [drawing_area; Int 200; Int 200];;
  call "gtk_container_add" [aspect_frame; drawing_area];;
  call "gtk_widget_show" [drawing_area];;
  call "gtk_widget_show" [window];;
  call "gtk_main" [];;
  mret (Int 0).

Definition gtk_aspect_frame : program := mkProgram "gtk_aspect_frame.c" aspect_main no_handler.

(** ** gtk_label.c *)

Definition label_main : Gtk arg :=
  call "gtk_init" [Addr "argc"; Addr "argv"];;
  window ← create "gtk_window_new" [Const "GTK_WINDOW_TOPLEVEL"];
  call "gtk_window_set_resizable" [window; Int 0];;
  call "gtk_window_set_gravity" [window; Const "GDK_GRAVITY_SOUTH"];;
  call "g_signal_connect" [window; Str "destroy"; Fun "gtk_main_quit"; NULL];;
  call "gtk_window_set_title" [window; Str "Label"];;
  vbox ← create "gtk_vbox_new" [Int 0; Int 5];
  hbox ← create "gtk_hbox_new" [Int 0; Int 5];
  call "gtk_container_add" [window; hbox];;
  call "gtk_box_pack_start" [hbox; vbox; Int 0; Int 0; Int 0];;
  call "gtk_container_set_border_width" [window; Int 5];;
  frame ← create "gtk_frame_new" [Str "Normal Label"];
  label ← create "gtk_label_new" [Str "This is a Normal label"];
  call "gtk_container_add" [frame; label];;
  call "gtk_box_pack_start" [vbox; frame; Int 0; Int 0; Int 0];;
  frame ← create "gtk_frame_new" [Str "Multi-line Label"];
  label ← create "gtk_label_new" [Str "This is a Multi-line label.\nSecond line\nThird line"];
  call "gtk_container_add" [frame; label];;
  call "gtk_box_pack_start" [vbox; frame; Int 0; Int 0; Int 10];;
  frame ← create "gtk_frame_new" [Str "Left Justified Label"];
  label ← create "gtk_label_new" [Str "This is a Left-Justified\nMulti-line label.\nThird      line"];
  call "gtk_label_set_justify" [label; Const "GTK_JUSTIFY_LEFT"];;
  call "gtk_container_add" [frame; label];;
  call "gtk_box_pack_start" [vbox; frame; Int 0; Int 0; Int 0];;
  frame ← create "gtk_frame_new" [Str "Right Justified Label"];
  label ← create "gtk_label_new" [Str "This is a Right-Justified\nMulti-line label.\nFourth line, (j/k)"];
  call "gtk_label_set_justify" [label; Const "GTK_JUSTIFY_RIGHT"];;
  call "gtk_container_add" [frame; label];;
  call "gtk_box_pack_start" [vbox; frame; Int 0; Int 0; Int 0];;
  vbox ← create "gtk_vbox_new" [Int 0; Int 5];
  call "gtk_box_pack_start" [hbox; vbox; Int 0; Int 0; Int 0];;
  frame ← create "gtk_frame_new" [Str "Line wrapped label"];
  label ← create "gtk_label_new" [Str "This is an example of a line-wrapped label.  It should not be taking up the entire             width allocated to it, but automatically wraps the words to fit.  The time has come, for all good men, to come to the aid of their party.  The sixth sheik's six sheep's sick.\n     It supports multiple paragraphs correctly, and  correctly   adds many          extra  spaces. "];
  call "gtk_label_set_line_wrap" [label; Int 1];;
  call "gtk_container_add" [frame; label];;
  call "gtk_box_pack_start" [vbox; frame; Int 0; Int 0; Int 0];;
  frame ← create "gtk_frame_new" [Str "Filled, wrapped label"];
  label ← create "gtk_label_new" [Str "This is an example of a line-wrapped, filled label.  It should be taking up the entire              width allocated to it.  Here is a sentence to prove my point.  Here is another sentence. Here comes the sun, do de do de do.\n    This is a new paragraph.\n    This is another newer, longer, better paragraph.  It is coming to an end, unfortunately."];
  call "gtk_label_set_justify" [label; Const "GTK_JUSTIFY_FILL"];;
  call "gtk_label_set_line_wrap" [label; Int 1];;
  call "gtk_container_add" [frame; label];;
  call "gtk_box_pack_start" [vbox; frame; Int 0; Int 0; Int 0];;
  frame ← create "gtk_frame_new" [Str "Underlined label"];
  label ← create "gtk_label_new" [Str "This label is underlined!\nThis one is underlined in quite a funky fashion"];
  call "gtk_label_set_justify" [label; Const "GTK_JUSTIFY_LEFT"];;
  call "gtk_label_set_pattern" [label; Str "_________________________ ____ ___ _______ ______     __ _______ ___"];;
  call "gtk_container_add" [frame; label];;
  call "gtk_box_pack_start" [vbox; frame; Int 0; Int 0; Int 0];;
  call "gtk_widget_show_all" [window];;
  call "gtk_main" [];;
  mret (Int 0).

Definition gtk_label : program := mkProgram "gtk_label.c" label_main no_handler.

(** ** gtk_button_box.c *)

Definition create_bbox (horizontal : Z) (title spacing child_w child_h layout : arg) : Gtk arg :=
  frame ← create "gtk_frame_new" [title];
  bbox ← (if negb (horizontal =? 0) then create "gtk_hbutton_box_new" [] else create "gtk_vbutton_box_new" []);
  call "gtk_container_set_border_width" [bbox; Int 5];;
  call "gtk_container_add" [frame; bbox];;
  call "gtk_button_box_set_layout" [bbox; layout];;
  call "gtk_box_set_spacing" [bbox; spacing];;
  button ← create "gtk_button_new_from_stock" [Const "GTK_STOCK_OK"];
  call "gtk_container_add" [bbox; button];;
  button ← create "gtk_button_new_from_stock" [Const "GTK_STOCK_CANCEL"];
  call "gtk_container_add" [bbox; button];;
  button ← create "gtk_button_new_from_stock" [Const "GTK_STOCK_HELP"];
  call "gtk_container_add" [bbox; button];;
  mret frame.

Definition bbox_main : Gtk arg :=
  call "gtk_init" [Addr "argc"; Addr "argv"];;
  window ← create "gtk_window_new" [Const "GTK_WINDOW_TOPLEVEL"];
  call "gtk_window_set_title" [window; Str "Button Boxes"];;
  call "g_signal_connect" [window; Str "destroy"; Fun "gtk_main_quit"; NULL];;
  call "gtk_container_set_border_width" [window; Int 10];;
  main_vbox ← create "gtk_vbox_new" [Int 0; Int 0];
  call "gtk_container_add" [window; main_vbox];;
  frame_horz ← create "gtk_frame_new" [Str "Horizontal Button Boxes"];
  call "gtk_box_pack_start" [main_vbox; frame_horz; Int 1; Int 1; Int 10];;
  vbox ← create "gtk_vbox_new" [Int 0; Int 0];
  call "gtk_container_set_border_width" [vbox; Int 10];;
  call "gtk_container_add" [frame_horz; vbox];;
  t0 ← create_bbox 1 (Str "Spread (spacing 40)") (Int 40) (Int 85) (Int 20) (Const "GTK_BUTTONBOX_SPREAD");
  call "gtk_box_pack_start" [vbox; t0; Int 1; Int 1; Int 0];;
  t1 ← create_bbox 1 (Str "Edge (spacing 30)") (Int 30) (Int 85) (Int 20) (Const "GTK_BUTTONBOX_EDGE");
  call "gtk_box_pack_start" [vbox; t1; Int 1; Int 1; Int 5];;
  t2 ← create_bbox 1 (Str "Start (spacing 20)") (Int 20) (Int 85) (Int 20) (Const "GTK_BUTTONBOX_START");
  call "gtk_box_pack_start" [vbox; t2; Int 1; Int 1; Int 5];;
  t3 ← create_bbox 1 (Str "End (spacing 10)") (Int 10) (Int 85) (Int 20) (Const "GTK_BUTTONBOX_END");
  call "gtk_box_pack_start" [vbox; t3; Int 1; Int 1; Int 5];;
  frame_vert ← create "gtk_frame_new" [Str "Vertical Button Boxes"];
  call "gtk_box_pack_start" [main_vbox; frame_vert; Int 1; Int 1; Int 10];;
  hbox ← create "gtk_hbox_new" [Int 0; Int 0];
  call "gtk_container_set_border_width" [hbox; Int 10];;
  call "gtk_container_add" [frame_vert; hbox];;
  t4 ← create_bbox 0 (Str "Spread (spacing 5)") (Int 5) (Int 85) (Int 20) (Const "GTK_BUTTONBOX_SPREAD");
  call "gtk_box_pack_start" [hbox; t4; Int 1; Int 1; Int 0];;
  t5 ← create_bbox 0 (Str "Edge (spacing 30)") (Int 30) (Int 85) (Int 20) (Const "GTK_BUTTONBOX_EDGE");
  call "gtk_box_pack_start" [hbox; t5; Int 1; Int 1; Int 5];;
  t6 ← create_bbox 0 (Str "Start (spacing 20)") (Int 20) (Int 85) (Int 20) (Const "GTK_BUTTONBOX_START");
  call "gtk_box_pack_start" [hbox; t6; Int 1; Int 1; Int 5];;
  t7 ← create_bbox 0 (Str "End (spacing 20)") (Int 20) (Int 85) (Int 20) (Const "GTK_BUTTONBOX_END");
  call "gtk_box_pack_start" [hbox; t7; Int 1; Int 1; Int 5];;
  call "gtk_widget_show_all" [window];;
  call "gtk_main" [];;
  mret (Int 0).

Definition gtk_button_box : program := mkProgram "gtk_button_box.c" bbox_main no_handler.

(** ** gtk_packbox.c *)

Definition pack_delete_event (widget event data : arg) : Gtk arg :=
  call "gtk_main_quit" [];;
  mret (Int 0).

(** The padding is a [guint], printed by ["%d"]. *)
Definition make_box (homogeneous spacing expand fill padding : Z) : Gtk arg :=
  box ← create "gtk_hbox_new" [Int homogeneous; Int spacing];
  button ← create "gtk_button_new_with_label" [Str "gtk_box_pack"];
  call "gtk_box_pack_start" [box; button; Int expand; Int fill; Int padding];;
  call "gtk_widget_show" [button];;
  button ← create "gtk_button_new_with_label" [Str "(box,"];
  call "gtk_box_pack_start" [box; button; Int expand; Int fill; Int padding];;
  call "gtk_widget_show" [button];;
  button ← create "gtk_button_new_with_label" [Str "button,"];
  call "gtk_box_pack_start" [box; button; Int expand; Int fill; Int padding];;
  call "gtk_widget_show" [button];;
  button ← (if expand =? 1 then create "gtk_button_new_with_label" [Str "TRUE,"]
            else create "gtk_button_new_with_label" [Str "FALSE,"]);
  call "gtk_box_pack_start" [box; button; Int expand; Int fill; Int padding];;
  call "gtk_widget_show" [button];;
  button ← create "gtk_button_new_with_label" [if negb (fill =? 0) then Str "TRUE," else Str "FALSE,"];
  call "gtk_box_pack_start" [box; button; Int expand; Int fill; Int padding];;
  call "gtk_widget_show" [button];;
  let padstr := fmt [Dec (wrap_i32 padding); Lit ");"] in
  button ← create "gtk_button_new_with_label" [padstr];
  call "gtk_box_pack_start" [box; button; Int expand; Int fill; Int padding];;
  call "gtk_widget_show" [button];;
  mret box.

(** [case 1] of the switch. *)
Definition pack_case1 (box1 : arg) : Gtk () :=
  label ← create "gtk_label_new" [Str "gtk_hbox_new (FALSE, 0);"];
  call "gtk_misc_set_alignment" [label; Int 0; Int 0];;
  call "gtk_box_pack_start" [box1; label; Int 0; Int 0; Int 0];;
  call "gtk_widget_show" [label];;
  box2 ← make_box 0 0 0 0 0;
  call "gtk_box_pack_start" [box1; box2; Int 0; Int 0; Int 0];;
  call "gtk_widget_show" [box2];;
  box2 ← make_box 0 0 1 0 0;
  call "gtk_box_pack_start" [box1; box2; Int 0; Int 0; Int 0];;
  call "gtk_widget_show" [box2];;
  box2 ← make_box 0 0 1 1 0;
  call "gtk_box_pack_start" [box1; box2; Int 0; Int 0; Int 0];;
  call "gtk_widget_show" [box2];;
  separator ← create "gtk_hseparator_new" [];
  call "gtk_box_pack_start" [box1; separator; Int 0; Int 1; Int 5];;
  call "gtk_widget_show" [separator];;
  label ← create "gtk_label_new" [Str "gtk_hbox_new (TRUE, 0);"];
  call "gtk_misc_set_alignment" [label; Int 0; Int 0];;
  call "gtk_box_pack_start" [box1; label; Int 0; Int 0; Int 0];;
  call "gtk_widget_show" [label];;
  box2 ← make_box 1 0 1 0 0;
  call "gtk_box_pack_start" [box1; box2; Int 0; Int 0; Int 0];;
  call "gtk_widget_show" [box2];;
  box2 ← make_box 1 0 1 1 0;
  call "gtk_box_pack_start" [box1; box2; Int 0; Int 0; Int 0];;
  call "gtk_widget_show" [box2];;
  separator ← create "gtk_hseparator_new" [];
  call "gtk_box_pack_start" [box1; separator; Int 0; Int 1; Int 5];;
  call "gtk_widget_show" [separator].

(** [case 2] of the switch. *)
Definition pack_case2 (box1 : arg) : Gtk () :=
  label ← create "gtk_label_new" [Str "gtk_hbox_new (FALSE, 10);"];
  call "gtk_misc_set_alignment" [label; Int 0; Int 0];;
  call "gtk_box_pack_start" [box1; label; Int 0; Int 0; Int 0];;
  call "gtk_widget_show" [label];;
  box2 ← make_box 0 10 1 0 0;
  call "gtk_box_pack_start" [box1; box2; Int 0; Int 0; Int 0];;
  call "gtk_widget_show" [box2];;
  box2 ← make_box 0 10 1 1 0;
  call "gtk_box_pack_start" [box1; box2; Int 0; Int 0; Int 0];;
  call "gtk_widget_show" [box2];;
  separator ← create "gtk_hseparator_new" [];
  call "gtk_box_pack_start" [box1; separator; Int 0; Int 1; Int 5];;
  call "gtk_widget_show" [separator];;
  label ← create "gtk_label_new" [Str "gtk_hbox_new (FALSE, 0);"];
  call "gtk_misc_set_alignment" [label; Int 0; Int 0];;
  call "gtk_box_pack_start" [box1; label; Int 0; Int 0; Int 0];;
  call "gtk_widget_show" [label];;
  box2 ← make_box 0 0 1 0 10;
  call "gtk_box_pack_start" [box1; box2; Int 0; Int 0; Int 0];;
  call "gtk_widget_show" [box2];;
  box2 ← make_box 0 0 1 1 10;
  call "gtk_box_pack_start" [box1; box2; Int 0; Int 0; Int 0];;
  call "gtk_widget_show" [box2];;
  separator ← create "gtk_hseparator_new" [];
  call "gtk_box_pack_start" [box1; separator; Int 0; Int 1; Int 5];;
  call "gtk_widget_show" [separator].

(** [case 3] of the switch. *)
Definition pack_case3 (box1 : arg) : Gtk () :=
  box2 ← make_box 0 0 0 0 0;
  label ← create "gtk_label_new" [Str "end"];
  call "gtk_box_pack_end" [box2; label; Int 0; Int 0; Int 0];;
  call "gtk_widget_show" [label];;
  call "gtk_box_pack_start" [box1; box2; Int 0; Int 0; Int 0];;
  call "gtk_widget_show" [box2];;
  separator ← create "gtk_hseparator_new" [];
  call "gtk_widget_set_size_request" [separator; Int 400; Int 5];;
  call "gtk_box_pack_start" [box1; separator; Int 0; Int 1; Int 5];;
  call "gtk_widget_show" [separator].

(** [argc], and the number that the argument is read as. *)
Definition pack_main (argc which : Z) : Gtk arg :=
  call "gtk_init" [Addr "argc"; Addr "argv"];;
  if negb (argc =? 2) then
    call "fprintf" [Const "stderr"; Str "usage: packbox num, where num is 1, 2, or 3.\n"];;
    call "exit" [Int 1];;
    mret (Int 1)
  else
    window ← create "gtk_window_new" [Const "GTK_WINDOW_TOPLEVEL"];
    call "g_signal_connect" [window; Str "delete-event"; Fun "delete_event"; NULL];;
    call "gtk_container_set_border_width" [window; Int 10];;
    box1 ← create "gtk_vbox_new" [Int 0; Int 0];
    (if which =? 1 then pack_case1 box1 else if which =? 2 then pack_case2 box1 else if which =? 3 then pack_case3 box1 else mret ());;
    quitbox ← create "gtk_hbox_new" [Int 0; Int 0];
    button ← create "gtk_button_new_with_label" [Str "Quit"];
    call "g_signal_connect_swapped" [button; Str "clicked"; Fun "gtk_main_quit"; window];;
    call "gtk_box_pack_start" [quitbox; button; Int 1; Int 0; Int 0];;
    call "gtk_box_pack_start" [box1; quitbox; Int 0; Int 0; Int 0];;
    call "gtk_container_add" [window; box1];;
    call "gtk_widget_show" [button];;
    call "gtk_widget_show" [quitbox];;
    call "gtk_widget_show" [box1];;
    call "gtk_widget_show" [window];;
    call "gtk_main" [];;
    mret (Int 0).

Definition gtk_packbox (argc which : Z) : program :=
  mkProgram "gtk_packbox.c" (pack_main argc which) (handler "delete_event" (pack_delete_event NULL NULL NULL)).

(** ** gtk_paned_window.c *)

Definition create_list : Gtk arg :=
  scrolled_window ← create "gtk_scrolled_window_new" [NULL; NULL];
  call "gtk_scrolled_window_set_policy" [scrolled_window; Const "GTK_POLICY_AUTOMATIC"; Const "GTK_POLICY_AUTOMATIC"];;
  model ← create "gtk_list_store_new" [Int 1; Const "G_TYPE_STRING"];
  tree_view ← create "gtk_tree_view_new" [];
  call "gtk_container_add" [scrolled_window; tree_view];;
  call "gtk_tree_view_set_model" [tree_view; model];;
  call "gtk_widget_show" [tree_view];;
  gtk_for 10 0 (λ i,
    let msg := fmt [Lit "Message #"; Dec i] in
    call "gtk_list_store_append" [model; Addr "iter"];;
    call "gtk_list_store_set" [model; Addr "iter"; Int 0; msg; Int (-1)];;
    call "g_free" [msg]);;
  cell ← create "gtk_cell_renderer_text_new" [];
  column ← create "gtk_tree_view_column_new_with_attributes" [Str "Messages"; cell; Str "text"; Int 0; NULL];
  call "gtk_tree_view_append_column" [tree_view; column];;
  mret scrolled_window.

Definition insert_text (buffer : arg) : Gtk () :=
  call "gtk_text_buffer_get_iter_at_offset" [buffer; Addr "iter"; Int 0];;
  call "gtk_text_buffer_insert" [buffer; Addr "iter"; Str "From: pathfinder@nasa.gov\nTo: mom@nasa.gov\nSubject: Made it!\n\nWe just got in this morning. The weather has been\ngreat - clear but cold, and there are lots of fun sights.\nSojourner says hi. See you soon.\n -Path\n"; Int (-1)].

Definition create_text : Gtk arg :=
  view ← create "gtk_text_view_new" [];
  buffer ← create "gtk_text_view_get_buffer" [view];
  scrolled_window ← create "gtk_scrolled_window_new" [NULL; NULL];
  call "gtk_scrolled_window_set_policy" [scrolled_window; Const "GTK_POLICY_AUTOMATIC"; Const "GTK_POLICY_AUTOMATIC"];;
  call "gtk_container_add" [scrolled_window; view];;
  insert_text buffer;;
  call "gtk_widget_show_all" [scrolled_window];;
  mret scrolled_window.

Definition paned_main : Gtk arg :=
  call "gtk_init" [Addr "argc"; Addr "argv"];;
  window ← create "gtk_window_new" [Const "GTK_WINDOW_TOPLEVEL"];
  call "gtk_window_set_title" [window; Str "Paned Windows"];;
  call "g_signal_connect" [window; Str "destroy"; Fun "gtk_main_quit"; NULL];;
  call "gtk_container_set_border_width" [window; Int 10];;
  call "gtk_widget_set_size_request" [window; Int 450; Int 400];;
  vpaned ← create "gtk_vpaned_new" [];
  call "gtk_container_add" [window; vpaned];;
  call "gtk_widget_show" [vpaned];;
  list ← create_list;
  call "gtk_paned_add1" [vpaned; list];;
  call "gtk_widget_show" [list];;
  text ← create_text;
  call "gtk_paned_add2" [vpaned; text];;
  call "gtk_widget_show" [text];;
  call "gtk_widget_show" [window];;
  call "gtk_main" [];;
  mret (Int 0).

Definition gtk_paned_window : program := mkProgram "gtk_paned_window.c" paned_main no_handler.

(** ** gtk_scrolled_window.c *)

Definition scrolled_destroy (widget data : arg) : Gtk () :=
  call "gtk_main_quit" [].

Definition scrolled_main : Gtk arg :=
  call "gtk_init" [Addr "argc"; Addr "argv"];;
  window ← create "gtk_dialog_new" [];
  call "g_signal_connect" [window; Str "destroy"; Fun "destroy"; NULL];;
  call "gtk_window_set_title" [window; Str "GtkScrolledWindow example"];;
  call "gtk_container_set_border_width" [window; Int 0];;
  call "gtk_widget_set_size_request" [window; Int 300; Int 300];;
  scrolled_window ← create "gtk_scrolled_window_new" [NULL; NULL];
  call "gtk_container_set_border_width" [scrolled_window; Int 10];;
  call "gtk_scrolled_window_set_policy" [scrolled_window; Const "GTK_POLICY_AUTOMATIC"; Const "GTK_POLICY_ALWAYS"];;
  call "gtk_box_pack_start" [Field window "vbox"; scrolled_window; Int 1; Int 1; Int 0];;
  call "gtk_widget_show" [scrolled_window];;
  table ← create "gtk_table_new" [Int 10; Int 10; Int 0];
  call "gtk_table_set_row_spacings" [table; Int 10];;
  call "gtk_table_set_col_spacings" [table; Int 10];;
  call "gtk_scrolled_window_add_with_viewport" [scrolled_window; table];;
  call "gtk_widget_show" [table];;
  gtk_for 10 0 (λ i,
      gtk_for 10 0 (λ j,
          let buffer := fmt [Lit "button ("; Dec i; Lit ","; Dec j; Lit ")"; Chr 10] in
          button ← create "gtk_toggle_button_new_with_label" [buffer];
          call "gtk_table_attach_defaults" [table; button; Int i; Int (i + 1); Int j; Int (j + 1)];;
          call "gtk_widget_show" [button]));;
  button ← create "gtk_button_new_with_label" [Str "close"];
  call "g_signal_connect_swapped" [button; Str "clicked"; Fun "gtk_widget_destroy"; window];;
  call "gtk_widget_set_can_default" [button; Int 1];;
  call "gtk_box_pack_start" [Field window "action_area"; button; Int 1; Int 1; Int 0];;
  call "gtk_widget_grab_default" [button];;
  call "gtk_widget_show" [button];;
  call "gtk_widget_show" [window];;
  call "gtk_main" [];;
  mret (Int 0).

Definition gtk_scrolled_window : program :=
  mkProgram "gtk_scrolled_window.c" scrolled_main (handler "destroy" (void (scrolled_destroy NULL NULL))).

(** ** gtk_ruler.c *)

Definition ruler_close_application (widget event data : arg) : Gtk arg :=
  call "gtk_main_quit" [];;
  mret (Int 0).

Definition ruler_main : Gtk arg :=
  call "gtk_init" [Addr "argc"; Addr "argv"];;
  window ← create "gtk_window_new" [Const "GTK_WINDOW_TOPLEVEL"];
  call "g_signal_connect" [window; Str "delete-event"; Fun "close_application"; NULL];;
  call "gtk_container_set_border_width" [window; Int 10];;
  table ← create "gtk_table_new" [Int 3; Int 2; Int 0];
  call "gtk_container_add" [window; table];;
  area ← create "gtk_drawing_area_new" [];
  call "gtk_widget_set_size_request" [area; Int 600; Int 400];;
  call "gtk_table_attach" [table; area; Int 1; Int 2; Int 1; Int 2; Const "GTK_EXPAND|GTK_FILL"; Const "GTK_FILL"; Int 0; Int 0];;
  call "gtk_widget_set_events" [area; Const "GDK_POINTER_MOTION_MASK|GDK_POINTER_MOTION_HINT_MASK"];;
  hrule ← create "gtk_hruler_new" [];
  call "gtk_ruler_set_metric" [hrule; Const "GTK_PIXELS"];;
  call "gtk_ruler_set_range" [hrule; Int 7; Int 13; Int 0; Int 20];;
  t0 ← create "GTK_WIDGET_GET_CLASS" [hrule];
  call "g_signal_connect_swapped" [area; Str "motion_notify_event"; Field t0 "motion_notify_event"; hrule];;
  call "gtk_table_attach" [table; hrule; Int 1; Int 2; Int 0; Int 1; Const "GTK_EXPAND|GTK_SHRINK|GTK_FILL"; Const "GTK_FILL"; Int 0; Int 0];;
  vrule ← create "gtk_vruler_new" [];
  call "gtk_ruler_set_metric" [vrule; Const "GTK_PIXELS"];;
  call "gtk_ruler_set_range" [vrule; Int 0; Int 400; Int 10; Int 400];;
  t1 ← create "GTK_WIDGET_GET_CLASS" [vrule];
  call "g_signal_connect_swapped" [area; Str "motion_notify_event"; Field t1 "motion_notify_event"; vrule];;
  call "gtk_table_attach" [table; vrule; Int 0; Int 1; Int 1; Int 2; Const "GTK_FILL"; Const "GTK_EXPAND|GTK_SHRINK|GTK_FILL"; Int 0; Int 0];;
  call "gtk_widget_show" [area];;
  call "gtk_widget_show" [hrule];;
  call "gtk_widget_show" [vrule];;
  call "gtk_widget_show" [table];;
  call "gtk_widget_show" [window];;
  call "gtk_main" [];;
  mret (Int 0).

Definition gtk_ruler : program :=
  mkProgram "gtk_ruler.c" ruler_main (handler "close_application" (ruler_close_application NULL NULL NULL)).

(** ** gtk_notebook.c *)

(** The side of the tabs is an enumeration of 4, read from the notebook. *)
Definition rotate_book (tab_pos : Z) (button notebook : arg) : Gtk () :=
  call "gtk_notebook_set_tab_pos" [notebook; Int (Z.rem (tab_pos + 1) 4)].

Definition tabsborder_book (show_tabs show_border : Z) (button notebook : arg) : Gtk () :=
  let tval := if show_tabs =? 0 then 1 else 0 in
  let bval := if show_border =? 0 then 1 else 0 in
  call "gtk_notebook_set_show_tabs" [notebook; Int tval];;
  call "gtk_notebook_set_show_border" [notebook; Int bval].

Definition remove_book (button notebook : arg) : Gtk () :=
  page ← create "gtk_notebook_get_current_page" [notebook];
  call "gtk_notebook_remove_page" [notebook; page];;
  call "gtk_widget_queue_draw" [notebook].

Definition notebook_delete (widget event data : arg) : Gtk arg :=
  call "gtk_main_quit" [];;
  mret (Int 0).

Definition notebook_main : Gtk arg :=
  call "gtk_init" [Addr "argc"; Addr "argv"];;
  window ← create "gtk_window_new" [Const "GTK_WINDOW_TOPLEVEL"];
  call "g_signal_connect" [window; Str "delete-event"; Fun "delete"; NULL];;
  call "gtk_container_set_border_width" [window; Int 10];;
  table ← create "gtk_table_new" [Int 3; Int 6; Int 0];
  call "gtk_container_add" [window; table];;
  notebook ← create "gtk_notebook_new" [];
  call "gtk_notebook_set_tab_pos" [notebook; Const "GTK_POS_TOP"];;
  call "gtk_table_attach_defaults" [table; notebook; Int 0; Int 6; Int 0; Int 1];;
  call "gtk_widget_show" [notebook];;
  gtk_for 5 0 (λ i,
      let bufferf := fmt [Lit "Append Frame "; Dec (i + 1)] in
      let bufferl := fmt [Lit "Page "; Dec (i + 1)] in
      frame ← create "gtk_frame_new" [bufferf];
      call "gtk_container_set_border_width" [frame; Int 10];;
      call "gtk_widget_set_size_request" [frame; Int 100; Int 75];;
      call "gtk_widget_show" [frame];;
      label ← create "gtk_label_new" [bufferf];
      call "gtk_container_add" [frame; label];;
      call "gtk_widget_show" [label];;
      label ← create "gtk_label_new" [bufferl];
      call "gtk_notebook_append_page" [notebook; frame; label]);;
  checkbutton ← create "gtk_check_button_new_with_label" [Str "Check me please!"];
  call "gtk_widget_set_size_request" [checkbutton; Int 100; Int 75];;
  call "gtk_widget_show" [checkbutton];;
  label ← create "gtk_label_new" [Str "Add page"];
  call "gtk_notebook_insert_page" [notebook; checkbutton; label; Int 2];;
  gtk_for 5 0 (λ i,
      let bufferf := fmt [Lit "Prepend Frame "; Dec (i + 1)] in
      let bufferl := fmt [Lit "PPage "; Dec (i + 1)] in
      frame ← create "gtk_frame_new" [bufferf];
      call "gtk_container_set_border_width" [frame; Int 10];;
      call "gtk_widget_set_size_request" [frame; Int 100; Int 75];;
      call "gtk_widget_show" [frame];;
      label ← create "gtk_label_new" [bufferf];
      call "gtk_container_add" [frame; label];;
      call "gtk_widget_show" [label];;
      label ← create "gtk_label_new" [bufferl];
      call "gtk_notebook_prepend_page" [notebook; frame; label]);;
  call "gtk_notebook_set_current_page" [notebook; Int 3];;
  button ← create "gtk_button_new_with_label" [Str "close"];
  call "g_signal_connect_swapped" [button; Str "clicked"; Fun "delete"; NULL];;
  call "gtk_table_attach_defaults" [table; button; Int 0; Int 1; Int 1; Int 2];;
  call "gtk_widget_show" [button];;
  button ← create "gtk_button_new_with_label" [Str "next page"];
  call "g_signal_connect_swapped" [button; Str "clicked"; Fun "gtk_notebook_next_page"; notebook];;
  call "gtk_table_attach_defaults" [table; button; Int 1; Int 2; Int 1; Int 2];;
  call "gtk_widget_show" [button];;
  button ← create "gtk_button_new_with_label" [Str "prev page"];
  call "g_signal_connect_swapped" [button; Str "clicked"; Fun "gtk_notebook_prev_page"; notebook];;
  call "gtk_table_attach_defaults" [table; button; Int 2; Int 3; Int 1; Int 2];;
  call "gtk_widget_show" [button];;
  button ← create "gtk_button_new_with_label" [Str "tab position"];
  call "g_signal_connect" [button; Str "clicked"; Fun "rotate_book"; notebook];;
  call "gtk_table_attach_defaults" [table; button; Int 3; Int 4; Int 1; Int 2];;
  call "gtk_widget_show" [button];;
  button ← create "gtk_button_new_with_label" [Str "tabs/border on/off"];
  call "g_signal_connect" [button; Str "clicked"; Fun "tabsborder_book"; notebook];;
  call "gtk_table_attach_defaults" [table; button; Int 4; Int 5; Int 1; Int 2];;
  call "gtk_widget_show" [button];;
  button ← create "gtk_button_new_with_label" [Str "remove page"];
  call "g_signal_connect" [button; Str "clicked"; Fun "remove_book"; notebook];;
  call "gtk_table_attach_defaults" [table; button; Int 5; Int 6; Int 1; Int 2];;
  call "gtk_widget_show" [button];;
  call "gtk_widget_show" [table];;
  call "gtk_widget_show" [window];;
  call "gtk_main" [];;
  mret (Int 0).

Definition gtk_notebook : program :=
  mkProgram "gtk_notebook.c" notebook_main (handler "delete" (notebook_delete NULL NULL NULL)).
