(* ===== verification/GtkControls.v ===== *)
(** The programs of [src/cpp/gtk] about controls: gtk_icon, gtk_file_selection,
    gtk_color_selection, gtk_menu, gtk_item_factory, gtk_range_ctrl,
    gtk_status_bar and gtk_txt_entry, and the callbacks of gtk_spin_button. *)
From Stdlib Require Import SpecFloat.
From S2P Require Import Prelude CString Gtk.

(** ** gtk_icon.c *)

(** [loaded]: the library gave an image, not NULL and an error. *)
Definition create_pixbuf (loaded : bool) (filename : arg) : Gtk arg :=
  pixbuf ← create "gdk_pixbuf_new_from_file" [filename; Addr "error"];
  if loaded then mret pixbuf
  else
    call "g_print" [Str "%s\n"; Field (Var "error") "message"];;
    call "g_error_free" [Var "error"];;
    mret NULL.

Definition icon_main (loaded : bool) : Gtk arg :=
  call "gtk_init" [Addr "argc"; Addr "argv"];;
  window ← create "gtk_window_new" [Const "GTK_WINDOW_TOPLEVEL"];
  call "gtk_window_set_title" [window; Str "Customized Title"];;
  icon ← create_pixbuf loaded (Str "pic1.png");
  call "gtk_window_set_icon" [window; icon];;
  call "gtk_widget_show_all" [window];;
  call "gtk_main" [];;
  mret (Int 0).

Definition gtk_icon (loaded : bool) : program := mkProgram "gtk_icon.c" (icon_main loaded) no_handler.

(** ** gtk_file_selection.c *)

Definition file_ok_sel (w fs : arg) : Gtk () :=
  t0 ← create "gtk_file_selection_get_filename" [fs];
  call "g_print" [Str "%s\n"; t0].

Definition file_main : Gtk arg :=
  call "gtk_init" [Addr "argc"; Addr "argv"];;
  filew ← create "gtk_file_selection_new" [Str "select file"];
  call "g_signal_connect" [filew; Str "destroy"; Fun "gtk_main_quit"; NULL];;
  call "g_signal_connect" [Field filew "ok_button"; Str "clicked"; Fun "file_ok_sel"; filew];;
  call "g_signal_connect_swapped" [Field filew "cancel_button"; Str "clicked"; Fun "gtk_widget_destroy"; filew];;
  call "gtk_file_selection_set_filename" [filew; Str "testme.png"];;
  call "gtk_widget_show" [filew];;
  call "gtk_main" [];;
  mret (Int 0).

Definition gtk_file_selection : program := mkProgram "gtk_file_selection.c" file_main no_handler.

(** ** gtk_color_selection.c *)

Definition color_changed_cb (widget colorsel : arg) : Gtk () :=
  call "gtk_color_selection_get_current_color" [colorsel; Addr "ncolor"];;
  call "gtk_widget_modify_bg" [Var "drawingarea"; Const "GTK_STATE_NORMAL"; Addr "ncolor"].

(** The dialog is kept in the global [colorseldlg]: the result is its new value
    and whether the event was handled. *)
Definition color_area_event (colorseldlg widget event client_data : arg) : Gtk (arg * arg) :=
  press ← holds "==" (Field event "type") (Const "GDK_BUTTON_PRESS");
  if (press : bool) then
    colorseldlg ← (if bool_decide (colorseldlg = NULL)
                   then create "gtk_color_selection_dialog_new" [Str "Select background color"] else mret colorseldlg);
    let colorsel := Field colorseldlg "colorsel" in
    call "gtk_color_selection_set_previous_color" [colorsel; Addr "color"];;
    call "gtk_color_selection_set_current_color" [colorsel; Addr "color"];;
    call "gtk_color_selection_set_has_palette" [colorsel; Int 1];;
    call "g_signal_connect" [colorsel; Str "color_changed"; Fun "color_changed_cb"; colorsel];;
    response ← create "gtk_dialog_run" [colorseldlg];
    ok ← holds "==" response (Const "GTK_RESPONSE_OK");
    (if (ok : bool) then call "gtk_color_selection_get_current_color" [colorsel; Addr "color"]
     else call "gtk_widget_modify_bg" [Var "drawingarea"; Const "GTK_STATE_NORMAL"; Addr "color"]);;
    call "gtk_widget_hide" [colorseldlg];;
    mret (colorseldlg, Int 1)
  else mret (colorseldlg, Int 0).

Definition color_destroy_window (widget event client_data : arg) : Gtk arg :=
  call "gtk_main_quit" [];;
  mret (Int 1).

Definition color_main : Gtk arg :=
  call "gtk_init" [Addr "argc"; Addr "argv"];;
  window ← create "gtk_window_new" [Const "GTK_WINDOW_TOPLEVEL"];
  call "gtk_window_set_title" [window; Str "Color selection test"];;
  call "gtk_window_set_policy" [window; Int 1; Int 1; Int 1];;
  call "g_signal_connect" [window; Str "delete-event"; Fun "destroy_window"; window];;
  drawingarea ← create "gtk_drawing_area_new" [];
  assign (Addr "drawingarea") drawingarea;;
  assign (Field (Var "color") "red") (Int 0);;
  assign (Field (Var "color") "blue") (Int 65535);;
  assign (Field (Var "color") "green") (Int 0);;
  call "gtk_widget_modify_bg" [drawingarea; Const "GTK_STATE_NORMAL"; Addr "color"];;
  call "gtk_widget_set_size_request" [drawingarea; Int 200; Int 200];;
  call "gtk_widget_set_events" [drawingarea; Const "GDK_BUTTON_PRESS_MASK"];;
  call "g_signal_connect" [drawingarea; Str "event"; Fun "area_event"; drawingarea];;
  call "gtk_container_add" [window; drawingarea];;
  call "gtk_widget_show" [drawingarea];;
  call "gtk_widget_show" [window];;
  call "gtk_main" [];;
  mret (Int 0).

Definition gtk_color_selection : program :=
  mkProgram "gtk_color_selection.c" color_main (handler "destroy_window" (color_destroy_window NULL NULL NULL)).

(** ** gtk_menu.c *)

Definition menu_main : Gtk arg :=
  call "gtk_init" [Addr "argc"; Addr "argv"];;
  window ← create "gtk_window_new" [Const "GTK_WINDOW_TOPLEVEL"];
  call "gtk_widget_set_size_request" [window; Int 200; Int 100];;
  call "gtk_window_set_title" [window; Str "GTK Menu Test"];;
  call "g_signal_connect" [window; Str "delete-event"; Fun "gtk_main_quit"; NULL];;
  menu ← create "gtk_menu_new" [];
  gtk_for 3 0 (λ i,
      let buf := fmt [Lit "Test-undermenu - "; Dec i] in
      menu_items ← create "gtk_menu_item_new_with_label" [buf];
      call "gtk_menu_shell_append" [menu; menu_items];;
      t0 ← create "g_strdup" [buf];
      call "g_signal_connect_swapped" [menu_items; Str "activate"; Fun "menuitem_response"; t0];;
      call "gtk_widget_show" [menu_items]);;
  root_menu ← create "gtk_menu_item_new_with_label" [Str "Root Menu"];
  call "gtk_widget_show" [root_menu];;
  call "gtk_menu_item_set_submenu" [root_menu; menu];;
  vbox ← create "gtk_vbox_new" [Int 0; Int 0];
  call "gtk_container_add" [window; vbox];;
  call "gtk_widget_show" [vbox];;
  menu_bar ← create "gtk_menu_bar_new" [];
  call "gtk_box_pack_start" [vbox; menu_bar; Int 0; Int 0; Int 2];;
  call "gtk_widget_show" [menu_bar];;
  button ← create "gtk_button_new_with_label" [Str "press me"];
  call "g_signal_connect_swapped" [button; Str "event"; Fun "button_press"; menu];;
  call "gtk_box_pack_end" [vbox; button; Int 1; Int 1; Int 2];;
  call "gtk_widget_show" [button];;
  call "gtk_menu_shell_append" [menu_bar; root_menu];;
  call "gtk_widget_show" [window];;
  call "gtk_main" [];;
  mret (Int 0).

Definition menu_button_press (widget event : arg) : Gtk arg :=
  press ← holds "==" (Field event "type") (Const "GDK_BUTTON_PRESS");
  if (press : bool) then
    call "gtk_menu_popup" [widget; NULL; NULL; NULL; NULL; Field event "button"; Field event "time"];;
    mret (Int 1)
  else mret (Int 0).

Definition menuitem_response (string : arg) : Gtk () :=
  call "printf" [Str "%s\n"; string].

Definition gtk_menu : program := mkProgram "gtk_menu.c" menu_main no_handler.

(** ** gtk_item_factory.c *)

(** [GtkItemFactoryEntry]: the path, the accelerator, the callback, its action,
    the type and the identifier of the stock image. *)
Record GtkItemFactoryEntry := mkEntry {
  path : string; accelerator : arg; callback : arg; callback_action : Z; item_type : string; extra_data : arg
}.

Definition menu_items : list GtkItemFactoryEntry := [
  mkEntry "/_File" NULL NULL 0 "<Branch>" NULL;
  mkEntry "/File/_New" (Str "<control>N") (Fun "print_hello") 0 "<StockItem>" (Const "GTK_STOCK_NEW");
  mkEntry "/File/_Open" (Str "<control>O") (Fun "print_hello") 0 "<StockItem>" (Const "GTK_STOCK_OPEN");
  mkEntry "/File/_Save" (Str "<control>S") (Fun "print_hello") 0 "<StockItem>" (Const "GTK_STOCK_SAVE");
  mkEntry "/File/Save _As" NULL NULL 0 "<Item>" NULL;
  mkEntry "/File/sep1" NULL NULL 0 "<Separator>" NULL;
  mkEntry "/File/_Quit" (Str "<CTRL>Q") (Fun "gtk_main_quit") 0 "<StockItem>" (Const "GTK_STOCK_QUIT");
  mkEntry "/_Options" NULL NULL 0 "<Branch>" NULL;
  mkEntry "/Options/tear" NULL NULL 0 "<Tearoff>" NULL;
  mkEntry "/Options/Check" NULL (Fun "print_toggle") 1 "<CheckItem>" NULL;
  mkEntry "/Options/sep" NULL NULL 0 "<Separator>" NULL;
  mkEntry "/Options/Rad1" NULL (Fun "print_selected") 1 "<RadioItem>" NULL;
  mkEntry "/Options/Rad2" NULL (Fun "print_selected") 2 "/Options/Rad1" NULL;
  mkEntry "/Options/Rad3" NULL (Fun "print_selected") 3 "/Options/Rad1" NULL;
  mkEntry "/_Help" NULL NULL 0 "<LastBranch>" NULL;
  mkEntry "/_Help/About" NULL NULL 0 "<Item>" NULL
].

Definition nmenu_items : Z := Z.of_nat (length menu_items).

Definition factory_print_hello (w data : arg) : Gtk () :=
  call "g_message" [Str "Hello, World!\n"].

Definition print_toggle (callback_data callback_action menu_item : arg) : Gtk () :=
  call "g_message" [Str "Check button state - %d\n"; Field menu_item "active"].

Definition print_selected (callback_data callback_action menu_item : arg) : Gtk () :=
  active ← truth (Field menu_item "active");
  if (active : bool) then call "g_message" [Str "Radio button %d selected\n"; callback_action] else mret ().

Definition get_menubar_menu (window : arg) : Gtk arg :=
  accel_group ← create "gtk_accel_group_new" [];
  item_factory ← create "gtk_item_factory_new" [Const "GTK_TYPE_MENU_BAR"; Str "<main>"; accel_group];
  call "gtk_item_factory_create_items" [item_factory; Int nmenu_items; Addr "menu_items"; NULL];;
  call "gtk_window_add_accel_group" [window; accel_group];;
  create "gtk_item_factory_get_widget" [item_factory; Str "<main>"].

Definition popup_cb (widget event menu : arg) : Gtk arg :=
  other ← holds "!=" (Field event "type") (Const "GDK_BUTTON_PRESS");
  if (other : bool) then mret (Int 0)
  else
    call "gtk_menu_popup" [menu; NULL; NULL; NULL; NULL; Field event "button"; Field event "time"];;
    mret (Int 1).

Definition get_popup_menu : Gtk arg :=
  item_factory ← create "gtk_item_factory_new" [Const "GTK_TYPE_MENU"; Str "<main>"; NULL];
  call "gtk_item_factory_create_items" [item_factory; Int nmenu_items; Addr "menu_items"; NULL];;
  menu ← create "gtk_item_factory_get_widget" [item_factory; Str "<main>"];
  button ← create "gtk_button_new_with_label" [Str "Popup"];
  call "g_signal_connect" [button; Str "event"; Fun "popup_cb"; menu];;
  mret button.

Definition get_option_menu : Gtk arg :=
  item_factory ← create "gtk_item_factory_new" [Const "GTK_TYPE_OPTION_MENU"; Str "<main>"; NULL];
  call "gtk_item_factory_create_items" [item_factory; Int nmenu_items; Addr "menu_items"; NULL];;
  option_menu ← create "gtk_item_factory_get_widget" [item_factory; Str "<main>"];
  mret option_menu.

Definition factory_main : Gtk arg :=
  call "gtk_init" [Addr "argc"; Addr "argv"];;
  window ← create "gtk_window_new" [Const "GTK_WINDOW_TOPLEVEL"];
  call "g_signal_connect" [window; Str "destroy"; Fun "gtk_main_quit"; NULL];;
  call "gtk_window_set_title" [window; Str "Item Factory"];;
  call "gtk_widget_set_size_request" [window; Int 300; Int 200];;
  main_vbox ← create "gtk_vbox_new" [Int 0; Int 1];
  call "gtk_container_set_border_width" [main_vbox; Int 1];;
  call "gtk_container_add" [window; main_vbox];;
  menubar ← get_menubar_menu window;
  popup_button ← get_popup_menu;
  option_menu ← get_option_menu;
  call "gtk_box_pack_start" [main_vbox; menubar; Int 0; Int 1; Int 0];;
  call "gtk_box_pack_end" [main_vbox; popup_button; Int 0; Int 1; Int 0];;
  call "gtk_box_pack_end" [main_vbox; option_menu; Int 0; Int 1; Int 0];;
  call "gtk_widget_show_all" [window];;
  call "gtk_main" [];;
  mret (Int 0).

Definition gtk_item_factory : program := mkProgram "gtk_item_factory.c" factory_main no_handler.

(** ** gtk_range_ctrl.c *)

(** [GtkAdjustment], in doubles. *)
Record GtkAdjustment := mkAdjustment { value : spec_float; lower : spec_float; upper : spec_float; page_increment : spec_float; page_size : spec_float }.

(** The macro [CLAMP] of GLib. *)
Definition CLAMP (x low high : spec_float) : spec_float := if SFltb high x then high else if SFltb x low then low else x.

Definition cb_pos_menu_select (item pos : arg) : Gtk () :=
  call "gtk_scale_set_value_pos" [Var "hscale"; pos];;
  call "gtk_scale_set_value_pos" [Var "vscale"; pos].

Definition cb_update_menu_select (item policy : arg) : Gtk () :=
  call "gtk_range_set_update_policy" [Var "hscale"; policy];;
  call "gtk_range_set_update_policy" [Var "vscale"; policy].

Definition cb_digits_scale (adj : arg) : Gtk () :=
  call "gtk_scale_set_digits" [Var "hscale"; Cast "gint" (Field adj "value")];;
  call "gtk_scale_set_digits" [Var "vscale"; Cast "gint" (Field adj "value")].

(** [gtk_adjustment_set_value] is a parameter; what the callback leaves, and the
    signals that it emits. *)
Definition cb_page_size (set_value : GtkAdjustment → spec_float → GtkAdjustment) (get set : GtkAdjustment) : GtkAdjustment * list string :=
  let set := mkAdjustment (value set) (lower set) (upper set) (page_increment set) (value get) in
  let set := mkAdjustment (value set) (lower set) (upper set) (value get) (page_size set) in
  let set := set_value set (CLAMP (value set) (lower set) (SFsub 53 1024 (upper set) (page_size set))) in
  (set, ["changed"%string]).

Definition cb_draw_value (button : arg) : Gtk () :=
  call "gtk_scale_set_draw_value" [Var "hscale"; Field button "active"];;
  call "gtk_scale_set_draw_value" [Var "vscale"; Field button "active"].

Definition make_menu_item (name callback data : arg) : Gtk arg :=
  item ← create "gtk_menu_item_new_with_label" [name];
  call "g_signal_connect" [item; Str "activate"; callback; data];;
  call "gtk_widget_show" [item];;
  mret item.

Definition scale_set_default_values (scale : arg) : Gtk () :=
  call "gtk_range_set_update_policy" [scale; Const "GTK_UPDATE_CONTINUOUS"];;
  call "gtk_scale_set_digits" [scale; Int 1];;
  call "gtk_scale_set_value_pos" [scale; Const "GTK_POS_TOP"];;
  call "gtk_scale_set_draw_value" [scale; Int 1].

Definition create_range_controls : Gtk () :=
  window ← create "gtk_window_new" [Const "GTK_WINDOW_TOPLEVEL"];
  call "g_signal_connect" [window; Str "destroy"; Fun "gtk_main_quit"; NULL];;
  call "gtk_window_set_title" [window; Str "range controls"];;
  box1 ← create "gtk_vbox_new" [Int 0; Int 0];
  call "gtk_container_add" [window; box1];;
  call "gtk_widget_show" [box1];;
  box2 ← create "gtk_hbox_new" [Int 0; Int 10];
  call "gtk_container_set_border_width" [box2; Int 10];;
  call "gtk_box_pack_start" [box1; box2; Int 1; Int 1; Int 0];;
  call "gtk_widget_show" [box2];;
  adj1 ← create "gtk_adjustment_new" [Dbl "0.0"; Dbl "0.0"; Dbl "101.0"; Dbl "0.1"; Dbl "1.0"; Dbl "1.0"];
  vscale ← create "gtk_vscale_new" [adj1];
  assign (Addr "vscale") vscale;;
  scale_set_default_values vscale;;
  call "gtk_box_pack_start" [box2; vscale; Int 1; Int 1; Int 0];;
  call "gtk_widget_show" [vscale];;
  box3 ← create "gtk_vbox_new" [Int 0; Int 10];
  call "gtk_box_pack_start" [box2; box3; Int 1; Int 1; Int 0];;
  call "gtk_widget_show" [box3];;
  hscale ← create "gtk_hscale_new" [adj1];
  assign (Addr "hscale") hscale;;
  call "gtk_widget_set_size_request" [hscale; Int 200; Int (-1)];;
  scale_set_default_values hscale;;
  call "gtk_box_pack_start" [box3; hscale; Int 1; Int 1; Int 0];;
  call "gtk_widget_show" [hscale];;
  scrollbar ← create "gtk_hscrollbar_new" [adj1];
  call "gtk_range_set_update_policy" [scrollbar; Const "GTK_UPDATE_CONTINUOUS"];;
  call "gtk_box_pack_start" [box3; scrollbar; Int 1; Int 1; Int 0];;
  call "gtk_widget_show" [scrollbar];;
  box2 ← create "gtk_hbox_new" [Int 0; Int 10];
  call "gtk_container_set_border_width" [box2; Int 10];;
  call "gtk_box_pack_start" [box1; box2; Int 1; Int 1; Int 0];;
  call "gtk_widget_show" [box2];;
  button ← create "gtk_check_button_new_with_label" [Str "Display value on scale widgets"];
  call "gtk_toggle_button_set_active" [button; Int 1];;
  call "g_signal_connect" [button; Str "toggled"; Fun "cb_draw_value"; NULL];;
  call "gtk_box_pack_start" [box2; button; Int 1; Int 1; Int 0];;
  call "gtk_widget_show" [button];;
  box2 ← create "gtk_hbox_new" [Int 0; Int 10];
  call "gtk_container_set_border_width" [box2; Int 10];;
  label ← create "gtk_label_new" [Str "Scale Value Position:"];
  call "gtk_box_pack_start" [box2; label; Int 0; Int 0; Int 0];;
  call "gtk_widget_show" [label];;
  opt ← create "gtk_option_menu_new" [];
  menu ← create "gtk_menu_new" [];
  item ← make_menu_item (Str "Top") (Fun "cb_pos_menu_select") (Const "GTK_POS_TOP");
  call "gtk_menu_shell_append" [menu; item];;
  item ← make_menu_item (Str "Bottom") (Fun "cb_pos_menu_select") (Const "GTK_POS_BOTTOM");
  call "gtk_menu_shell_append" [menu; item];;
  item ← make_menu_item (Str "Left") (Fun "cb_pos_menu_select") (Const "GTK_POS_LEFT");
  call "gtk_menu_shell_append" [menu; item];;
  item ← make_menu_item (Str "Right") (Fun "cb_pos_menu_select") (Const "GTK_POS_RIGHT");
  call "gtk_menu_shell_append" [menu; item];;
  call "gtk_option_menu_set_menu" [opt; menu];;
  call "gtk_box_pack_start" [box2; opt; Int 1; Int 1; Int 0];;
  call "gtk_widget_show" [opt];;
  call "gtk_box_pack_start" [box1; box2; Int 1; Int 1; Int 0];;
  call "gtk_widget_show" [box2];;
  box2 ← create "gtk_hbox_new" [Int 0; Int 10];
  call "gtk_container_set_border_width" [box2; Int 10];;
  label ← create "gtk_label_new" [Str "Scale Update Policy:"];
  call "gtk_box_pack_start" [box2; label; Int 0; Int 0; Int 0];;
  call "gtk_widget_show" [label];;
  opt ← create "gtk_option_menu_new" [];
  menu ← create "gtk_menu_new" [];
  item ← make_menu_item (Str "Continuous") (Fun "cb_update_menu_select") (Const "GTK_UPDATE_CONTINUOUS");
  call "gtk_menu_shell_append" [menu; item];;
  item ← make_menu_item (Str "Discontinuous") (Fun "cb_update_menu_select") (Const "GTK_UPDATE_DISCONTINUOUS");
  call "gtk_menu_shell_append" [menu; item];;
  item ← make_menu_item (Str "Delayed") (Fun "cb_update_menu_select") (Const "GTK_UPDATE_DELAYED");
  call "gtk_menu_shell_append" [menu; item];;
  call "gtk_option_menu_set_menu" [opt; menu];;
  call "gtk_box_pack_start" [box2; opt; Int 1; Int 1; Int 0];;
  call "gtk_widget_show" [opt];;
  call "gtk_box_pack_start" [box1; box2; Int 1; Int 1; Int 0];;
  call "gtk_widget_show" [box2];;
  box2 ← create "gtk_hbox_new" [Int 0; Int 10];
  call "gtk_container_set_border_width" [box2; Int 10];;
  label ← create "gtk_label_new" [Str "Scale Digits:"];
  call "gtk_box_pack_start" [box2; label; Int 0; Int 0; Int 0];;
  call "gtk_widget_show" [label];;
  adj2 ← create "gtk_adjustment_new" [Dbl "1.0"; Dbl "0.0"; Dbl "5.0"; Dbl "1.0"; Dbl "1.0"; Dbl "0.0"];
  call "g_signal_connect" [adj2; Str "value_changed"; Fun "cb_digits_scale"; NULL];;
  scale ← create "gtk_hscale_new" [adj2];
  call "gtk_scale_set_digits" [scale; Int 0];;
  call "gtk_box_pack_start" [box2; scale; Int 1; Int 1; Int 0];;
  call "gtk_widget_show" [scale];;
  call "gtk_box_pack_start" [box1; box2; Int 1; Int 1; Int 0];;
  call "gtk_widget_show" [box2];;
  box2 ← create "gtk_hbox_new" [Int 0; Int 10];
  call "gtk_container_set_border_width" [box2; Int 10];;
  label ← create "gtk_label_new" [Str "Scrollbar Page Size:"];
  call "gtk_box_pack_start" [box2; label; Int 0; Int 0; Int 0];;
  call "gtk_widget_show" [label];;
  adj2 ← create "gtk_adjustment_new" [Dbl "1.0"; Dbl "1.0"; Dbl "101.0"; Dbl "1.0"; Dbl "1.0"; Dbl "0.0"];
  call "g_signal_connect" [adj2; Str "value_changed"; Fun "cb_page_size"; adj1];;
  scale ← create "gtk_hscale_new" [adj2];
  call "gtk_scale_set_digits" [scale; Int 0];;
  call "gtk_box_pack_start" [box2; scale; Int 1; Int 1; Int 0];;
  call "gtk_widget_show" [scale];;
  call "gtk_box_pack_start" [box1; box2; Int 1; Int 1; Int 0];;
  call "gtk_widget_show" [box2];;
  separator ← create "gtk_hseparator_new" [];
  call "gtk_box_pack_start" [box1; separator; Int 0; Int 1; Int 0];;
  call "gtk_widget_show" [separator];;
  box2 ← create "gtk_vbox_new" [Int 0; Int 10];
  call "gtk_container_set_border_width" [box2; Int 10];;
  call "gtk_box_pack_start" [box1; box2; Int 0; Int 1; Int 0];;
  call "gtk_widget_show" [box2];;
  button ← create "gtk_button_new_with_label" [Str "Quit"];
  call "g_signal_connect_swapped" [button; Str "clicked"; Fun "gtk_main_quit"; NULL];;
  call "gtk_box_pack_start" [box2; button; Int 1; Int 1; Int 0];;
  call "gtk_widget_set_can_default" [button; Int 1];;
  call "gtk_widget_grab_default" [button];;
  call "gtk_widget_show" [button];;
  call "gtk_widget_show" [window].

Definition range_main : Gtk arg :=
  call "gtk_init" [Addr "argc"; Addr "argv"];;
  create_range_controls;;
  call "gtk_main" [];;
  mret (Int 0).

Definition gtk_range_ctrl : program := mkProgram "gtk_range_ctrl.c" range_main no_handler.

(** ** gtk_spin_button.c

    The callbacks only: [main] has a tab inside the name [gtk_spin_button_new]
    (line 146), so that the file does not compile. *)

Definition toggle_snap (widget spin : arg) : Gtk () :=
  call "gtk_spin_button_set_snap_to_ticks" [spin; Field widget "active"].

Definition toggle_numeric (widget spin : arg) : Gtk () :=
  call "gtk_spin_button_set_numeric" [spin; Field widget "active"].

Definition change_digits (widget spin : arg) : Gtk () :=
  t0 ← create "gtk_spin_button_get_value_as_int" [spin];
  call "gtk_spin_button_set_digits" [Var "spinner1"; t0].

(** [data] is 1 for an integer, 2 for a double. *)
Definition spin_get_value (widget data : arg) : Gtk () :=
  let spin := Var "spinner1" in
  label ← create "g_object_get_data" [widget; Str "user_data"];
  buf ← (if bool_decide (data = Int 1)
         then v ← create "gtk_spin_button_get_value_as_int" [spin]; create "g_strdup_printf" [Str "%d"; v]
         else v ← create "gtk_spin_button_get_value" [spin]; create "g_strdup_printf" [Str "%0.*f"; Field spin "digits"; v]);
  call "gtk_label_set_text" [label; buf];;
  call "g_free" [buf].

(** ** gtk_status_bar.c *)

(** [count] is an int, static in the function: its new value is the result,
    unless [count++] overflows. *)
Definition push_item (count : Z) (widget data : arg) : Gtk (res Z) :=
  match chk_int (count + 1) with
  | Ok next =>
      let buff := fmt [Lit "Item "; Dec count] in
      call "gtk_statusbar_push" [Var "status_bar"; data; buff];;
      call "g_free" [buff];;
      mret (Ok next)
  | Err e => mret (Err e)
  end.

Definition pop_item (widget data : arg) : Gtk () :=
  call "gtk_statusbar_pop" [Var "status_bar"; data].

Definition status_main : Gtk arg :=
  call "gtk_init" [Addr "argc"; Addr "argv"];;
  window ← create "gtk_window_new" [Const "GTK_WINDOW_TOPLEVEL"];
  call "gtk_widget_set_size_request" [window; Int 200; Int 100];;
  call "gtk_window_set_title" [window; Str "GTK Statusbar Example"];;
  call "g_signal_connect" [window; Str "delete-event"; Fun "exit"; NULL];;
  vbox ← create "gtk_vbox_new" [Int 0; Int 1];
  call "gtk_container_add" [window; vbox];;
  call "gtk_widget_show" [vbox];;
  status_bar ← create "gtk_statusbar_new" [];
  assign (Addr "status_bar") status_bar;;
  call "gtk_box_pack_start" [vbox; status_bar; Int 1; Int 1; Int 0];;
  call "gtk_widget_show" [status_bar];;
  context_id ← create "gtk_statusbar_get_context_id" [status_bar; Str "Statusbar example"];
  button ← create "gtk_button_new_with_label" [Str "push item"];
  call "g_signal_connect" [button; Str "clicked"; Fun "push_item"; context_id];;
  call "gtk_box_pack_start" [vbox; button; Int 1; Int 1; Int 2];;
  call "gtk_widget_show" [button];;
  button ← create "gtk_button_new_with_label" [Str "pop last item"];
  call "g_signal_connect" [button; Str "clicked"; Fun "pop_item"; context_id];;
  call "gtk_box_pack_start" [vbox; button; Int 1; Int 1; Int 2];;
  call "gtk_widget_show" [button];;
  call "gtk_widget_show" [window];;
  call "gtk_main" [];;
  mret (Int 0).

Definition gtk_status_bar : program := mkProgram "gtk_status_bar.c" status_main no_handler.

(** ** gtk_txt_entry.c *)

Definition enter_callback (widget entry : arg) : Gtk () :=
  entry_text ← create "gtk_entry_get_text" [entry];
  call "printf" [Str "Entry contents: %s\n"; entry_text].

Definition entry_toggle_editable (checkbutton entry : arg) : Gtk () :=
  call "gtk_editable_set_editable" [entry; Field checkbutton "active"].

Definition entry_toggle_visibility (checkbutton entry : arg) : Gtk () :=
  call "gtk_entry_set_visibility" [entry; Field checkbutton "active"].

Definition entry_main : Gtk arg :=
  call "gtk_init" [Addr "argc"; Addr "argv"];;
  window ← create "gtk_window_new" [Const "GTK_WINDOW_TOPLEVEL"];
  call "gtk_widget_set_size_request" [window; Int 200; Int 100];;
  call "gtk_window_set_title" [window; Str "GTK Entry"];;
  call "g_signal_connect" [window; Str "destroy"; Fun "gtk_main_quit"; NULL];;
  call "g_signal_connect_swapped" [window; Str "delete-event"; Fun "gtk_widget_destroy"; window];;
  vbox ← create "gtk_vbox_new" [Int 0; Int 0];
  call "gtk_container_add" [window; vbox];;
  call "gtk_widget_show" [vbox];;
  entry ← create "gtk_entry_new" [];
  call "gtk_entry_set_max_length" [entry; Int 50];;
  call "g_signal_connect" [entry; Str "activate"; Fun "enter_callback"; entry];;
  call "gtk_entry_set_text" [entry; Str "hello"];;
  assign (Var "tmp_pos") (Field entry "text_length");;
  call "gtk_editable_insert_text" [entry; Str " world"; Int (-1); Addr "tmp_pos"];;
  call "gtk_editable_select_region" [entry; Int 0; Field entry "text_length"];;
  call "gtk_box_pack_start" [vbox; entry; Int 1; Int 1; Int 0];;
  call "gtk_widget_show" [entry];;
  hbox ← create "gtk_hbox_new" [Int 0; Int 0];
  call "gtk_container_add" [vbox; hbox];;
  call "gtk_widget_show" [hbox];;
  check ← create "gtk_check_button_new_with_label" [Str "Editable"];
  call "gtk_box_pack_start" [hbox; check; Int 1; Int 1; Int 0];;
  call "g_signal_connect" [check; Str "toggled"; Fun "entry_toggle_editable"; entry];;
  call "gtk_toggle_button_set_active" [check; Int 1];;
  call "gtk_widget_show" [check];;
  check ← create "gtk_check_button_new_with_label" [Str "Visible"];
  call "gtk_box_pack_start" [hbox; check; Int 1; Int 1; Int 0];;
  call "g_signal_connect" [check; Str "toggled"; Fun "entry_toggle_visibility"; entry];;
  call "gtk_toggle_button_set_active" [check; Int 1];;
  call "gtk_widget_show" [check];;
  button ← create "gtk_button_new_from_stock" [Const "GTK_STOCK_CLOSE"];
  call "g_signal_connect_swapped" [button; Str "clicked"; Fun "gtk_widget_destroy"; window];;
  call "gtk_box_pack_start" [vbox; button; Int 1; Int 1; Int 0];;
  call "gtk_widget_set_can_default" [button; Int 1];;
  call "gtk_widget_grab_default" [button];;
  call "gtk_widget_show" [button];;
  call "gtk_widget_show" [window];;
  call "gtk_main" [];;
  mret (Int 0).

Definition gtk_txt_entry : program := mkProgram "gtk_txt_entry.c" entry_main no_handler.
