(* ===== verification/GtkCalendar.v ===== *)
(** The windows of [src/cpp/gtk/gtk_calendar.c] and [gtk_progress_bar.c], and the
    font dialog of the first; their callbacks are in [Widgets]. *)
From S2P Require Import Prelude CString Gtk.

(** ** gtk_calendar.c *)

(** The dialog is kept in [calendar->font_dialog], which GTK resets when it is
    destroyed. *)
Definition calendar_font_selection_ok (button calendar : arg) : Gtk () :=
  open ← truth (Field calendar "window");
  (if (open : bool) then
     font_name ← create "gtk_font_selection_dialog_get_font_name" [Field calendar "font_dialog"];
     named ← holds "!=" font_name NULL;
     if (named : bool) then
       style ← create "gtk_rc_style_new" [];
       call "pango_font_description_free" [Field style "font_desc"];;
       font_desc ← create "pango_font_description_from_string" [font_name];
       assign (Field style "font_desc") font_desc;;
       call "gtk_widget_modify_style" [Field calendar "window"; style];;
       call "g_free" [font_name]
     else mret ()
   else mret ());;
  call "gtk_widget_destroy" [Field calendar "font_dialog"].

(** The end of [calendar_select_font]: the dialog appears, or goes if it is there. *)
Definition calendar_toggle_dialog (window : arg) : Gtk () :=
  visible ← ask "GTK_WIDGET_VISIBLE" [window];
  if visible =? 0 then call "gtk_widget_show" [window] else call "gtk_widget_destroy" [window].

(** The result is the new value of [calendar->font_dialog]. *)
Definition calendar_select_font (font_dialog button calendar : arg) : Gtk arg :=
  if decide (font_dialog = NULL) then
    window ← create "gtk_font_selection_dialog_new" [Str "Font Selection Dialog"];
    valid ← ask "GTK_IS_FONT_SELECTION_DIALOG" [window];
    if valid =? 0 then mret font_dialog
    else
      assign (Field calendar "font_dialog") window;;
      call "gtk_window_set_position" [window; Const "GTK_WIN_POS_MOUSE"];;
      call "g_signal_connect" [window; Str "destroy"; Fun "gtk_widget_destroyed"; Addr "calendar->font_dialog"];;
      call "g_signal_connect" [Field window "ok_button"; Str "clicked"; Fun "calendar_font_selection_ok"; calendar];;
      call "g_signal_connect_swapped" [Field window "cancel_button"; Str "clicked"; Fun "gtk_widget_destroy"; window];;
      calendar_toggle_dialog window;;
      mret window
  else
    calendar_toggle_dialog font_dialog;;
    mret font_dialog.

(** The labels of the flags. *)
Definition flags : list string := ["Show Heading"; "Show Day Names"; "No Month Change"; "Show Week Numbers"; "Week Start Monday"].

(** [create_calendar], the part that lays out the window; [calendar_data] is static
    in it. *)
Definition calendar_window : Gtk () :=
  assign (Field (Var "calendar_data") "window") NULL;;
  assign (Field (Var "calendar_data") "font_dialog") NULL;;
  gtk_for 5 0 (λ i,
      assign (Elem (Field (Var "calendar_data") "settings") i) (Int 0));;
  window ← create "gtk_window_new" [Const "GTK_WINDOW_TOPLEVEL"];
  call "gtk_window_set_title" [window; Str "GtkCalendar Example"];;
  call "gtk_container_set_border_width" [window; Int 5];;
  call "g_signal_connect" [window; Str "destroy"; Fun "gtk_main_quit"; NULL];;
  call "g_signal_connect" [window; Str "delete-event"; Fun "gtk_false"; NULL];;
  call "gtk_window_set_resizable" [window; Int 0];;
  vbox ← create "gtk_vbox_new" [Int 0; Int 10];
  call "gtk_container_add" [window; vbox];;
  hbox ← create "gtk_hbox_new" [Int 0; Int 10];
  call "gtk_box_pack_start" [vbox; hbox; Int 1; Int 1; Int 10];;
  hbbox ← create "gtk_hbutton_box_new" [];
  call "gtk_box_pack_start" [hbox; hbbox; Int 0; Int 0; Int 10];;
  call "gtk_button_box_set_layout" [hbbox; Const "GTK_BUTTONBOX_SPREAD"];;
  call "gtk_box_set_spacing" [hbbox; Int 5];;
  frame ← create "gtk_frame_new" [Str "Calendar"];
  call "gtk_box_pack_start" [hbbox; frame; Int 0; Int 1; Int 10];;
  calendar ← create "gtk_calendar_new" [];
  assign (Field (Var "calendar_data") "window") calendar;;
  call "calendar_set_flags" [Addr "calendar_data"];;
  call "gtk_calendar_mark_day" [calendar; Int 19];;
  call "gtk_container_add" [frame; calendar];;
  call "g_signal_connect" [calendar; Str "month_changed"; Fun "calendar_month_changed"; Addr "calendar_data"];;
  call "g_signal_connect" [calendar; Str "day_selected"; Fun "calendar_day_selected"; Addr "calendar_data"];;
  call "g_signal_connect" [calendar; Str "day_selected_double_click"; Fun "calendar_day_selected_double_click"; Addr "calendar_data"];;
  call "g_signal_connect" [calendar; Str "prev_month"; Fun "calendar_prev_month"; Addr "calendar_data"];;
  call "g_signal_connect" [calendar; Str "next_month"; Fun "calendar_next_month"; Addr "calendar_data"];;
  call "g_signal_connect" [calendar; Str "prev_year"; Fun "calendar_prev_year"; Addr "calendar_data"];;
  call "g_signal_connect" [calendar; Str "next_year"; Fun "calendar_next_year"; Addr "calendar_data"];;
  separator ← create "gtk_vseparator_new" [];
  call "gtk_box_pack_start" [hbox; separator; Int 0; Int 1; Int 0];;
  vbox2 ← create "gtk_vbox_new" [Int 0; Int 10];
  call "gtk_box_pack_start" [hbox; vbox2; Int 0; Int 0; Int 10];;
  frame ← create "gtk_frame_new" [Str "Flags"];
  call "gtk_box_pack_start" [vbox2; frame; Int 1; Int 1; Int 10];;
  vbox3 ← create "gtk_vbox_new" [Int 1; Int 5];
  call "gtk_container_add" [frame; vbox3];;
  gtk_for 5 0 (λ i,
      toggle ← create "gtk_check_button_new_with_label" [Str (nth (Z.to_nat i) flags EmptyString)];
      call "g_signal_connect" [toggle; Str "toggled"; Fun "calendar_toggle_flag"; Addr "calendar_data"];;
      call "gtk_box_pack_start" [vbox3; toggle; Int 1; Int 1; Int 0];;
      assign (Elem (Field (Var "calendar_data") "flag_checkboxes") i) toggle);;
  button ← create "gtk_button_new_with_label" [Str "Font..."];
  call "g_signal_connect" [button; Str "clicked"; Fun "calendar_select_font"; Addr "calendar_data"];;
  call "gtk_box_pack_start" [vbox2; button; Int 0; Int 0; Int 0];;
  frame ← create "gtk_frame_new" [Str "Signal events"];
  call "gtk_box_pack_start" [vbox; frame; Int 1; Int 1; Int 10];;
  vbox2 ← create "gtk_vbox_new" [Int 1; Int 5];
  call "gtk_container_add" [frame; vbox2];;
  hbox ← create "gtk_hbox_new" [Int 0; Int 3];
  call "gtk_box_pack_start" [vbox2; hbox; Int 0; Int 1; Int 0];;
  label ← create "gtk_label_new" [Str "Signal:"];
  call "gtk_box_pack_start" [hbox; label; Int 0; Int 1; Int 0];;
  last_sig ← create "gtk_label_new" [Str EmptyString];
  assign (Field (Var "calendar_data") "last_sig") last_sig;;
  call "gtk_box_pack_start" [hbox; last_sig; Int 0; Int 1; Int 0];;
  hbox ← create "gtk_hbox_new" [Int 0; Int 3];
  call "gtk_box_pack_start" [vbox2; hbox; Int 0; Int 1; Int 0];;
  label ← create "gtk_label_new" [Str "Previous signal:"];
  call "gtk_box_pack_start" [hbox; label; Int 0; Int 1; Int 0];;
  prev_sig ← create "gtk_label_new" [Str EmptyString];
  assign (Field (Var "calendar_data") "prev_sig") prev_sig;;
  call "gtk_box_pack_start" [hbox; prev_sig; Int 0; Int 1; Int 0];;
  hbox ← create "gtk_hbox_new" [Int 0; Int 3];
  call "gtk_box_pack_start" [vbox2; hbox; Int 0; Int 1; Int 0];;
  label ← create "gtk_label_new" [Str "Second previous signal:"];
  call "gtk_box_pack_start" [hbox; label; Int 0; Int 1; Int 0];;
  prev2_sig ← create "gtk_label_new" [Str EmptyString];
  assign (Field (Var "calendar_data") "prev2_sig") prev2_sig;;
  call "gtk_box_pack_start" [hbox; prev2_sig; Int 0; Int 1; Int 0];;
  bbox ← create "gtk_hbutton_box_new" [];
  call "gtk_box_pack_start" [vbox; bbox; Int 0; Int 0; Int 0];;
  call "gtk_button_box_set_layout" [bbox; Const "GTK_BUTTONBOX_END"];;
  button ← create "gtk_button_new_with_label" [Str "Close"];
  call "g_signal_connect" [button; Str "clicked"; Fun "gtk_main_quit"; NULL];;
  call "gtk_container_add" [bbox; button];;
  call "gtk_widget_set_can_default" [button; Int 1];;
  call "gtk_widget_grab_default" [button];;
  call "gtk_widget_show_all" [window].

Definition calendar_main : Gtk arg :=
  call "gtk_init" [Addr "argc"; Addr "argv"];;
  calendar_window;;
  call "gtk_main" [];;
  mret (Int 0).

Definition gtk_calendar : program := mkProgram "gtk_calendar.c" calendar_main no_handler.

(** ** gtk_progress_bar.c *)

(** [destroy_progress], called when the window is destroyed. *)
Definition progress_destroy (widget pdata : arg) : Gtk () :=
  call "g_source_remove" [Field pdata "timer"];;
  assign (Field pdata "timer") (Int 0);;
  assign (Field pdata "window") NULL;;
  call "g_free" [pdata];;
  call "gtk_main_quit" [].

Definition progress_main : Gtk arg :=
  call "gtk_init" [Addr "argc"; Addr "argv"];;
  pdata ← create "g_malloc" [Const "sizeof (ProgressData)"];
  window ← create "gtk_window_new" [Const "GTK_WINDOW_TOPLEVEL"];
  assign (Field pdata "window") window;;
  call "gtk_window_set_resizable" [window; Int 1];;
  call "g_signal_connect" [window; Str "destroy"; Fun "destroy_progress"; pdata];;
  call "gtk_window_set_title" [window; Str "GtkProgressBar"];;
  call "gtk_container_set_border_width" [window; Int 0];;
  vbox ← create "gtk_vbox_new" [Int 0; Int 5];
  call "gtk_container_set_border_width" [vbox; Int 10];;
  call "gtk_container_add" [window; vbox];;
  call "gtk_widget_show" [vbox];;
  align ← create "gtk_alignment_new" [Dbl "0.5"; Dbl "0.5"; Int 0; Int 0];
  call "gtk_box_pack_start" [vbox; align; Int 0; Int 0; Int 5];;
  call "gtk_widget_show" [align];;
  pbar ← create "gtk_progress_bar_new" [];
  assign (Field pdata "pbar") pbar;;
  assign (Field pdata "activity_mode") (Int 0);;
  call "gtk_container_add" [align; pbar];;
  call "gtk_widget_show" [pbar];;
  timer ← create "g_timeout_add" [Int 100; Fun "progress_timeout"; pdata];
  assign (Field pdata "timer") timer;;
  separator ← create "gtk_hseparator_new" [];
  call "gtk_box_pack_start" [vbox; separator; Int 0; Int 0; Int 0];;
  call "gtk_widget_show" [separator];;
  table ← create "gtk_table_new" [Int 2; Int 3; Int 0];
  call "gtk_box_pack_start" [vbox; table; Int 0; Int 1; Int 0];;
  call "gtk_widget_show" [table];;
  check ← create "gtk_check_button_new_with_label" [Str "Show text"];
  call "gtk_table_attach" [table; check; Int 0; Int 1; Int 0; Int 1; Const "GTK_EXPAND|GTK_FILL"; Const "GTK_EXPAND|GTK_FILL"; Int 5; Int 5];;
  call "g_signal_connect" [check; Str "clicked"; Fun "toggle_show_text"; pdata];;
  call "gtk_widget_show" [check];;
  check ← create "gtk_check_button_new_with_label" [Str "Activity mode"];
  call "gtk_table_attach" [table; check; Int 0; Int 1; Int 1; Int 2; Const "GTK_EXPAND|GTK_FILL"; Const "GTK_EXPAND|GTK_FILL"; Int 5; Int 5];;
  call "g_signal_connect" [check; Str "clicked"; Fun "toggle_activity_mode"; pdata];;
  call "gtk_widget_show" [check];;
  check ← create "gtk_check_button_new_with_label" [Str "Right to Left"];
  call "gtk_table_attach" [table; check; Int 0; Int 1; Int 2; Int 3; Const "GTK_EXPAND|GTK_FILL"; Const "GTK_EXPAND|GTK_FILL"; Int 5; Int 5];;
  call "g_signal_connect" [check; Str "clicked"; Fun "toggle_orientation"; pdata];;
  call "gtk_widget_show" [check];;
  button ← create "gtk_button_new_with_label" [Str "close"];
  call "g_signal_connect_swapped" [button; Str "clicked"; Fun "gtk_widget_destroy"; window];;
  call "gtk_box_pack_start" [vbox; button; Int 0; Int 0; Int 0];;
  call "gtk_widget_set_can_default" [button; Int 1];;
  call "gtk_widget_grab_default" [button];;
  call "gtk_widget_show" [button];;
  call "gtk_widget_show" [window];;
  call "gtk_main" [];;
  mret (Int 0).

Definition gtk_progress_bar : program :=
  mkProgram "gtk_progress_bar.c" progress_main (handler "destroy_progress" (void (progress_destroy NULL (Obj 0)))).
