(* ===== verification/GtkSpec.v ===== *)
(** What the programs of [src/cpp/gtk] keep: the trees of widgets that they
    build, how closing their windows ends them, how they lay out tables. *)
From Stdlib Require Import SpecFloat.
From stdpp Require Import relations.
From S2P Require Import Prelude CString WebClient Gtk GtkButtons GtkLayout GtkControls GtkCalendar.

(** ** All the programs *)

(** [loaded]: the icon was found; [which]: the argument of gtk_packbox. *)
Definition programs (loaded : bool) (which : Z) : list program := [
  gtk_window; gtk_box; gtk_table; gtk_check_button; gtk_toggle_button; gtk_pic_button; gtk_radio_button; gtk_arrow;
  gtk_fixed_button; gtk_fixed_container; gtk_tooltips; gtk_dialog; gtk_event_box; gtk_alignment; gtk_frame; gtk_aspect_frame;
  gtk_label; gtk_button_box; gtk_packbox 2 which; gtk_paned_window; gtk_scrolled_window; gtk_ruler; gtk_notebook; gtk_icon loaded;
  gtk_file_selection; gtk_color_selection; gtk_menu; gtk_item_factory; gtk_range_ctrl; gtk_status_bar;
  gtk_txt_entry; gtk_calendar; gtk_progress_bar].

Definition toplevel (c : call_) : bool := fresh c && named ["gtk_window_new"; "gtk_dialog_new"; "gtk_file_selection_new"]%string c.

(** Calls that end the program. *)
Definition stops (t : list call_) : Prop := ∃ c, c ∈ t ∧ named ["gtk_main_quit"; "exit"]%string c = true.

(** A function that ends the program when it is called: one of the library, or
    one of the program's own. *)
Definition stopper (p : program) (env : nat → Z) (f : string) : Prop :=
  f = "gtk_main_quit"%string ∨ f = "exit"%string ∨ ∃ m, on_close p f = Some m ∧ stops (trace_of m env).

Definition connection (c : call_) : option (nat * string * string) :=
  if named ["g_signal_connect"; "g_signal_connect_swapped"]%string c
  then match args c with [Obj w; Str s; Fun f; _] => Some (w, s, f) | _ => None end else None.

Definition connected (t : list call_) (w : nat) (s f : string) : Prop := ∃ c, c ∈ t ∧ connection c = Some (w, s, f).

(** The two names of the request to close a window. *)
Definition delete_signal (s : string) : bool := String.eqb s "delete-event" || String.eqb s "delete_event".

(** Closing the window [top] ends the program: a function that does is connected
    to the request to close it or to its end, and no function of the program that
    refuses the request, by a result other than 0, leaves the program running. *)
Definition closes (p : program) (env : nat → Z) (t : list call_) (top : nat) : Prop :=
  (∃ s f, connected t top s f ∧ (s = "destroy"%string ∨ delete_signal s = true) ∧ stopper p env f) ∧
  (∀ s f m, connected t top s f → delete_signal s = true → on_close p f = Some m →
     result_of m env = Int 0 ∨ stops (trace_of m env)).

(** ** Decision procedures *)

Definition stopsb (t : list call_) : bool := existsb (named ["gtk_main_quit"; "exit"]%string) t.

Definition stopperb (p : program) (env : nat → Z) (f : string) : bool :=
  if String.eqb f "gtk_main_quit" then true else if String.eqb f "exit" then true
  else match on_close p f with Some m => stopsb (trace_of m env) | None => false end.

Definition closesb (p : program) (env : nat → Z) (t : list call_) (top : nat) : bool :=
  let mine := filter (λ wsf : nat * string * string, wsf.1.1 = top) (omap connection t) in
  existsb (λ wsf : nat * string * string, (String.eqb wsf.1.2 "destroy" || delete_signal wsf.1.2) && stopperb p env wsf.2) mine
  && forallb (λ wsf : nat * string * string,
       if delete_signal wsf.1.2 then
         match on_close p wsf.2 with
         | Some m => bool_decide (result_of m env = Int 0) || stopsb (trace_of m env)
         | None => true
         end
       else true) mine.

Definition top_of (t : list call_) : nat := match list_find (λ c, toplevel c = true) t with Some (i, _) => i | None => O end.

Lemma stopsb_ok t : stopsb t = true ↔ stops t.
Proof. unfold stopsb, stops. rewrite existsb_exists. by setoid_rewrite list_elem_of_In. Qed.

Lemma stopperb_ok p env f : stopperb p env f = true → stopper p env f.
Proof.
  unfold stopperb, stopper. destruct (String.eqb_spec f "gtk_main_quit"); [by left|].
  destruct (String.eqb_spec f "exit"); [by right; left|]. destruct (on_close p f) as [m|] eqn:E; [|done].
  intros H%stopsb_ok. right; right. eauto.
Qed.

Lemma connected_elem t w s f : connected t w s f ↔ (w, s, f) ∈ filter (λ wsf : nat * string * string, wsf.1.1 = w) (omap connection t).
Proof. rewrite list_elem_of_filter, list_elem_of_omap. unfold connected. naive_solver. Qed.

Lemma closesb_ok p env t top : closesb p env t top = true → closes p env t top.
Proof.
  unfold closesb, closes. rewrite andb_true_iff, existsb_exists, forallb_forall. intros [([[w s] f] & Hin & H) Hall]. split.
  - rewrite <- list_elem_of_In in Hin. assert (w = top) as -> by (apply list_elem_of_filter in Hin; naive_solver).
    apply connected_elem in Hin. apply andb_true_iff in H as [Hs Hf]. apply orb_true_iff in Hs as [Hs|Hs].
    + apply String.eqb_eq in Hs. exists s, f. split_and!; [done|by left|by apply stopperb_ok].
    + exists s, f. split_and!; [done|by right|by apply stopperb_ok].
  - intros s' f' m Hc Hd Hm. apply connected_elem, list_elem_of_In, Hall in Hc. cbn in Hc. rewrite Hd, Hm in Hc.
    apply orb_true_iff in Hc as [Hc|Hc]; [left; by apply bool_decide_eq_true in Hc|right; by apply stopsb_ok].
Qed.

(** ** Windows *)

Definition main_call : call_ := mkCall "gtk_main" [] false.

(** What a run of [main] must be: everything is set up, in a tree of widgets that
    are all shown in one window, before the one call of [gtk_main]; then the
    result is 0. *)
Record runs (p : program) (env : nat → Z) (pre : list call_) (top : nat) : Prop := {
  runs_trace : trace_of (run_main p) env = pre ++ [main_call];
  runs_result : result_of (run_main p) env = Int 0;
  runs_once : ∀ c, c ∈ pre → fn c ≠ "gtk_main"%string;
  runs_top : ∃ c, pre !! top = Some c ∧ toplevel c = true;
  runs_tree : tree pre top
}.

Definition runsb (p : program) (env : nat → Z) : bool :=
  let t := trace_of (run_main p) env in
  let pre := removelast t in
  let top := top_of pre in
  bool_decide (last t = Some main_call) && bool_decide (result_of (run_main p) env = Int 0)
  && forallb (λ c, negb (String.eqb (fn c) "gtk_main")) pre
  && match pre !! top with Some c => toplevel c | None => false end
  && treeb pre top && (String.eqb (source p) "gtk_icon.c" || closesb p env pre top).

Lemma runsb_ok p env : runsb p env = true →
  ∃ pre top, runs p env pre top ∧ (source p ≠ "gtk_icon.c"%string → closes p env pre top).
Proof.
  unfold runsb. set (t := trace_of (run_main p) env). rewrite !andb_true_iff, !bool_decide_eq_true, forallb_forall.
  intros [[[[[Hl Hr] Ho] Ht] Htree] Hc]. exists (removelast t), (top_of (removelast t)). split; [constructor|].
  - apply last_Some in Hl as [l Hl]. fold t. rewrite Hl. by rewrite removelast_last.
  - done.
  - intros c Hin%list_elem_of_In%Ho. by destruct (String.eqb_spec (fn c) "gtk_main").
  - destruct (removelast t !! _) as [c|]; [eauto|done].
  - by apply treeb_ok.
  - intros Hne. apply orb_true_iff in Hc as [Hc%String.eqb_eq|Hc]; [done|by apply closesb_ok].
Qed.

(** The argument of gtk_packbox matters when it is 1, 2 or 3. *)
Lemma packbox_other which : which ≠ 1 → which ≠ 2 → which ≠ 3 → pack_main 2 which = pack_main 2 0.
Proof.
  intros H1 H2 H3. unfold pack_main.
  by rewrite (proj2 (Z.eqb_neq which 1) H1), (proj2 (Z.eqb_neq which 2) H2), (proj2 (Z.eqb_neq which 3) H3).
Qed.

Lemma packbox_run which env : runsb (gtk_packbox 2 which) env = true.
Proof.
  unfold gtk_packbox. destruct (decide (which = 1)) as [->|]; [by vm_compute|]. destruct (decide (which = 2)) as [->|]; [by vm_compute|].
  destruct (decide (which = 3)) as [->|]; [by vm_compute|]. rewrite packbox_other by done. by vm_compute.
Qed.

Lemma icon_run loaded env : runsb (gtk_icon loaded) env = true.
Proof. destruct loaded; by vm_compute. Qed.

Lemma programs_run loaded which env : forallb (λ p, runsb p env) (programs loaded which) = true.
Proof.
  unfold programs. cbn [forallb]. rewrite packbox_run, icon_run, andb_true_l, andb_true_l. by vm_compute.
Qed.

(** C11: Each of the 33 programs that compile (gtk_spin_button.c does not) sets up everything
    before its one call of gtk_main and returns 0: nothing is used before it is made, no
    widget is put in two places or inside itself, all that is put anywhere is put in the one
    window and shown; and closing the window ends the program, in all but gtk_icon. *)
Theorem gtk_programs_run loaded which env p : p ∈ programs loaded which →
  ∃ pre top, runs p env pre top ∧ (source p ≠ "gtk_icon.c"%string → closes p env pre top).
Proof.
  intros Hin. apply runsb_ok. pose proof (programs_run loaded which env) as H. rewrite forallb_forall in H. by apply H, list_elem_of_In.
Qed.

Lemma gtk_programs_run_witness : ∃ pre top, runs gtk_menu (λ _, 0) pre top ∧ closes gtk_menu (λ _, 0) pre top.
Proof.
  destruct (gtk_programs_run true 1 (λ _, 0) gtk_menu) as (pre & top & H & Hc).
  - apply list_elem_of_lookup_2 with 26%nat. reflexivity.
  - exists pre, top. split; [exact H|]. apply Hc. discriminate.
Defined.

(** Without a handler: closing the window of gtk_icon leaves it running. *)
Lemma icon_no_handler loaded env : omap connection (trace_of (run_main (gtk_icon loaded)) env) = [].
Proof. destruct loaded; by vm_compute. Qed.

(** Without one argument gtk_packbox makes no window. *)
Lemma packbox_usage argc which env : argc ≠ 2 →
  result_of (pack_main argc which) env = Int 1 ∧ stops (trace_of (pack_main argc which) env) ∧
  Forall (λ c, toplevel c = false) (trace_of (pack_main argc which) env).
Proof.
  intros H. unfold pack_main. rewrite (proj2 (Z.eqb_neq argc 2) H). split_and!; [done| |by repeat constructor].
  apply stopsb_ok. by vm_compute.
Qed.

(** ** Tables *)

Definition int_of (a : arg) : option Z := match a with Int z => Some z | _ => None end.

(** A child's place in a table: the columns and the rows between which it is. *)
Record spot := mkSpot { in_table : nat; child : nat; left : Z; right : Z; above : Z; below : Z }.

Definition spot_of (c : call_) : option spot :=
  if named ["gtk_table_attach"; "gtk_table_attach_defaults"]%string c
  then match args c with
       | Obj t :: Obj w :: Int l :: Int r :: Int a :: Int b :: _ => Some (mkSpot t w l r a b)
       | _ => None
       end
  else None.

(** Every use of a table is read as a place; the place is inside the rows and the
    columns that the table was made with; two places of a table are apart. *)
Definition inside (t : list call_) (p : spot) : bool :=
  match t !! in_table p with
  | Some (mkCall f [Int rows; Int cols; _] true) =>
      String.eqb f "gtk_table_new" && (0 <=? left p) && (left p <? right p) && (right p <=? cols)
      && (0 <=? above p) && (above p <? below p) && (below p <=? rows)
  | _ => false
  end.

Definition apart (p q : spot) : Prop :=
  in_table p ≠ in_table q ∨ right p ≤ left q ∨ right q ≤ left p ∨ below p ≤ above q ∨ below q ≤ above p.

#[export] Instance apart_dec p q : Decision (apart p q).
Proof. unfold apart. apply _. Defined.

Record tabled (t : list call_) : Prop := {
  tabled_read : ∀ c, c ∈ t → named ["gtk_table_attach"; "gtk_table_attach_defaults"]%string c = true → is_Some (spot_of c);
  tabled_inside : ∀ p, p ∈ omap spot_of t → inside t p = true;
  tabled_apart : ∀ i j p q, omap spot_of t !! i = Some p → omap spot_of t !! j = Some q → i ≠ j → apart p q
}.

Fixpoint pairwise (l : list spot) : bool :=
  match l with [] => true | p :: l => forallb (λ q, bool_decide (apart p q)) l && pairwise l end.

Definition tabledb (t : list call_) : bool :=
  forallb (λ c, negb (named ["gtk_table_attach"; "gtk_table_attach_defaults"]%string c) || match spot_of c with Some _ => true | None => false end) t
  && forallb (inside t) (omap spot_of t) && pairwise (omap spot_of t).

Lemma apart_sym p q : apart p q → apart q p.
Proof. unfold apart. assert (in_table p ≠ in_table q → in_table q ≠ in_table p) by congruence. tauto. Qed.

Lemma pairwise_ok l i j p q : pairwise l = true → l !! i = Some p → l !! j = Some q → i ≠ j → apart p q.
Proof.
  revert i j p q. induction l as [|x l IH]; intros i j p q; [done|]. cbn [pairwise].
  rewrite andb_true_iff, forallb_forall. intros [Hx Hl] Hi Hj Hij.
  destruct i as [|i], j as [|j]; [done| | |apply (IH i j p q Hl Hi Hj); lia].
  - injection Hi as ->. change (l !! j = Some q) in Hj. apply list_elem_of_lookup_2, list_elem_of_In, Hx, bool_decide_eq_true in Hj. done.
  - injection Hj as ->. change (l !! i = Some p) in Hi. apply list_elem_of_lookup_2, list_elem_of_In, Hx, bool_decide_eq_true in Hi. by apply apart_sym.
Qed.

Lemma tabledb_ok t : tabledb t = true → tabled t.
Proof.
  unfold tabledb. rewrite !andb_true_iff, !forallb_forall. intros [[Hr Hi] Ha]. constructor.
  - intros c Hin%list_elem_of_In%Hr Hn. rewrite Hn in Hin. cbn in Hin. by destruct (spot_of c).
  - intros p Hin%list_elem_of_In%Hi. done.
  - intros i j p q. by apply pairwise_ok.
Qed.

Definition tables_ok (env : nat → Z) (p : program) : bool :=
  String.eqb (source p) "gtk_progress_bar.c" || tabledb (trace_of (run_main p) env).

Lemma packbox_tabled which env : tables_ok env (gtk_packbox 2 which) = true.
Proof.
  unfold gtk_packbox. destruct (decide (which = 1)) as [->|]; [by vm_compute|]. destruct (decide (which = 2)) as [->|]; [by vm_compute|].
  destruct (decide (which = 3)) as [->|]; [by vm_compute|]. rewrite packbox_other by done. by vm_compute.
Qed.

Lemma icon_tabled loaded env : tables_ok env (gtk_icon loaded) = true.
Proof. destruct loaded; by vm_compute. Qed.

Lemma programs_tabled loaded which env : forallb (tables_ok env) (programs loaded which) = true.
Proof. unfold programs. cbn [forallb]. rewrite packbox_tabled, icon_tabled, andb_true_l, andb_true_l. by vm_compute. Qed.

(** gtk_progress_bar makes a table of 2 rows and 3 columns and uses 3 rows of one
    column. *)
Example progress_table env :
  (λ p, (left p, right p, above p, below p, inside (trace_of progress_main env) p)) <$> omap spot_of (trace_of progress_main env) =
    [(0, 1, 0, 1, true); (0, 1, 1, 2, true); (0, 1, 2, 3, false)].
Proof. by vm_compute. Qed.

(** The cell of column [i] and row [j] of the scrolled window holds a button with
    the two numbers. *)
Definition scrolled_cell (t : list call_) (i j : Z) : bool :=
  existsb (λ p, bool_decide (left p = i ∧ right p = i + 1 ∧ above p = j ∧ below p = j + 1)
    && bool_decide (t !! child p = Some (mkCall "gtk_toggle_button_new_with_label" [fmt [Lit "button ("; Dec i; Lit ","; Dec j; Lit ")"; Chr 10]] true)))
    (omap spot_of t).

Lemma elem_of_seqZ0 n i : 0 ≤ i < n → i ∈ seqZ0 n.
Proof. intros H. apply list_elem_of_lookup_2 with (Z.to_nat i). rewrite lookup_seqZ0 by lia. f_equal. lia. Qed.

Lemma scrolled_cells env : forallb (λ i, forallb (scrolled_cell (trace_of scrolled_main env) i) (seqZ0 10)) (seqZ0 10) = true.
Proof. by vm_compute. Qed.

(** C31: In every one of these programs but gtk_progress_bar each child of a table is inside the
    rows and columns that the table was made with and apart from the others; the scrolled
    window's 100 cells hold the buttons with their own coordinates. *)
Theorem gtk_tables_tile loaded which env :
  (∀ p, p ∈ programs loaded which → source p ≠ "gtk_progress_bar.c"%string → tabled (trace_of (run_main p) env)) ∧
  (∀ i j, 0 ≤ i < 10 → 0 ≤ j < 10 → ∃ p, p ∈ omap spot_of (trace_of scrolled_main env) ∧
     left p = i ∧ right p = i + 1 ∧ above p = j ∧ below p = j + 1 ∧
     trace_of scrolled_main env !! child p =
       Some (mkCall "gtk_toggle_button_new_with_label" [fmt [Lit "button ("; Dec i; Lit ","; Dec j; Lit ")"; Chr 10]] true)).
Proof.
  split.
  - intros p Hin Hne. apply tabledb_ok. pose proof (programs_tabled loaded which env) as H. rewrite forallb_forall in H.
    specialize (H p (proj1 (list_elem_of_In _ _) Hin)). apply orb_true_iff in H as [H%String.eqb_eq|H]; done.
  - intros i j Hi Hj. pose proof (scrolled_cells env) as H. revert H. generalize (trace_of scrolled_main env). intros t H.
    rewrite forallb_forall in H. specialize (H i ltac:(apply list_elem_of_In, elem_of_seqZ0; lia)). rewrite forallb_forall in H.
    specialize (H j ltac:(apply list_elem_of_In, elem_of_seqZ0; lia)). unfold scrolled_cell in H.
    apply existsb_exists in H as (p & Hin & H). apply andb_true_iff in H as [H1 H2].
    apply bool_decide_eq_true in H1 as (?&?&?&?). apply bool_decide_eq_true in H2.
    exists p. apply list_elem_of_In in Hin. by split_and!.
Qed.
