(* ===== verification/GtkSessions.v ===== *)
(** Single programs of [src/cpp/gtk]: the labels of gtk_packbox, the pages of
    gtk_notebook, and what sequences of clicks do in gtk_notebook,
    gtk_fixed_container, gtk_status_bar, gtk_color_selection and gtk_range_ctrl. *)
From Stdlib Require Import SpecFloat.
From S2P Require Import Prelude CString WebClient Gtk GtkButtons GtkLayout GtkControls.

(** ** gtk_packbox.c *)

Definition text (a : arg) : list Z := match a with Str s => codes s | Txt l => l | _ => [] end.

(** The texts of the buttons that a sequence makes, in order. *)
Definition button_text (c : call_) : option (list Z) :=
  if named ["gtk_button_new_with_label"]%string c then match args c with [a] => Some (text a) | _ => None end else None.

(** What a C compiler reads in the texts of a box: the name of the function, the
    box, the button, two booleans, a number, and the end of the statement. *)
Definition read_bool (l : list Z) : option Z :=
  if decide (l = codes "TRUE,") then Some 1 else if decide (l = codes "FALSE,") then Some 0 else None.

Definition read_last (l : list Z) : option Z :=
  let digits := take (length l - 2) l in
  if decide (digits ≠ [] ∧ Forall (λ c, 48 ≤ c ≤ 57) digits ∧ drop (length l - 2) l = codes ");") then Some (digits_value 0 digits) else None.

Definition read_pack (labels : list (list Z)) : option (Z * Z * Z) :=
  match labels with
  | [f; a; b; e; fl; n] =>
      if decide (f = codes "gtk_box_pack" ∧ a = codes "(box," ∧ b = codes "button,") then
        e ← read_bool e; fl ← read_bool fl; p ← read_last n; Some (e, fl, p)
      else None
  | _ => None
  end.

Lemma digits_value_app acc a b : Forall (λ c, 48 ≤ c ≤ 57) a → digits_value acc (a ++ b) = digits_value (digits_value acc a) b.
Proof.
  intros H. revert acc. induction H as [|c a Hc _ IH]; intros acc; [done|]. cbn [app digits_value].
  rewrite (proj2 (Z.leb_le 48 c)), (proj2 (Z.leb_le c 57)) by lia. apply IH.
Qed.

Lemma digits_value_dec f z : 0 ≤ z < 10 ^ Z.of_nat f → digits_value 0 (dec_digits f z) = z.
Proof.
  revert z. induction f as [|f IH]; intros z Hz; [cbn in *; lia|]. cbn [dec_digits].
  destruct (Z.ltb_spec z 10).
  - cbn [digits_value]. rewrite (proj2 (Z.leb_le 48 _)), (proj2 (Z.leb_le _ 57)) by lia. cbn [andb]. lia.
  - rewrite Nat2Z.inj_succ, Z.pow_succ_r in Hz by lia.
    rewrite digits_value_app by (apply dec_digits_range, Z.div_pos; lia).
    rewrite IH by (split; [apply Z.div_pos; lia|apply Z.div_lt_upper_bound; lia]).
    pose proof (Z.mod_pos_bound z 10 ltac:(lia)). pose proof (Z.div_mod z 10 ltac:(lia)).
    cbn [digits_value]. rewrite (proj2 (Z.leb_le 48 _)), (proj2 (Z.leb_le _ 57)) by lia. cbn [andb]. lia.
Qed.

Lemma dec_digits_ne f z : dec_digits (S f) z ≠ [].
Proof. cbn [dec_digits]. destruct (z <? 10); [done|]. intros H. by apply app_eq_nil in H as [_ H]. Qed.

Lemma read_padding p : 0 ≤ p ≤ INT_MAX → read_last (text (fmt [Dec p; Lit ");"])) = Some p.
Proof.
  unfold INT_MAX. intros Hp. cbn [fmt text mbind list_bind]. rewrite app_nil_r. unfold dec_chars, read_last.
  rewrite (proj2 (Z.ltb_ge p 0)) by lia.
  assert (length (dec_digits 20 p ++ codes ");") - 2 = length (dec_digits 20 p))%nat as -> by (rewrite length_app; cbn; lia).
  rewrite take_app_length, drop_app_length, decide_True.
  - by rewrite digits_value_dec by (change (Z.of_nat 20) with 20; lia).
  - split_and!; [apply dec_digits_ne|apply dec_digits_range; lia|done].
Qed.

Lemma create_if (b : bool) f l l' : (if b then create f l else create f l') = create f (if b then l else l').
Proof. by destruct b. Qed.

Lemma make_box_trace homogeneous spacing expand fill padding env t :
  make_box homogeneous spacing expand fill padding env t =
  (Obj (length t + 0),
   t ++ mkCall "gtk_hbox_new" [Int homogeneous; Int spacing] true ::
     (imap pair [Str "gtk_box_pack"; Str "(box,"; Str "button,"; if expand =? 1 then Str "TRUE," else Str "FALSE,";
                 if negb (fill =? 0) then Str "TRUE," else Str "FALSE,"; fmt [Dec (wrap_i32 padding); Lit ");"]] ≫=
        λ ka : nat * arg,
          let button := Obj (length t + (1 + 3 * ka.1)) in
          [mkCall "gtk_button_new_with_label" [ka.2] true;
           mkCall "gtk_box_pack_start" [Obj (length t + 0); button; Int expand; Int fill; Int padding] false;
           mkCall "gtk_widget_show" [button] false])).
Proof.
  rewrite <- (app_nil_r t) at 1. unfold make_box. rewrite create_if. generalize (fmt [Dec (wrap_i32 padding); Lit ");"]). intros n.
  run_gtk. cbn. by destruct (expand =? 1).
Qed.

(** C32: The texts of the six buttons of make_box, one after the other, spell the C statement
    gtk_box_pack (box, button, expand, fill, padding); with the expand, fill and padding by
    which each of those buttons is packed, for every boolean expand and fill and every
    padding that an int holds. The function that packs them is gtk_box_pack_start. *)
Theorem make_box_spells homogeneous spacing expand fill padding env t :
  expand = 0 ∨ expand = 1 → fill = 0 ∨ fill = 1 → 0 ≤ padding ≤ INT_MAX →
  ∃ new, make_box homogeneous spacing expand fill padding env t = (Obj (length t), t ++ new) ∧
    head new = Some (mkCall "gtk_hbox_new" [Int homogeneous; Int spacing] true) ∧
    read_pack (omap button_text new) = Some (expand, fill, padding) ∧
    args <$> filter (λ c, named ["gtk_box_pack_start"]%string c = true) new =
      (λ k, [Obj (length t); Obj (length t + (1 + 3 * k)); Int expand; Int fill; Int padding]) <$> seq 0 6.
Proof.
  intros He Hf Hp. rewrite make_box_trace, Nat.add_0_r.
  assert (wrap_i32 padding = padding) as -> by (unfold wrap_i32, INT_MAX in *; rewrite Z.mod_small; lia).
  pose proof (read_padding padding Hp) as Hr. revert Hr. generalize (fmt [Dec padding; Lit ");"]). intros n Hr.
  eexists. split_and!; [reflexivity|reflexivity| |destruct He as [-> | ->], Hf as [-> | ->]; reflexivity].
  destruct He as [-> | ->], Hf as [-> | ->]; cbn -[read_last text decide codes]; by rewrite Hr.
Qed.

Lemma make_box_spells_witness :
  ∃ new, make_box 0 10 1 0 25 (λ _, 0) [] = (Obj 0, new) ∧ read_pack (omap button_text new) = Some (1, 0, 25).
Proof.
  destruct (make_box_spells 0 10 1 0 25 (λ _, 0) []) as (new & H & _ & Hr & _); [by right|by left|by vm_compute|].
  exists new. split; [exact H|exact Hr].
Defined.

(** With 2 for [TRUE] the box expands, but the button says that it does not:
    [expand] is compared with 1, [fill] with 0. *)
Example expand_2 : read_pack (omap button_text (trace_of (make_box 0 0 2 2 0) (λ _, 0))) = Some (0, 1, 0).
Proof. by vm_compute. Qed.

(** The label above some rows is the call that makes their boxes. *)
Definition heading (homogeneous spacing : Z) : list Z :=
  codes "gtk_hbox_new (" ++ (if homogeneous =? 0 then codes "FALSE" else codes "TRUE") ++ codes ", " ++ dec_chars spacing ++ codes ");".

Fixpoint headed (label : option (list Z)) (t : list call_) : bool :=
  match t with
  | [] => true
  | c :: t =>
      if named ["gtk_label_new"]%string c then headed (text <$> head (args c)) t
      else if named ["gtk_hseparator_new"]%string c then headed None t
      else if named ["gtk_hbox_new"]%string c then
        match label, args c with
        | Some l, [Int h; Int s] => bool_decide (l = heading h s) && headed label t
        | None, _ => headed label t
        | _, _ => false
        end
      else headed label t
  end.

Lemma packbox_headings which env : headed None (trace_of (pack_main 2 which) env) = true.
Proof.
  destruct (decide (which = 1)) as [->|]; [by vm_compute|]. destruct (decide (which = 2)) as [->|]; [by vm_compute|].
  destruct (decide (which = 3)) as [->|]; [by vm_compute|]. unfold pack_main.
  rewrite (proj2 (Z.eqb_neq which 1)), (proj2 (Z.eqb_neq which 2)), (proj2 (Z.eqb_neq which 3)) by done. by vm_compute.
Qed.

(** ** gtk_notebook.c *)

(** The pages of the notebook [nb], by the texts of their tabs, after a sequence
    of calls: a page is put last, first or at a position. *)
Definition tab_text (t : list call_) (l : arg) : list Z :=
  match l with Obj w => match t !! w with Some c => match args c with [a] => text a | _ => [] end | None => [] end | _ => [] end.

Definition page_call (t : list call_) (nb : arg) (pages : list (list Z)) (c : call_) : list (list Z) :=
  match args c with
  | n :: _ :: l :: rest =>
      if decide (n = nb) then
        if named ["gtk_notebook_append_page"]%string c then pages ++ [tab_text t l]
        else if named ["gtk_notebook_prepend_page"]%string c then tab_text t l :: pages
        else if named ["gtk_notebook_insert_page"]%string c then
          match rest with
          | [Int p] => if (0 <=? p) && (p <? Z.of_nat (length pages)) then take (Z.to_nat p) pages ++ tab_text t l :: drop (Z.to_nat p) pages
                       else pages ++ [tab_text t l]
          | _ => pages
          end
        else pages
      else pages
  | _ => pages
  end.

Definition pages_of (t : list call_) (nb : arg) : list (list Z) := fold_left (page_call t nb) t [].

(** The pages of the program, and the one it begins with. *)
Lemma notebook_pages env :
  ∃ nb, fn <$> trace_of notebook_main env !! nb = Some "gtk_notebook_new"%string ∧
    pages_of (trace_of notebook_main env) (Obj nb) =
      codes <$> ["PPage 5"; "PPage 4"; "PPage 3"; "PPage 2"; "PPage 1"; "Page 1"; "Page 2"; "Add page"; "Page 3"; "Page 4"; "Page 5"]%string ∧
    mkCall "gtk_notebook_set_current_page" [Obj nb; Int 3] false ∈ trace_of notebook_main env.
Proof.
  exists 6%nat. split_and!; [by vm_compute|by vm_compute|].
  apply (bool_decide_unpack (_ ∈ _)). by vm_compute.
Qed.

(** A notebook of GTK: three properties, each of which reads as it was last set
    and is not changed by the others. *)
Class NotebookOps (W : Type) := {
  tab_pos : W → Z; show_tabs : W → Z; show_border : W → Z;
  set_tab_pos : Z → W → W; set_show_tabs : Z → W → W; set_show_border : Z → W → W
}.

(** A position is one of four, the others are booleans. *)
Class NotebookLaws (W : Type) `{NotebookOps W} := {
  tab_pos_set w p : 0 ≤ p < 4 → tab_pos (set_tab_pos p w) = p;
  tab_pos_tabs w b : tab_pos (set_show_tabs b w) = tab_pos w;
  tab_pos_border w b : tab_pos (set_show_border b w) = tab_pos w;
  show_tabs_set w b : b = 0 ∨ b = 1 → show_tabs (set_show_tabs b w) = b;
  show_tabs_pos w p : show_tabs (set_tab_pos p w) = show_tabs w;
  show_tabs_border w b : show_tabs (set_show_border b w) = show_tabs w;
  show_border_set w b : b = 0 ∨ b = 1 → show_border (set_show_border b w) = b;
  show_border_pos w p : show_border (set_tab_pos p w) = show_border w;
  show_border_tabs w b : show_border (set_show_tabs b w) = show_border w
}.

Inductive notebook_click := TabPosition | TabsBorder.

Fixpoint rotations (l : list notebook_click) : nat :=
  match l with [] => O | TabPosition :: l => S (rotations l) | TabsBorder :: l => rotations l end.
Fixpoint toggles (l : list notebook_click) : nat :=
  match l with [] => O | TabPosition :: l => toggles l | TabsBorder :: l => S (toggles l) end.

(** A flag after [n] clicks that switch it. *)
Definition switched (n : nat) (z : Z) : Z := if Nat.even n then z else 1 - z.

Section notebook.
Context {W : Type} `{NotebookLaws W}.

(** The operation that a call on the notebook [o] is. *)
Definition notebook_call (o : arg) (nb : W) (c : call_) : W :=
  match args c with
  | [n; Int z] =>
      if decide (n = o) then
        if named ["gtk_notebook_set_tab_pos"]%string c then set_tab_pos z nb
        else if named ["gtk_notebook_set_show_tabs"]%string c then set_show_tabs z nb
        else if named ["gtk_notebook_set_show_border"]%string c then set_show_border z nb
        else nb
      else nb
  | _ => nb
  end.

Definition notebook_clicked (env : nat → Z) (o : arg) (nb : W) (e : notebook_click) : W :=
  fold_left (notebook_call o)
    (trace_of (match e with
               | TabPosition => rotate_book (tab_pos nb) NULL o
               | TabsBorder => tabsborder_book (show_tabs nb) (show_border nb) NULL o
               end) env) nb.

Lemma notebook_call_own o nb f z : notebook_call o nb (mkCall f [o; Int z] false) =
  if String.eqb f "gtk_notebook_set_tab_pos" then set_tab_pos z nb
  else if String.eqb f "gtk_notebook_set_show_tabs" then set_show_tabs z nb
  else if String.eqb f "gtk_notebook_set_show_border" then set_show_border z nb
  else nb.
Proof. unfold notebook_call, named. cbn [args fn existsb]. by rewrite !orb_false_r, decide_True. Qed.

Lemma clicked_rotate env o nb : notebook_clicked env o nb TabPosition = set_tab_pos (Z.rem (tab_pos nb + 1) 4) nb.
Proof. unfold notebook_clicked, trace_of, rotate_book, call. cbn [snd app fold_left]. by rewrite notebook_call_own. Qed.

Lemma clicked_toggle env o nb : notebook_clicked env o nb TabsBorder =
  set_show_border (if show_border nb =? 0 then 1 else 0) (set_show_tabs (if show_tabs nb =? 0 then 1 else 0) nb).
Proof.
  unfold notebook_clicked, trace_of, tabsborder_book, mbind, gtk_bind, call. cbn [snd app fold_left]. by rewrite !notebook_call_own.
Qed.

Lemma switched_flip n z : z = 0 ∨ z = 1 → switched n (if z =? 0 then 1 else 0) = switched (S n) z.
Proof. unfold switched. rewrite Nat.even_succ, <- Nat.negb_even. by destruct (Nat.even n); intros [-> | ->]. Qed.

(** Any sequence of clicks leaves the tabs on the side that as many quarter turns
    give, and tabs and border on or off by the parity. *)
Lemma notebook_session env o l nb :
  0 ≤ tab_pos nb < 4 → (show_tabs nb = 0 ∨ show_tabs nb = 1) → (show_border nb = 0 ∨ show_border nb = 1) →
  let nb' := fold_left (notebook_clicked env o) l nb in
  tab_pos nb' = (tab_pos nb + Z.of_nat (rotations l)) mod 4 ∧
  show_tabs nb' = switched (toggles l) (show_tabs nb) ∧ show_border nb' = switched (toggles l) (show_border nb).
Proof.
  cbn. revert nb. induction l as [|[] l IH]; intros nb Hp Hs Hb; cbn [fold_left rotations toggles].
  - by rewrite Z.add_0_r, Z.mod_small.
  - rewrite clicked_rotate, Z.rem_mod_nonneg by lia.
    destruct (IH (set_tab_pos ((tab_pos nb + 1) mod 4) nb)) as (E1 & E2 & E3);
      rewrite ?tab_pos_set, ?show_tabs_pos, ?show_border_pos in * by (apply Z.mod_pos_bound; lia); [apply Z.mod_pos_bound; lia|done..|].
    rewrite E1, Zplus_mod_idemp_l. split; [f_equal; lia|done].
  - rewrite clicked_toggle. set (b := if show_border nb =? 0 then 1 else 0). set (s := if show_tabs nb =? 0 then 1 else 0).
    assert (b = 0 ∨ b = 1) as Hb' by (unfold b; case_match; [by right|by left]).
    assert (s = 0 ∨ s = 1) as Hs' by (unfold s; case_match; [by right|by left]).
    destruct (IH (set_show_border b (set_show_tabs s nb))) as (E1 & E2 & E3);
      rewrite ?tab_pos_border, ?tab_pos_tabs, ?show_tabs_border, ?show_tabs_set, ?show_border_set in * by done; [done..|].
    rewrite E1, E2, E3. unfold b, s. by rewrite !switched_flip.
Qed.
End notebook.

(** ** gtk_fixed_container.c *)

(** Clicks on the buttons [ws], one after the other. *)
Fixpoint moves (xy : Z * Z) (ws : list arg) (fixed : arg) : Gtk (Z * Z) :=
  match ws with [] => mret xy | w :: ws => xy ← move_button xy w fixed; moves xy ws fixed end.

(** After [n] clicks on any buttons the last one was moved by 30 and 50 a click,
    modulo 300, from where it begins. *)
Definition position (n : nat) : Z * Z := ((50 + 30 * Z.of_nat n) mod 300, (50 + 50 * Z.of_nat n) mod 300).

Lemma moves_from env fixed ws n t :
  moves (position n) ws fixed env t =
  (position (n + length ws),
   t ++ imap (λ i w, mkCall "gtk_fixed_move" [fixed; w; Int (position (S (n + i))).1; Int (position (S (n + i))).2] false) ws).
Proof.
  revert n t. induction ws as [|w ws IH]; intros n t; cbn [moves imap].
  - by rewrite app_nil_r, Nat.add_0_r.
  - unfold mbind at 1, gtk_bind.
    assert (move_button (position n) w fixed env t =
      (position (S n), t ++ [mkCall "gtk_fixed_move" [fixed; w; Int (position (S n)).1; Int (position (S n)).2] false])) as ->.
    { unfold position, move_button. cbn -[Z.rem Z.modulo Z.mul Z.add].
      rewrite !Z.rem_mod_nonneg by (pose proof (Z.mod_pos_bound (50 + 30 * Z.of_nat n) 300 ltac:(lia)); pose proof (Z.mod_pos_bound (50 + 50 * Z.of_nat n) 300 ltac:(lia)); lia).
      rewrite !Zplus_mod_idemp_l. replace (50 + 30 * Z.of_nat n + 30) with (50 + 30 * Z.of_nat (S n)) by lia.
      by replace (50 + 50 * Z.of_nat n + 50) with (50 + 50 * Z.of_nat (S n)) by lia. }
    rewrite IH, <- app_assoc. cbn [app length]. rewrite Nat.add_0_r. f_equal; [f_equal; lia|]. do 2 f_equal.
    apply imap_ext. intros i x _. cbn. by rewrite Nat.add_succ_r.
Qed.

Lemma position_bounds n : 0 ≤ (position n).1 < 300 ∧ 0 ≤ (position n).2 < 300.
Proof. split; apply Z.mod_pos_bound; lia. Qed.

(** ** gtk_status_bar.c *)

(** A status bar of GTK: a stack of messages with contexts, of which a context's
    own are read, the latest first; a pop takes away the first of them. *)
Class StatusOps (W : Type) := {
  messages : W → arg → list (list Z);
  status_push : arg → list Z → W → W;
  status_pop : arg → W → W
}.

Class StatusLaws (W : Type) `{StatusOps W} := {
  messages_push w c m : messages (status_push c m w) c = m :: messages w c;
  messages_pop w c : messages (status_pop c w) c = tail (messages w c)
}.

Inductive status_click := Push | Pop.

Fixpoint status_clicks (count : Z) (context_id : arg) (l : list status_click) : Gtk (res Z) :=
  match l with
  | [] => mret (Ok count)
  | Push :: l =>
      r ← push_item count NULL context_id;
      match r with Ok count => status_clicks count context_id l | Err e => mret (Err e) end
  | Pop :: l => pop_item NULL context_id;; status_clicks count context_id l
  end.

Fixpoint pushes (l : list status_click) : Z :=
  match l with [] => 0 | Push :: l => 1 + pushes l | Pop :: l => pushes l end.

Lemma pushes_nonneg l : 0 ≤ pushes l.
Proof. induction l as [|[] l IH]; cbn [pushes]; lia. Qed.

(** The messages by their numbers: the next number, and the stack. *)
Definition number_status (s : Z * list Z) (e : status_click) : Z * list Z :=
  match e with Push => (s.1 + 1, s.1 :: s.2) | Pop => (s.1, tail s.2) end.

Definition item (n : Z) : list Z := codes "Item " ++ dec_chars n.

Lemma text_item n : text (fmt [Lit "Item "; Dec n]) = item n.
Proof. unfold item. cbn [fmt text mbind list_bind]. by rewrite app_nil_r. Qed.

Lemma item_inj a b : 0 ≤ a ≤ INT_MAX → 0 ≤ b ≤ INT_MAX → item a = item b → a = b.
Proof.
  unfold item, INT_MAX, dec_chars. intros Ha Hb E%app_inv_head. rewrite !(proj2 (Z.ltb_ge _ 0)) in E by lia.
  rewrite <- (digits_value_dec 20 a), <- (digits_value_dec 20 b) by (change (Z.of_nat 20) with 20; lia). by rewrite E.
Qed.

(** The numbers on view are different, and below the next one. *)
Lemma numbers_distinct l : let s := fold_left number_status l (1, []) in NoDup s.2 ∧ Forall (λ n, 1 ≤ n < s.1) s.2.
Proof.
  cbn. assert (∀ l s, 1 ≤ s.1 → NoDup s.2 ∧ Forall (λ n, 1 ≤ n < s.1) s.2 →
    NoDup (fold_left number_status l s).2 ∧ Forall (λ n, 1 ≤ n < (fold_left number_status l s).1) (fold_left number_status l s).2) as H.
  { clear. induction l as [|[] l IH]; intros [c st]; cbn [fst snd fold_left]; [done| |]; intros Hc [Hd Hf]; apply IH; cbn [number_status fst snd]; [lia| |done|].
    - split; [constructor; [|done]|constructor; [lia|]].
      + intros Hin. rewrite Forall_forall in Hf. apply Hf in Hin. lia.
      + eapply Forall_impl; [exact Hf|]. cbn. lia.
    - destruct st as [|x st]; [done|]. cbn [tail]. apply NoDup_cons in Hd as [_ Hd]. by inversion Hf. }
  apply H; [done|split; constructor].
Qed.

Lemma number_status_count l s : (fold_left number_status l s).1 = s.1 + pushes l.
Proof. revert s. induction l as [|[] l IH]; intros [c st]; cbn [fold_left pushes fst]; rewrite ?IH; cbn [number_status fst]; lia. Qed.

(** As long as the next number is an int, the texts are different too. *)
Lemma items_distinct l : 1 + pushes l ≤ INT_MAX → NoDup (item <$> (fold_left number_status l (1, [])).2).
Proof.
  intros Hp. destruct (numbers_distinct l) as [Hd Hf]. rewrite Forall_forall, number_status_count in Hf. cbn [fst] in Hf.
  apply NoDup_fmap_2_strong; [|done]. intros x y Hx%Hf Hy%Hf. apply item_inj; lia.
Qed.

Section status.
Context {W : Type} `{StatusLaws W}.

(** The operation that a call on the bar is. *)
Definition status_call (w : W) (c : call_) : W :=
  match args c with
  | [bar; ctx; m] => if named ["gtk_statusbar_push"]%string c then if decide (bar = Var "status_bar") then status_push ctx (text m) w else w else w
  | [bar; ctx] => if named ["gtk_statusbar_pop"]%string c then if decide (bar = Var "status_bar") then status_pop ctx w else w else w
  | _ => w
  end.

Lemma push_item_ok env count ctx t : count + 1 ≤ INT_MAX → INT_MIN ≤ count →
  push_item count NULL ctx env t = (Ok (count + 1), t ++
    [mkCall "gtk_statusbar_push" [Var "status_bar"; ctx; fmt [Lit "Item "; Dec count]] false; mkCall "g_free" [fmt [Lit "Item "; Dec count]] false]).
Proof.
  intros H1 H2. unfold push_item. rewrite chk_int_ok by lia. unfold mbind, gtk_bind, call, mret, gtk_ret. by rewrite <- app_assoc.
Qed.

Lemma status_session env ctx l w count st t :
  INT_MIN ≤ count → count + pushes l ≤ INT_MAX → messages w ctx = item <$> st →
  ∃ new, status_clicks count ctx l env t = (Ok (count + pushes l), t ++ new) ∧
    messages (fold_left status_call new w) ctx = item <$> (fold_left number_status l (count, st)).2.
Proof.
  revert count st w t. induction l as [|[] l IH]; intros count st w t Hmin Hmax Hw; cbn [status_clicks fold_left pushes] in *.
  - exists []. by rewrite app_nil_r, Z.add_0_r.
  - pose proof (pushes_nonneg l) as Hl. set (m := fmt [Lit "Item "; Dec count]).
    destruct (IH (count + 1) (count :: st) (status_push ctx (item count) w)
      (t ++ [mkCall "gtk_statusbar_push" [Var "status_bar"; ctx; m] false; mkCall "g_free" [m] false])) as (new & Hr & Hs); [lia|lia| |].
    { by rewrite messages_push, Hw. }
    eexists. split.
    + unfold mbind at 1, gtk_bind. rewrite push_item_ok by lia. fold m. rewrite Hr, <- app_assoc. f_equal. f_equal. lia.
    + cbn [app fold_left]. unfold status_call at 2 3. cbn [args m]. cbn -[text fmt]. fold m. unfold m. rewrite text_item. exact Hs.
  - destruct (IH count (tail st) (status_pop ctx w) (t ++ [mkCall "gtk_statusbar_pop" [Var "status_bar"; ctx] false])) as (new & Hr & Hs); [done|done| |].
    { rewrite messages_pop, Hw. by destruct st. }
    eexists. split.
    + unfold mbind at 1, gtk_bind. unfold pop_item, call. rewrite Hr, <- app_assoc. reflexivity.
    + exact Hs.
Qed.

(** One push too many, and the count does not hold the next number. *)
Lemma status_overflow env ctx l count t :
  INT_MIN ≤ count ≤ INT_MAX → INT_MAX < count + pushes l → (status_clicks count ctx l env t).1 = Err SignedOverflow.
Proof.
  revert count t. induction l as [|[] l IH]; intros count t Hc Hp; cbn [status_clicks pushes] in *; [lia| |].
  - unfold mbind at 1, gtk_bind. destruct (decide (count = INT_MAX)) as [->|Hne].
    + done.
    + rewrite push_item_ok by lia. apply IH; lia.
  - unfold mbind at 1, gtk_bind, pop_item, call. by apply IH.
Qed.
End status.

(** ** gtk_color_selection.c *)

Fixpoint area_events (dlg : arg) (events : list arg) : Gtk arg :=
  match events with [] => mret dlg | e :: l => r ← color_area_event dlg NULL e NULL; area_events r.1 l end.

Definition count_calls (f : string) (t : list call_) : nat := length (filter (λ c, String.eqb (fn c) f = true) t).

Lemma count_calls_app f s t : count_calls f (s ++ t) = (count_calls f s + count_calls f t)%nat.
Proof. unfold count_calls. by rewrite filter_app, length_app. Qed.

(** The events that the area asks about, and those of them that are presses: the
    questions, from place [k] on, that the library answers with yes. *)
Definition asked (c : call_) : bool :=
  named ["=="]%string c && match args c with [Field _ f; Const p] => String.eqb f "type" && String.eqb p "GDK_BUTTON_PRESS" | _ => false end.

Fixpoint presses (env : nat → Z) (k : nat) (t : list call_) : nat :=
  match t with [] => O | c :: t => ((if asked c && negb (env k =? 0)%Z then 1 else 0) + presses env (S k) t)%nat end.

Lemma presses_app env k s t : presses env k (s ++ t) = (presses env k s + presses env (k + length s) t)%nat.
Proof.
  revert k. induction s as [|c s IH]; intros k; cbn [app presses length]; [by rewrite Nat.add_0_r|].
  rewrite IH. replace (k + S (length s))%nat with (S k + length s)%nat by lia. lia.
Qed.

(** What the new calls of some events must be. *)
Record pressed (env : nat → Z) (n : nat) (dlg dlg' : arg) (k : nat) (new : list call_) : Prop := {
  pressed_asked : length (filter (λ c, asked c = true) new) = n;
  pressed_connects : count_calls "g_signal_connect" new = presses env k new;
  pressed_runs : count_calls "gtk_dialog_run" new = presses env k new;
  pressed_made : count_calls "gtk_color_selection_dialog_new" new =
    (if decide (dlg = NULL) then Nat.min 1 (presses env k new) else 0)%nat;
  pressed_kept : dlg' = NULL ↔ dlg = NULL ∧ presses env k new = O
}.

Lemma pressed_once env dlg dlg' k new :
  presses env k new = 1%nat → length (filter (λ c, asked c = true) new) = 1%nat →
  count_calls "g_signal_connect" new = 1%nat → count_calls "gtk_dialog_run" new = 1%nat →
  count_calls "gtk_color_selection_dialog_new" new = (if decide (dlg = NULL) then 1 else 0)%nat → dlg' ≠ NULL →
  pressed env 1 dlg dlg' k new.
Proof. intros P Ha Hc Hr Hn Hd. constructor; rewrite ?P; try done. split; [done|by intros [_ ?]]. Qed.

(** An event adds a dialog if there is none yet; each press connects the callback
    and runs the dialog. *)
Lemma area_event_calls env dlg e t : ∃ new dlg' r,
  color_area_event dlg NULL e NULL env t = ((dlg', r), t ++ new) ∧ pressed env 1 dlg dlg' (length t) new.
Proof.
  unfold color_area_event, holds, mbind, gtk_bind, ask, mret, gtk_ret. cbv beta iota.
  destruct (env (length t) =? 0) eqn:E; [change (negb true) with false|change (negb false) with true]; cbv beta iota.
  - eexists _, _, _. split; [reflexivity|]. constructor; cbn -[Nat.min]; rewrite ?E; cbn; try done; try tauto.
    by repeat destruct (decide _).
  - destruct (bool_decide_reflect (dlg = NULL)) as [->|Hd]; unfold create, call; cbv beta iota; destruct (negb _);
      eexists _, _, _; (split; [rewrite <- !app_assoc; reflexivity|]);
      (apply pressed_once; [cbn [app presses]; rewrite E; reflexivity|reflexivity|reflexivity|reflexivity| |intros H; by try discriminate H]);
      [by rewrite decide_True|by rewrite decide_True|by rewrite decide_False|by rewrite decide_False].
Qed.

(** However often the area is pressed, one dialog is made; the callback is connected
    anew by each press, so that after [n] of them a change of the color calls it
    [n] times. *)
Lemma color_session env events dlg t : ∃ new dlg',
  area_events dlg events env t = (dlg', t ++ new) ∧ pressed env (length events) dlg dlg' (length t) new.
Proof.
  revert dlg t. induction events as [|e l IH]; intros dlg t; cbn [area_events].
  - exists [], dlg. rewrite app_nil_r. split; [done|]. constructor; cbn; try done; [by destruct (decide _)|tauto].
  - destruct (area_event_calls env dlg e t) as (new & dlg1 & r & Hr & [A1 A2 A3 A4 A5]).
    destruct (IH dlg1 (t ++ new)) as (new2 & dlg2 & Hr2 & [B1 B2 B3 B4 B5]). rewrite length_app in *.
    exists (new ++ new2), dlg2. split.
    { unfold mbind, gtk_bind. rewrite Hr. cbn [fst]. by rewrite Hr2, app_assoc. }
    constructor; rewrite ?count_calls_app, ?presses_app, ?filter_app, ?length_app; cbn [length]; [lia|lia|lia| |].
    + rewrite A4, B4. destruct (decide (dlg = NULL)) as [Hd|Hd], (decide (dlg1 = NULL)) as [H1|H1].
      * apply A5 in H1 as [_ ->]. lia.
      * assert (presses env (length t) new ≠ 0%nat) by tauto. lia.
      * by apply A5 in H1 as [? _].
      * done.
    + rewrite B5, A5. split; [intros [[? ?] ?]|intros [? ?]]; split; try split; try done; lia.
Qed.

(** ** gtk_range_ctrl.c *)

Lemma SFltb_irrefl x : SFltb x x = false.
Proof. unfold SFltb. destruct x as [[]|[]| |[] m e]; cbn; try done; by rewrite Z.compare_refl, Pos.compare_cont_refl. Qed.

Lemma SFcompare_swap x y : SFcompare y x = option_map CompOpp (SFcompare x y).
Proof.
  destruct x as [[]|[]| |[] m e], y as [[]|[]| |[] m' e']; cbn; try done; rewrite (Z.compare_antisym e e'); destruct (e ?= e'); cbn; try done;
    change (PosDef.Pos.compare_cont Eq m' m) with (m' ?= m)%positive; change (PosDef.Pos.compare_cont Eq m m') with (m ?= m')%positive;
    by rewrite (Pos.compare_antisym m m').
Qed.

Lemma SFltb_leb x y : SFltb y x = false → x ≠ S754_nan → y ≠ S754_nan → SFleb x y = true.
Proof.
  unfold SFltb, SFleb. rewrite (SFcompare_swap x y). destruct (SFcompare x y) as [[]|] eqn:E; try done.
  destruct x as [[]|[]| |[] m e], y as [[]|[]| |[] m' e']; cbn in E; done.
Qed.

Lemma SFleb_ltb x y : SFleb x y = true → SFltb y x = false.
Proof. unfold SFltb, SFleb. rewrite (SFcompare_swap x y). by destruct (SFcompare x y) as [[]|]. Qed.

Lemma SFleb_nan x y : SFleb x y = true → x ≠ S754_nan ∧ y ≠ S754_nan.
Proof. by destruct x as [[]|[]| |[] m e], y as [[]|[]| |[] m' e']. Qed.

Section page.
(** GTK sets a value that is in the range as it is. *)
Context (set_value : GtkAdjustment → spec_float → GtkAdjustment).
Hypothesis set_value_in_range : ∀ a v, SFleb (lower a) v = true → SFleb v (SFsub 53 1024 (upper a) (page_size a)) = true →
  set_value a v = mkAdjustment v (lower a) (upper a) (page_increment a) (page_size a).

(** When the other scale's value leaves room for a page, the page gets that size
    and the value is brought into the range that is left. *)
Lemma page_size_clamped get set : let high := SFsub 53 1024 (upper set) (value get) in
  SFleb (lower set) high = true → value set ≠ S754_nan →
  ∃ v, cb_page_size set_value get set = (mkAdjustment v (lower set) (upper set) (value get) (value get), ["changed"%string]) ∧
    SFleb (lower set) v = true ∧ SFleb v high = true ∧
    (SFleb (lower set) (value set) = true → SFleb (value set) high = true → v = value set).
Proof.
  intros high Hle Hv. pose proof (SFleb_nan _ _ Hle) as [Hl Hh].
  assert (SFleb (lower set) (CLAMP (value set) (lower set) high) = true ∧ SFleb (CLAMP (value set) (lower set) high) high = true) as [H1 H2].
  { unfold CLAMP. destruct (SFltb high (value set)) eqn:E1.
    - split; [done|]. apply SFltb_leb; [apply SFltb_irrefl|done|done].
    - destruct (SFltb (value set) (lower set)) eqn:E2; split; [|done| |]; apply SFltb_leb; auto using SFltb_irrefl. }
  exists (CLAMP (value set) (lower set) high). unfold cb_page_size. rewrite set_value_in_range by done. cbn. split_and!; [done|done|done|].
  intros Ha Hb. unfold CLAMP. by rewrite (SFleb_ltb _ _ Hb), (SFleb_ltb _ _ Ha).
Qed.
End page.

(** ** Clicks *)

(** C22: Over any clicks, for a notebook (its side one of four, its flags booleans) and a status
    bar (no message in the context at first) that keep what GTK documents: the notebook's
    tabs are on the side that the number of rotations gives, tabs and border shown by the
    parity of the toggles; the moved buttons of the fixed container stay in [0, 300); as
    long as the count of pushes fits an int the status bar's messages are the items not
    popped, the latest first and all distinct, and one push more overflows the count; every
    event of the color area is asked whether it is a press, the first press makes the one
    color dialog, and each press runs it and connects its callback again. *)
Theorem window_sessions {N S : Type} `{NotebookLaws N, StatusLaws S} env :
  (∀ o l (nb : N), 0 ≤ tab_pos nb < 4 → (show_tabs nb = 0 ∨ show_tabs nb = 1) → (show_border nb = 0 ∨ show_border nb = 1) →
     let nb' := fold_left (notebook_clicked env o) l nb in
     tab_pos nb' = (tab_pos nb + Z.of_nat (rotations l)) mod 4 ∧
     show_tabs nb' = switched (toggles l) (show_tabs nb) ∧ show_border nb' = switched (toggles l) (show_border nb)) ∧
  (∀ ws fixed i w, ws !! i = Some w →
     trace_of (moves container_xy ws fixed) env !! i =
       Some (mkCall "gtk_fixed_move" [fixed; w; Int (position (Datatypes.S i)).1; Int (position (Datatypes.S i)).2] false) ∧
     0 ≤ (position (Datatypes.S i)).1 < 300 ∧ 0 ≤ (position (Datatypes.S i)).2 < 300) ∧
  (∀ l ctx (w : S), messages w ctx = [] →
     if 1 + pushes l <=? INT_MAX then
       result_of (status_clicks 1 ctx l) env = Ok (1 + pushes l) ∧
       messages (fold_left status_call (trace_of (status_clicks 1 ctx l) env) w) ctx = item <$> (fold_left number_status l (1, [])).2 ∧
       NoDup (item <$> (fold_left number_status l (1, [])).2)
     else result_of (status_clicks 1 ctx l) env = Err SignedOverflow) ∧
  (∀ events, let t := trace_of (area_events NULL events) env in
     let n := presses env 0 t in
     length (filter (λ c, asked c = true) t) = length events ∧ count_calls "gtk_color_selection_dialog_new" t = Nat.min 1 n ∧
     count_calls "gtk_dialog_run" t = n ∧ count_calls "g_signal_connect" t = n).
Proof.
  split_and!.
  - intros o l nb. apply notebook_session.
  - intros ws fixed i w Hi. split; [|apply position_bounds]. unfold trace_of.
    change container_xy with (position 0). rewrite (moves_from env fixed ws 0 []). cbn [snd app]. by rewrite list_lookup_imap, Hi.
  - intros l ctx w Hw. pose proof (pushes_nonneg l) as Hl. destruct (Z.leb_spec (1 + pushes l) INT_MAX) as [Hp|Hp].
    + destruct (status_session env ctx l w 1 [] []) as (new & Hr & Hs); [unfold INT_MIN; lia|done|done|].
      unfold result_of, trace_of. rewrite Hr. split_and!; [done|exact Hs|by apply items_distinct].
    + apply status_overflow; [unfold INT_MIN, INT_MAX; lia|done].
  - intros events. destruct (color_session env events NULL []) as (new & dlg & Hr & [A1 A2 A3 A4 _]). unfold trace_of. rewrite Hr. cbn [snd app].
    split_and!; [done|exact A4|done|done].
Qed.

(** Widgets that satisfy the laws. *)
Record toy_notebook := mkToyNotebook { toy_pos : Z; toy_tabs : Z; toy_border : Z }.

#[export] Instance toy_notebook_ops : NotebookOps toy_notebook := {
  tab_pos := toy_pos; show_tabs := toy_tabs; show_border := toy_border;
  set_tab_pos p w := mkToyNotebook p (toy_tabs w) (toy_border w);
  set_show_tabs b w := mkToyNotebook (toy_pos w) b (toy_border w);
  set_show_border b w := mkToyNotebook (toy_pos w) (toy_tabs w) b
}.

#[export] Instance toy_notebook_laws : NotebookLaws toy_notebook.
Proof. by split. Qed.

(** All messages, the latest first. *)
#[export] Instance toy_status_ops : StatusOps (list (arg * list Z)) := {
  messages w c := (filter (λ m : arg * list Z, m.1 = c) w).*2;
  status_push c m w := (c, m) :: w;
  status_pop c w := match list_find (λ m : arg * list Z, m.1 = c) w with Some (i, _) => delete i w | None => w end
}.

#[export] Instance toy_status_laws : StatusLaws (list (arg * list Z)).
Proof.
  split; intros w c; [intros m|]; unfold messages, status_push, status_pop, toy_status_ops.
  - by rewrite filter_cons_True.
  - induction w as [|[c' m] w IH]; [done|]. cbn [list_find fst]. destruct (decide (c' = c)) as [->|Hne].
    + by rewrite filter_cons_True.
    + rewrite !(filter_cons_False _ _ w), <- IH by done.
      destruct (list_find _ w) as [[i x]|]; cbn [fmap option_fmap option_map prod_map delete list_delete]; by rewrite !filter_cons_False.
Qed.

Lemma window_sessions_witness :
  let nb := mkToyNotebook 0 1 1 in
  let clicks := [TabPosition; TabsBorder; TabPosition; TabPosition] in
  let nb' := fold_left (notebook_clicked (λ _, 0) (Obj 6)) clicks nb in
  (tab_pos nb', show_tabs nb', show_border nb') = (3, 0, 0) ∧
  messages (fold_left status_call (trace_of (status_clicks 1 (Obj 9) [Push; Push; Pop; Push]) (λ _, 0)) []) (Obj 9) =
    [codes "Item 3"; codes "Item 1"].
Proof.
  pose proof (window_sessions (N := toy_notebook) (S := list (arg * list Z)) (λ _, 0)) as (Hn & _ & Hs & _).
  intros nb clicks nb'. split.
  - destruct (Hn (Obj 6) clicks nb) as (E1 & E2 & E3); [done|by right|by right|]. fold nb' in E1, E2, E3. by rewrite E1, E2, E3.
  - destruct (Hs [Push; Push; Pop; Push] (Obj 9) [] eq_refl) as (_ & E & _). exact E.
Defined.
