(* ===== verification/X11Window.v ===== *)
(** [src/cpp/gtk/x11_window.c]: a window of Xlib that draws a box until a key is
    pressed. *)
From S2P Require Import Prelude.

(** What the server sends, as far as the program looks. *)
Inductive XEvent := Expose | KeyPress | OtherEvent.

#[export] Instance XEvent_eq_dec : EqDecision XEvent.
Proof. solve_decision. Defined.

(** What the program asks of Xlib and prints. *)
Inductive xcall :=
| XOpenDisplay
| XCreateSimpleWindow (x y width height border_width : Z)
| XSelectInput (masks : list string)
| XMapWindow
| XNextEvent
| XFillRectangle (x y width height : Z)
| XCloseDisplay
| XPrint (s : string).

(** How a run stands: waiting for an event, or ended with a status and the events
    that are not read. *)
Inductive xrun := Waiting | Exited (status : Z) (unread : list XEvent).

(** The [while (1)] over the events that come. *)
Fixpoint event_loop (events : list XEvent) : list xcall * option (list XEvent) :=
  match events with
  | [] => ([XNextEvent], None)
  | e :: events =>
      let draw := if decide (e = Expose) then [XFillRectangle 10 10 100 100] else [] in
      if decide (e = KeyPress) then (XNextEvent :: draw, Some events)
      else let '(calls, r) := event_loop events in (XNextEvent :: draw ++ calls, r)
  end.

Definition x11_setup : list xcall :=
  [XOpenDisplay; XCreateSimpleWindow 10 10 100 100 1; XSelectInput ["ExposureMask"; "KeyPressMask"]%string; XMapWindow].

(** [display]: whether the display could be opened. *)
Definition x11_main (display : bool) (events : list XEvent) : list xcall * xrun :=
  if negb display then ([XOpenDisplay; XPrint "Cannot open display\n"], Exited 1 events)
  else
    let '(calls, r) := event_loop events in
    match r with
    | Some unread => (x11_setup ++ calls ++ [XCloseDisplay], Exited 0 unread)
    | None => (x11_setup ++ calls, Waiting)
    end.

Definition is_fill (c : xcall) : bool := match c with XFillRectangle _ _ _ _ => true | _ => false end.
Definition is_next (c : xcall) : bool := match c with XNextEvent => true | _ => false end.
Definition count {A} (f : A → bool) (l : list A) : nat := length (filter (λ x, f x = true) l).

Lemma count_app {A} (f : A → bool) l k : count f (l ++ k) = (count f l + count f k)%nat.
Proof. unfold count. by rewrite filter_app, length_app. Qed.

Lemma count_cons {A} (f : A → bool) x l : count f (x :: l) = ((if f x then 1 else 0) + count f l)%nat.
Proof. unfold count. rewrite filter_cons. by destruct (f x). Qed.

Lemma event_loop_before l rest : KeyPress ∉ l → ∃ calls,
  event_loop (l ++ rest) = (calls ++ (event_loop rest).1, (event_loop rest).2) ∧
  count is_fill calls = count (λ e, bool_decide (e = Expose)) l ∧ count is_next calls = length l ∧ XCloseDisplay ∉ calls.
Proof.
  induction l as [|e l IH]; intros Hn; [exists []; split_and!; [apply surjective_pairing|done|done|apply not_elem_of_nil]|].
  apply not_elem_of_cons in Hn as [He Hn]. destruct (IH Hn) as (calls & Hr & Hf & Hx & Hc).
  cbn [app event_loop]. rewrite Hr, (decide_False (P := e = KeyPress)) by congruence.
  exists (XNextEvent :: (if decide (e = Expose) then [XFillRectangle 10 10 100 100] else []) ++ calls). split_and!.
  - by rewrite app_comm_cons, app_assoc.
  - rewrite !count_cons, count_app, Hf. cbn [is_fill]. destruct (decide (e = Expose)) as [->|Hne].
    + by rewrite bool_decide_eq_true_2.
    + by rewrite bool_decide_eq_false_2.
  - rewrite !count_cons, count_app, Hx. by destruct (decide (e = Expose)).
  - destruct (decide (e = Expose)); cbn [app]; rewrite !not_elem_of_cons; by split_and!.
Qed.

(** The program draws once for each request to draw that comes before the first
    key, ends with the first key and closes the display; without a key it goes on
    waiting, having read every event. *)
Lemma x11_session l rest : KeyPress ∉ l →
  (∃ calls, x11_main true (l ++ KeyPress :: rest) = (calls ++ [XCloseDisplay], Exited 0 rest) ∧
     count is_fill calls = count (λ e, bool_decide (e = Expose)) l ∧ count is_next calls = S (length l)) ∧
  (∃ calls, x11_main true l = (calls, Waiting) ∧
     count is_fill calls = count (λ e, bool_decide (e = Expose)) l ∧ XCloseDisplay ∉ calls).
Proof.
  intros Hn. split.
  - destruct (event_loop_before l (KeyPress :: rest) Hn) as (calls & Hr & Hf & Hx & _).
    exists (x11_setup ++ calls ++ [XNextEvent]). unfold x11_main. cbn [negb]. rewrite Hr. split_and!.
    + cbn. by rewrite <- !app_assoc.
    + rewrite !count_app, Hf. change (count is_fill x11_setup) with 0%nat. change (count is_fill [XNextEvent]) with 0%nat. lia.
    + rewrite !count_app, Hx. change (count is_next x11_setup) with 0%nat. change (count is_next [XNextEvent]) with 1%nat. lia.
  - destruct (event_loop_before l [] Hn) as (calls & Hr & Hf & Hx & Hc). rewrite app_nil_r in Hr.
    exists (x11_setup ++ calls ++ [XNextEvent]). unfold x11_main. cbn [negb]. rewrite Hr. split_and!.
    + reflexivity.
    + rewrite !count_app, Hf. change (count is_fill x11_setup) with 0%nat. change (count is_fill [XNextEvent]) with 0%nat. lia.
    + unfold x11_setup. rewrite !not_elem_of_app, !not_elem_of_cons. split_and!; try done; apply not_elem_of_nil.
Qed.
