(* ===== verification/StructCode.v ===== *)
(** [src/cpp/dtprs/ctype_code.c] and [src/cpp/dtprs/libtest.c], a library for
    tests of a foreign-function interface: the layout of its structures on the
    64-bit little-endian platform, the bytes of their values, and [test_func],
    which reads the structures behind raw pointers. Memory maps addresses to
    bytes; an access outside the map faults. *)
From stdpp Require Import gmap.
From Stdlib Require Import SpecFloat.
From S2P Require Import Prelude CString Printf.

(** ** Types and their layout *)

Inductive ctype :=
| TChar | TInt | TLong | TPtr
| TArray (t : ctype) (n : nat)
| TStruct (fs : list (string * ctype)).

Fixpoint alignof (t : ctype) : Z :=
  match t with
  | TChar => 1 | TInt => 4 | TLong | TPtr => 8
  | TArray t' _ => alignof t'
  | TStruct fs => foldr (λ f a, Z.max (alignof f.2) a) 1 fs
  end.

(** The first multiple of [a] from [x] on. *)
Definition round_up (x a : Z) : Z := (x + a - 1) / a * a.

Fixpoint sizeof (t : ctype) : Z :=
  match t with
  | TChar => 1 | TInt => 4 | TLong | TPtr => 8
  | TArray t' n => Z.of_nat n * sizeof t'
  | TStruct fs => round_up (foldl (λ o f, round_up o (alignof f.2) + sizeof f.2) 0 fs) (alignof t)
  end.

Definition student_t : ctype :=
  TStruct [("class", TChar); ("grade", TInt); ("array", TArray TLong 3); ("point", TPtr)].

Definition nest_stu_t : ctype :=
  TStruct [("rank", TChar); ("nest_stu", student_t); ("strct_array", TArray student_t 2);
           ("strct_point", TPtr); ("strct_point_array", TArray TPtr 2)].

(** A step into a structure or an array. *)
Inductive sel := Fld (f : string) | Idx (i : nat).

(** The offset and type of the member [f] of the fields after offset [o]. *)
Fixpoint member (o : Z) (fs : list (string * ctype)) (f : string) : option (Z * ctype) :=
  match fs with
  | [] => None
  | (g, t) :: fs' =>
      let o' := round_up o (alignof t) in
      if bool_decide (f = g) then Some (o', t) else member (o' + sizeof t) fs' f
  end.

Definition select1 (t : ctype) (s : sel) : option (Z * ctype) :=
  match t, s with
  | TStruct fs, Fld f => member 0 fs f
  | TArray t' n, Idx i => if bool_decide (i < n)%nat then Some (Z.of_nat i * sizeof t', t') else None
  | _, _ => None
  end.

(** The offset and type of what a path designates. *)
Fixpoint locate (t : ctype) (p : list sel) : option (Z * ctype) :=
  match p with
  | [] => Some (0, t)
  | s :: p' => '(o, t1) ← select1 t s; '(o', t2) ← locate t1 p'; Some (o + o', t2)
  end.

(** ** Memory *)

Abbreviation mem := (gmap Z Z).

Fixpoint read_bytes (m : mem) (a : Z) (n : nat) : res (list Z) :=
  match n with
  | O => Ok []
  | S n' => match m !! a with
            | Some b => l ← read_bytes m (a + 1) n'; Ok (b :: l)
            | None => Err OutOfBounds
            end
  end.

Fixpoint write_bytes (m : mem) (a : Z) (l : list Z) : res mem :=
  match l with
  | [] => Ok m
  | b :: l' => match m !! a with
               | Some _ => write_bytes (<[a := b]> m) (a + 1) l'
               | None => Err OutOfBounds
               end
  end.

(** [memcpy]; the behaviour on blocks that overlap is undefined. *)
Definition memcpy (m : mem) (dst src : Z) (n : nat) : res mem :=
  if (dst <? src + Z.of_nat n) && (src <? dst + Z.of_nat n) then Err Overlapping
  else l ← read_bytes m src n; write_bytes m dst l.

Definition le_value (l : list Z) : Z := foldr (λ b v, b + 256 * v) 0 l.

(** The representative between [- 2^(8n-1)] and [2^(8n-1)] of [z]. *)
Definition signed (n : nat) (z : Z) : Z :=
  let w := 256 ^ Z.of_nat n in (z + w / 2) mod w - w / 2.

(** The value of a scalar type at an address; [char] is signed. *)
Definition read_scalar (m : mem) (a : Z) (t : ctype) : res Z :=
  match t with
  | TPtr => l ← read_bytes m a 8; Ok (le_value l)
  | TChar | TInt | TLong =>
      let n := Z.to_nat (sizeof t) in
      l ← read_bytes m a n; Ok (signed n (le_value l))
  | _ => Err OutOfBounds
  end.

(** [p->path] for a pointer to [t]. *)
Definition arrow (m : mem) (p : Z) (t : ctype) (path : list sel) : res Z :=
  if p =? 0 then Err NullPointer
  else match locate t path with
       | Some (o, t') => read_scalar m (p + o) t'
       | None => Err OutOfBounds
       end.

(** ** test_func *)

(** One [%d] of an argument; of a [long] it prints the lower half. *)
Definition print_d (text : string) (v : Z) : list output := [PutStr text; PutInt (wrap_i32 v)].

Definition test_func (m : mem) (char_arg int_arg : Z) (float_arg : spec_float) (stu_buf nest_stu_buf out_buf : Z)
  : res (Z * list output * mem) :=
  let stu_p := stu_buf in
  let nest_stu_p := nest_stu_buf in
  class ← arrow m stu_p student_t [Fld "class"];
  grade ← arrow m stu_p student_t [Fld "grade"];
  array0 ← arrow m stu_p student_t [Fld "array"; Idx 0];
  array1 ← arrow m stu_p student_t [Fld "array"; Idx 1];
  p ← arrow m stu_p student_t [Fld "point"];
  point ← arrow m p TInt [];
  rank ← arrow m nest_stu_p nest_stu_t [Fld "rank"];
  stu_grade ← arrow m nest_stu_p nest_stu_t [Fld "nest_stu"; Fld "grade"];
  grade0 ← arrow m nest_stu_p nest_stu_t [Fld "strct_array"; Idx 0; Fld "grade"];
  grade1 ← arrow m nest_stu_p nest_stu_t [Fld "strct_array"; Idx 1; Fld "grade"];
  q ← arrow m nest_stu_p nest_stu_t [Fld "strct_point"];
  point_grade ← arrow m q student_t [Fld "grade"];
  q0 ← arrow m nest_stu_p nest_stu_t [Fld "strct_point_array"; Idx 0];
  point_grade0 ← arrow m q0 student_t [Fld "grade"];
  q1 ← arrow m nest_stu_p nest_stu_t [Fld "strct_point_array"; Idx 1];
  point_grade1 ← arrow m q1 student_t [Fld "grade"];
  m' ← memcpy m out_buf stu_p 8;
  Ok (1,
      [PutStr "char arg: "; PutChars [wrap_u8 char_arg]] ++ print_d "\nint arg: " int_arg ++
      [PutStr "\nfloat arg: "; PutChars (fmt_f float_arg)] ++
      [PutStr "\nstruct class: "; PutChars [wrap_u8 class]] ++ print_d "\nstruct grade: " grade ++
      print_d "\nstruct array[0]: " array0 ++ print_d " array[1]: " array1 ++ print_d "\nstruct point: " point ++
      print_d "\nnest struct rank: " rank ++ print_d "\nnest struct stu grade: " stu_grade ++
      print_d "\nnest struct array[0] grade: " grade0 ++ print_d "\nnest struct array[1] grade: " grade1 ++
      print_d "\nnest struct point grade: " point_grade ++ print_d "\nnest struct point array[0] grade: " point_grade0 ++
      print_d "\nnest struct point array[1] grade: " point_grade1 ++ [PutStr "\n"], m').

(** [libtest.c]. *)
Definition libtest_add (a b : Z) : res Z := chk_int (a + b).

(** ** The bytes of values *)

Inductive cval := VNum (z : Z) | VSeq (l : list cval).

Fixpoint le_bytes (n : nat) (z : Z) : list Z :=
  match n with O => [] | S n' => z mod 256 :: le_bytes n' (z / 256) end.

(** The bytes from offset [o] up to the next multiple of [a] are unspecified. *)
Definition padding (o a : Z) : list (option Z) := replicate (Z.to_nat (round_up o a - o)) None.

Section fields.
Context (enc : ctype → cval → list (option Z)) (ok : ctype → cval → Prop).

(** The fields of a structure from offset [o] on. *)
Fixpoint encode_fields (o : Z) (fs : list (string * ctype)) (l : list cval) : list (option Z) :=
  match fs, l with
  | f :: fs', v :: l' =>
      padding o (alignof f.2) ++ enc f.2 v ++ encode_fields (round_up o (alignof f.2) + sizeof f.2) fs' l'
  | _, _ => []
  end.

Fixpoint typed_fields (fs : list (string * ctype)) (l : list cval) : Prop :=
  match fs, l with
  | [], [] => True
  | f :: fs', v :: l' => ok f.2 v ∧ typed_fields fs' l'
  | _, _ => False
  end.
End fields.

(** The object representation of a value; [None] where it is unspecified. *)
Fixpoint encode (t : ctype) (v : cval) : list (option Z) :=
  match t, v with
  | TArray t' _, VSeq l => l ≫= encode t'
  | TStruct fs, VSeq l =>
      let body := encode_fields encode 0 fs l in
      body ++ padding (Z.of_nat (length body)) (alignof t)
  | TChar, VNum z | TInt, VNum z | TLong, VNum z | TPtr, VNum z => Some <$> le_bytes (Z.to_nat (sizeof t)) z
  | _, _ => []
  end.

Fixpoint typed (t : ctype) (v : cval) : Prop :=
  match t, v with
  | TChar, VNum z => - 2 ^ 7 ≤ z < 2 ^ 7
  | TInt, VNum z => - 2 ^ 31 ≤ z < 2 ^ 31
  | TLong, VNum z => - 2 ^ 63 ≤ z < 2 ^ 63
  | TPtr, VNum z => 0 ≤ z < 2 ^ 64
  | TArray t' n, VSeq l => length l = n ∧ Forall (typed t') l
  | TStruct fs, VSeq l => typed_fields typed fs l
  | _, _ => False
  end.

(** The component of a value that a path designates. *)
Fixpoint vmember (fs : list (string * ctype)) (l : list cval) (f : string) : option cval :=
  match fs, l with
  | (g, _) :: fs', v :: l' => if bool_decide (f = g) then Some v else vmember fs' l' f
  | _, _ => None
  end.

Definition vselect1 (t : ctype) (v : cval) (s : sel) : option cval :=
  match t, v, s with
  | TStruct fs, VSeq l, Fld f => vmember fs l f
  | TArray _ _, VSeq l, Idx i => l !! i
  | _, _, _ => None
  end.

Fixpoint vget (t : ctype) (v : cval) (p : list sel) : option cval :=
  match p with
  | [] => Some v
  | s :: p' => v' ← vselect1 t v s; '(_, t') ← select1 t s; vget t' v' p'
  end.

(** The memory has at [a] a representation of [l]. *)
Definition holds (m : mem) (a : Z) (l : list (option Z)) : Prop :=
  ∀ i c, l !! i = Some c → ∃ b, m !! (a + Z.of_nat i) = Some b ∧ 0 ≤ b < 256 ∧ (∀ x, c = Some x → b = x).

(** Part of a representation, at an offset. *)
Definition part (o : Z) (l whole : list (option Z)) : Prop :=
  ∃ pre post, whole = pre ++ l ++ post ∧ Z.of_nat (length pre) = o.

Definition scalar (t : ctype) : bool := match t with TArray _ _ | TStruct _ => false | _ => true end.

Record student := Student { class : Z; grade : Z; array : Z * Z * Z; point : Z }.

Record nest_stu := NestStu { rank : Z; nest : student; strct_array : student * student;
  strct_point : Z; strct_point_array : Z * Z }.

Definition student_val (s : student) : cval :=
  let '(a0, a1, a2) := array s in VSeq [VNum (class s); VNum (grade s); VSeq [VNum a0; VNum a1; VNum a2]; VNum (point s)].

Definition nest_stu_val (n : nest_stu) : cval :=
  VSeq [VNum (rank n); student_val (nest n); VSeq [student_val (strct_array n).1; student_val (strct_array n).2];
        VNum (strct_point n); VSeq [VNum (strct_point_array n).1; VNum (strct_point_array n).2]].

(** A student at an address. *)
Definition student_at (m : mem) (p : Z) (s : student) : Prop :=
  p ≠ 0 ∧ typed student_t (student_val s) ∧ holds m p (encode student_t (student_val s)).

Definition nest_at (m : mem) (p : Z) (n : nest_stu) : Prop :=
  p ≠ 0 ∧ typed nest_stu_t (nest_stu_val n) ∧ holds m p (encode nest_stu_t (nest_stu_val n)).

Example layout_student :
  sizeof student_t = 40 ∧
  omap (λ p, fst <$> locate student_t p) [[Fld "class"]; [Fld "grade"]; [Fld "array"]; [Fld "point"]] = [0; 4; 8; 32].
Proof. split; vm_compute; reflexivity. Qed.

Example layout_nest :
  sizeof nest_stu_t = 152 ∧
  omap (λ p, fst <$> locate nest_stu_t p)
    [[Fld "rank"]; [Fld "nest_stu"]; [Fld "strct_array"]; [Fld "strct_point"]; [Fld "strct_point_array"]]
    = [0; 8; 48; 128; 136].
Proof. split; vm_compute; reflexivity. Qed.

(** ** Layout and representation agree *)

Section induction.
Context (P : ctype → Prop) (Hchar : P TChar) (Hint : P TInt) (Hlong : P TLong) (Hptr : P TPtr)
  (Harray : ∀ t n, P t → P (TArray t n)) (Hstruct : ∀ fs, Forall (λ f : string * ctype, P f.2) fs → P (TStruct fs)).

Fixpoint ctype_rec_on (t : ctype) : P t :=
  match t with
  | TChar => Hchar | TInt => Hint | TLong => Hlong | TPtr => Hptr
  | TArray t' n => Harray t' n (ctype_rec_on t')
  | TStruct fs => Hstruct fs ((fix go fs : Forall (λ f : string * ctype, P f.2) fs :=
      match fs with [] => Forall_nil_2 _ | f :: fs' => Forall_cons_2 _ _ _ (ctype_rec_on f.2) (go fs') end) fs)
  end.
End induction.

Lemma alignof_pos t : 0 < alignof t.
Proof.
  induction t as [| | | |t n IH|fs _] using ctype_rec_on; cbn; try lia.
  induction fs as [|f fs IH]; cbn; lia.
Qed.

Lemma round_up_ge x a : 0 < a → x ≤ round_up x a.
Proof. intros H. unfold round_up. pose proof (Z.div_mod (x + a - 1) a). pose proof (Z.mod_pos_bound (x + a - 1) a). lia. Qed.

Lemma length_padding o a : 0 < a → Z.of_nat (length (padding o a)) = round_up o a - o.
Proof. intros H. unfold padding. rewrite length_replicate. pose proof (round_up_ge o a H). lia. Qed.

Lemma length_le_bytes n z : length (le_bytes n z) = n.
Proof. revert z. induction n as [|n IH]; intros z; cbn; [done|by rewrite IH]. Qed.

Lemma sizeof_nonneg t : 0 ≤ sizeof t.
Proof.
  induction t as [| | | |t n IH|fs IH] using ctype_rec_on; cbn; try lia.
  etransitivity; [|apply round_up_ge, (alignof_pos (TStruct fs))].
  assert (∀ o, 0 ≤ o → 0 ≤ foldl (λ o f, round_up o (alignof f.2) + sizeof f.2) o fs) as H; [|by apply H].
  induction IH as [|f fs Hf _ IH]; intros o Ho; cbn; [done|].
  apply IH. pose proof (round_up_ge o _ (alignof_pos f.2)). lia.
Qed.

Lemma length_fields fs o l :
  Forall (λ f : string * ctype, ∀ v, typed f.2 v → Z.of_nat (length (encode f.2 v)) = sizeof f.2) fs →
  typed_fields typed fs l →
  o + Z.of_nat (length (encode_fields encode o fs l)) = foldl (λ o f, round_up o (alignof f.2) + sizeof f.2) o fs.
Proof.
  intros Hfs. revert o l. induction Hfs as [|f fs Hf _ IH]; intros o [|v l] Hl; cbn in *; try done; [lia|].
  destruct Hl as [Hv Hl]. rewrite <- (IH _ l) by done. rewrite !length_app, !Nat2Z.inj_add, (length_padding _ _ (alignof_pos _)), Hf by done. lia.
Qed.

Lemma length_encode t v : typed t v → Z.of_nat (length (encode t v)) = sizeof t.
Proof.
  revert v. induction t as [| | | |t n IH|fs IH] using ctype_rec_on; intros [z|l] Hv; cbn [typed encode] in *; try done;
    try (by rewrite length_fmap, length_le_bytes).
  - destruct Hv as [<- Hl]. cbn [sizeof]. induction Hl as [|v l Hv _ IHl]; cbn; [done|].
    rewrite length_app. rewrite Nat2Z.inj_add, IH by done. cbn in IHl. lia.
  - pose proof (length_fields fs 0 l IH Hv) as H. rewrite Z.add_0_l in H.
    rewrite length_app, Nat2Z.inj_add, (length_padding _ _ (alignof_pos (TStruct fs))). cbn [sizeof]. rewrite H. lia.
Qed.

Lemma part_trans o o' l l' w : part o' l l' → part o l' w → part (o + o') l w.
Proof.
  intros (pre & post & -> & Hp) (pre' & post' & -> & Hp').
  exists (pre' ++ pre), (post ++ post'). rewrite length_app, <- !app_assoc. split; [done|lia].
Qed.

Lemma part_app_r o l w t : part o l w → part o l (w ++ t).
Proof. intros (pre & post & -> & Hp). exists pre, (post ++ t). by rewrite <- !app_assoc. Qed.

Lemma member_encode fs o l f o' t :
  typed_fields typed fs l → member o fs f = Some (o', t) →
  ∃ v, vmember fs l f = Some v ∧ typed t v ∧ part (o' - o) (encode t v) (encode_fields encode o fs l).
Proof.
  revert o l. induction fs as [|[g u] fs IH]; intros o [|v l] Hl Hm; cbn in *; try done.
  destruct Hl as [Hv Hl]. pose proof (length_padding o _ (alignof_pos u)) as Hp.
  case_bool_decide; simplify_eq.
  - exists v. split; [done|]. split; [done|]. eexists (padding o _), _. split; [reflexivity|lia].
  - destruct (IH _ l Hl Hm) as (v' & Hv' & Ht & Hpart). exists v'. split; [done|]. split; [done|].
    pose proof (length_encode u v Hv) as Hlen.
    replace (o' - o) with ((round_up o (alignof u) + sizeof u - o) + (o' - (round_up o (alignof u) + sizeof u))) by lia.
    eapply part_trans; [exact Hpart|]. exists (padding o (alignof u) ++ encode u v), [].
    rewrite app_nil_r, <- app_assoc, length_app. split; [done|lia].
Qed.

Lemma index_encode t n l i :
  length l = n → Forall (typed t) l → (i < n)%nat →
  ∃ v, l !! i = Some v ∧ typed t v ∧ part (Z.of_nat i * sizeof t) (encode t v) (l ≫= encode t).
Proof.
  intros <- Hl. revert i. induction Hl as [|v l Hv Hl IH]; intros [|i] Hi; cbn in Hi; try lia.
  - exists v. split; [done|]. split; [done|]. eexists [], _. split; [reflexivity|done].
  - destruct (IH i) as (v' & Hv' & Ht & Hp); [lia|]. exists v'. split; [done|]. split; [done|].
    pose proof (length_encode t v Hv).
    replace (Z.of_nat (S i) * sizeof t) with (sizeof t + Z.of_nat i * sizeof t) by lia.
    eapply part_trans; [exact Hp|]. exists (encode t v), []. by rewrite app_nil_r.
Qed.

Lemma select1_encode t v s o t' :
  typed t v → select1 t s = Some (o, t') →
  ∃ v', vselect1 t v s = Some v' ∧ typed t' v' ∧ part o (encode t' v') (encode t v).
Proof.
  destruct t as [| | | |u n|fs], s as [f|i], v as [z|l]; intros Hv Hs; cbn in Hv, Hs; try done.
  - case_bool_decide; simplify_eq. destruct Hv as [Hn Hl].
    destruct (index_encode t' n l i) as (v' & H1 & H2 & H3); eauto.
  - destruct (member_encode fs 0 l f o t') as (v' & H1 & H2 & H3); [done..|].
    exists v'. rewrite Z.sub_0_r in H3. split; [done|]. split; [done|]. cbn. by apply part_app_r.
Qed.

(** The layout is that of the representation: what a path designates is found
    at the path's offset. *)
Theorem locate_encode p : ∀ t v o t',
  typed t v → locate t p = Some (o, t') →
  ∃ v', vget t v p = Some v' ∧ typed t' v' ∧ part o (encode t' v') (encode t v).
Proof.
  induction p as [|s p IH]; intros t v o t' Hv Hl; cbn in Hl.
  - simplify_eq. exists v. split; [done|]. split; [done|]. exists [], []. by rewrite app_nil_r.
  - destruct (select1 t s) as [[o1 t1]|] eqn:Es; cbn in Hl; [|done].
    destruct (locate t1 p) as [[o2 t2]|] eqn:El; cbn in Hl; [|done]. simplify_eq.
    destruct (select1_encode t v s o1 t1) as (v1 & H1 & H2 & H3); [done..|].
    destruct (IH t1 v1 o2 t') as (v' & H4 & H5 & H6); [done..|].
    exists v'. cbn. rewrite H1. cbn. rewrite Es. cbn. split; [done|]. split; [done|]. by eapply part_trans.
Qed.

(** ** Reading what memory holds *)

Lemma holds_part m a o l w : holds m a w → part o l w → holds m (a + o) l.
Proof.
  intros Hw (pre & post & -> & <-) i c Hc.
  destruct (Hw (length pre + i)%nat c) as (b & Hb).
  - rewrite lookup_app_r by lia. replace (length pre + i - length pre)%nat with i by lia.
    rewrite lookup_app_l; [done|]. by eapply lookup_lt_Some.
  - exists b. by replace (a + Z.of_nat (length pre) + Z.of_nat i) with (a + Z.of_nat (length pre + i)) by lia.
Qed.

Lemma holds_cons m a c l : holds m a (c :: l) →
  (∃ b, m !! a = Some b ∧ 0 ≤ b < 256 ∧ ∀ x, c = Some x → b = x) ∧ holds m (a + 1) l.
Proof.
  intros H. split.
  - destruct (H 0%nat c eq_refl) as (b & Hb). exists b. by rewrite Z.add_0_r in Hb.
  - intros i d Hd. destruct (H (S i) d Hd) as (b & Hb). exists b. by replace (a + 1 + Z.of_nat i) with (a + Z.of_nat (S i)) by lia.
Qed.

Lemma read_bytes_holds l : ∀ m a, holds m a (Some <$> l) → read_bytes m a (length l) = Ok l.
Proof.
  induction l as [|x l IH]; intros m a H; [done|]. cbn in *.
  apply holds_cons in H as [(b & Hb & _ & Hx) H]. by rewrite Hb, (Hx x), IH.
Qed.

Lemma le_value_bytes n : ∀ z, le_value (le_bytes n z) = z mod 256 ^ Z.of_nat n.
Proof.
  induction n as [|n IH]; intros z; cbn [le_bytes]; [by rewrite Z.mod_1_r|].
  cbn. fold (le_value (le_bytes n (z / 256))). rewrite IH.
  rewrite Nat2Z.inj_succ, Z.pow_succ_r by lia. rewrite Z.rem_mul_r by lia. lia.
Qed.

Lemma signed_mod n z : (0 < n)%nat → - (256 ^ Z.of_nat n / 2) ≤ z < 256 ^ Z.of_nat n / 2 →
  signed n (z mod 256 ^ Z.of_nat n) = z.
Proof.
  intros Hn Hz. unfold signed. rewrite Zplus_mod_idemp_l.
  destruct n as [|n]; [lia|]. rewrite Nat2Z.inj_succ, Z.pow_succ_r in * by lia.
  pose proof (Z.pow_pos_nonneg 256 (Z.of_nat n)). generalize dependent (256 ^ Z.of_nat n). intros w Hz Hw.
  replace (256 * w / 2) with (128 * w) in *; [rewrite Z.mod_small by lia; lia|].
  replace (256 * w) with (128 * w * 2) by lia. by rewrite Z.div_mul.
Qed.

Lemma read_scalar_holds m a t z : scalar t = true → typed t (VNum z) → holds m a (encode t (VNum z)) → read_scalar m a t = Ok z.
Proof.
  intros Ht Hz Hm. set (n := Z.to_nat (sizeof t)).
  assert (read_bytes m a n = Ok (le_bytes n z)) as Hr.
  { rewrite <- (length_le_bytes n z) at 1. apply read_bytes_holds. by destruct t. }
  assert (read_scalar m a t = (l ← read_bytes m a n; Ok (if t is TPtr then le_value l else signed n (le_value l)))) as ->
    by (by destruct t).
  rewrite Hr, bind_ok, le_value_bytes. subst n. destruct t; try done; cbn [typed] in Hz;
    solve [rewrite signed_mod; [done|apply Nat.ltb_lt; vm_compute; reflexivity|exact Hz] | by rewrite Z.mod_small].
Qed.

(** [p->path] is the number that the path designates in the value at [p]. *)
Lemma arrow_holds m p t v path o t' z :
  holds m p (encode t v) → p ≠ 0 → typed t v →
  locate t path = Some (o, t') → scalar t' = true → vget t v path = Some (VNum z) → arrow m p t path = Ok z.
Proof.
  intros Hm Hp Hv Hl Ht Hg. unfold arrow. destruct (Z.eqb_spec p 0); [done|]. rewrite Hl.
  destruct (locate_encode path t v o t' Hv Hl) as (v' & H1 & H2 & H3). simplify_eq.
  apply read_scalar_holds; [done..|]. by eapply holds_part.
Qed.

Lemma arrow_null m t path : arrow m 0 t path = Err NullPointer.
Proof. done. Qed.

(** ** What test_func prints *)

Lemma student_grade m p s : student_at m p s → arrow m p student_t [Fld "grade"] = Ok (grade s).
Proof. intros (Hp & Ht & Hm). destruct s as [c g [[a0 a1] a2] q]. by eapply arrow_holds. Qed.

Ltac by_arrow := intros (Hp & Ht & Hm); eapply arrow_holds; [exact Hm|exact Hp|exact Ht|reflexivity..].

Lemma student_fields m p s : student_at m p s →
  arrow m p student_t [Fld "class"] = Ok (class s) ∧
  arrow m p student_t [Fld "array"; Idx 0] = Ok (array s).1.1 ∧
  arrow m p student_t [Fld "array"; Idx 1] = Ok (array s).1.2 ∧
  arrow m p student_t [Fld "point"] = Ok (point s).
Proof. destruct s as [c g [[a0 a1] a2] q]. intros H. repeat split; revert H; by_arrow. Qed.

Lemma nest_fields m p n : nest_at m p n →
  arrow m p nest_stu_t [Fld "rank"] = Ok (rank n) ∧
  arrow m p nest_stu_t [Fld "nest_stu"; Fld "grade"] = Ok (grade (nest n)) ∧
  arrow m p nest_stu_t [Fld "strct_array"; Idx 0; Fld "grade"] = Ok (grade (strct_array n).1) ∧
  arrow m p nest_stu_t [Fld "strct_array"; Idx 1; Fld "grade"] = Ok (grade (strct_array n).2) ∧
  arrow m p nest_stu_t [Fld "strct_point"] = Ok (strct_point n) ∧
  arrow m p nest_stu_t [Fld "strct_point_array"; Idx 0] = Ok (strct_point_array n).1 ∧
  arrow m p nest_stu_t [Fld "strct_point_array"; Idx 1] = Ok (strct_point_array n).2.
Proof.
  destruct n as [r [c g [[a0 a1] a2] q] [[c1 g1 [[x0 x1] x2] q1] [c2 g2 [[y0 y1] y2] q2]] sp [p0 p1]].
  intros H. repeat split; revert H; by_arrow.
Qed.

Lemma read_bytes_mapped n : ∀ m a, (∀ i, (i < n)%nat → is_Some (m !! (a + Z.of_nat i))) →
  ∃ l, read_bytes m a n = Ok l ∧ length l = n ∧ ∀ i, (i < n)%nat → m !! (a + Z.of_nat i) = l !! i.
Proof.
  induction n as [|n IH]; intros m a H; [exists []; split_and!; [done..|lia]|].
  destruct (H 0%nat) as [b Hb]; [lia|]. rewrite Z.add_0_r in Hb.
  destruct (IH m (a + 1)) as (l & Hl & Hlen & Hget).
  { intros i Hi. replace (a + 1 + Z.of_nat i) with (a + Z.of_nat (S i)) by lia. apply H. lia. }
  exists (b :: l). cbn. rewrite Hb, Hl. split; [done|]. split; [by rewrite Hlen|].
  intros [|i] Hi; cbn; [by rewrite Z.add_0_r|]. rewrite <- Hget by lia. f_equal. lia.
Qed.

Lemma write_bytes_mapped l : ∀ m a, (∀ i, (i < length l)%nat → is_Some (m !! (a + Z.of_nat i))) →
  ∃ m', write_bytes m a l = Ok m' ∧ (∀ i, (i < length l)%nat → m' !! (a + Z.of_nat i) = l !! i) ∧
    (∀ x, x < a ∨ a + Z.of_nat (length l) ≤ x → m' !! x = m !! x).
Proof.
  induction l as [|b l IH]; intros m a H; cbn [write_bytes length]; [exists m; split_and!; [done|cbn; lia|done]|].
  destruct (H 0%nat) as [c Hc]; [cbn; lia|]. rewrite Z.add_0_r in Hc. rewrite Hc.
  destruct (IH (<[a := b]> m) (a + 1)) as (m' & Hm & Hin & Hout).
  { intros i Hi. rewrite lookup_insert_ne by lia. replace (a + 1 + Z.of_nat i) with (a + Z.of_nat (S i)) by lia. apply H. cbn. lia. }
  exists m'. split; [done|]. split.
  - intros [|i] Hi; cbn.
    + rewrite Z.add_0_r, Hout by lia. apply lookup_insert_eq.
    + rewrite <- Hin by lia. f_equal. lia.
  - intros x Hx. rewrite Hout by lia. by rewrite lookup_insert_ne by lia.
Qed.

Lemma memcpy_mapped m dst src n :
  dst + Z.of_nat n ≤ src ∨ src + Z.of_nat n ≤ dst →
  (∀ i, (i < n)%nat → is_Some (m !! (src + Z.of_nat i))) → (∀ i, (i < n)%nat → is_Some (m !! (dst + Z.of_nat i))) →
  ∃ m', memcpy m dst src n = Ok m' ∧
    (∀ i, (i < n)%nat → m' !! (dst + Z.of_nat i) = m !! (src + Z.of_nat i)) ∧
    (∀ x, x < dst ∨ dst + Z.of_nat n ≤ x → m' !! x = m !! x).
Proof.
  intros Hapart Hs Hd. unfold memcpy.
  destruct (Z.ltb_spec dst (src + Z.of_nat n)), (Z.ltb_spec src (dst + Z.of_nat n)); try lia; cbn [andb]; destruct (read_bytes_mapped n m src Hs) as (l & -> & <- & Hl); rewrite bind_ok;
    destruct (write_bytes_mapped l m dst Hd) as (m' & -> & Hin & Hout); exists m'; (split; [done|]);
    (split; [|done]); intros i Hi; by rewrite Hin, Hl.
Qed.

(** The first eight bytes of a student: the class, three bytes of padding and
    the grade. *)
Lemma student_head s : part 0
  ([Some (class s mod 256); None; None; None] ++ (Some <$> le_bytes 4 (grade s))) (encode student_t (student_val s)).
Proof. destruct s as [c g [[a0 a1] a2] q]. eexists [], _. split; reflexivity. Qed.

Lemma holds_mapped m a l i : holds m a l → (i < length l)%nat → is_Some (m !! (a + Z.of_nat i)).
Proof. intros H Hi. apply lookup_lt_is_Some_2 in Hi as [c Hc]. destruct (H i c Hc) as (b & Hb & _). by exists b. Qed.

Lemma wrap_i32_id z : - 2 ^ 31 ≤ z < 2 ^ 31 → wrap_i32 z = z.
Proof. intros H. unfold wrap_i32. rewrite Z.mod_small; lia. Qed.

Lemma grade_range m p s : student_at m p s → wrap_i32 (grade s) = grade s.
Proof. destruct s as [c g [[a0 a1] a2] q]. intros (_ & (_ & Hg & _) & _). by apply wrap_i32_id. Qed.

Lemma nest_ranges m p n : nest_at m p n →
  wrap_i32 (rank n) = rank n ∧ wrap_i32 (grade (nest n)) = grade (nest n) ∧
  wrap_i32 (grade (strct_array n).1) = grade (strct_array n).1 ∧ wrap_i32 (grade (strct_array n).2) = grade (strct_array n).2.
Proof.
  destruct n as [r [c g [[a0 a1] a2] q] [[c1 g1 [[x0 x1] x2] q1] [c2 g2 [[y0 y1] y2] q2]] sp [p0 p1]].
  cbn. intros (_ & (Hr & (_ & Hg & _) & [_ Harr] & _) & _). rewrite !Forall_cons in Harr.
  destruct Harr as ((_ & Hg1 & _) & (_ & Hg2 & _) & _). cbn in *.
  split_and!; apply wrap_i32_id; lia.
Qed.

Section test_func.
Context (m : mem) (char_arg int_arg : Z) (float_arg : spec_float) (stu_buf nest_stu_buf out_buf : Z).
Context (s sp q0 q1 : student) (pv : Z) (n : nest_stu).
Hypothesis (Hs : student_at m stu_buf s) (Hn : nest_at m nest_stu_buf n).
Hypothesis (Hpoint : point s ≠ 0) (Hpv : typed TInt (VNum pv)) (Hpm : holds m (point s) (encode TInt (VNum pv))).
Hypothesis (Hsp : student_at m (strct_point n) sp) (Hq0 : student_at m (strct_point_array n).1 q0)
  (Hq1 : student_at m (strct_point_array n).2 q1).
Hypothesis (Hout : ∀ i, (i < 8)%nat → is_Some (m !! (out_buf + Z.of_nat i))).
Hypothesis (Hapart : out_buf + 8 ≤ stu_buf ∨ stu_buf + 8 ≤ out_buf).
Hypothesis (Hint : - 2 ^ 31 ≤ int_arg < 2 ^ 31).

Lemma copy_head : ∃ m', memcpy m out_buf stu_buf 8 = Ok m' ∧
  holds m' out_buf ([Some (class s mod 256); None; None; None] ++ (Some <$> le_bytes 4 (grade s))) ∧
  (∀ x, x < out_buf ∨ out_buf + 8 ≤ x → m' !! x = m !! x).
Proof.
  destruct Hs as (Hp & Ht & Hm). pose proof (holds_part _ _ _ _ _ Hm (student_head s)) as Hh. rewrite Z.add_0_r in Hh.
  destruct (memcpy_mapped m out_buf stu_buf 8) as (m' & E & Hin & Hsame); [exact Hapart| | |].
  - intros i Hi. by eapply holds_mapped.
  - exact Hout.
  - exists m'. split; [done|]. split; [|exact Hsame]. intros i c Hc.
    rewrite Hin by (by eapply lookup_lt_Some in Hc). by apply Hh.
Qed.

(** When the buffers hold a student and a nest_stu whose pointers point to an
    int and to students, test_func returns 1 and prints the members; of the two
    longs it prints the lower halves. The output buffer, when it is apart from
    the student's head, holds the class, three bytes of padding and the grade,
    and no other byte of memory has changed. *)
Theorem test_func_correct : ∃ m',
  test_func m char_arg int_arg float_arg stu_buf nest_stu_buf out_buf = Ok (1,
    [PutStr "char arg: "; PutChars [wrap_u8 char_arg]; PutStr "\nint arg: "; PutInt int_arg;
     PutStr "\nfloat arg: "; PutChars (fmt_f float_arg);
     PutStr "\nstruct class: "; PutChars [wrap_u8 (class s)]; PutStr "\nstruct grade: "; PutInt (grade s);
     PutStr "\nstruct array[0]: "; PutInt (wrap_i32 (array s).1.1); PutStr " array[1]: "; PutInt (wrap_i32 (array s).1.2);
     PutStr "\nstruct point: "; PutInt pv;
     PutStr "\nnest struct rank: "; PutInt (rank n); PutStr "\nnest struct stu grade: "; PutInt (grade (nest n));
     PutStr "\nnest struct array[0] grade: "; PutInt (grade (strct_array n).1);
     PutStr "\nnest struct array[1] grade: "; PutInt (grade (strct_array n).2);
     PutStr "\nnest struct point grade: "; PutInt (grade sp);
     PutStr "\nnest struct point array[0] grade: "; PutInt (grade q0);
     PutStr "\nnest struct point array[1] grade: "; PutInt (grade q1); PutStr "\n"], m') ∧
  holds m' out_buf ([Some (class s mod 256); None; None; None] ++ (Some <$> le_bytes 4 (grade s))) ∧
  (∀ x, x < out_buf ∨ out_buf + 8 ≤ x → m' !! x = m !! x).
Proof.
  destruct copy_head as (m' & Hcopy & Hm'). exists m'. split; [|exact Hm'].
  destruct (student_fields m stu_buf s Hs) as (E1 & E2 & E3 & E4).
  destruct (nest_fields m nest_stu_buf n Hn) as (F1 & F2 & F3 & F4 & F5 & F6 & F7).
  destruct (nest_ranges m nest_stu_buf n Hn) as (R1 & R2 & R3 & R4).
  assert (arrow m (point s) TInt [] = Ok pv) as Ep by (by eapply arrow_holds).
  assert (wrap_i32 pv = pv) as Rp by (by apply wrap_i32_id).
  unfold test_func, print_d. cbv zeta.
  rewrite E1, bind_ok, (student_grade _ _ _ Hs), bind_ok, E2, bind_ok, E3, bind_ok, E4, bind_ok, Ep, bind_ok,
    F1, bind_ok, F2, bind_ok, F3, bind_ok, F4, bind_ok, F5, bind_ok, (student_grade _ _ _ Hsp), bind_ok,
    F6, bind_ok, (student_grade _ _ _ Hq0), bind_ok, F7, bind_ok, (student_grade _ _ _ Hq1), bind_ok, Hcopy, bind_ok.
  by rewrite (wrap_i32_id int_arg), Rp, R1, R2, R3, R4, (grade_range _ _ _ Hs), (grade_range _ _ _ Hsp), (grade_range _ _ _ Hq0),
    (grade_range _ _ _ Hq1).
Qed.

(** A NULL member is dereferenced without a check. *)
Theorem test_func_null : strct_point n = 0 →
  test_func m char_arg int_arg float_arg stu_buf nest_stu_buf out_buf = Err NullPointer.
Proof.
  intros H0. destruct (student_fields m stu_buf s Hs) as (E1 & E2 & E3 & E4).
  destruct (nest_fields m nest_stu_buf n Hn) as (F1 & F2 & F3 & F4 & F5 & _).
  assert (arrow m (point s) TInt [] = Ok pv) as Ep by (by eapply arrow_holds).
  unfold test_func. cbv zeta.
  rewrite E1, bind_ok, (student_grade _ _ _ Hs), bind_ok, E2, bind_ok, E3, bind_ok, E4, bind_ok, Ep, bind_ok,
    F1, bind_ok, F2, bind_ok, F3, bind_ok, F4, bind_ok, F5, bind_ok, H0. done.
Qed.
End test_func.

(** A decision procedure for [holds]. *)
Definition holdsb (m : mem) (a : Z) (l : list (option Z)) : bool :=
  forallb (λ p : nat * option Z, match m !! (a + Z.of_nat p.1), p.2 with
    | Some b, None => (0 <=? b) && (b <? 256)
    | Some b, Some x => (0 <=? b) && (b <? 256) && (b =? x)
    | None, _ => false
    end) (zip (seq 0 (length l)) l).

Lemma holdsb_ok m a l : holdsb m a l = true → holds m a l.
Proof.
  intros H i c Hc. pose proof (lookup_lt_Some _ _ _ Hc) as Hi.
  assert ((i, c) ∈ zip (seq 0 (length l)) l) as Hin.
  { apply list_elem_of_lookup. exists i. rewrite lookup_zip_with, lookup_seq_lt by done. cbn. by rewrite Hc. }
  unfold holdsb in H. rewrite forallb_forall in H. apply list_elem_of_In, H in Hin. cbn in Hin.
  destruct (m !! _) as [b|]; [|done]. exists b. split; [done|]. destruct c as [x|].
  - apply andb_prop in Hin as [[? ?]%andb_prop Hx]. apply Z.eqb_eq in Hx. split; [lia|]. by intros ? [= <-].
  - apply andb_prop in Hin as [? ?]. split; [lia|done].
Qed.

(** The bytes of a value with [0] for padding, at an address. *)
Definition place_value (m : mem) (a : Z) (l : list (option Z)) : mem :=
  list_to_map (zip ((λ i, a + Z.of_nat i) <$> seq 0 (length l)) (default 0 <$> l)) ∪ m.

(** Two students, one nest_stu that points to them, an int and an output
    buffer of eight bytes. *)
Definition ann : student := Student 65 90 (7, 2 ^ 32 + 5, -1) 5000.
Definition bob : student := Student 66 (-3) (0, 0, 0) 5000.
Definition pair : nest_stu := NestStu 2 bob (ann, bob) 1000 (1000, 2000).
Definition sample : mem :=
  place_value (place_value (place_value (place_value (place_value ∅ 1000 (encode student_t (student_val ann)))
    2000 (encode student_t (student_val bob))) 3000 (encode nest_stu_t (nest_stu_val pair)))
    5000 (encode TInt (VNum 42))) 6000 (replicate 8 None).

Lemma test_func_witness : ∃ out m',
  test_func sample 120 1 (S754_finite false 3 (-1)) 1000 3000 6000 = Ok (1, out, m') ∧ m' !! 6000 = Some 65 ∧ m' !! 6004 = Some 90.
Proof.
  assert (∀ p s, p ≠ 0 → typed student_t (student_val s) → holdsb sample p (encode student_t (student_val s)) = true → student_at sample p s) as Hat.
  { intros p s Hp Ht Hh. split; [done|]. split; [done|]. by apply holdsb_ok. }
  destruct (test_func_correct sample 120 1 (S754_finite false 3 (-1)) 1000 3000 6000 ann ann ann bob 42 pair) as (m' & E & Hh & _).
  - apply Hat; [done| |by vm_compute]. cbn. repeat split; try lia. repeat constructor; cbn; lia.
  - split; [done|]. split; [|apply holdsb_ok; by vm_compute]. cbn. repeat split; try lia; repeat constructor; cbn; repeat split; try lia; repeat constructor; cbn; lia.
  - done.
  - cbn. lia.
  - apply holdsb_ok. by vm_compute.
  - apply Hat; [done| |by vm_compute]. cbn. repeat split; try lia. repeat constructor; cbn; lia.
  - apply Hat; [done| |by vm_compute]. cbn. repeat split; try lia. repeat constructor; cbn; lia.
  - apply Hat; [done| |by vm_compute]. cbn. repeat split; try lia. repeat constructor; cbn; lia.
  - intros i Hi. assert (holds sample 6000 (replicate 8 None)) as H by (apply holdsb_ok; by vm_compute).
    eapply holds_mapped; [exact H|done].
  - lia.
  - lia.
  - eexists _, m'. split; [exact E|]. destruct (Hh 0%nat _ eq_refl) as (b & Hb & _ & Hx). destruct (Hh 4%nat _ eq_refl) as (b' & Hb' & _ & Hx').
    rewrite (Hx _ eq_refl) in Hb. rewrite (Hx' _ eq_refl) in Hb'. split; [exact Hb|exact Hb'].
Defined.
