(* ===== verification/Exercises.v ===== *)
(** Small programs that each try one function of the library or the system:
    [src/cpp/test_atof.c], [endian_test.c], [stdin_test.c], [forkTest.c],
    [returnline.c] and [gtk/gtk_combo_box.c]. *)
From stdpp Require Import gmap.
From Stdlib Require Import SpecFloat.
From S2P Require Import Prelude CString Printf Posix TcpConcurrent Sockets StructCode.

(** ** test_atof.c *)

Definition atof_main : list output :=
  let y := codes "40E743CD1BF68000" in
  let d := atof y in
  let x := codes "0080F61BCD43E740" in
  let e := atof x in
  let m := codes "22.234" in
  [PutStr "y="; PutChars y; PutStr "\nd="; PutChars (fmt_f d); PutStr "\nx="; PutChars x;
   PutStr "\ne="; PutChars (fmt_f e); PutStr "\n"; PutChars (fmt_f (atof m)); PutStr "\n"].

(** ** endian_test.c *)

(** The bytes of [a] at the address [p], as [char]s, in a little-endian memory;
    [show] is [%p]. *)
Definition endian_main (show : Z → list Z) (p : Z) : res (list output) :=
  let a := 16909060 (* 0x01020304 *) in
  let m : mem := list_to_map (zip [p; p + 1; p + 2; p + 3] (le_bytes 4 a)) in
  let line (i : Z) (text : string) : res (list output) :=
    c ← read_scalar m (p + i) TChar;
    Ok [PutStr text; PutInt c; PutStr ", addr="; PutChars (show (p + i)); PutStr "\n"] in
  l0 ← line 0 "byte[0]="; l1 ← line 1 "byte[1]="; l2 ← line 2 "byte[2]="; l3 ← line 3 "byte[3]=";
  Ok (l0 ++ l1 ++ l2 ++ l3).

(** ** stdin_test.c *)

(** The array [a] is not initialised, and at the end of the input [fgets]
    leaves it so. *)
Definition stdin_main (input : list Z) : res (list output) :=
  let a : list cell := replicate 1000 None in
  a ← match fgets 100 input with
      | Some (l, _) => fill_at a 0 (l ++ [0])
      | None => Ok a
      end;
  l ← cell_chars a;
  Ok [PutInt (Z.of_nat (length l)); PutStr ", "; PutChars l].

(** ** forkTest.c *)

(** The process to which [fork] returned [fpid] and whose number is [pid]: what
    it prints before the value of the pointer [p], which was never set. *)
Definition fork_process (fpid pid : Z) : list output * res Z :=
  let count := 0 in
  let '(out, count) :=
    if fpid <? 0 then ([PutStr "error in fork!"], count)
    else if fpid =? 0 then ([PutStr "i am the child process, my process id is "; PutInt pid; PutStr "\r\n/n"], count + 1)
    else ([PutStr "i am the parent process, my process id is "; PutInt pid; PutStr "\r\n/n"], count + 1) in
  (out ++ [PutStr "result is : "; PutInt count; PutStr "/n"], Err Uninitialised).

(** The processes after [fork], by number. *)
Definition fork_main (fork pid : Z) : list (Z * (list output * res Z)) :=
  if fork <? 0 then [(pid, fork_process fork pid)]
  else [(pid, fork_process fork pid); (fork, fork_process 0 fork)].

(** ** returnline.c *)

(** The first [n] turns of a loop that does not end. *)
Fixpoint returnline_main (n : nat) : list output :=
  match n with
  | O => []
  | S n' => [PutStr "\rthis is a test"; PutStr "\rtest a is this"] ++ returnline_main n'
  end.

(** ** gtk_combo_box.c *)

Definition combo_main : list output := [PutStr "nothing here to display\n"].

(** ** What they print *)

(** Both hexadecimal texts are read as decimals: the first as 40 times 10^743,
    which is beyond the doubles, the second as 80. *)
Theorem atof_prints :
  atof_main = [PutStr "y="; PutChars (codes "40E743CD1BF68000"); PutStr "\nd="; PutChars (codes "inf");
    PutStr "\nx="; PutChars (codes "0080F61BCD43E740"); PutStr "\ne="; PutChars (codes "80.000000"); PutStr "\n";
    PutChars (codes "22.234000"); PutStr "\n"].
Proof. vm_compute. reflexivity. Qed.

Lemma endian_memory p l : holds (list_to_map (zip ((λ i, p + Z.of_nat i) <$> seq 0 (length l)) l) : mem) p
  (Some <$> l) ↔ Forall (λ b, 0 ≤ b < 256) l.
Proof.
  set (m := list_to_map _ : mem).
  assert (∀ i b, l !! i = Some b → m !! (p + Z.of_nat i) = Some b) as Hm.
  { intros i b Hb. apply elem_of_list_to_map_1.
    - rewrite fst_zip by (by rewrite length_fmap, length_seq). apply NoDup_fmap_2; [|apply NoDup_seq]. intros x y Hxy. lia.
    - apply list_elem_of_lookup. exists i. rewrite lookup_zip_with, list_lookup_fmap.
      rewrite lookup_seq_lt by (by eapply lookup_lt_Some). cbn. by rewrite Hb. }
  split.
  - intros H. apply Forall_lookup. intros i b Hb. destruct (H i (Some b)) as (c & Hc & Hr & _); [by rewrite list_lookup_fmap, Hb|].
    rewrite (Hm _ _ Hb) in Hc. by injection Hc as <-.
  - intros H i c Hc. rewrite list_lookup_fmap in Hc. destruct (l !! i) as [b|] eqn:Hb; [|done]. injection Hc as <-.
    exists b. split; [by apply Hm|]. split; [by eapply (Forall_lookup_1 (λ b, 0 ≤ b < 256))|]. by intros ? [= <-].
Qed.

(** On this platform the low byte comes first. *)
Theorem endian_prints show p :
  endian_main show p = Ok
    [PutStr "byte[0]="; PutInt 4; PutStr ", addr="; PutChars (show (p + 0)); PutStr "\n";
     PutStr "byte[1]="; PutInt 3; PutStr ", addr="; PutChars (show (p + 1)); PutStr "\n";
     PutStr "byte[2]="; PutInt 2; PutStr ", addr="; PutChars (show (p + 2)); PutStr "\n";
     PutStr "byte[3]="; PutInt 1; PutStr ", addr="; PutChars (show (p + 3)); PutStr "\n"].
Proof.
  unfold endian_main. set (m := list_to_map _ : mem).
  assert (holds m p (Some <$> [4; 3; 2; 1])) as H.
  { subst m. replace [p; p + 1; p + 2; p + 3] with ((λ i, p + Z.of_nat i) <$> seq 0 4) by (cbn; by rewrite Z.add_0_r).
    apply (endian_memory p [4; 3; 2; 1]). repeat (constructor; [lia|]). constructor. }
  assert (∀ i z, [4; 3; 2; 1] !! i = Some z → - 2 ^ 7 ≤ z < 2 ^ 7 → read_scalar m (p + Z.of_nat i) TChar = Ok z) as Hr.
  { intros i z Hi Hz. apply read_scalar_holds; [done..|]. intros [|j] c Hc; [|done]. cbn in Hc. injection Hc as <-.
    destruct (H i (Some z)) as (b & Hb & Hb' & Hx); [by rewrite list_lookup_fmap, Hi|].
    exists b. rewrite Z.add_0_r. split; [done|]. split; [done|]. intros x [= <-]. rewrite (Hx z eq_refl) in *. by rewrite Z.mod_small. }
  pose proof (Hr 0%nat 4) as H0. pose proof (Hr 1%nat 3) as H1. pose proof (Hr 2%nat 2) as H2. pose proof (Hr 3%nat 1) as H3.
  change (Z.of_nat 0) with 0 in H0. change (Z.of_nat 1) with 1 in H1. change (Z.of_nat 2) with 2 in H2. change (Z.of_nat 3) with 3 in H3.
  by rewrite H0, H1, H2, H3.
Qed.

Lemma line_of_input_prefix n : ∀ input, nonul input →
  (length (line_of_input n input).1 ≤ n)%nat ∧ nonul (line_of_input n input).1 ∧ (line_of_input n input).1 `prefix_of` input.
Proof.
  induction n as [|n IH]; intros [|c input] H; cbn; try (split_and!; [lia|constructor|apply prefix_nil]).
  apply Forall_cons in H as [Hc H]. destruct (c =? 10).
  - cbn. split_and!; [lia|by repeat constructor|]. by exists input.
  - destruct (IH input H) as (H1 & H2 & H3). destruct (line_of_input n input) as [l r]. cbn in *.
    split_and!; [lia|by constructor|by apply prefix_cons].
Qed.

(** What was typed, up to 99 characters of the first line, is printed after
    its length; at the end of the input the array is read uninitialised. *)
Theorem stdin_prints input : nonul input →
  stdin_main input = match input with
    | [] => Err Uninitialised
    | _ => let l := (line_of_input 99 input).1 in Ok [PutInt (Z.of_nat (length l)); PutStr ", "; PutChars l]
    end.
Proof.
  intros Hn. destruct input as [|c input]; [reflexivity|].
  destruct (line_of_input_prefix 99 (c :: input) Hn) as (H1 & H2 & _).
  unfold stdin_main, fgets. change (Z.to_nat (100 - 1)) with 99%nat.
  destruct (line_of_input 99 (c :: input)) as [l r]. cbn [fst] in *.
  rewrite fill_at_0 by (rewrite length_app, length_replicate; cbn [length]; lia).
  rewrite bind_ok, cell_chars_str by done. by rewrite bind_ok.
Qed.

(** Each process counts for itself, so that both print 1, and each ends by
    printing through a pointer that was never set. *)
Theorem fork_counts fork pid :
  Forall (λ p : Z * (list output * res Z), p.2.2 = Err Uninitialised ∧
    ∃ text, p.2.1 = text ++ [PutStr "result is : "; PutInt (if fork <? 0 then 0 else 1); PutStr "/n"]) (fork_main fork pid) ∧
  length (fork_main fork pid) = if fork <? 0 then 1%nat else 2%nat.
Proof.
  unfold fork_main, fork_process. destruct (fork <? 0) eqn:E; cbn [Z.ltb Z.eqb].
  - split; [|done]. repeat constructor. by eexists [_].
  - rewrite ?E. split; [|done]. constructor; [|constructor; [|constructor]]; cbn.
    + split; [by destruct (fork =? 0)|]. destruct (fork =? 0); by eexists [_; _; _].
    + split; [done|]. by eexists [_; _; _].
Qed.
