(* ===== verification/OpenSsl.v ===== *)
(** [src/cpp/algorithm/rsa_test.c]: encryption with a public key of a file, and
    [decrypt], through OpenSSL. The library and the files are parameters; a
    pointer is an address, 0 being NULL. *)
From S2P Require Import Prelude CString Rsa.

(** What main and decrypt are given by their calls. *)
Record world := World {
  fopen_pub : Z;                 (* [fopen("public.pem", "r")] *)
  fopen_priv : Z;                (* [fopen("private.pem", "r")] *)
  fopen_again : Z;               (* the same in [decrypt] *)
  PEM_read_PUBKEY : Z → Z;       (* the key read from a stream *)
  PEM_read_PrivateKey : Z → Z;
  encrypt_size : Z;              (* [*outlen] after the call without a buffer *)
  malloc : Z → Z;
  encrypt_into : list Z → list Z * Z   (* the buffer and [*outlen] after the call with it *)
}.

(** What is printed, and the result. *)
Abbreviation outcome := (list output * res Z)%type.

(** A dereference of a pointer, an argument of [fclose] or of [bzero]. *)
Definition non_null (p : Z) : res Z := if p =? 0 then Err NullPointer else Ok p.

(** [decrypt]: [pkey] stays NULL, and [PEM_read] stores through it; reading
    nothing, it leaves it to [*pkey] in the next call. *)
Definition ossl_decrypt (w : world) : res Z :=
  let pkey := 0 in
  fp ← non_null (fopen_again w);
  _ ← non_null pkey;
  Ok 0.

(** The printed digits of the encrypted bytes: [len] of them are read from the
    buffer. *)
Definition encrypt_hex (buffer : list Z) (len : Z) : res (list output) :=
  l ← for_range 0 len (λ i l, c ← load buffer i; Ok (l ++ [PutChars (hex_chars 97 2 c)])) [];
  Ok (l ++ [PutStr "\n"]).

(** What follows [end]: the streams are closed without a test. *)
Definition cleanup (w : world) (out : list output) : outcome :=
  (out, _ ← non_null (fopen_pub w); _ ← non_null (fopen_priv w); Ok 0).

Definition dt : list Z := codes "Hello World".

Definition ossl_main (w : world) : outcome :=
  let pub_key := PEM_read_PUBKEY w (fopen_pub w) in
  if pub_key =? 0 then cleanup w [PutStr "公钥读取失败\n"]
  else
    let priv_key := PEM_read_PrivateKey w (fopen_priv w) in
    if priv_key =? 0 then cleanup w [PutStr "私钥读取失败\n"]
    else
      let out := [PutStr "pln_txt, "; PutChars dt; PutStr "\n"] in
      let len := encrypt_size w in
      let buffer := malloc w len in
      if (buffer =? 0) && (0 <? len) then (out, Err NullPointer)
      else
        let '(bytes, len) := encrypt_into w (replicate (Z.to_nat len) 0) in
        match encrypt_hex bytes len with
        | Err e => (out, Err e)
        | Ok hex =>
            let out := out ++ [PutStr "encrypt_hex: "] ++ hex in
            match ossl_decrypt w with
            | Err e => (out, Err e)
            | Ok _ => cleanup w out
            end
        end.

(** ** The outcomes of main *)

Lemma encrypt_hex_ok bytes len : 0 ≤ len ≤ Z.of_nat (length bytes) →
  encrypt_hex bytes len = Ok (((λ c, PutChars (hex_chars 97 2 c)) <$> take (Z.to_nat len) bytes) ++ [PutStr "\n"]).
Proof.
  intros Hlen. unfold encrypt_hex.
  destruct (for_range_inv (λ i l, l = (λ c, PutChars (hex_chars 97 2 c)) <$> take (Z.to_nat i) bytes)
    (λ i l, c ← load bytes i; Ok (l ++ [PutChars (hex_chars 97 2 c)])) 0 len []) as (l & -> & ->); [lia|done| |done].
  intros i l Hi ->. destruct (lookup_lt_Z bytes i) as [c Hc]; [lia|].
  rewrite (load_ok _ _ c) by (done || lia). rewrite bind_ok. eexists. split; [done|].
  replace (Z.to_nat (i + 1)) with (S (Z.to_nat i)) by lia. by rewrite (take_S_r _ _ c), fmap_app.
Qed.

(** The program can only return when a key cannot be read while both files are
    open; with both keys, [decrypt] ends it after the encrypted bytes have been
    printed, because [pkey] is NULL. *)
Theorem ossl_never_decrypts w :
  0 ≤ (encrypt_into w (replicate (Z.to_nat (encrypt_size w)) 0)).2
    ≤ Z.of_nat (length (encrypt_into w (replicate (Z.to_nat (encrypt_size w)) 0)).1) →
  (ossl_main w).2 =
    (if bool_decide ((PEM_read_PUBKEY w (fopen_pub w) = 0 ∨ PEM_read_PrivateKey w (fopen_priv w) = 0) ∧
        fopen_pub w ≠ 0 ∧ fopen_priv w ≠ 0) then Ok 0 else Err NullPointer) ∧
  (PEM_read_PUBKEY w (fopen_pub w) ≠ 0 → PEM_read_PrivateKey w (fopen_priv w) ≠ 0 →
   malloc w (encrypt_size w) ≠ 0 →
   let '(bytes, len) := encrypt_into w (replicate (Z.to_nat (encrypt_size w)) 0) in
   (ossl_main w).1 = [PutStr "pln_txt, "; PutChars dt; PutStr "\n"; PutStr "encrypt_hex: "] ++
     ((λ c, PutChars (hex_chars 97 2 c)) <$> take (Z.to_nat len) bytes) ++ [PutStr "\n"]).
Proof.
  assert (∀ out, (cleanup w out).2 = if bool_decide (fopen_pub w ≠ 0 ∧ fopen_priv w ≠ 0) then Ok 0 else Err NullPointer) as Hclean.
  { intros out. unfold cleanup, non_null. cbn. destruct (Z.eqb_spec (fopen_pub w) 0), (Z.eqb_spec (fopen_priv w) 0);
      case_bool_decide; cbn; tauto. }
  assert (ossl_decrypt w = Err NullPointer) as Hd by (unfold ossl_decrypt, non_null; destruct (fopen_again w =? 0); reflexivity).
  intros Hlen. unfold ossl_main. rewrite Hd.
  destruct (encrypt_into w _) as [bytes len]. rewrite (encrypt_hex_ok bytes len Hlen).
  destruct (Z.eqb_spec (PEM_read_PUBKEY w (fopen_pub w)) 0) as [E1|E1]; [|destruct (Z.eqb_spec (PEM_read_PrivateKey w (fopen_priv w)) 0) as [E2|E2]].
  1,2: split; [|done]; rewrite Hclean; erewrite bool_decide_ext; [reflexivity|tauto].
  split.
  - rewrite bool_decide_eq_false_2 by (intros [[?|?] _]; contradiction). by destruct (_ && _).
  - intros _ _ Hb. by rewrite (proj2 (Z.eqb_neq _ 0) Hb).
Qed.
